(* ===== verification/_CoqProject ===== *)
-Q . S2P
Prelude.v
GoLib.v
Types.v
World.v
Sys.v
Envs.v
Crash.v
DiskUtil.v
DiskText.v
ByID.v
LinkCache.v
Common.v
Controller.v
Symlinks.v
DeviceLink.v
Provisioner.v
LinkSchema.v
Matcher.v
Metrics.v
LvSet.v
Lv.v
Recovery.v
Discovery.v
Programs.v
Exporter.v
Tls.v
NodeDaemon.v
LvSetCtl.v
LvCtl.v
DiscoveryCtl.v
Store.v
StoreNodes.v
StoreEnv.v
Owners.v
NodeSteps.v
OperatorSteps.v
OtherSteps.v
Watches.v
Startup.v
Progress.v
Cluster.v
Config.v
