(* ===== verification/Prelude.v ===== *)
(** * Local Storage Operator: a verification library

    The Local Storage Operator gives Kubernetes users volumes on the disks of their
    nodes.  It is four programs that share a library and talk to each other only
    through objects of the API server and, on a node, through the file tree:

    - the operator (src/cmd/local-storage-operator) runs one controller per custom
      resource and the daemon controller, which turns all LocalVolumes and
      LocalVolumeSets of a namespace into one ConfigMap and one daemonset;
    - the diskmaker manager (src/cmd/diskmaker-manager) runs on every selected node,
      finds the devices that a LocalVolume names or a LocalVolumeSet matches, makes a
      symlink to each under /mnt/local-storage/<class>, and a volume (PersistentVolume)
      and a LocalVolumeDeviceLink for it;
    - the discovery daemon reports the devices of a node in a result object;
    - all of them export metrics.

    The library models their code as executable functions on an explicit world and
    proves what the code promises: no device is provisioned twice or wiped unasked, an
    object's finalizer and storage class outlive its volumes, a kill at any system
    call leaves the node in a state the next run repairs, status is true when it is
    written and not rewritten for ever, loops end.

    ** How the code is modelled

    An operation of the code that reads or writes anything is a function of [M], a
    state monad over [World]: the file tree of the node ([FS], with the semantics of
    the os and path/filepath calls), the memory of the process ([Mem]: caches, maps and
    flags that the Go code keeps in structs), the state of everything outside and the
    trace of the actions done so far.  Everything outside is the class [Env]: answers
    of the API server and of the informer caches, failures of system calls, outputs of
    lsblk, blkid, find and wipefs, the clock, the order in which Go ranges over a map
    (any permutation), the sig-storage static provisioner, YAML decoding, quantities
    and label selectors.  Every theorem holds for every [Env], or names what it assumes
    of it ([keeps_identity], [keeps_data], [honest_faults], [api_names], ...), except the
    laws of [est_read], which say that reading moves the outside along a preorder; the
    witnesses run on [static_env] and its variants, where the assumptions hold.
    Errors are values ([Res], [option GoErr]) with the text the code gives them where a
    caller tests it; a panic that controller-runtime recovers is an error.  Code that
    does not touch the world is a plain function.  64-bit integers are [Z] with their
    bounds stated where they matter, [int32_of] truncates.

    [wp m Q w] says that running [m] from [w] ends in [Q]: every operation is total, so
    this is total correctness.  [frame R m] says that [m] moves every world along [R];
    [traces P] is the relation of a trace that grows by actions in [P], and the tactics
    [frame_tac], [traces_tac], [same_tac] and [wp_step] build such proofs from the
    structure of the code and the hints of the operations it calls.

    ** The files

    - Prelude: hints and tactics, lemmas on lists, maps and strings.
    - GoLib: the Go standard library that the code uses: strings, paths, sprintf,
      sorting, glob patterns, the regular expressions of the code, FNV-1a and SHA-256.
    - Types: the API objects (src/api and the Kubernetes types, with the fields the
      code reads or writes).
    - World, Sys: the world, the monad, system calls and the API client.
    - Envs: concrete outsides for the witnesses.
    - Crash: executions that are killed between two system calls.
    - DiskUtil: pkg/internal/diskutil.go.
    - DiskText: what lsblk prints, and that [ListBlockDevices] reads it.
    - ByID: which link under /dev/disk/by-id the code takes for a device.
    - LinkCache: pkg/common/pv_link_cache.go and current_block_device_info.go.
    - Common: names, types, capacity, provisioner, finalizer and storage class
      utilities of pkg/common.
    - Controller: controllerutil.CreateOrUpdate, resourcemerge, resourceapply.go.
    - Symlinks, DeviceLink, Provisioner: symlink_utils.go, device_link_handler.go,
      SyncPVAndLVDL of provisioner_utils.go.
    - LinkSchema: the rules of the LocalVolumeDeviceLink type, kept by all that writes them.
    - Matcher, LvSet: the diskmaker's LocalVolumeSet reconciler.
    - Lv: the diskmaker's LocalVolume reconciler.
    - Recovery: what the next run makes of a provisioning that was killed.
    - Metrics, Exporter: pkg/localmetrics.
    - Discovery: pkg/diskmaker/discovery.
    - Programs: the metrics server of pkg/localmetrics/config.go, the steps of a program
      that starts, and the client and the command of the discovery daemon.
    - Tls: pkg/tls, with what it calls of library-go and openshift/api.
    - NodeDaemon, LvSetCtl, LvCtl, DiscoveryCtl: the operator's controllers
      (pkg/controllers).
    - Store, StoreNodes, StoreEnv: the API server as a store of objects: its laws as the
      class [ApiStore], which predicates of the store the library and the nodes'
      reconcilers preserve, and an instance.
    - Owners, NodeSteps, OperatorSteps, OtherSteps, Cluster: the programs on one store:
      the invariant of an owner and its volumes, what each program does to it, and the
      steps of the whole system.
    - Watches: the functions that map watched objects to requests, in the operator and
      the diskmaker, and the diskmaker's cache of volumes between its events.
    - Startup: the start of the operator and of the diskmaker (src/cmd) and the operator's
      leader election.
    - Progress: an owner that is being deleted goes when its last volume is gone.
    - Config: the ConfigMap on its way from the operator to the nodes, with the
      decoder of the vendored static provisioner.

    ** The theorems

    - On a node: a provisioning killed at any point leaves the volume's link and
      nothing else ([createSymlinkAndSyncPVAndLVDL_crash]) and the next run resumes it
      ([provisioning_resumed], [local_volume_resumed]), a link is recreated
      atomically and its status is true ([RecreateSymlinkIfNeeded_atomic]); a claimed
      device is not provisioned again, a device is wiped only when asked and free, its
      lock is always given back; what is written to a volume ([SyncPVAndLVDL_writes]);
      the maximal count; a deleted owner provisions nothing; cleanup removes a
      volume's link before its finalizer; the device filters partition the devices;
      the output of lsblk is read back; a device gets the best of its by-id links
      ([GetPathByID_preferred]); device link objects keep the rules of their type and
      tell the truth ([device_links_valid]).
    - Caches: the index of device links inverts the objects after any events and
      [FindLSOManagedDeviceInfo] answers from it; the owner map is the last operation;
      the cache of volumes follows the store although its events come late
      ([volume_cache_follows]); a change of a volume wakes its owner and nobody else
      ([volume_event_wakes_owner]).
    - Operator: finalizers and storage classes outlive volumes, and an owner that is
      being deleted is freed after its last volume ([last_volume_frees_owner]); the
      aggregate does not depend on the order of listings and admits the nodes the
      objects admit; the daemonset carries the hash of the configuration and settles;
      the wait for old pods ends; storage classes are applied with one write; the
      status of a LocalVolume settles; discovery is reported Available only when it
      is; the proxies get the TLS profile in force.
    - Between the two: no interleaving of the runs of all programs leaves a volume
      without its LocalVolume or LocalVolumeSet and that owner's finalizer
      ([owner_outlives_volumes]; a run is one step there and reads the store as it is;
      [race_orphans_volume] is a run that is interrupted between two calls, and
      [stale_list_orphans_volume] one whose informer cache is behind: both leave such a
      volume); runs
      of both programs from the creation of an owner to its end ([life_of_a_set],
      [life_of_a_volume]); a node gets the classes the operator wrote
      ([config_reaches_node]).
    - Start: the operator and the diskmaker make the calls of their plans in order and
      stop at the first that fails ([operator_starts], [diskmaker_starts]), so neither
      runs without a controller; the diskmaker's reconcilers share the index of device
      links and nothing else; the lease of the operator has times client-go accepts.
    - Discovery: unique devices, results written when they change, the udev monitor's
      filter and its spacing of events.

    ** Bounds and fuel

    [walk] follows at most 255 links, as filepath.EvalSymlinks does.  [glob] has the
    length of the pattern as fuel, which bounds the separators it recurses on.
    [wait_pods] has fuel 20, the number of steps of the code's backoff; the theorem
    shows that ten suffice, because the cap ends the loop.  All other recursion is on
    the structure of its argument.

    ** Not modelled

    Logging, and the TLS configuration observed before, which is kept for log messages
    only.  Flags, loggers, schemes, the signal handler and the election of a leader
    itself; the mock of the client, and the two methods of it that nothing calls; the
    constant tables of volume_definitions.go, which nothing reads; generated deep
    copies, test helpers, the version.  Time
    passes only where the code asks for it: backoffs and periods are numbers.  Mutexes:
    every operation on a shared map runs under its lock in the code and is one step
    here. *)
From stdpp Require Import base list strings gmap sorting pretty.
From Stdlib Require Import ZArith Lia.

#[export] Set Warnings "-clear-no-such-hyp".

(** ** Hint databases and tactics *)

Create HintDb lso.
Create HintDb lso_rw.

(** Case analysis on the innermost [match] or [if] of the goal or of a
    hypothesis, keeping the equation. *)
Ltac case_inner e :=
  lazymatch e with
  | context [match ?e' with _ => _ end] => case_inner e'
  | _ => destruct e eqn:?
  end.

Ltac goal_case :=
  match goal with
  | |- context [match ?e with _ => _ end] => case_inner e
  end.

Ltac hyp_case H :=
  match type of H with
  | context [match ?e with _ => _ end] => case_inner e
  end.

(** ** Lists *)

Section lists.
Context {A B : Type}.
Implicit Types (l : list A).

(** Go's [for range] loop that returns at the first hit. *)
Fixpoint find_first (f : A -> option B) l : option B :=
  match l with
  | [] => None
  | a :: l' => match f a with Some b => Some b | None => find_first f l' end
  end.

Lemma find_first_Some f l b :
  find_first f l = Some b ->
  exists l1 a l2, l = l1 ++ a :: l2 /\ f a = Some b /\ Forall (fun x => f x = None) l1.
Proof.
  induction l as [|a l IH]; simpl; [done|].
  destruct (f a) eqn:Hf; intros H.
  - injection H as ->. exists [], a, l. repeat split; [done|constructor].
  - destruct (IH H) as (l1 & a' & l2 & -> & ? & ?).
    exists (a :: l1), a', l2. repeat split; [done|by constructor].
Qed.

Lemma find_first_None f l :
  find_first f l = None <-> Forall (fun x => f x = None) l.
Proof.
  induction l as [|a l IH]; simpl; [split; [constructor|done]|].
  rewrite Forall_cons. destruct (f a); naive_solver.
Qed.
End lists.

Lemma existsb_In {A} (f : A -> bool) l : existsb f l = true <-> exists x, x ∈ l /\ f x = true.
Proof.
  rewrite existsb_exists. by setoid_rewrite list_elem_of_In.
Qed.

Lemma forallb_In {A} (f : A -> bool) l : forallb f l = true <-> forall x, x ∈ l -> f x = true.
Proof.
  rewrite forallb_forall. by setoid_rewrite list_elem_of_In.
Qed.

(** [existsb] and [forallb] do not depend on the order of the list: the form in
    which the iteration order of a Go map is irrelevant. *)
Lemma forallb_perm {A} (f : A -> bool) l l' : l ≡ₚ l' -> forallb f l = forallb f l'.
Proof.
  induction 1; simpl; try congruence.
  rewrite !andb_assoc. f_equal. apply andb_comm.
Qed.

Lemma existsb_perm {A} (f : A -> bool) l l' : l ≡ₚ l' -> existsb f l = existsb f l'.
Proof.
  induction 1; simpl; try congruence.
  rewrite !orb_assoc. f_equal. apply orb_comm.
Qed.

(** ** Maps *)

Lemma map_size_one {A} (m : gmap string A) : size m = 1 -> exists k x, m = {[k := x]}.
Proof.
  intros H. rewrite <- length_map_to_list in H.
  destruct (map_to_list m) as [|[k x] [|]] eqn:Hm; simplify_eq/=. exists k, x.
  apply map_to_list_inj. by rewrite Hm, map_to_list_singleton.
Qed.
