(* ===== verification/GoLib.v ===== *)
(** * The parts of Go's standard library the operator uses

    strings, strconv, fmt, path/filepath, hash/fnv and crypto/sha256, on byte
    strings.  Upper/lower case and white space are those of ASCII. *)
From stdpp Require Import base list strings gmap sorting pretty.
From Stdlib Require Import ZArith Lia Ascii String.
From S2P Require Import Prelude.

Open Scope string_scope.
Open Scope list_scope.

Notation "s1 ++s s2" := (String.append s1 s2) (at level 60, right associativity).

Definition chr (n : nat) : string := String (ascii_of_nat n) EmptyString.
Definition NL : string := chr 10.
Definition DQ : string := chr 34.

(** ** strings *)

Fixpoint contains_str (sub s : string) : bool :=
  prefix sub s || match s with String _ s' => contains_str sub s' | EmptyString => false end.

Definition has_prefix (s p : string) : bool := prefix p s.

Fixpoint split_go (sep s : string) (skip : nat) (cur : string) : list string :=
  match s with
  | EmptyString => [cur]
  | String c s' =>
      match skip with
      | S k => split_go sep s' k cur
      | O => if prefix sep s then cur :: split_go sep s' (String.length sep - 1) EmptyString
             else split_go sep s' 0 (cur ++s String c EmptyString)
      end
  end.

(** [strings.Split] for a non-empty separator. *)
Definition split (s sep : string) : list string := split_go sep s 0 EmptyString.

Fixpoint join (sep : string) (l : list string) : string :=
  match l with
  | [] => EmptyString
  | [s] => s
  | s :: l' => s ++s sep ++s join sep l'
  end.

Definition in_cutset (cut : string) (c : ascii) : bool :=
  existsb (Ascii.eqb c) (list_ascii_of_string cut).

Fixpoint trim_left_with (f : ascii -> bool) (s : string) : string :=
  match s with
  | String c s' => if f c then trim_left_with f s' else s
  | EmptyString => EmptyString
  end.

(** Dropping from the right: a character is dropped when everything after it is. *)
Fixpoint trim_right_with (f : ascii -> bool) (s : string) : string :=
  match s with
  | EmptyString => EmptyString
  | String c s' =>
      match trim_right_with f s' with
      | EmptyString => if f c then EmptyString else String c EmptyString
      | t => String c t
      end
  end.

Definition trim_with (f : ascii -> bool) (s : string) : string :=
  trim_right_with f (trim_left_with f s).

Definition trim (s cut : string) : string := trim_with (in_cutset cut) s.

Definition is_space (c : ascii) : bool :=
  let n := nat_of_ascii c in (n =? 32)%nat || ((9 <=? n)%nat && (n <=? 13)%nat).

Definition trim_space (s : string) : string := trim_with is_space s.

Definition lower_ascii (c : ascii) : ascii :=
  let n := nat_of_ascii c in
  if (65 <=? n)%nat && (n <=? 90)%nat then ascii_of_nat (n + 32) else c.

Fixpoint string_map (f : ascii -> ascii) (s : string) : string :=
  match s with EmptyString => EmptyString | String c s' => String (f c) (string_map f s') end.

Definition to_lower (s : string) : string := string_map lower_ascii s.

(** [strings.Replace] of every occurrence of the one-byte [c] by the empty string. *)
Fixpoint remove_char (c : ascii) (s : string) : string :=
  match s with
  | EmptyString => EmptyString
  | String d s' => if Ascii.eqb d c then remove_char c s' else String d (remove_char c s')
  end.

Fixpoint string_mem (s : string) (l : list string) : bool :=
  match l with [] => false | x :: l' => String.eqb x s || string_mem s l' end.

(** ** sort.Strings *)

Definition str_le (a b : string) : Prop := String.leb a b = true.
#[export] Instance str_le_dec : RelDecision str_le.
Proof. intros a b. unfold str_le. apply _. Defined.

Definition sort_strings (l : list string) : list string := merge_sort str_le l.

(** ** fmt *)

Definition hex_digit (n : Z) : ascii :=
  ascii_of_nat (Z.to_nat (if n <? 10 then 48 + n else 87 + n)%Z).

Fixpoint hex_go (fuel : nat) (n : Z) (acc : string) : string :=
  match fuel with
  | O => acc
  | S k => if (n <? 16)%Z then String (hex_digit n) acc
           else hex_go k (n / 16)%Z (String (hex_digit (n mod 16)%Z) acc)
  end.

(** [%x] of a non-negative integer below 2^64. *)
Definition hex (n : Z) : string := hex_go 16 n EmptyString.

Fixpoint quote_go (s : string) : string :=
  match s with
  | EmptyString => DQ
  | String c s' =>
      if Ascii.eqb c (ascii_of_nat 34) || Ascii.eqb c (ascii_of_nat 92)
      then String (ascii_of_nat 92) (String c (quote_go s')) else String c (quote_go s')
  end.

(** [%q] of a string of printable ASCII bytes. *)
Definition quote (s : string) : string := DQ ++s quote_go s.

(** [fmt.Sprintf]: the verbs are replaced, in order, by the rendered
    arguments; [%q] quotes its argument. *)
Fixpoint sprintf (f : string) (args : list string) : string :=
  match f with
  | String "%" (String "+" (String "v" f')) =>
      match args with a :: r => a ++s sprintf f' r | [] => sprintf f' [] end
  | String "%" (String "q" f') =>
      match args with a :: r => quote a ++s sprintf f' r | [] => sprintf f' [] end
  | String "%" (String _ f') =>
      match args with a :: r => a ++s sprintf f' r | [] => sprintf f' [] end
  | String c f' => String c (sprintf f' args)
  | EmptyString => EmptyString
  end.

Definition itoa (n : Z) : string := pretty n.

(** [%v] of a []string. *)
Definition show_list (l : list string) : string := "[" ++s join " " l ++s "]".

(** ** strconv.ParseInt(s, 10, 64) *)

(** [time.Second] in nanoseconds. *)
Definition second : Z := 1000000000.

Definition int64_max : Z := 9223372036854775807.
Definition int64_min : Z := -9223372036854775808.

Inductive parse_error := ErrSyntax | ErrRange.

Definition digit_of (c : ascii) : option Z :=
  let n := Z.of_nat (nat_of_ascii c) in
  if (48 <=? n)%Z && (n <=? 57)%Z then Some (n - 48)%Z else None.

Fixpoint digits_go (s : string) (acc : Z) : option Z :=
  match s with
  | EmptyString => Some acc
  | String c s' => match digit_of c with Some d => digits_go s' (10 * acc + d)%Z | None => None end
  end.

Definition digits (s : string) : option Z :=
  match s with EmptyString => None | _ => digits_go s 0 end.

(** The value returned next to a range error is the nearest bound. *)
Definition parse_int (s : string) : Z * option parse_error :=
  let (neg, body) := match s with
    | String "-" r => (true, r)
    | String "+" r => (false, r)
    | _ => (false, s)
    end in
  match digits body with
  | None => (0%Z, Some ErrSyntax)
  | Some n =>
      if neg then if (2 ^ 63 <? n)%Z then (int64_min, Some ErrRange) else ((- n)%Z, None)
      else if (2 ^ 63 <=? n)%Z then (int64_max, Some ErrRange) else (n, None)
  end.

(** ** path/filepath *)

Definition is_abs (p : string) : bool := prefix "/" p.

(** Components of a path, without the empty ones. *)
Definition comps (p : string) : list string :=
  List.filter (fun c => negb (String.eqb c EmptyString)) (split p "/").

Definition step_clean (abs : bool) (acc : list string) (c : string) : list string :=
  if String.eqb c "." then acc
  else if String.eqb c ".." then
    match acc with
    | [] => if abs then [] else [".."]
    | x :: r => if String.eqb x ".." then ".." :: acc else r
    end
  else c :: acc.

Definition clean (p : string) : string :=
  let abs := is_abs p in
  let cs := rev (fold_left (step_clean abs) (comps p) []) in
  if abs then "/" ++s join "/" cs
  else match cs with [] => "." | _ => join "/" cs end.

Definition path_join (elems : list string) : string :=
  match List.filter (fun c => negb (String.eqb c EmptyString)) elems with
  | [] => EmptyString
  | l => clean (join "/" l)
  end.

Definition strip_slashes (p : string) : string :=
  trim_right_with (fun c => Ascii.eqb c "/") p.

(** [filepath.Base]. *)
Definition base (p : string) : string :=
  match p with
  | EmptyString => "."
  | _ => match strip_slashes p with
         | EmptyString => "/"
         | q => List.last (split q "/") EmptyString
         end
  end.

(** [filepath.Split]: up to and including the last slash, and the rest. *)
Definition path_split (p : string) : string * string :=
  let l := split p "/" in
  (match removelast l with [] => EmptyString | d => join "/" d ++s "/" end,
   List.last l EmptyString).

Definition dir (p : string) : string := clean (fst (path_split p)).

(** *** filepath.Match *)

(** Scans the chunk after the stars: everything up to the next star outside a
    class. *)
Fixpoint scan_chunk_go (p : string) (inrange : bool) (acc : string) : string * string :=
  match p with
  | EmptyString => (acc, EmptyString)
  | String "\" (String c p') => scan_chunk_go p' inrange (acc ++s String "\" (String c EmptyString))
  | String "[" p' => scan_chunk_go p' true (acc ++s "[")
  | String "]" p' => scan_chunk_go p' false (acc ++s "]")
  | String "*" p' => if inrange then scan_chunk_go p' inrange (acc ++s "*") else (acc, p)
  | String c p' => scan_chunk_go p' inrange (acc ++s String c EmptyString)
  end.

Fixpoint scan_chunk (p : string) (star : bool) : bool * string * string :=
  match p with
  | String "*" p' => scan_chunk p' true
  | _ => let (chunk, rest) := scan_chunk_go p false EmptyString in (star, chunk, rest)
  end.

(** A possibly escaped character of a class; [None] is ErrBadPattern. *)
Definition get_esc (chunk : string) : option (nat * string) :=
  let body := match chunk with
    | EmptyString | String "-" _ | String "]" _ => None
    | String "\" r => match r with EmptyString => None | _ => Some r end
    | _ => Some chunk
    end in
  match body with
  | Some (String c ((String _ _) as r)) =>
      if (nat_of_ascii c <? 128)%nat then Some (nat_of_ascii c, r) else None
  | _ => None
  end.

Fixpoint class_ranges (fuel : nat) (chunk : string) (r : nat) (n : nat) (m : bool)
  : option (bool * string) :=
  match fuel with
  | O => None
  | S k =>
      match chunk, n with
      | String "]" chunk', S _ => Some (m, chunk')
      | _, _ =>
          match get_esc chunk with
          | None => None
          | Some (lo, chunk1) =>
              match (match chunk1 with String "-" c2 => get_esc c2 | _ => Some (lo, chunk1) end) with
              | None => None
              | Some (hi, chunk2) =>
                  class_ranges k chunk2 r (S n) (m || ((lo <=? r)%nat && (r <=? hi)%nat))
              end
          end
      end
  end.

(** [None] is ErrBadPattern, [Some None] no match, [Some (Some rest)] a match. *)
Fixpoint match_chunk (fuel : nat) (chunk s : string) (failed : bool) : option (option string) :=
  match fuel with
  | O => None
  | S k =>
      match chunk with
      | EmptyString => Some (if failed then None else Some s)
      | String ch chunk' =>
          let failed := failed || match s with EmptyString => true | _ => false end in
          let tl := match s with EmptyString => EmptyString | String _ t => t end in
          let hd := match s with EmptyString => 0%nat | String c _ => nat_of_ascii c end in
          let lit (x : ascii) (rest : string) :=
            match_chunk k rest tl (failed || negb (Nat.eqb (nat_of_ascii x) hd)) in
          if Ascii.eqb ch "[" then
            let (negated, body) := match chunk' with
              | String "^" c2 => (true, c2) | _ => (false, chunk') end in
            match class_ranges (S (String.length body)) body (if failed then 0%nat else hd) 0 false with
            | None => None
            | Some (m, rest) => match_chunk k rest tl (failed || Bool.eqb m negated)
            end
          else if Ascii.eqb ch "?" then
            match_chunk k chunk' tl (failed || Nat.eqb hd 47)
          else if Ascii.eqb ch "\" then
            match chunk' with EmptyString => None | String x rest => lit x rest end
          else lit ch chunk'
      end
  end.

Definition match_chunk_top (chunk s : string) : option (option string) :=
  match_chunk (S (String.length chunk)) chunk s false.

(** The loop after a star: try the chunk at every later position that a star may
    reach.  [Some None]: no position matches. *)
Fixpoint star_search (chunk name : string) (last : bool) : option (option string) :=
  match name with
  | EmptyString => Some None
  | String c t =>
      if Ascii.eqb c "/" then Some None
      else match match_chunk_top chunk t with
           | None => None
           | Some (Some r) =>
               if last && negb (String.eqb r EmptyString) then star_search chunk t last
               else Some (Some r)
           | Some None => star_search chunk t last
           end
  end.

(** The remainder of a pattern that no longer matters is still checked. *)
Fixpoint valid_rest (fuel : nat) (p : string) : bool :=
  match fuel with
  | O => false
  | S k =>
      match p with
      | EmptyString => true
      | _ => let '(_, chunk, rest) := scan_chunk p false in
             match match_chunk_top chunk EmptyString with
             | None => false
             | Some _ => valid_rest k rest
             end
      end
  end.

Fixpoint match_go (fuel : nat) (p name : string) : option bool :=
  match fuel with
  | O => None
  | S k =>
      match p with
      | EmptyString => Some (String.eqb name EmptyString)
      | _ =>
          let '(star, chunk, rest) := scan_chunk p false in
          let last := String.eqb rest EmptyString in
          if star && String.eqb chunk EmptyString then Some (negb (contains_str "/" name))
          else
            let fail_ := if valid_rest (S (String.length rest)) rest then Some false else None in
            let search := if star then
                match star_search chunk name last with
                | None => None
                | Some (Some r) => match_go k rest r
                | Some None => fail_
                end else fail_ in
            match match_chunk_top chunk name with
            | None => None
            | Some (Some t) => if String.eqb t EmptyString || negb last then match_go k rest t
                               else search
            | Some None => search
            end
      end
  end.

(** [filepath.Match]; [None] is ErrBadPattern. *)
Definition path_match (pattern name : string) : option bool :=
  match_go (S (String.length pattern)) pattern name.

Definition has_meta (p : string) : bool :=
  existsb (fun c => in_cutset "*?[\" c) (list_ascii_of_string p).

(** ** hash/fnv and crypto/sha256 *)

Definition bytes (s : string) : list Z :=
  map (fun c => Z.of_nat (nat_of_ascii c)) (list_ascii_of_string s).

Definition w32 (x : Z) : Z := Z.land x 4294967295.

(** FNV-1a: [fnv.New32a], [Write] and [Sum32]. *)
Definition fnv_offset : Z := 2166136261.
Definition fnv_write (h : Z) (data : list Z) : Z :=
  fold_left (fun h b => w32 (Z.lxor h b * 16777619)) data h.

Definition rotr (n x : Z) : Z := Z.lor (Z.shiftr x n) (w32 (Z.shiftl x (32 - n))).

Definition sha_k : list Z :=
  [1116352408; 1899447441; 3049323471; 3921009573; 961987163; 1508970993; 2453635748; 2870763221;
   3624381080; 310598401; 607225278; 1426881987; 1925078388; 2162078206; 2614888103; 3248222580;
   3835390401; 4022224774; 264347078; 604807628; 770255983; 1249150122; 1555081692; 1996064986;
   2554220882; 2821834349; 2952996808; 3210313671; 3336571891; 3584528711; 113926993; 338241895;
   666307205; 773529912; 1294757372; 1396182291; 1695183700; 1986661051; 2177026350; 2456956037;
   2730485921; 2820302411; 3259730800; 3345764771; 3516065817; 3600352804; 4094571909; 275423344;
   430227734; 506948616; 659060556; 883997877; 958139571; 1322822218; 1537002063; 1747873779;
   1955562222; 2024104815; 2227730452; 2361852424; 2428436474; 2756734187; 3204031479; 3329325298]%Z.

Definition sha_h0 : list Z :=
  [1779033703; 3144134277; 1013904242; 2773480762; 1359893119; 2600822924; 528734635; 1541459225]%Z.

Definition be_word (l : list Z) : Z := fold_left (fun a b => (256 * a + b)%Z) l 0%Z.

Fixpoint be_bytes (n : nat) (x : Z) : list Z :=
  match n with O => [] | S k => be_bytes k (x / 256)%Z ++ [(x mod 256)%Z] end.

Definition sha_pad (m : list Z) : list Z :=
  let n := Z.of_nat (List.length m) in
  m ++ [128%Z] ++ repeat 0%Z (Z.to_nat ((55 - n) mod 64)) ++ be_bytes 8 (8 * n).

Fixpoint chunks {A} (fuel k : nat) (l : list A) : list (list A) :=
  match fuel, l with
  | O, _ | _, [] => []
  | S f, _ => take k l :: chunks f k (drop k l)
  end.

Definition nthZ (l : list Z) (n : nat) : Z := List.nth n l 0%Z.

(** The message schedule, most recent word first. *)
Fixpoint sha_extend (n : nat) (w : list Z) : list Z :=
  match n with
  | O => w
  | S k =>
      let w15 := nthZ w 14 in let w2 := nthZ w 1 in
      let s0 := Z.lxor (Z.lxor (rotr 7 w15) (rotr 18 w15)) (Z.shiftr w15 3) in
      let s1 := Z.lxor (Z.lxor (rotr 17 w2) (rotr 19 w2)) (Z.shiftr w2 10) in
      sha_extend k (w32 (nthZ w 15 + s0 + nthZ w 6 + s1)%Z :: w)
  end.

Definition sha_round (st : list Z) (kw : Z * Z) : list Z :=
  match st with
  | [a; b; c; d; e; f; g; h] =>
      let S1 := Z.lxor (Z.lxor (rotr 6 e) (rotr 11 e)) (rotr 25 e) in
      let ch := Z.lxor (Z.land e f) (Z.land (Z.lxor e 4294967295) g) in
      let t1 := (h + S1 + ch + kw.1 + kw.2)%Z in
      let S0 := Z.lxor (Z.lxor (rotr 2 a) (rotr 13 a)) (rotr 22 a) in
      let maj := Z.lxor (Z.lxor (Z.land a b) (Z.land a c)) (Z.land b c) in
      [w32 (t1 + S0 + maj)%Z; a; b; c; w32 (d + t1)%Z; e; f; g]
  | _ => st
  end.

Definition sha_block (h : list Z) (block : list Z) : list Z :=
  let w := rev (sha_extend 48 (rev (map be_word (chunks 16 4 block)))) in
  zip_with (fun a b => w32 (a + b)%Z) h (fold_left sha_round (zip sha_k w) h).

(** [sha256.Sum256]: 32 bytes. *)
Definition sha256 (m : list Z) : list Z :=
  let p := sha_pad m in
  mjoin (map (be_bytes 4) (fold_left sha_block (chunks (S (List.length p)) 64 p) sha_h0)).

(** [hex.EncodeToString]. *)
Fixpoint hex_encode (l : list Z) : string :=
  match l with
  | [] => EmptyString
  | b :: l' => String (hex_digit (b / 16)) (String (hex_digit (b mod 16)) (hex_encode l'))
  end.

(** [int32(x)] of a count. *)
Definition int32_of (x : Z) : Z := let y := w32 x in if (y <? 2147483648)%Z then y else (y - 4294967296)%Z.

Lemma int32_of_small n : (0 <= n < 2147483648)%Z -> int32_of n = n.
Proof.
  intros H. unfold int32_of, w32. change 4294967295%Z with (Z.ones 32).
  rewrite Z.land_ones, Z.mod_small by lia. by rewrite (proj2 (Z.ltb_lt _ _)) by lia.
Qed.

(** ** Lemmas on string append *)

Lemma str_app_nil_l b : EmptyString ++s b = b.
Proof. reflexivity. Qed.
Lemma str_app_cons c a b : String c a ++s b = String c (a ++s b).
Proof. reflexivity. Qed.
Lemma str_app_nil_r a : a ++s EmptyString = a.
Proof. induction a as [|c a IH]; [done|]. by rewrite str_app_cons, IH. Qed.
Lemma str_app_assoc a b c : (a ++s b) ++s c = a ++s (b ++s c).
Proof. induction a as [|x a IH]; [done|]. by rewrite !str_app_cons, IH. Qed.
Lemma str_length_app a b : String.length (a ++s b) = (String.length a + String.length b)%nat.
Proof. induction a as [|x a IH]; [done|]. rewrite str_app_cons. simpl. by rewrite IH. Qed.

(** ** The order of strings *)

Lemma str_le_cons c1 s1 c2 s2 :
  str_le (String c1 s1) (String c2 s2) <->
  (N_of_ascii c1 < N_of_ascii c2)%N \/ (c1 = c2 /\ str_le s1 s2).
Proof.
  unfold str_le, String.leb. simpl. unfold Ascii.compare.
  destruct (N.compare_spec (N_of_ascii c1) (N_of_ascii c2)) as [H|H|H].
  - assert (c1 = c2) as -> by (by rewrite <- (ascii_N_embedding c1), H, ascii_N_embedding).
    destruct (s1 ?= s2)%string; naive_solver lia.
  - naive_solver.
  - split; [done|]. intros [?|[-> _]]; lia.
Qed.

#[export] Instance str_le_total : Total str_le.
Proof. intros a b. apply String.leb_total. Qed.
#[export] Instance str_le_antisymm : AntiSymm (=) str_le.
Proof. intros a b. apply String.leb_antisym. Qed.
#[export] Instance str_le_trans : Transitive str_le.
Proof.
  intros a. induction a as [|c1 a IH]; intros [|c2 b] [|c3 d] H1 H2; try done.
  rewrite str_le_cons in *.
  destruct H1 as [H1|[-> H1]], H2 as [H2|[-> H2]]; [left; lia|by left|by left|right; eauto].
Qed.

(** Sorting forgets the order. *)
Lemma sort_strings_perm l l' : l ≡ₚ l' -> sort_strings l = sort_strings l'.
Proof.
  intros H. apply (Sorted_unique str_le); [apply Sorted_merge_sort, _..|].
  unfold sort_strings. by rewrite !merge_sort_Permutation.
Qed.

(** [sort.SliceStable] by a string key. *)
Definition key_le {A} (key : A -> string) (a b : A) : Prop := str_le (key a) (key b).
#[export] Instance key_le_dec {A} (key : A -> string) : RelDecision (key_le key).
Proof. intros a b. unfold key_le. apply _. Defined.
#[export] Instance key_le_total {A} (key : A -> string) : Total (key_le key).
Proof. intros a b. apply str_le_total. Qed.
#[export] Instance key_le_trans {A} (key : A -> string) : Transitive (key_le key).
Proof. intros a b c. apply str_le_trans. Qed.
Definition sort_by {A} (key : A -> string) (l : list A) : list A := merge_sort (key_le key) l.

Lemma sort_by_Permutation {A} (key : A -> string) (l : list A) : sort_by key l ≡ₚ l.
Proof. apply merge_sort_Permutation. Qed.

(** With distinct keys the sorted list does not depend on the order of the input. *)
Lemma sort_by_perm {A} (key : A -> string) (l l' : list A) :
  l ≡ₚ l' -> NoDup (key <$> l) -> sort_by key l = sort_by key l'.
Proof.
  intros H Hn. apply (Sorted_unique_strong (key_le key)); [|apply Sorted_merge_sort, _..|].
  - intros a b. rewrite !sort_by_Permutation, <- H. intros Ha Hb H1 H2.
    assert (key a = key b) as Hk by by apply (anti_symm str_le).
    apply list_elem_of_lookup in Ha as [i Hi]. apply list_elem_of_lookup in Hb as [j Hj].
    assert (i = j) as ->; [|congruence]. apply (NoDup_lookup _ i j (key a) Hn);
      rewrite list_lookup_fmap, ?Hi, ?Hj; [done|]. simpl. by rewrite Hk.
  - by rewrite !sort_by_Permutation.
Qed.

(** ** Paths are never empty *)

Lemma join_nonempty sep l : sep <> "" -> l <> [] -> Forall (fun c => c <> "") l -> join sep l <> "".
Proof.
  intros Hs Hl Hf. destruct l as [|c [|d l]]; [done| |].
  - by apply Forall_cons in Hf as [? _].
  - simpl. apply Forall_cons in Hf as [Hc _]. destruct c; [done|]. done.
Qed.

Lemma step_clean_nonempty abs acc c :
  c <> "" -> Forall (fun c => c <> "") acc -> Forall (fun c => c <> "") (step_clean abs acc c).
Proof.
  intros Hc Ha. unfold step_clean. destruct (String.eqb c "."); [done|]. destruct (String.eqb c "..").
  - destruct acc as [|x acc]; [destruct abs; by repeat constructor|].
    destruct (String.eqb x ".."); [by constructor|]. by apply Forall_cons in Ha as [_ ?].
  - by constructor.
Qed.

Lemma comps_nonempty p : Forall (fun c => c <> "") (comps p).
Proof.
  apply List.Forall_forall. intros c [_ Hc]%List.filter_In. by destruct (String.eqb_spec c "").
Qed.

Lemma clean_nonempty p : clean p <> "".
Proof.
  unfold clean. destruct (is_abs p); [done|].
  assert (Forall (fun c => c <> "") (rev (fold_left (step_clean false) (comps p) []))) as H.
  { apply List.Forall_rev. assert (Forall (fun c : string => c <> "") []) as Hn by done. revert Hn.
    generalize (@nil string) as acc. generalize (comps_nonempty p). generalize (comps p) as l.
    induction l as [|c l IH]; intros Hl acc Hacc; simpl; [done|].
    apply Forall_cons in Hl as [Hc Hl]. apply IH; [done|]. by apply step_clean_nonempty. }
  destruct (rev _) as [|c cs] eqn:Hr; [done|]. rewrite <- Hr in *. apply join_nonempty; [done| |done]. by rewrite Hr.
Qed.

Lemma path_join_nonempty x l : x <> "" -> path_join (x :: l) <> "".
Proof.
  intros Hx. unfold path_join. simpl. destruct (String.eqb_spec x ""); [done|]. apply clean_nonempty.
Qed.
