(* ===== verification/Types.v ===== *)
(** * The API objects, the block device record and the error values

    One record per Go struct, with the fields the operator reads or writes.
    A Go string type with constants (policies, phases, modes, states) is a
    [string] with the constants as definitions; a nil-able pointer is an
    [option]; a Go map is a [gmap]; a timestamp is an [option Z] or a [Z] whose
    zero is the zero time; a [resource.Quantity] is its value in nano-units. *)
From stdpp Require Import base list strings gmap.
From Stdlib Require Import ZArith String.
From S2P Require Import Prelude GoLib.

Open Scope string_scope.

(** ** Kubernetes metadata *)

Record NamespacedName := { nn_Namespace : string; nn_Name : string }.
#[export] Instance NamespacedName_eq_dec : EqDecision NamespacedName.
Proof. solve_decision. Defined.
#[export] Instance NamespacedName_countable : Countable NamespacedName.
Proof.
  refine (inj_countable' (fun n => (nn_Namespace n, nn_Name n))
            (fun p => {| nn_Namespace := p.1; nn_Name := p.2 |}) _).
  by intros [].
Defined.

Record OwnerReference := {
  or_APIVersion : string; or_Kind : string; or_Name : string; or_UID : string;
  or_Controller : option bool; or_BlockOwnerDeletion : option bool }.
#[export] Instance OwnerReference_eq_dec : EqDecision OwnerReference.
Proof. solve_decision. Defined.

Record TypeMeta := { tm_Kind : string; tm_APIVersion : string }.
#[export] Instance TypeMeta_eq_dec : EqDecision TypeMeta.
Proof. solve_decision. Defined.

Record ObjectMeta := {
  om_Name : string; om_Namespace : string; om_UID : string;
  om_Labels : gmap string string; om_Annotations : gmap string string;
  om_Finalizers : list string; om_OwnerReferences : list OwnerReference;
  om_CreationTimestamp : option Z; om_DeletionTimestamp : option Z;
  om_Generation : Z; om_ResourceVersion : string }.
#[export] Instance ObjectMeta_eq_dec : EqDecision ObjectMeta.
Proof. solve_decision. Defined.

Definition empty_meta (ns name : string) : ObjectMeta :=
  {| om_Name := name; om_Namespace := ns; om_UID := ""; om_Labels := ∅; om_Annotations := ∅;
     om_Finalizers := []; om_OwnerReferences := []; om_CreationTimestamp := None;
     om_DeletionTimestamp := None; om_Generation := 0; om_ResourceVersion := "" |}.

Definition set_finalizers (l : list string) (m : ObjectMeta) : ObjectMeta :=
  {| om_Name := om_Name m; om_Namespace := om_Namespace m; om_UID := om_UID m;
     om_Labels := om_Labels m; om_Annotations := om_Annotations m; om_Finalizers := l;
     om_OwnerReferences := om_OwnerReferences m; om_CreationTimestamp := om_CreationTimestamp m;
     om_DeletionTimestamp := om_DeletionTimestamp m; om_Generation := om_Generation m;
     om_ResourceVersion := om_ResourceVersion m |}.

Definition set_labels (l : gmap string string) (m : ObjectMeta) : ObjectMeta :=
  {| om_Name := om_Name m; om_Namespace := om_Namespace m; om_UID := om_UID m;
     om_Labels := l; om_Annotations := om_Annotations m; om_Finalizers := om_Finalizers m;
     om_OwnerReferences := om_OwnerReferences m; om_CreationTimestamp := om_CreationTimestamp m;
     om_DeletionTimestamp := om_DeletionTimestamp m; om_Generation := om_Generation m;
     om_ResourceVersion := om_ResourceVersion m |}.

Definition set_annotations (l : gmap string string) (m : ObjectMeta) : ObjectMeta :=
  {| om_Name := om_Name m; om_Namespace := om_Namespace m; om_UID := om_UID m;
     om_Labels := om_Labels m; om_Annotations := l; om_Finalizers := om_Finalizers m;
     om_OwnerReferences := om_OwnerReferences m; om_CreationTimestamp := om_CreationTimestamp m;
     om_DeletionTimestamp := om_DeletionTimestamp m; om_Generation := om_Generation m;
     om_ResourceVersion := om_ResourceVersion m |}.

Definition set_owner_refs (l : list OwnerReference) (m : ObjectMeta) : ObjectMeta :=
  {| om_Name := om_Name m; om_Namespace := om_Namespace m; om_UID := om_UID m;
     om_Labels := om_Labels m; om_Annotations := om_Annotations m; om_Finalizers := om_Finalizers m;
     om_OwnerReferences := l; om_CreationTimestamp := om_CreationTimestamp m;
     om_DeletionTimestamp := om_DeletionTimestamp m; om_Generation := om_Generation m;
     om_ResourceVersion := om_ResourceVersion m |}.

(** [DeletionTimestamp.IsZero()]. *)
Definition not_deleting (m : ObjectMeta) : bool :=
  match om_DeletionTimestamp m with Some _ => false | None => true end.

(** ** core/v1 and operator/v1 *)

Record NodeSelectorRequirement := {
  nsr_Key : string; nsr_Operator : string; nsr_Values : list string }.
Record NodeSelectorTerm := {
  nst_MatchExpressions : list NodeSelectorRequirement;
  nst_MatchFields : list NodeSelectorRequirement }.
Definition NodeSelector := list NodeSelectorTerm.
Record Toleration := {
  tol_Key : string; tol_Operator : string; tol_Value : string; tol_Effect : string;
  tol_Seconds : option Z }.
Record ObjectReference := { ref_UID : string; ref_Namespace : string; ref_Name : string }.
Record OperatorCondition := {
  oc_Type : string; oc_Status : string; oc_Reason : string; oc_Message : string;
  oc_LastTransitionTime : Z }.
#[export] Instance NodeSelectorRequirement_eq_dec : EqDecision NodeSelectorRequirement.
Proof. solve_decision. Defined.
#[export] Instance NodeSelectorTerm_eq_dec : EqDecision NodeSelectorTerm.
Proof. solve_decision. Defined.
#[export] Instance NodeSelector_eq_dec : EqDecision NodeSelector := list_eq_dec.
#[export] Instance Toleration_eq_dec : EqDecision Toleration.
Proof. solve_decision. Defined.
#[export] Instance ObjectReference_eq_dec : EqDecision ObjectReference.
Proof. solve_decision. Defined.
#[export] Instance OperatorCondition_eq_dec : EqDecision OperatorCondition.
Proof. solve_decision. Defined.

Definition ConditionTrue := "True".
Definition ConditionFalse := "False".

Definition VolumeReleased := "Released".
Definition VolumeAvailable := "Available".
Definition VolumeBound := "Bound".
Definition ReclaimDelete := "Delete".
Definition ReclaimRetain := "Retain".
Definition PersistentVolumeBlock := "Block".
Definition PersistentVolumeFilesystem := "Filesystem".
Definition LabelHostname := "kubernetes.io/hostname".

Record PersistentVolume := {
  pv_meta : ObjectMeta;
  pv_Local : option string;                   (* Spec.Local.Path *)
  pv_ReclaimPolicy : string;
  pv_ClaimRef : option ObjectReference;
  pv_VolumeMode : option string;
  pv_StorageClassName : string;
  pv_Capacity : Z;
  pv_NodeAffinity : option NodeSelector;
  pv_MountOptions : list string;
  pv_FsType : option string;
  pv_Phase : string }.
#[export] Instance PersistentVolume_eq_dec : EqDecision PersistentVolume.
Proof. solve_decision. Defined.

Definition set_pv_meta (m : ObjectMeta) (pv : PersistentVolume) : PersistentVolume :=
  {| pv_meta := m; pv_Local := pv_Local pv; pv_ReclaimPolicy := pv_ReclaimPolicy pv;
     pv_ClaimRef := pv_ClaimRef pv; pv_VolumeMode := pv_VolumeMode pv;
     pv_StorageClassName := pv_StorageClassName pv; pv_Capacity := pv_Capacity pv;
     pv_NodeAffinity := pv_NodeAffinity pv; pv_MountOptions := pv_MountOptions pv;
     pv_FsType := pv_FsType pv; pv_Phase := pv_Phase pv |}.

Definition set_pv_claim (r : option ObjectReference) (pv : PersistentVolume) : PersistentVolume :=
  {| pv_meta := pv_meta pv; pv_Local := pv_Local pv; pv_ReclaimPolicy := pv_ReclaimPolicy pv;
     pv_ClaimRef := r; pv_VolumeMode := pv_VolumeMode pv;
     pv_StorageClassName := pv_StorageClassName pv; pv_Capacity := pv_Capacity pv;
     pv_NodeAffinity := pv_NodeAffinity pv; pv_MountOptions := pv_MountOptions pv;
     pv_FsType := pv_FsType pv; pv_Phase := pv_Phase pv |}.

Definition pv_Name (pv : PersistentVolume) : string := om_Name (pv_meta pv).
Definition pv_Labels (pv : PersistentVolume) : gmap string string := om_Labels (pv_meta pv).
Definition pv_Annotations (pv : PersistentVolume) : gmap string string := om_Annotations (pv_meta pv).

(** [&corev1.PersistentVolume{ObjectMeta: metav1.ObjectMeta{Name: name}}]. *)
Definition empty_pv (name : string) : PersistentVolume :=
  {| pv_meta := empty_meta "" name; pv_Local := None; pv_ReclaimPolicy := ""; pv_ClaimRef := None;
     pv_VolumeMode := None; pv_StorageClassName := ""; pv_Capacity := 0; pv_NodeAffinity := None;
     pv_MountOptions := []; pv_FsType := None; pv_Phase := "" |}.

Definition TopologySelectorTerm := list (string * list string).

Record StorageClass := {
  sc_meta : ObjectMeta; sc_Provisioner : string; sc_ReclaimPolicy : option string;
  sc_VolumeBindingMode : option string; sc_MountOptions : list string;
  sc_AllowedTopologies : list TopologySelectorTerm }.
#[export] Instance StorageClass_eq_dec : EqDecision StorageClass.
Proof. solve_decision. Defined.
Definition sc_Name (sc : StorageClass) : string := om_Name (sc_meta sc).

Record Node := { nd_meta : ObjectMeta }.
#[export] Instance Node_eq_dec : EqDecision Node.
Proof. solve_decision. Defined.
Definition nd_Name (n : Node) : string := om_Name (nd_meta n).

Record ConfigMap := { cm_meta : ObjectMeta; cm_Data : gmap string string }.
#[export] Instance ConfigMap_eq_dec : EqDecision ConfigMap.
Proof. solve_decision. Defined.

(** ** lsblk's columns: pkg/internal *)

Record BlockDevice := {
  bd_Name : string; bd_KName : string; bd_Type : string; bd_Model : string; bd_Vendor : string;
  bd_State : string; bd_FSType : string; bd_Size : string; bd_Rotational : string;
  bd_ReadOnly : string; bd_Removable : string; bd_PathByID : string; bd_Serial : string;
  bd_PartLabel : string }.
#[export] Instance BlockDevice_eq_dec : EqDecision BlockDevice.
Proof. solve_decision. Defined.

Definition set_PathByID (p : string) (b : BlockDevice) : BlockDevice :=
  {| bd_Name := bd_Name b; bd_KName := bd_KName b; bd_Type := bd_Type b; bd_Model := bd_Model b;
     bd_Vendor := bd_Vendor b; bd_State := bd_State b; bd_FSType := bd_FSType b;
     bd_Size := bd_Size b; bd_Rotational := bd_Rotational b; bd_ReadOnly := bd_ReadOnly b;
     bd_Removable := bd_Removable b; bd_PathByID := p; bd_Serial := bd_Serial b;
     bd_PartLabel := bd_PartLabel b |}.

(** [internal.BlockDevice{}]. *)
Definition zero_device : BlockDevice :=
  {| bd_Name := ""; bd_KName := ""; bd_Type := ""; bd_Model := ""; bd_Vendor := "";
     bd_State := ""; bd_FSType := ""; bd_Size := ""; bd_Rotational := ""; bd_ReadOnly := "";
     bd_Removable := ""; bd_PathByID := ""; bd_Serial := ""; bd_PartLabel := "" |}.

Record DiskLocation := {
  dl_DiskNamePath : string; dl_UserProvidedPath : string; dl_DiskID : string;
  dl_BlockDevice : BlockDevice; dl_ForceWipe : bool;
  dl_SymlinkPath : string; dl_SymlinkSource : string }.

(** ** api/v1 *)

Definition LocalVolumeKind := "LocalVolume".
Definition LocalVolumeSetKind := "LocalVolumeSet".
Definition v1_GroupVersion := "local.storage.openshift.io/v1".
Definition v1alpha1_GroupVersion := "local.storage.openshift.io/v1alpha1".

Definition DeviceLinkPolicyNone := "None".
Definition DeviceLinkPolicyCurrentLinkTarget := "CurrentLinkTarget".
Definition DeviceLinkPolicyPreferredLinkTarget := "PreferredLinkTarget".

Record LocalVolumeDeviceLinkSpec := {
  lds_PersistentVolumeName : string; lds_NodeName : string; lds_Policy : string }.
Record LocalVolumeDeviceLinkStatus := {
  ls_CurrentLinkTarget : string; ls_PreferredLinkTarget : string;
  ls_ValidLinkTargets : list string; ls_PersistentVolumeSymlinkPath : string;
  ls_FilesystemUUID : string; ls_Conditions : list OperatorCondition }.
Record LocalVolumeDeviceLink := {
  ld_meta : ObjectMeta; ld_Spec : LocalVolumeDeviceLinkSpec;
  ld_Status : LocalVolumeDeviceLinkStatus }.
#[export] Instance LocalVolumeDeviceLinkSpec_eq_dec : EqDecision LocalVolumeDeviceLinkSpec.
Proof. solve_decision. Defined.
#[export] Instance LocalVolumeDeviceLinkStatus_eq_dec : EqDecision LocalVolumeDeviceLinkStatus.
Proof. solve_decision. Defined.
#[export] Instance LocalVolumeDeviceLink_eq_dec : EqDecision LocalVolumeDeviceLink.
Proof. solve_decision. Defined.

Definition ld_Name (l : LocalVolumeDeviceLink) : string := om_Name (ld_meta l).
Definition empty_ld_status : LocalVolumeDeviceLinkStatus :=
  {| ls_CurrentLinkTarget := ""; ls_PreferredLinkTarget := ""; ls_ValidLinkTargets := [];
     ls_PersistentVolumeSymlinkPath := ""; ls_FilesystemUUID := ""; ls_Conditions := [] |}.
Definition set_ld_status (s : LocalVolumeDeviceLinkStatus) (l : LocalVolumeDeviceLink)
  : LocalVolumeDeviceLink :=
  {| ld_meta := ld_meta l; ld_Spec := ld_Spec l; ld_Status := s |}.
Definition set_ld_conditions (c : list OperatorCondition) (l : LocalVolumeDeviceLink)
  : LocalVolumeDeviceLink :=
  let s := ld_Status l in
  set_ld_status {| ls_CurrentLinkTarget := ls_CurrentLinkTarget s;
                   ls_PreferredLinkTarget := ls_PreferredLinkTarget s;
                   ls_ValidLinkTargets := ls_ValidLinkTargets s;
                   ls_PersistentVolumeSymlinkPath := ls_PersistentVolumeSymlinkPath s;
                   ls_FilesystemUUID := ls_FilesystemUUID s; ls_Conditions := c |} l.

Record StorageClassDevice := {
  scd_StorageClassName : string; scd_VolumeMode : string; scd_FSType : string;
  scd_DevicePaths : list string; scd_ForceWipe : bool }.
Record LocalVolumeSpec := {
  lvs_ManagementState : string; lvs_LogLevel : string; lvs_NodeSelector : option NodeSelector;
  lvs_StorageClassDevices : list StorageClassDevice; lvs_Tolerations : list Toleration }.
Record GenerationStatus := {
  gs_Group : string; gs_Resource : string; gs_Namespace : string; gs_Name : string;
  gs_LastGeneration : Z }.
Record LocalVolumeStatus := {
  lvt_ObservedGeneration : option Z; lvt_State : string;
  lvt_Conditions : list OperatorCondition; lvt_ReadyReplicas : Z;
  lvt_Generations : list GenerationStatus }.
Record LocalVolume := {
  lv_type : TypeMeta; lv_meta : ObjectMeta; lv_Spec : LocalVolumeSpec;
  lv_Status : LocalVolumeStatus }.
#[export] Instance StorageClassDevice_eq_dec : EqDecision StorageClassDevice.
Proof. solve_decision. Defined.
#[export] Instance LocalVolumeSpec_eq_dec : EqDecision LocalVolumeSpec.
Proof. solve_decision. Defined.
#[export] Instance GenerationStatus_eq_dec : EqDecision GenerationStatus.
Proof. solve_decision. Defined.
#[export] Instance LocalVolumeStatus_eq_dec : EqDecision LocalVolumeStatus.
Proof. solve_decision. Defined.
#[export] Instance LocalVolume_eq_dec : EqDecision LocalVolume.
Proof. solve_decision. Defined.

(** [SetDefaults]. *)
Definition SetDefaults (lv : LocalVolume) : LocalVolume :=
  let s := lv_Spec lv in
  {| lv_type := lv_type lv; lv_meta := lv_meta lv;
     lv_Spec := {| lvs_ManagementState := if decide (lvs_ManagementState s = "") then "Managed"
                                          else lvs_ManagementState s;
                   lvs_LogLevel := if decide (lvs_LogLevel s = "") then "Normal" else lvs_LogLevel s;
                   lvs_NodeSelector := lvs_NodeSelector s;
                   lvs_StorageClassDevices := lvs_StorageClassDevices s;
                   lvs_Tolerations := lvs_Tolerations s |};
     lv_Status := lv_Status lv |}.

(** ** api/v1alpha1 *)

Definition Rotational := "Rotational".
Definition NonRotational := "NonRotational".
Definition RawDisk := "disk".

Definition Quantity := Z.
Record DeviceInclusionSpec := {
  dis_DeviceTypes : list string; dis_MechanicalProperties : list string;
  dis_MinSize : option Quantity; dis_MaxSize : option Quantity;
  dis_Models : list string; dis_Vendors : list string }.
Record DeviceExclusionSpec := { des_DeviceNameFilter : list string }.
Record LocalVolumeSetSpec := {
  lss_NodeSelector : option NodeSelector; lss_StorageClassName : string;
  lss_MaxDeviceCount : option Z; lss_VolumeMode : string; lss_FSType : string;
  lss_Tolerations : list Toleration; lss_DeviceInclusionSpec : option DeviceInclusionSpec;
  lss_DeviceExclusionSpec : option DeviceExclusionSpec }.
Record LocalVolumeSetStatus := {
  lst_Conditions : list OperatorCondition; lst_TotalProvisionedDeviceCount : option Z;
  lst_ObservedGeneration : Z }.
Record LocalVolumeSet := {
  lset_type : TypeMeta; lset_meta : ObjectMeta; lset_Spec : LocalVolumeSetSpec;
  lset_Status : LocalVolumeSetStatus }.
#[export] Instance DeviceInclusionSpec_eq_dec : EqDecision DeviceInclusionSpec.
Proof. solve_decision. Defined.
#[export] Instance DeviceExclusionSpec_eq_dec : EqDecision DeviceExclusionSpec.
Proof. solve_decision. Defined.
#[export] Instance LocalVolumeSetSpec_eq_dec : EqDecision LocalVolumeSetSpec.
Proof. solve_decision. Defined.
#[export] Instance LocalVolumeSetStatus_eq_dec : EqDecision LocalVolumeSetStatus.
Proof. solve_decision. Defined.
#[export] Instance LocalVolumeSet_eq_dec : EqDecision LocalVolumeSet.
Proof. solve_decision. Defined.

Definition Available := "Available".
Definition NotAvailable := "NotAvailable".
Definition Unknown := "Unknown".
Record DiscoveredDevice := {
  dd_DeviceID : string; dd_Path : string; dd_Model : string; dd_Type : string;
  dd_Vendor : string; dd_Serial : string; dd_Size : Z; dd_Property : string;
  dd_FSType : string; dd_State : string }.
#[export] Instance DiscoveredDevice_eq_dec : EqDecision DiscoveredDevice.
Proof. solve_decision. Defined.

Record LocalVolumeDiscoveryResult := {
  lvdr_meta : ObjectMeta; lvdr_NodeName : string; lvdr_DiscoveredTimeStamp : string;
  lvdr_DiscoveredDevices : list DiscoveredDevice }.
#[export] Instance LocalVolumeDiscoveryResult_eq_dec : EqDecision LocalVolumeDiscoveryResult.
Proof. solve_decision. Defined.

Record LocalVolumeDiscovery := {
  lvd_meta : ObjectMeta; lvd_NodeSelector : option NodeSelector; lvd_Tolerations : list Toleration;
  lvd_Phase : string; lvd_Conditions : list OperatorCondition; lvd_ObservedGeneration : Z }.
#[export] Instance LocalVolumeDiscovery_eq_dec : EqDecision LocalVolumeDiscovery.
Proof. solve_decision. Defined.

(** ** apps/v1 DaemonSet, as far as the operator writes it *)

Record Container := { ct_Name : string; ct_Image : string; ct_Env : list (string * string) }.
Record DaemonSet := {
  ds_meta : ObjectMeta; ds_Selector : gmap string string;
  ds_TemplateLabels : gmap string string; ds_TemplateAnnotations : gmap string string;
  ds_ServiceAccountName : string; ds_PriorityClassName : string;
  ds_Tolerations : list Toleration; ds_NodeAffinity : option NodeSelector;
  ds_Volumes : list string; ds_Containers : list Container; ds_UpdateStrategy : string;
  ds_HostPID : bool;
  ds_NumberUnavailable : Z; ds_CurrentNumberScheduled : Z; ds_DesiredNumberScheduled : Z;
  ds_NumberReady : Z }.
#[export] Instance Container_eq_dec : EqDecision Container.
Proof. solve_decision. Defined.
#[export] Instance DaemonSet_eq_dec : EqDecision DaemonSet.
Proof. solve_decision. Defined.

(** A Service, and the objects of the monitoring stack whose specification the
    operator copies whole. *)
Record Service := { svc_meta : ObjectMeta; svc_ClusterIP : string; svc_Spec : string }.
#[export] Instance Service_eq_dec : EqDecision Service.
Proof. solve_decision. Defined.
(** config.openshift.io: the cluster's APIServer object with the TLS profile. *)
Record TLSProfileSpec := { tps_Ciphers : list string; tps_MinTLSVersion : string }.
#[export] Instance TLSProfileSpec_eq_dec : EqDecision TLSProfileSpec.
Proof. solve_decision. Defined.
Record TLSSecurityProfile := { tsp_Type : string; tsp_Custom : option TLSProfileSpec }.
#[export] Instance TLSSecurityProfile_eq_dec : EqDecision TLSSecurityProfile.
Proof. solve_decision. Defined.
Record APIServer := { api_meta : ObjectMeta; api_TLSSecurityProfile : option TLSSecurityProfile }.
#[export] Instance APIServer_eq_dec : EqDecision APIServer.
Proof. solve_decision. Defined.

Record Monitored := { mo_meta : ObjectMeta; mo_Spec : string }.
#[export] Instance Monitored_eq_dec : EqDecision Monitored.
Proof. solve_decision. Defined.

(** The static provisioner's MountConfig, with the fields the operator sets. *)
Record MountConfig := {
  mc_FsType : string; mc_HostDir : string; mc_MountDir : string; mc_VolumeMode : string }.
#[export] Instance MountConfig_eq_dec : EqDecision MountConfig.
Proof. solve_decision. Defined.

(** ** Errors *)

Inductive Errno := ENOENT | EEXIST | ENOTEMPTY | EBUSY | EINVAL | ENOTDIR | EISDIR | ELOOP | EIO | EPERM.
#[export] Instance Errno_eq_dec : EqDecision Errno.
Proof. solve_decision. Defined.

Inductive StatusReason := ReasonNotFound | ReasonAlreadyExists | ReasonConflict | ReasonInvalid
  | ReasonGone | ReasonInternal.
#[export] Instance StatusReason_eq_dec : EqDecision StatusReason.
Proof. solve_decision. Defined.

Inductive GoErr :=
  | Errorf (msg : string)                                  (* fmt.Errorf without %w *)
  | Wrap (msg : string) (cause : GoErr)                    (* fmt.Errorf with : %w, errors.Wrapf *)
  | Wrapf (text : string) (cause : GoErr)                  (* fmt.Errorf with %w elsewhere: the whole text *)
  | PathError (path : string) (errno : Errno)              (* *fs.PathError, *os.LinkError *)
  | ErrBadPattern
  | StatusError (reason : StatusReason) (msg : string)     (* apimachinery *)
  | ExitError (status : Z)                                 (* k8s.io/utils/exec *)
  | IDPathNotFoundError (DeviceName : string)
  | PolicyNotPreferredError (SymlinkSource SymlinkDir PVSymlinkPath : string)
      (LVDL : option LocalVolumeDeviceLink)
  | ErrTryAgain
  | Aggregate (errs : list GoErr).                         (* util/errors.NewAggregate *)

Inductive Res (A : Type) := Ok (a : A) | Err (e : GoErr).
Arguments Ok {A} a.
Arguments Err {A} e.

Definition is_ok {A} (r : Res A) : bool := match r with Ok _ => true | Err _ => false end.
Definition err_of {A} (r : Res A) : option GoErr := match r with Ok _ => None | Err e => Some e end.

(** [errors.As] with a target of type IDPathNotFoundError / PolicyNotPreferredError:
    the first error of that type along the chain of causes. *)
Fixpoint as_id_not_found (e : GoErr) : option string :=
  match e with
  | IDPathNotFoundError d => Some d
  | Wrap _ c | Wrapf _ c => as_id_not_found c
  | _ => None
  end.

Fixpoint as_policy_not_preferred (e : GoErr)
  : option (string * option LocalVolumeDeviceLink) :=
  match e with
  | PolicyNotPreferredError _ _ p l => Some (p, l)
  | Wrap _ c | Wrapf _ c => as_policy_not_preferred c
  | _ => None
  end.

(** [errors.Is(err, errno)] and [os.IsNotExist] / [os.IsExist] (which do not unwrap
    fmt errors). *)
Fixpoint is_errno (n : Errno) (e : GoErr) : bool :=
  match e with
  | PathError _ m => bool_decide (m = n)
  | Wrap _ c | Wrapf _ c => is_errno n c
  | _ => false
  end.

Definition os_is (n : Errno) (e : GoErr) : bool :=
  match e with PathError _ m => bool_decide (m = n) | _ => false end.

(** [apierrors.IsNotFound] and friends: errors.As on the API status. *)
Fixpoint reason_is (r : StatusReason) (e : GoErr) : bool :=
  match e with
  | StatusError r' _ => bool_decide (r' = r)
  | Wrap _ c | Wrapf _ c => reason_is r c
  | _ => false
  end.
Abbreviation is_not_found := (reason_is ReasonNotFound).
Abbreviation is_already_exists := (reason_is ReasonAlreadyExists).
Abbreviation is_conflict := (reason_is ReasonConflict).
Abbreviation is_gone := (reason_is ReasonGone).

Definition errno_text (n : Errno) : string :=
  match n with
  | ENOENT => "no such file or directory" | EEXIST => "file exists"
  | ENOTEMPTY => "directory not empty" | EBUSY => "device or resource busy"
  | EINVAL => "invalid argument" | ENOTDIR => "not a directory" | EISDIR => "is a directory"
  | ELOOP => "too many levels of symbolic links" | EIO => "input/output error"
  | EPERM => "operation not permitted"
  end.

(** [err.Error()]. *)
Fixpoint error_text (e : GoErr) : string :=
  match e with
  | Errorf m => m
  | Wrap m c => m ++s ": " ++s error_text c
  | Wrapf m _ => m
  | PathError p n => p ++s ": " ++s errno_text n
  | ErrBadPattern => "syntax error in pattern"
  | StatusError _ m => m
  | ExitError n => "exit status " ++s itoa n
  | IDPathNotFoundError d =>
      sprintf "IDPathNotFoundError: a symlink to  %q was not found in %q" [d; "/dev/disk/by-id/"]
  | PolicyNotPreferredError s d _ _ =>
      sprintf "found stale symlink for %s in %s but policy is not PreferredLinkTarget" [s; d]
  | ErrTryAgain => "retry provisioning"
  | Aggregate es => "[" ++s join ", " (map error_text es) ++s "]"
  end.
