(* ===== verification/World.v ===== *)
(** * The world a process runs in

    - the file tree under the node's root, with the semantics of the os and
      path/filepath calls the operator makes;
    - everything else outside the process (the API server and its caches, the
      commands lsblk, blkid, find and wipefs, the clock, the static
      provisioner's library, failures of system calls) as the parameter [Env];
    - the memory of the process ([Mem]) and the trace of its actions;
    - the state monad [M] all operations are written in, its [wp] and its frame
      rule. *)
From stdpp Require Import base list strings gmap sorting.
From Stdlib Require Import ZArith Lia String.
From S2P Require Import Prelude GoLib Types.

Open Scope string_scope.

(** ** The file tree *)

Inductive FNode := NDir | NLink (target : string) | NFile | NBlock.
#[export] Instance FNode_eq_dec : EqDecision FNode.
Proof. solve_decision. Defined.

(** Absolute clean paths to nodes; the root directory is implicit. *)
Abbreviation FS := (gmap string FNode).

Definition path_of (cs : list string) : string := "/" ++s join "/" cs.

(** The key of a path: the kernel ignores repeated and trailing slashes. *)
Definition fkey (p : string) : string := path_of (comps p).

Definition lookup_comps (fs : FS) (cs : list string) : option FNode :=
  match cs with [] => Some NDir | _ => fs !! path_of cs end.

(** [filepath.EvalSymlinks]: [dest] is the resolved prefix (last component
    first), [links] the number of links that may still be followed. *)
Fixpoint walk (fs : FS) (links : nat) : list string -> list string -> Res string :=
  fix go (dest todo : list string) {struct todo} : Res string :=
    match todo with
    | [] => Ok (path_of (rev dest))
    | c :: todo' =>
        if String.eqb c "." then go dest todo'
        else if String.eqb c ".." then go (List.tl dest) todo'
        else
          let here := path_of (rev (c :: dest)) in
          match fs !! here with
          | None => Err (PathError here ENOENT)
          | Some NDir => go (c :: dest) todo'
          | Some (NLink t) =>
              match links with
              | O => Err (Errorf "EvalSymlinks: too many links")
              | S k => walk fs k (if is_abs t then [] else dest) (comps t ++ todo')%list
              end
          | Some _ => match todo' with
                      | [] => Ok here
                      | _ => Err (PathError here ENOTDIR)
                      end
          end
    end.

Definition max_links : nat := 255.
Definition eval_symlinks (fs : FS) (p : string) : Res string := walk fs max_links [] (comps p).

(** [os.Stat] follows symlinks, [os.Lstat] does not look through the last one. *)
Definition fs_stat (fs : FS) (p : string) : Res FNode :=
  match eval_symlinks fs p with
  | Err e => Err e
  | Ok q => match lookup_comps fs (comps q) with
            | Some n => Ok n | None => Err (PathError p ENOENT) end
  end.

Definition fs_lstat (fs : FS) (p : string) : Res FNode :=
  match lookup_comps fs (comps p) with Some n => Ok n | None => Err (PathError p ENOENT) end.

Definition fs_readlink (fs : FS) (p : string) : Res string :=
  match fs !! fkey p with
  | Some (NLink t) => Ok t
  | Some _ => Err (PathError p EINVAL)
  | None => Err (PathError p ENOENT)
  end.

(** Names in a directory, sorted, as [Readdirnames] followed by a sort. *)
Definition children (fs : FS) (d : string) : list string :=
  sort_strings (List.map base (List.filter (fun p => String.eqb (dir p) d) (elements (dom fs)))).

Definition glob_dir (fs : FS) (d pattern : string) : Res (list string) :=
  match fs_stat fs d with
  | Ok NDir =>
      fold_left (fun acc n => match acc with
                   | Err e => Err e
                   | Ok m => match path_match pattern n with
                             | None => Err ErrBadPattern
                             | Some true => Ok (m ++ [path_join [d; n]])%list
                             | Some false => Ok m
                             end
                   end) (children fs d) (Ok [])
  | _ => Ok []
  end.

Definition clean_glob_path (p : string) : string :=
  if String.eqb p "" then "." else if String.eqb p "/" then p
  else String.substring 0 (String.length p - 1) p.

(** [filepath.Glob]; the fuel bounds the number of path separators. *)
Fixpoint glob (fuel : nat) (fs : FS) (pattern : string) : Res (list string) :=
  match fuel with
  | O => Err ErrBadPattern
  | S k =>
      match path_match pattern "" with
      | None => Err ErrBadPattern
      | Some _ =>
          if negb (has_meta pattern) then
            match fs_lstat fs pattern with Ok _ => Ok [pattern] | Err _ => Ok [] end
          else
            let (d0, file) := path_split pattern in
            let d := clean_glob_path d0 in
            if negb (has_meta d) then glob_dir fs d file
            else if String.eqb d pattern then Err ErrBadPattern
            else match glob k fs d with
                 | Err e => Err e
                 | Ok ds => fold_left (fun acc d => match acc with
                              | Err e => Err e
                              | Ok m => match glob_dir fs d file with
                                        | Err e => Err e | Ok m' => Ok (m ++ m')%list end
                              end) ds (Ok [])
                 end
      end
  end.

Definition is_dir_at (fs : FS) (p : string) : bool :=
  match lookup_comps fs (comps p) with Some NDir => true | _ => false end.

Definition fs_symlink (fs : FS) (target p : string) : Res FS :=
  match fs !! fkey p with
  | Some _ => Err (PathError p EEXIST)
  | None => if is_dir_at fs (dir (fkey p)) then Ok (<[fkey p := NLink target]> fs)
            else Err (PathError p ENOENT)
  end.

Definition fs_remove (fs : FS) (p : string) : Res FS :=
  match fs !! fkey p with
  | None => Err (PathError p ENOENT)
  | Some NDir => match children fs (fkey p) with
                 | [] => Ok (delete (fkey p) fs)
                 | _ => Err (PathError p ENOTEMPTY)
                 end
  | Some _ => Ok (delete (fkey p) fs)
  end.

(** [os.Rename] of a file that is not a directory. *)
Definition fs_rename (fs : FS) (a b : string) : Res FS :=
  match fs !! fkey a with
  | None => Err (PathError a ENOENT)
  | Some n => match fs !! fkey b with
              | Some NDir => Err (PathError b EISDIR)
              | _ => if is_dir_at fs (dir (fkey b)) then Ok (<[fkey b := n]> (delete (fkey a) fs))
                     else Err (PathError b ENOENT)
              end
  end.

(** [os.MkdirAll]: the prefixes of the path, outermost first. *)
Fixpoint prefixes_go (acc : list string) (cs : list string) : list string :=
  match cs with [] => [] | c :: cs' => path_of (acc ++ [c])%list :: prefixes_go (acc ++ [c])%list cs' end.

Definition fs_mkdir_all (fs : FS) (p : string) : Res FS :=
  fold_left (fun acc d => match acc with
    | Err e => Err e
    | Ok fs => match fs !! d with
               | Some NDir => Ok fs
               | Some (NLink _) => match fs_stat fs d with
                                   | Ok NDir => Ok fs | _ => Err (PathError d ENOTDIR) end
               | Some _ => Err (PathError d ENOTDIR)
               | None => Ok (<[d := NDir]> fs)
               end
    end) (prefixes_go [] (comps p)) (Ok fs).

(** ** Requests to the outside *)

Inductive Kind := KPV | KLVDL | KSC | KNode | KCM | KLV | KLVSet | KLVD | KLVDR | KDS | KPod | KSM
  | KSvc | KRule | KAPIServer.
#[export] Instance Kind_eq_dec : EqDecision Kind.
Proof. solve_decision. Defined.

Definition Obj (k : Kind) : Type :=
  match k with
  | KPV => PersistentVolume | KLVDL => LocalVolumeDeviceLink | KSC => StorageClass
  | KNode => Node | KCM => ConfigMap | KLV => LocalVolume | KLVSet => LocalVolumeSet
  | KLVD => LocalVolumeDiscovery | KLVDR => LocalVolumeDiscoveryResult | KDS => DaemonSet
  | KPod => ObjectMeta | KSM => Monitored | KSvc => Service | KRule => Monitored
  | KAPIServer => APIServer
  end.

Inductive Syscall :=
  | SReadlink (p : string) | SEval (p : string) | SGlob (p : string)
  | SStat (p : string) | SLstat (p : string)
  | SSymlink (target p : string) | SRemove (p : string) | SRename (a b : string)
  | SMkdirAll (p : string) | SOpenExcl (p : string) | SClose (fd : Z).

Record ListOpts := {
  lo_Namespace : option string;                   (* client.InNamespace *)
  lo_Labels : list (string * string);             (* client.MatchingLabels *)
  lo_Field : option (string * string);            (* client.MatchingFields *)
  lo_LabelIn : option (string * list string) }.   (* selection.In *)
Definition no_opts : ListOpts :=
  {| lo_Namespace := None; lo_Labels := []; lo_Field := None; lo_LabelIn := None |}.
Definition in_namespace (ns : string) : ListOpts :=
  {| lo_Namespace := Some ns; lo_Labels := []; lo_Field := None; lo_LabelIn := None |}.
Definition matching_labels (l : list (string * string)) : ListOpts :=
  {| lo_Namespace := None; lo_Labels := l; lo_Field := None; lo_LabelIn := None |}.

(** Everything the operator calls and the repository does not define.  Every
    operation may answer anything and may move the state [est] of the outside.
    [kget true] reads from the API server, [kget false] from the informer's
    cache. *)
Class Env := {
  est : Type;
  kget : forall k, bool -> NamespacedName -> est -> Res (Obj k) * est;
  klist : forall k, ListOpts -> est -> Res (list (Obj k)) * est;
  kcreate : forall k, Obj k -> est -> Res (Obj k) * est;
  kupdate : forall k, Obj k -> est -> Res (Obj k) * est;
  kstatus : forall k, Obj k -> est -> Res (Obj k) * est;
  kdelete : forall k, Obj k -> est -> option GoErr * est;
  sys_fault : Syscall -> est -> option GoErr * est;
  read_file : string -> est -> Res string * est;
  exec_cmd : string -> list string -> FS -> est -> (string * option GoErr) * est;
  clock : est -> Z * est;
  new_uuid : est -> string * est;
  map_order : forall A : Type, est -> list A -> list A * est;
  map_order_perm : forall A e (l : list A), (map_order A e l).1 ≡ₚ l;
  getenv : string -> option string;
  (* sig-storage-local-static-provisioner *)
  delete_pvs : est -> est;
  mount_list : est -> Res (list string) * est;
  get_volume_mode : string -> est -> Res string * est;
  get_block_capacity : string -> est -> Res Z * est;
  get_fs_capacity : string -> est -> Res Z * est;
  load_volume_config : gmap string string -> Res (gmap string MountConfig);
  (* apimachinery, component-helpers *)
  match_node_selector_terms : Node -> NodeSelector -> Res bool;
  parse_quantity : string -> Res Quantity;
  (* the embedded YAML files: the file with the pairs replaced, decoded *)
  read_template : forall k, string -> list (string * string) -> Res (Obj k);
  (* the static provisioner's VolumeConfigToConfigMapData *)
  volume_config_data : gmap string MountConfig -> list string -> Res (gmap string string);
  (* How the outside may move while the process only reads: any preorder.  It lets a
     theorem say what reading leaves alone, for example the objects of the API server. *)
  est_read : est -> est -> Prop;
  est_read_po :: PreOrder est_read;
  kget_read : forall k b key e, est_read e (kget k b key e).2;
  klist_read : forall k o e, est_read e (klist k o e).2;
  sys_fault_read : forall s e, est_read e (sys_fault s e).2;
  read_file_read : forall p e, est_read e (read_file p e).2;
  exec_cmd_read : forall c a fs e, est_read e (exec_cmd c a fs e).2;
  clock_read : forall e, est_read e (clock e).2;
  new_uuid_read : forall e, est_read e (new_uuid e).2;
  map_order_read : forall A e l, est_read e (map_order A e l).2;
  mount_list_read : forall e, est_read e (mount_list e).2;
  get_volume_mode_read : forall p e, est_read e (get_volume_mode p e).2;
  get_block_capacity_read : forall p e, est_read e (get_block_capacity p e).2;
  get_fs_capacity_read : forall p e, est_read e (get_fs_capacity p e).2
}.

#[export] Hint Resolve kget_read klist_read sys_fault_read read_file_read exec_cmd_read clock_read
  new_uuid_read map_order_read mount_list_read get_volume_mode_read get_block_capacity_read
  get_fs_capacity_read : lso.

(** ** Actions and memory *)

Inductive Act :=
  | ASys (s : Syscall) (e : option GoErr)
  | AExec (cmd : string) (args : list string)
  | AGet (k : Kind) (direct : bool) (key : NamespacedName)
  | AList (k : Kind) (o : ListOpts)
  | ACreate (k : Kind) (o : Obj k) (e : option GoErr)
  | AUpdate (k : Kind) (o : Obj k) (e : option GoErr)
  | AStatus (k : Kind) (o : Obj k) (e : option GoErr)
  | ADelete (k : Kind) (o : Obj k) (e : option GoErr)
  | AEvent (type reason message : string)
  | AMetric (name : string) (labels : list string) (v : option Z)
  | ADeletePVs.

(** The writes of a trace to one kind of object, in order. *)
Definition pv_update (a : Act) : option (PersistentVolume * option GoErr) :=
  match a with AUpdate KPV o e => Some (o, e) | _ => None end.
Definition pv_updates (t : list Act) : list (PersistentVolume * option GoErr) := omap pv_update t.
Definition pv_create (a : Act) : option (PersistentVolume * option GoErr) :=
  match a with ACreate KPV o e => Some (o, e) | _ => None end.
Definition pv_creates (t : list Act) : list (PersistentVolume * option GoErr) := omap pv_create t.
(** Creations and updates of volumes together. *)
Definition pv_write (a : Act) : option (PersistentVolume * option GoErr) :=
  match a with ACreate KPV o e | AUpdate KPV o e => Some (o, e) | _ => None end.
Definition pv_writes (t : list Act) : list (PersistentVolume * option GoErr) := omap pv_write t.
Definition lvdl_status_write (a : Act) : option (LocalVolumeDeviceLink * option GoErr) :=
  match a with AStatus KLVDL o e => Some (o, e) | _ => None end.
Definition lvdl_status_writes (t : list Act) : list (LocalVolumeDeviceLink * option GoErr) :=
  omap lvdl_status_write t.
(** The system calls of a trace that write the file tree. *)
Definition sys_write (a : Act) : option (Syscall * option GoErr) :=
  match a with
  | ASys s e =>
      match s with SSymlink _ _ | SRemove _ | SRename _ _ | SMkdirAll _ => Some (s, e) | _ => None end
  | _ => None
  end.
Definition sys_writes (t : list Act) : list (Syscall * option GoErr) := omap sys_write t.

Lemma pv_updates_app t1 t2 : pv_updates (t1 ++ t2)%list = (pv_updates t1 ++ pv_updates t2)%list.
Proof. apply omap_app. Qed.
Lemma pv_creates_app t1 t2 : pv_creates (t1 ++ t2)%list = (pv_creates t1 ++ pv_creates t2)%list.
Proof. apply omap_app. Qed.
Lemma pv_writes_app t1 t2 : pv_writes (t1 ++ t2)%list = (pv_writes t1 ++ pv_writes t2)%list.
Proof. apply omap_app. Qed.
Lemma lvdl_status_writes_app t1 t2 :
  lvdl_status_writes (t1 ++ t2)%list = (lvdl_status_writes t1 ++ lvdl_status_writes t2)%list.
Proof. apply omap_app. Qed.
Lemma sys_writes_app t1 t2 : sys_writes (t1 ++ t2)%list = (sys_writes t1 ++ sys_writes t2)%list.
Proof. apply omap_app. Qed.

(** The provisioner library's RuntimeConfig, as far as the operator sets it. *)
Record RuntimeConfig := {
  rc_Name : string; rc_Node : Node; rc_Namespace : string;
  rc_DiscoveryMap : gmap string MountConfig }.

(** The memory of the process. *)
Record Mem := {
  m_links : gmap string (gmap string LocalVolumeDeviceLink) (* LocalVolumeDeviceLinkCache.localDeviceInfos *);
  m_localNodeName : string (* LocalVolumeDeviceLinkCache.localNodeName *);
  m_linksSynced : bool (* LocalVolumeDeviceLinkCache.synced is closed *);
  m_pvs : gmap string PersistentVolume (* RuntimeConfig.Cache *);
  m_rc : RuntimeConfig (* runtimeConfig *);
  m_ages : gmap string Z (* ageMap.ageMap *);
  m_reported : gset string (* eventReporter.reportedEvents *);
  m_owners : gmap string (gset NamespacedName) (* StorageClassOwnerMap.storageClassMap *);
  m_cacheSynced : bool (* reconciler.cacheSynced *);
  m_requeue : Z (* reconciler.effectiveRequeueTime *);
  m_fds : gmap Z string (* open file descriptors *);
  m_disks : list DiscoveredDevice (* DeviceDiscovery.disks *);
  m_flags : gmap string bool (* one-time flags of the DaemonReconciler *) }.

Definition set_m_links (x : gmap string (gmap string LocalVolumeDeviceLink)) (m : Mem) : Mem :=
  {| m_links := x; m_localNodeName := m_localNodeName m; m_linksSynced := m_linksSynced m; m_pvs := m_pvs m; m_rc := m_rc m; m_ages := m_ages m; m_reported := m_reported m; m_owners := m_owners m; m_cacheSynced := m_cacheSynced m; m_requeue := m_requeue m; m_fds := m_fds m; m_disks := m_disks m; m_flags := m_flags m |}.
Definition set_m_localNodeName (x : string) (m : Mem) : Mem :=
  {| m_links := m_links m; m_localNodeName := x; m_linksSynced := m_linksSynced m; m_pvs := m_pvs m; m_rc := m_rc m; m_ages := m_ages m; m_reported := m_reported m; m_owners := m_owners m; m_cacheSynced := m_cacheSynced m; m_requeue := m_requeue m; m_fds := m_fds m; m_disks := m_disks m; m_flags := m_flags m |}.
Definition set_m_linksSynced (x : bool) (m : Mem) : Mem :=
  {| m_links := m_links m; m_localNodeName := m_localNodeName m; m_linksSynced := x; m_pvs := m_pvs m; m_rc := m_rc m; m_ages := m_ages m; m_reported := m_reported m; m_owners := m_owners m; m_cacheSynced := m_cacheSynced m; m_requeue := m_requeue m; m_fds := m_fds m; m_disks := m_disks m; m_flags := m_flags m |}.
Definition set_m_pvs (x : gmap string PersistentVolume) (m : Mem) : Mem :=
  {| m_links := m_links m; m_localNodeName := m_localNodeName m; m_linksSynced := m_linksSynced m; m_pvs := x; m_rc := m_rc m; m_ages := m_ages m; m_reported := m_reported m; m_owners := m_owners m; m_cacheSynced := m_cacheSynced m; m_requeue := m_requeue m; m_fds := m_fds m; m_disks := m_disks m; m_flags := m_flags m |}.
Definition set_m_rc (x : RuntimeConfig) (m : Mem) : Mem :=
  {| m_links := m_links m; m_localNodeName := m_localNodeName m; m_linksSynced := m_linksSynced m; m_pvs := m_pvs m; m_rc := x; m_ages := m_ages m; m_reported := m_reported m; m_owners := m_owners m; m_cacheSynced := m_cacheSynced m; m_requeue := m_requeue m; m_fds := m_fds m; m_disks := m_disks m; m_flags := m_flags m |}.
Definition set_m_ages (x : gmap string Z) (m : Mem) : Mem :=
  {| m_links := m_links m; m_localNodeName := m_localNodeName m; m_linksSynced := m_linksSynced m; m_pvs := m_pvs m; m_rc := m_rc m; m_ages := x; m_reported := m_reported m; m_owners := m_owners m; m_cacheSynced := m_cacheSynced m; m_requeue := m_requeue m; m_fds := m_fds m; m_disks := m_disks m; m_flags := m_flags m |}.
Definition set_m_reported (x : gset string) (m : Mem) : Mem :=
  {| m_links := m_links m; m_localNodeName := m_localNodeName m; m_linksSynced := m_linksSynced m; m_pvs := m_pvs m; m_rc := m_rc m; m_ages := m_ages m; m_reported := x; m_owners := m_owners m; m_cacheSynced := m_cacheSynced m; m_requeue := m_requeue m; m_fds := m_fds m; m_disks := m_disks m; m_flags := m_flags m |}.
Definition set_m_owners (x : gmap string (gset NamespacedName)) (m : Mem) : Mem :=
  {| m_links := m_links m; m_localNodeName := m_localNodeName m; m_linksSynced := m_linksSynced m; m_pvs := m_pvs m; m_rc := m_rc m; m_ages := m_ages m; m_reported := m_reported m; m_owners := x; m_cacheSynced := m_cacheSynced m; m_requeue := m_requeue m; m_fds := m_fds m; m_disks := m_disks m; m_flags := m_flags m |}.
Definition set_m_cacheSynced (x : bool) (m : Mem) : Mem :=
  {| m_links := m_links m; m_localNodeName := m_localNodeName m; m_linksSynced := m_linksSynced m; m_pvs := m_pvs m; m_rc := m_rc m; m_ages := m_ages m; m_reported := m_reported m; m_owners := m_owners m; m_cacheSynced := x; m_requeue := m_requeue m; m_fds := m_fds m; m_disks := m_disks m; m_flags := m_flags m |}.
Definition set_m_requeue (x : Z) (m : Mem) : Mem :=
  {| m_links := m_links m; m_localNodeName := m_localNodeName m; m_linksSynced := m_linksSynced m; m_pvs := m_pvs m; m_rc := m_rc m; m_ages := m_ages m; m_reported := m_reported m; m_owners := m_owners m; m_cacheSynced := m_cacheSynced m; m_requeue := x; m_fds := m_fds m; m_disks := m_disks m; m_flags := m_flags m |}.
Definition set_m_fds (x : gmap Z string) (m : Mem) : Mem :=
  {| m_links := m_links m; m_localNodeName := m_localNodeName m; m_linksSynced := m_linksSynced m; m_pvs := m_pvs m; m_rc := m_rc m; m_ages := m_ages m; m_reported := m_reported m; m_owners := m_owners m; m_cacheSynced := m_cacheSynced m; m_requeue := m_requeue m; m_fds := x; m_disks := m_disks m; m_flags := m_flags m |}.
Definition set_m_disks (x : list DiscoveredDevice) (m : Mem) : Mem :=
  {| m_links := m_links m; m_localNodeName := m_localNodeName m; m_linksSynced := m_linksSynced m; m_pvs := m_pvs m; m_rc := m_rc m; m_ages := m_ages m; m_reported := m_reported m; m_owners := m_owners m; m_cacheSynced := m_cacheSynced m; m_requeue := m_requeue m; m_fds := m_fds m; m_disks := x; m_flags := m_flags m |}.
Definition set_m_flags (x : gmap string bool) (m : Mem) : Mem :=
  {| m_links := m_links m; m_localNodeName := m_localNodeName m; m_linksSynced := m_linksSynced m; m_pvs := m_pvs m; m_rc := m_rc m; m_ages := m_ages m; m_reported := m_reported m; m_owners := m_owners m; m_cacheSynced := m_cacheSynced m; m_requeue := m_requeue m; m_fds := m_fds m; m_disks := m_disks m; m_flags := x |}.

Definition empty_rc : RuntimeConfig :=
  {| rc_Name := ""; rc_Node := {| nd_meta := empty_meta "" "" |}; rc_Namespace := "";
     rc_DiscoveryMap := ∅ |}.
Definition empty_mem : Mem :=
  {| m_links := ∅; m_localNodeName := ""; m_linksSynced := false; m_pvs := ∅; m_rc := empty_rc;
     m_ages := ∅; m_reported := ∅; m_owners := ∅; m_cacheSynced := false; m_requeue := 0;
     m_fds := ∅; m_disks := []; m_flags := ∅ |}.

(** ** The monad *)

Section monad.
Context {E : Env}.

Record World := { w_fs : FS; w_est : est; w_mem : Mem; w_trace : list Act }.

Definition set_fs (fs : FS) (w : World) : World :=
  {| w_fs := fs; w_est := w_est w; w_mem := w_mem w; w_trace := w_trace w |}.
Definition set_est (e : est) (w : World) : World :=
  {| w_fs := w_fs w; w_est := e; w_mem := w_mem w; w_trace := w_trace w |}.
Definition set_mem (m : Mem) (w : World) : World :=
  {| w_fs := w_fs w; w_est := w_est w; w_mem := m; w_trace := w_trace w |}.
Definition log (a : Act) (w : World) : World :=
  {| w_fs := w_fs w; w_est := w_est w; w_mem := w_mem w; w_trace := (w_trace w ++ [a])%list |}.

Definition M (A : Type) : Type := World -> A * World.

#[export] Instance M_ret : MRet M := fun A a w => (a, w).
Definition bindM {A B} (m : M A) (f : A -> M B) : M B :=
  fun w => let (a, w') := m w in f a w'.

Notation "x ← y ; z" := (bindM y (fun x => z))
  (at level 20, y at level 100, z at level 200, only parsing).
Notation "x ;; z" := (bindM x (fun _ => z))
  (at level 100, z at level 200, only parsing, right associativity).

Definition gets {A} (f : World -> A) : M A := fun w => (f w, w).
Definition modify (f : World -> World) : M unit := fun w => (tt, f w).
Definition get_mem {A} (f : Mem -> A) : M A := gets (fun w => f (w_mem w)).
Definition put_mem (f : Mem -> Mem) : M unit := modify (fun w => set_mem (f (w_mem w)) w).
Definition act (a : Act) : M unit := modify (log a).
(** A call to the outside. *)
Definition ask {A} (f : est -> A * est) : M A :=
  fun w => let (a, e') := f (w_est w) in (a, set_est e' w).

(** [for ... range] with early [return]: stops at the first [Err]. *)
Fixpoint forM {A} (l : list A) (f : A -> M (option GoErr)) : M (option GoErr) :=
  match l with
  | [] => mret None
  | a :: l' => e ← f a;
               match e with Some err => mret (Some err) | None => forM l' f end
  end.

(** A loop whose body never leaves it. *)
Fixpoint forM_ {A} (l : list A) (f : A -> M unit) : M unit :=
  match l with [] => mret tt | a :: l' => f a ;; forM_ l' f end.

(** A loop that threads a value and may leave it with an error. *)
Fixpoint foldM {A B} (f : B -> A -> M (Res B)) (b : B) (l : list A) : M (Res B) :=
  match l with
  | [] => mret (Ok b)
  | a :: l' => r ← f b a;
               match r with Ok b' => foldM f b' l' | Err e => mret (Err e) end
  end.
End monad.

Declare Scope lso_scope.
Notation "x ← y ; z" := (bindM y (fun x => z))
  (at level 20, y at level 100, z at level 200, only parsing) : lso_scope.
Notation "x ;; z" := (bindM x (fun _ => z))
  (at level 100, z at level 200, only parsing, right associativity) : lso_scope.
Open Scope lso_scope.

Arguments World : clear implicits.
Arguments World {E}.
Arguments M {E} A.

(** ** Reasoning about [M] *)

Section reasoning.
Context {E : Env}.
Implicit Types (w : World).

(** [wp m Q w]: running [m] from [w] ends with a value and a world in [Q].
    Every operation is total, so this is total correctness. *)
Definition wp {A} (m : M A) (Q : A -> World -> Prop) (w : World) : Prop :=
  Q (m w).1 (m w).2.

Lemma wp_ret {A} (a : A) Q w : wp (mret a) Q w <-> Q a w.
Proof. done. Qed.

Lemma wp_bind {A B} (m : M A) (f : A -> M B) Q w :
  wp (bindM m f) Q w <-> wp m (fun a w' => wp (f a) Q w') w.
Proof. unfold wp, bindM. by destruct (m w). Qed.

Lemma wp_mono {A} (m : M A) (Q Q' : A -> World -> Prop) w :
  wp m Q w -> (forall a w', Q a w' -> Q' a w') -> wp m Q' w.
Proof. unfold wp. eauto. Qed.

Lemma wp_run {A} (m : M A) Q w : wp m Q w -> exists a w', m w = (a, w') /\ Q a w'.
Proof. unfold wp. destruct (m w) as [a w']. eauto. Qed.

Lemma wp_eq {A} (m : M A) (Q : A -> World -> Prop) w a w' : m w = (a, w') -> Q a w' -> wp m Q w.
Proof. intros Hm HQ. unfold wp. by rewrite Hm. Qed.

Lemma wp_and {A} (m : M A) (Q Q' : A -> World -> Prop) w :
  wp m Q w -> wp m Q' w -> wp m (fun a w' => Q a w' /\ Q' a w') w.
Proof. by split. Qed.

(** A step of which nothing needs to be known. *)
Lemma wp_any {A} (m : M A) (Q : A -> World -> Prop) w : (forall a w', Q a w') -> wp m Q w.
Proof. intros H. apply H. Qed.

Lemma wp_self {A} (m : M A) w : wp m (fun a w' => m w = (a, w')) w.
Proof. unfold wp. by destruct (m w). Qed.

Lemma run_bind {A B} (m : M A) (f : A -> M B) w :
  (bindM m f) w = let (a, w') := m w in f a w'.
Proof. done. Qed.

(** *** Readers: operations that only move the outside *)

Definition reads {A} (m : M A) : Prop :=
  forall w, exists e, (m w).2 = set_est e w /\ est_read (w_est w) e.

Lemma reads_quiet {A} (m : M A) : (forall w, (m w).2 = w) -> reads m.
Proof. intros H w. exists (w_est w). rewrite H. split; [by destruct w|reflexivity]. Qed.

Lemma reads_ret {A} (a : A) : reads (mret a).
Proof. by apply reads_quiet. Qed.

Lemma reads_bind {A B} (m : M A) (f : A -> M B) :
  reads m -> (forall a, reads (f a)) -> reads (bindM m f).
Proof.
  intros Hm Hf w. unfold bindM. destruct (Hm w) as (e & He & Hr).
  destruct (m w) as [a w']; simpl in *; subst. destruct (Hf a (set_est e w)) as (e' & He' & Hr').
  exists e'. split; [done|]. by etrans.
Qed.

Lemma reads_gets {A} (f : World -> A) : reads (gets f).
Proof. by apply reads_quiet. Qed.

Lemma reads_ask {A} (f : est -> A * est) : (forall e, est_read e (f e).2) -> reads (ask f).
Proof.
  intros Hf w. unfold ask. specialize (Hf (w_est w)). destruct (f (w_est w)) as [a e]. by exists e.
Qed.

Lemma reads_foldM {A B} (f : B -> A -> M (Res B)) b l :
  (forall b a, reads (f b a)) -> reads (foldM f b l).
Proof.
  intros Hf. revert b. induction l as [|a l IH]; intros b; simpl; [apply reads_ret|].
  apply reads_bind; [apply Hf|]. intros []; [apply IH|apply reads_ret].
Qed.

(** A reader answers and moves the outside; [m w] is kept for the specification. *)
Lemma wp_reads {A} (m : M A) (Q : A -> World -> Prop) w :
  reads m -> (forall a e, m w = (a, set_est e w) -> Q a (set_est e w)) -> wp m Q w.
Proof.
  intros Hr H. unfold wp. destruct (Hr w) as (e & He & _).
  destruct (m w) as [a w'] eqn:Hm; simpl in *; subst. by apply H.
Qed.

Lemma wp_get_mem {A} (f : Mem -> A) Q w : wp (get_mem f) Q w <-> Q (f (w_mem w)) w.
Proof. done. Qed.
Lemma wp_gets {A} (f : World -> A) Q w : wp (gets f) Q w <-> Q (f w) w.
Proof. done. Qed.
Lemma wp_put_mem f Q w : wp (put_mem f) Q w <-> Q tt (set_mem (f (w_mem w)) w).
Proof. done. Qed.
Lemma wp_act a Q w : wp (act a) Q w <-> Q tt (log a w).
Proof. done. Qed.
Lemma wp_ask {A} (f : est -> A * est) (Q : A -> World -> Prop) w :
  (forall a e, f (w_est w) = (a, e) -> Q a (set_est e w)) -> wp (ask f) Q w.
Proof. intros H. unfold wp, ask. destruct (f (w_est w)) as [a e] eqn:Hf. by apply H. Qed.

(** *** Frames: a relation between the worlds before and after *)

(** Relations that hold when the process only reads. *)
Class ReadRel (R : World -> World -> Prop) : Prop := {
  read_rel_refl :: Reflexive R;
  read_rel_trans :: Transitive R;
  read_rel_est : forall w e, est_read (w_est w) e -> R w (set_est e w) }.

(** Relations that ignore what happens outside. *)
Class Rel (R : World -> World -> Prop) : Prop := {
  rel_refl :: Reflexive R;
  rel_trans :: Transitive R;
  rel_est : forall w e, R w (set_est e w) }.
#[export] Instance rel_read_rel R : Rel R -> ReadRel R.
Proof. split; [apply _..|]. intros. apply rel_est. Qed.

Definition frame {A} (R : World -> World -> Prop) (m : M A) : Prop :=
  forall w, R w (m w).2.

Section frames.
Context (R : World -> World -> Prop) `{HR : !ReadRel R}.

Lemma frame_reads {A} (m : M A) : reads m -> frame R m.
Proof using HR. intros H w. destruct (H w) as (e & -> & Hr). by apply read_rel_est. Qed.

Lemma frame_ret {A} (a : A) : frame R (mret a).
Proof using HR. intros w. reflexivity. Qed.

Lemma frame_bind {A B} (m : M A) (f : A -> M B) :
  frame R m -> (forall a, frame R (f a)) -> frame R (bindM m f).
Proof using HR.
  intros Hm Hf w. unfold bindM. specialize (Hm w).
  destruct (m w) as [a w']. simpl in *. etrans; [done|apply Hf].
Qed.

(** Loops whose body preserves [R] on the elements of the list. *)
Lemma frame_forM_in {A} (l : list A) f : (forall a, a ∈ l -> frame R (f a)) -> frame R (forM l f).
Proof using HR.
  induction l as [|a l IH]; intros Hf; simpl; [apply frame_ret|].
  apply frame_bind; [apply Hf; by left|]. intros []; [apply frame_ret|apply IH; intros; apply Hf; by right].
Qed.
Lemma frame_forM {A} (l : list A) f : (forall a, frame R (f a)) -> frame R (forM l f).
Proof using HR. intros Hf. by apply frame_forM_in. Qed.

Lemma frame_forM__in {A} (l : list A) f : (forall a, a ∈ l -> frame R (f a)) -> frame R (forM_ l f).
Proof using HR.
  induction l as [|a l IH]; intros Hf; simpl; [apply frame_ret|].
  apply frame_bind; [apply Hf; by left|]. intros _. apply IH. intros; apply Hf; by right.
Qed.
Lemma frame_forM_ {A} (l : list A) f : (forall a, frame R (f a)) -> frame R (forM_ l f).
Proof using HR. intros Hf. by apply frame_forM__in. Qed.

Lemma frame_foldM_in {A B} (f : B -> A -> M (Res B)) b l :
  (forall b a, a ∈ l -> frame R (f b a)) -> frame R (foldM f b l).
Proof using HR.
  revert b. induction l as [|a l IH]; intros b Hf; simpl; [apply frame_ret|].
  apply frame_bind; [apply Hf; by left|]. intros []; [apply IH; intros; apply Hf; by right|apply frame_ret].
Qed.
Lemma frame_foldM {A B} (f : B -> A -> M (Res B)) b l :
  (forall b a, frame R (f b a)) -> frame R (foldM f b l).
Proof using HR. intros Hf. by apply frame_foldM_in. Qed.

Lemma frame_wp {A} (m : M A) w : frame R m -> wp m (fun _ w' => R w w') w.
Proof using HR. intros H. apply H. Qed.
End frames.

(** A step of which only the frame is needed. *)
Lemma wp_bind_frame (R : World -> World -> Prop) {A B} (m : M A) (f : A -> M B) Q w :
  frame R m -> (forall a w', R w w' -> wp (f a) Q w') -> wp (bindM m f) Q w.
Proof. intros Hm Hf. apply wp_bind. unfold wp at 1. apply Hf, Hm. Qed.

(** The file tree is not changed. *)
Definition same_fs (w w' : World) : Prop := w_fs w' = w_fs w.
#[export] Instance same_fs_rel : Rel same_fs.
Proof. split; [by intros ?|intros x y z; unfold same_fs; congruence|done]. Qed.

(** The memory is not changed. *)
Definition same_mem (w w' : World) : Prop := w_mem w' = w_mem w.
#[export] Instance same_mem_rel : Rel same_mem.
Proof. split; [by intros ?|intros x y z; unfold same_mem; congruence|done]. Qed.

(** A part of the memory is not changed. *)
Definition same_of {B} (f : Mem -> B) (w w' : World) : Prop := f (w_mem w') = f (w_mem w).
#[export] Instance same_of_rel {B} (f : Mem -> B) : Rel (same_of f).
Proof. split; [by intros ?|intros x y z; unfold same_of; congruence|done]. Qed.

(** The trace grows by actions that satisfy [P]. *)
Definition traces (P : Act -> Prop) (w w' : World) : Prop :=
  exists t, w_trace w' = (w_trace w ++ t)%list /\ Forall P t.
#[export] Instance traces_rel P : Rel (traces P).
Proof.
  split.
  - intros w. exists []. by rewrite app_nil_r.
  - intros x y z (t1 & H1 & F1) (t2 & H2 & F2). exists (t1 ++ t2)%list.
    rewrite H2, H1, app_assoc. split; [done|by apply Forall_app].
  - intros w e. exists []. by rewrite app_nil_r.
Qed.

Lemma traces_mono (P Q : Act -> Prop) w w' :
  (forall a, P a -> Q a) -> traces P w w' -> traces Q w w'.
Proof. intros H (t & ? & ?). exists t. split; [done|]. eapply Forall_impl; eauto. Qed.

Lemma frame_mono {A} (R R' : World -> World -> Prop) (m : M A) :
  (forall w w', R w w' -> R' w w') -> frame R m -> frame R' m.
Proof. intros H Hm w. apply H, Hm. Qed.

(** Both of two frames. *)
Definition rel_both (R R' : World -> World -> Prop) (w w' : World) : Prop := R w w' /\ R' w w'.
#[export] Instance rel_both_rel R R' : Rel R -> Rel R' -> Rel (rel_both R R').
Proof.
  intros HR HR'. split.
  - by split.
  - intros x y z [] []. split; by etrans.
  - split; apply rel_est.
Qed.
Lemma frame_both {A} (R R' : World -> World -> Prop) (m : M A) : frame R m -> frame R' m -> frame (rel_both R R') m.
Proof. by split. Qed.

(** A call to the outside that may change it. *)
Lemma frame_ask R `{!Rel R} {A} (f : est -> A * est) : frame R (ask f).
Proof. intros w. unfold ask. destruct (f (w_est w)) as [a e]. apply rel_est. Qed.

Lemma frame_act R a : (forall w, R w (log a w)) -> frame R (act a).
Proof. intros H w. apply H. Qed.

Lemma traces_log (P : Act -> Prop) a w : P a -> traces P w (log a w).
Proof. intros H. exists [a]. split; [done|by constructor]. Qed.

Lemma frame_put_mem R f : (forall w, R w (set_mem (f (w_mem w)) w)) -> frame R (put_mem f).
Proof. intros H w. apply H. Qed.

Lemma traces_mem P m w : traces P w (set_mem m w).
Proof. exists []. by rewrite app_nil_r. Qed.
End reasoning.

#[export] Hint Resolve reads_ret reads_gets : lso.
#[export] Hint Extern 2 (reads (ask _)) => apply reads_ask; intros; solve [eauto 2 with lso] : lso.

(** Readers by structure. *)
Ltac reads_tac :=
  repeat (intros; first
    [ assumption
    | solve [eauto 3 with lso]
    | apply reads_bind; [|intros ?]
    | apply reads_foldM; intros ? ?
    | progress (cbv beta iota zeta)
    | match goal with |- reads (match ?e with _ => _ end) => destruct e end ]).

(** Frames by structure; [extra] proves the frame of the operations that act. *)
Ltac frame_tac extra :=
  repeat (intros; first
    [ assumption
    | apply frame_ret; apply _
    | solve [extra]
    | apply frame_reads; [apply _|solve [eauto 3 with lso]]
    | match goal with |- frame _ (ask _) => apply frame_ask; apply _ end
    | apply frame_bind; [apply _| |intros ?]
    | apply frame_forM; [apply _|intros ?]
    | apply frame_forM_; [apply _|intros ?]
    | apply frame_foldM; [apply _|intros ? ?]
    | progress (cbv beta iota zeta)
    | match goal with |- frame _ (match ?e with _ => _ end) => destruct e end ]).

(** One step of a [wp]: the goal's operation is a bind, a return, a case
    distinction, an access to the memory, or a reader known to the hints. *)
Ltac wp_step :=
  cbv beta iota zeta;
  lazymatch goal with
  | |- wp (bindM _ _) _ _ => apply wp_bind
  | |- wp (mret _) _ _ => apply wp_ret
  | |- wp (match ?e with _ => _ end) _ _ => destruct e eqn:?
  | |- wp (get_mem _) _ _ => apply wp_get_mem
  | |- wp (gets _) _ _ => apply wp_gets
  | |- wp (put_mem _) _ _ => apply wp_put_mem
  | |- wp (act _) _ _ => apply wp_act
  | |- wp (ask _) _ _ => apply wp_ask; intros
  | |- wp _ _ _ => apply wp_reads; [solve [eauto 3 with lso]|intros]
  end.
Ltac wp_steps := repeat wp_step.

(** The same, with every operation that is not unfolded left arbitrary. *)
Ltac wp_skip :=
  cbv beta iota zeta;
  lazymatch goal with
  | |- wp (bindM _ _) _ _ => apply wp_bind
  | |- wp (mret _) _ _ => apply wp_ret
  | |- wp (match ?e with _ => _ end) _ _ => destruct e eqn:?
  | |- wp _ _ _ => apply wp_any; intros
  end.
Ltac wp_skips := repeat wp_skip.
