(* ===== verification/Sys.v ===== *)
(** * System calls, commands and the API client, as operations of [M]

    Each call first asks the outside whether it fails; a call that fails has
    changed nothing.  Calls that write are recorded in the trace. *)
From stdpp Require Import base list strings gmap.
From Stdlib Require Import ZArith String.
From S2P Require Import Prelude GoLib Types World.

Open Scope string_scope.

Section sys.
Context {E : Env}.
Implicit Types (w : World).

(** ** Reading the file tree *)

Definition read_fs {A} (s : Syscall) (f : FS -> Res A) : M (Res A) :=
  fault ← ask (sys_fault s);
  match fault with Some e => mret (Err e) | None => gets (fun w => f (w_fs w)) end.

Definition Readlink (p : string) : M (Res string) :=
  read_fs (SReadlink p) (fun fs => fs_readlink fs p).
Definition EvalSymlinks (p : string) : M (Res string) :=
  read_fs (SEval p) (fun fs => eval_symlinks fs p).
Definition Stat (p : string) : M (Res FNode) := read_fs (SStat p) (fun fs => fs_stat fs p).
Definition Lstat (p : string) : M (Res FNode) := read_fs (SLstat p) (fun fs => fs_lstat fs p).

(** [filepath.Glob] ignores I/O errors: a failing read gives no match. *)
Definition Glob (p : string) : M (Res (list string)) :=
  fault ← ask (sys_fault (SGlob p));
  match fault with
  | Some _ => mret (Ok [])
  | None => gets (fun w => glob (S (String.length p)) (w_fs w) p)
  end.

(** ** Writing the file tree *)

Definition write_fs (s : Syscall) (f : FS -> Res FS) : M (option GoErr) :=
  fault ← ask (sys_fault s);
  match fault with
  | Some e => act (ASys s (Some e)) ;; mret (Some e)
  | None =>
      fs ← gets w_fs;
      match f fs with
      | Err e => act (ASys s (Some e)) ;; mret (Some e)
      | Ok fs' => modify (set_fs fs') ;; act (ASys s None) ;; mret None
      end
  end.

Definition Symlink (target p : string) : M (option GoErr) :=
  write_fs (SSymlink target p) (fun fs => fs_symlink fs target p).
Definition Remove (p : string) : M (option GoErr) :=
  write_fs (SRemove p) (fun fs => fs_remove fs p).
Definition Rename (a b : string) : M (option GoErr) :=
  write_fs (SRename a b) (fun fs => fs_rename fs a b).
Definition MkdirAll (p : string) : M (option GoErr) :=
  write_fs (SMkdirAll p) (fun fs => fs_mkdir_all fs p).

(** ** Exclusive opens: [unix.Open(p, O_RDONLY|O_EXCL)] *)

Definition fresh_fd (m : gmap Z string) : Z := fold_right Z.max 2%Z (map fst (map_to_list m)) + 1.

(** The descriptor is [-1] when the open fails. *)
Definition OpenExcl (p : string) : M (Z * option GoErr) :=
  fault ← ask (sys_fault (SOpenExcl p));
  match fault with
  | Some e => act (ASys (SOpenExcl p) (Some e)) ;; mret ((-1)%Z, Some e)
  | None =>
      fds ← get_mem m_fds;
      if existsb (fun x => String.eqb x.2 p) (map_to_list fds) then
        let e := PathError p EBUSY in
        act (ASys (SOpenExcl p) (Some e)) ;; mret ((-1)%Z, Some e)
      else
        let fd := fresh_fd fds in
        put_mem (set_m_fds (<[fd := p]> fds)) ;;
        act (ASys (SOpenExcl p) None) ;; mret (fd, None)
  end.

Definition Close (fd : Z) : M (option GoErr) :=
  fault ← ask (sys_fault (SClose fd));
  match fault with
  | Some e => act (ASys (SClose fd) (Some e)) ;; mret (Some e)
  | None =>
      fds ← get_mem m_fds;
      match fds !! fd with
      | None => let e := PathError (itoa fd) EINVAL in
                act (ASys (SClose fd) (Some e)) ;; mret (Some e)
      | Some _ => put_mem (set_m_fds (delete fd fds)) ;;
                  act (ASys (SClose fd) None) ;; mret None
      end
  end.

(** ** Commands *)

(** [exec.Command(cmd, args...).CombinedOutput()] of a command that only reads. *)
Definition CombinedOutput (cmd : string) (args : list string) : M (string * option GoErr) :=
  fun w => let (r, e') := exec_cmd cmd args (w_fs w) (w_est w) in (r, set_est e' w).

(** [exec.Command(cmd, args...).Run()]. *)
Definition Run (cmd : string) (args : list string) : M (option GoErr) :=
  r ← CombinedOutput cmd args;
  act (AExec cmd args) ;;
  mret r.2.

Definition ReadFile (p : string) : M (Res string) := ask (read_file p).

(** ** The API client *)

(** [r.Client.Get] (informer cache) and [r.ClientReader.Get] (API server). *)
Definition ClientGet (k : Kind) (key : NamespacedName) : M (Res (Obj k)) :=
  ask (kget k false key).
Definition ReaderGet (k : Kind) (key : NamespacedName) : M (Res (Obj k)) :=
  ask (kget k true key).
Definition ClientList (k : Kind) (o : ListOpts) : M (Res (list (Obj k))) := ask (klist k o).

Definition ClientCreate (k : Kind) (o : Obj k) : M (Res (Obj k)) :=
  r ← ask (kcreate k o); act (ACreate k o (err_of r)) ;; mret r.
Definition ClientUpdate (k : Kind) (o : Obj k) : M (Res (Obj k)) :=
  r ← ask (kupdate k o); act (AUpdate k o (err_of r)) ;; mret r.
Definition StatusUpdate (k : Kind) (o : Obj k) : M (Res (Obj k)) :=
  r ← ask (kstatus k o); act (AStatus k o (err_of r)) ;; mret r.
Definition ClientDelete (k : Kind) (o : Obj k) : M (option GoErr) :=
  e ← ask (kdelete k o); act (ADelete k o e) ;; mret e.

(** ** Events, metrics, the deleter, maps *)

Definition Eventf (type reason message : string) : M unit := act (AEvent type reason message).
Definition SetMetric (name : string) (labels : list string) (v : Z) : M unit :=
  act (AMetric name labels (Some v)).
Definition DeleteMetric (name : string) (labels : list string) : M unit :=
  act (AMetric name labels None).
Definition DeletePVs : M unit := ask (fun e => (tt, delete_pvs e)) ;; act ADeletePVs.
Definition Getenv (x : string) : string := default "" (getenv x).

(** [for x := range m]: the entries of a Go map in an order the runtime chooses. *)
Definition range_map {A} (l : list A) : M (list A) := ask (fun e => map_order A e l).

Lemma range_map_perm {A} (l : list A) w : (range_map l w).1 ≡ₚ l.
Proof.
  unfold range_map, ask. pose proof (map_order_perm A (w_est w) l) as H.
  by destruct (map_order A (w_est w) l).
Qed.

(** ** Frame and weakest-precondition lemmas *)

Lemma reads_read_fs {A} s (f : FS -> Res A) : reads (read_fs s f).
Proof. unfold read_fs. reads_tac. Qed.
Lemma reads_Readlink p : reads (Readlink p).
Proof. apply reads_read_fs. Qed.
Lemma reads_EvalSymlinks p : reads (EvalSymlinks p).
Proof. apply reads_read_fs. Qed.
Lemma reads_Stat p : reads (Stat p).
Proof. apply reads_read_fs. Qed.
Lemma reads_Lstat p : reads (Lstat p).
Proof. apply reads_read_fs. Qed.
Lemma reads_Glob p : reads (Glob p).
Proof. unfold Glob. reads_tac. Qed.
Lemma reads_CombinedOutput cmd args : reads (CombinedOutput cmd args).
Proof. intros w. unfold CombinedOutput. pose proof (exec_cmd_read cmd args (w_fs w) (w_est w)) as H.
  destruct (exec_cmd _ _ _ _) as [r e]. by exists e.
Qed.
Lemma reads_ReadFile p : reads (ReadFile p).
Proof. apply reads_ask. eauto with lso. Qed.
Lemma reads_ClientGet k key : reads (ClientGet k key).
Proof. apply reads_ask. eauto with lso. Qed.
Lemma reads_ReaderGet k key : reads (ReaderGet k key).
Proof. apply reads_ask. eauto with lso. Qed.
Lemma reads_ClientList k o : reads (ClientList k o).
Proof. apply reads_ask. eauto with lso. Qed.
Lemma reads_range_map {A} (l : list A) : reads (range_map l).
Proof. apply reads_ask. eauto with lso. Qed.
Lemma reads_get_mem {A} (f : Mem -> A) : reads (get_mem f).
Proof. apply reads_gets. Qed.

(** What follows a loop over a map holds for every order. *)
Lemma frame_range_map R `{!ReadRel R} {A B} (l : list A) (f : list A -> M B) :
  (forall l', l' ≡ₚ l -> frame R (f l')) -> frame R (bindM (range_map l) f).
Proof.
  intros H w. unfold bindM. pose proof (range_map_perm l w) as Hp.
  pose proof (frame_reads R (range_map l) (reads_range_map l) w) as Hr.
  destruct (range_map l w) as [l' w1]. simpl in *. etrans; [done|by apply H].
Qed.

(** A reading system call fails as the outside says or answers from the tree. *)
Lemma wp_read_fs {A} s (f : FS -> Res A) (Q : Res A -> World -> Prop) w :
  (forall e en, (sys_fault s (w_est w)).1 = Some e -> Q (Err e) (set_est en w)) ->
  (forall en, (sys_fault s (w_est w)).1 = None -> Q (f (w_fs w)) (set_est en w)) ->
  wp (read_fs s f) Q w.
Proof.
  intros He Hok. unfold wp, read_fs, bindM, ask, gets, mret, M_ret.
  destruct (sys_fault s (w_est w)) as [[e|] en]; simpl; [by apply He|by apply Hok].
Qed.

(** A writing system call either reports an error and leaves the tree alone or
    changes it as specified; it is recorded either way. *)
Lemma wp_write_fs s f (Q : option GoErr -> World -> Prop) w :
  (forall e en, (sys_fault s (w_est w)).1 = Some e \/ f (w_fs w) = Err e ->
     Q (Some e) (log (ASys s (Some e)) (set_est en w))) ->
  (forall fs' en, f (w_fs w) = Ok fs' -> Q None (log (ASys s None) (set_fs fs' (set_est en w)))) ->
  wp (write_fs s f) Q w.
Proof.
  intros He Hok. unfold wp, write_fs, bindM, ask, gets, modify, act, mret, M_ret.
  destruct (sys_fault s (w_est w)) as [[e|] en]; simpl; [apply He; by left|].
  destruct (f (w_fs w)) as [fs'|e] eqn:Hf; simpl; [by apply Hok|apply He; by right].
Qed.

Lemma frame_write_fs R `{!Rel R} s f :
  (forall w e en, R w (log (ASys s e) (set_est en w))) ->
  (forall w fs' en, f (w_fs w) = Ok fs' -> R w (log (ASys s None) (set_fs fs' (set_est en w)))) ->
  frame R (write_fs s f).
Proof. intros H1 H2 w. apply (wp_write_fs s f (fun _ w' => R w w') w); eauto. Qed.

Lemma traces_write_fs (P : Act -> Prop) s f : (forall e, P (ASys s e)) -> frame (traces P) (write_fs s f).
Proof.
  intros HP. apply frame_write_fs; [apply _|..]; intros w.
  - intros e en. apply (rel_trans w (set_est en w)); [apply rel_est|by apply traces_log].
  - intros fs' en _. exists [ASys s None]. split; [done|by constructor].
Qed.

Lemma same_mem_write_fs s f : frame same_mem (write_fs s f).
Proof. apply frame_write_fs; [apply _|done..]. Qed.

(** The API calls that write only add themselves to the trace. *)
Lemma frame_ask_act R `{!Rel R} {A} (f : est -> A * est) (a : A -> Act) :
  (forall w x, R w (log (a x) w)) -> frame R (r ← ask f; act (a r) ;; mret r).
Proof.
  intros H. apply frame_bind; [apply _|apply frame_ask, _|].
  intros r. apply frame_bind; [apply _|by apply frame_act|]. intros _. apply frame_ret, _.
Qed.
End sys.

#[export] Hint Resolve reads_Readlink reads_EvalSymlinks reads_Stat reads_Lstat reads_Glob
  reads_CombinedOutput reads_ReadFile reads_ClientGet reads_ReaderGet reads_ClientList
  reads_range_map reads_get_mem : lso.
(** The type of the answer may be written without [Obj]. *)
#[export] Hint Extern 1 (reads (ClientGet ?k ?key)) => exact (reads_ClientGet k key) : lso.
#[export] Hint Extern 1 (reads (ReaderGet ?k ?key)) => exact (reads_ReaderGet k key) : lso.
#[export] Hint Extern 1 (reads (ClientList ?k ?o)) => exact (reads_ClientList k o) : lso.
#[export] Hint Extern 1 (same_fs _ _) => reflexivity : lso.
#[export] Hint Extern 1 (same_mem _ _) => reflexivity : lso.
#[export] Hint Extern 1 (same_of _ _ _) => reflexivity : lso.

Create HintDb lso_traces.

(** Frames of the trace: [traces P], for a [P] that computes. *)
Ltac traces_tac :=
  frame_tac ltac:(idtac;
    match goal with
    | |- frame _ (act _) => apply frame_act; intros; by apply traces_log
    | |- frame _ (Eventf _ _ _) => apply frame_act; intros; by apply traces_log
    | |- frame _ (SetMetric _ _ _) => apply frame_act; intros; by apply traces_log
    | |- frame _ (DeleteMetric _ _) => apply frame_act; intros; by apply traces_log
    | |- frame _ (put_mem _) => apply frame_put_mem; intros; apply traces_mem
    | |- frame _ (ClientCreate _ _) => apply (frame_ask_act _); intros; by apply traces_log
    | |- frame _ (ClientUpdate _ _) => apply (frame_ask_act _); intros; by apply traces_log
    | |- frame _ (StatusUpdate _ _) => apply (frame_ask_act _); intros; by apply traces_log
    | |- frame _ (ClientDelete _ _) => apply (frame_ask_act _); intros; by apply traces_log
    | |- frame _ (Symlink _ _) => by apply traces_write_fs
    | |- frame _ (Remove _) => by apply traces_write_fs
    | |- frame _ (Rename _ _) => by apply traces_write_fs
    | |- frame _ (MkdirAll _) => by apply traces_write_fs
    | |- frame _ _ => solve [eauto 2 with lso_traces]
    end).

(** Frames of a part of the memory, [same_of f]: what changes another part computes. *)
Create HintDb lso_same.
Ltac same_tac :=
  frame_tac ltac:(idtac;
    match goal with
    | |- frame _ (act _) => apply frame_act; done
    | |- frame _ (Eventf _ _ _) => apply frame_act; done
    | |- frame _ (SetMetric _ _ _) => apply frame_act; done
    | |- frame _ (DeleteMetric _ _) => apply frame_act; done
    | |- frame _ (put_mem _) => apply frame_put_mem; done
    | |- frame _ (ClientCreate _ _) => apply (frame_ask_act _); done
    | |- frame _ (ClientUpdate _ _) => apply (frame_ask_act _); done
    | |- frame _ (StatusUpdate _ _) => apply (frame_ask_act _); done
    | |- frame _ (ClientDelete _ _) => apply (frame_ask_act _); done
    | |- frame _ (Symlink _ _) => apply frame_write_fs; [apply _|done|done]
    | |- frame _ (Remove _) => apply frame_write_fs; [apply _|done|done]
    | |- frame _ (Rename _ _) => apply frame_write_fs; [apply _|done|done]
    | |- frame _ (MkdirAll _) => apply frame_write_fs; [apply _|done|done]
    | |- frame _ _ => solve [eauto 2 with lso_same]
    end).
