(* ===== verification/Envs.v ===== *)
(** * Concrete outsides

    The outside is a parameter of every operation; the witnesses run them on these
    instances: an API server that answers from given functions and accepts every
    write, system calls that fail as given, commands with given outputs. *)
From stdpp Require Import base list strings gmap.
From Stdlib Require Import ZArith String.
From S2P Require Import Prelude GoLib Types World Sys.

Open Scope string_scope.

Record Static := {
  st_get : forall k, NamespacedName -> Res (Obj k);
  st_list : forall k, ListOpts -> list (Obj k);
  st_fault : Syscall -> option GoErr;
  st_exec : string -> list string -> string * option GoErr;
  st_file : string -> Res string;
  st_clock : Z }.

(** The provisioner's configuration of the examples: one class of raw block volumes. *)
Definition ex_config : gmap string MountConfig :=
  {["sc" := {| mc_FsType := ""; mc_HostDir := "/mnt/local-storage/sc"; mc_MountDir := "/mnt/local-storage/sc";
               mc_VolumeMode := PersistentVolumeBlock |}]}.

(** The embedded YAML files, in the fields the records have. *)
Definition ex_pair (k : string) (pairs : list (string * string)) : string :=
  default k (snd <$> List.find (fun p => String.eqb p.1 k) pairs).

Definition ex_daemonset (name ns image proxy : string) : DaemonSet := {|
  ds_meta := set_labels {["app" := name]} (empty_meta ns name);
  ds_Selector := {["app" := name]}; ds_TemplateLabels := {["app" := name]};
  ds_TemplateAnnotations :=
    {["target.workload.openshift.io/management" := "{'effect': 'PreferredDuringScheduling'}"]};
  ds_ServiceAccountName := "local-storage-admin"; ds_PriorityClassName := "${PRIORITY_CLASS_NAME}";
  ds_Tolerations := []; ds_NodeAffinity := None; ds_Volumes := ["local-disks"; "device-dir"; "run-udev"];
  ds_Containers := [{| ct_Name := name; ct_Image := image; ct_Env := [("MY_NODE_NAME", "spec.nodeName")] |};
                    {| ct_Name := "kube-rbac-proxy"; ct_Image := proxy; ct_Env := [] |}];
  ds_UpdateStrategy := "RollingUpdate"; ds_HostPID := true;
  ds_NumberUnavailable := 0; ds_CurrentNumberScheduled := 0; ds_DesiredNumberScheduled := 0;
  ds_NumberReady := 0 |}.

Definition ex_template (k : Kind) (file : string) (pairs : list (string * string)) : Res (Obj k) :=
  let p x := ex_pair x pairs in
  let meta := set_labels {["app" := p "${APP_LABEL}"]} (empty_meta (p "${OBJECT_NAMESPACE}") (p "${OBJECT_NAME}")) in
  match k with
  | KDS => Ok (ex_daemonset (if String.eqb file "templates/diskmaker-manager-daemonset.yaml"
                             then "diskmaker-manager" else "diskmaker-discovery")
                 (p "${OBJECT_NAMESPACE}") (p "${CONTAINER_IMAGE}") (p "${RBAC_PROXY_IMAGE}"))
  | KCM => Ok {| cm_meta := set_labels {["app" := "local-provisioner"]}
                              (empty_meta (p "${OBJECT_NAMESPACE}") "local-provisioner"); cm_Data := ∅ |}
  | KSC => Ok {| sc_meta := empty_meta "" (p "${OBJECT_NAME}"); sc_Provisioner := "kubernetes.io/no-provisioner";
                 sc_ReclaimPolicy := Some ReclaimDelete; sc_VolumeBindingMode := Some "WaitForFirstConsumer";
                 sc_MountOptions := []; sc_AllowedTopologies := [] |}
  | KSvc => Ok {| svc_meta := meta; svc_ClusterIP := ""; svc_Spec := "ports" |}
  | KSM => Ok {| mo_meta := meta; mo_Spec := "endpoints" |}
  | KRule => Ok {| mo_meta := set_labels {["app" := "local-storage-operator"]}
                     (empty_meta (p "${OBJECT_NAMESPACE}") "local-storage-operator"); mo_Spec := "groups" |}
  | _ => Err (Errorf "no template")
  end.

#[global] Instance static_env (s : Static) : Env | 100.
Proof.
  refine {|
    est := unit;
    kget := fun k _ key e => (st_get s k key, e);
    klist := fun k o e => (Ok (st_list s k o), e);
    kcreate := fun _ o e => (Ok o, e);
    kupdate := fun _ o e => (Ok o, e);
    kstatus := fun _ o e => (Ok o, e);
    kdelete := fun _ _ e => (None, e);
    sys_fault := fun c e => (st_fault s c, e);
    read_file := fun p e => (st_file s p, e);
    exec_cmd := fun c a _ e => (st_exec s c a, e);
    clock := fun e => (st_clock s, e);
    new_uuid := fun e => ("uuid", e);
    map_order := fun A e l => (l, e);
    getenv := fun _ => None;
    delete_pvs := fun e => e;
    mount_list := fun e => (Ok [], e);
    get_volume_mode := fun _ e => (Ok PersistentVolumeBlock, e);
    get_block_capacity := fun _ e => (Ok (100 * 1073741824)%Z, e);
    get_fs_capacity := fun _ e => (Ok (100 * 1073741824)%Z, e);
    load_volume_config := fun _ => Ok ex_config;
    match_node_selector_terms := fun _ _ => Ok true;
    parse_quantity := fun _ => Ok 0%Z;
    read_template := ex_template;
    volume_config_data := fun m _ => Ok ((fun c => mc_HostDir c) <$> m);
    est_read := fun _ _ => True |}; done.
Defined.

(** Another decoder and encoder of the provisioner's configuration and another selector. *)
Definition with_library (E : Env) (load : gmap string string -> Res (gmap string MountConfig))
  (data : gmap string MountConfig -> list string -> Res (gmap string string))
  (sel : Node -> NodeSelector -> Res bool) : Env := {|
  est := est; kget := kget; klist := klist; kcreate := kcreate; kupdate := kupdate; kstatus := kstatus;
  kdelete := kdelete; sys_fault := sys_fault; read_file := read_file; exec_cmd := exec_cmd; clock := clock;
  new_uuid := new_uuid; map_order := map_order; map_order_perm := map_order_perm; getenv := getenv;
  delete_pvs := delete_pvs; mount_list := mount_list; get_volume_mode := get_volume_mode;
  get_block_capacity := get_block_capacity; get_fs_capacity := get_fs_capacity;
  load_volume_config := load; match_node_selector_terms := sel; parse_quantity := parse_quantity;
  read_template := read_template; volume_config_data := data;
  est_read := est_read; est_read_po := est_read_po; kget_read := kget_read; klist_read := klist_read;
  sys_fault_read := sys_fault_read; read_file_read := read_file_read; exec_cmd_read := exec_cmd_read;
  clock_read := clock_read; new_uuid_read := new_uuid_read; map_order_read := map_order_read;
  mount_list_read := mount_list_read; get_volume_mode_read := get_volume_mode_read;
  get_block_capacity_read := get_block_capacity_read; get_fs_capacity_read := get_fs_capacity_read |}.

(** Nothing exists, nothing fails. *)
Definition quiet : Static := {|
  st_get := fun _ key => Err (StatusError ReasonNotFound (nn_Name key ++s " not found"));
  st_list := fun _ _ => [];
  st_fault := fun _ => None;
  st_exec := fun _ _ => ("", None);
  st_file := fun p => Err (PathError p ENOENT);
  st_clock := 1000%Z |}.

Definition static_world (s : Static) (fs : FS) (m : Mem) : World (E := static_env s) :=
  Build_World (E := static_env s) fs (tt : est (Env := static_env s)) m [].
