(* ===== verification/Crash.v ===== *)
(** * Crashes between system calls

    The trace records every system call that changed the tree, so the tree at any
    moment of a run is the replay of a prefix of the trace.  [crash_wp I m Q w]
    says that the run of [m] from [w] ends in [Q] and that the tree satisfies [I]
    at every moment: wherever the process is killed, what it leaves is in [I]. *)
From stdpp Require Import base list strings gmap.
From Stdlib Require Import ZArith String.
From S2P Require Import Prelude GoLib Types World Sys.

Open Scope string_scope.

Definition ok_or (fs : FS) (r : Res FS) : FS := match r with Ok fs' => fs' | Err _ => fs end.

(** The effect on the tree of a recorded action. *)
Definition apply_act (fs : FS) (a : Act) : FS :=
  match a with
  | ASys (SSymlink t p) None => ok_or fs (fs_symlink fs t p)
  | ASys (SRemove p) None => ok_or fs (fs_remove fs p)
  | ASys (SRename a b) None => ok_or fs (fs_rename fs a b)
  | ASys (SMkdirAll p) None => ok_or fs (fs_mkdir_all fs p)
  | _ => fs
  end.

Definition replay (fs : FS) (t : list Act) : FS := fold_left apply_act t fs.

(** [I] holds of the tree after every prefix of [t]. *)
Definition always (I : FS -> Prop) (fs : FS) (t : list Act) : Prop :=
  forall t1 t2, t = (t1 ++ t2)%list -> I (replay fs t1).

Lemma replay_app fs t1 t2 : replay fs (t1 ++ t2)%list = replay (replay fs t1) t2.
Proof. apply fold_left_app. Qed.

Lemma always_nil (I : FS -> Prop) fs : I fs -> always I fs [].
Proof. intros H t1 t2 Ht. symmetry in Ht. by apply app_nil in Ht as [-> ->]. Qed.

Lemma always_app (I : FS -> Prop) fs t1 t2 :
  always I fs t1 -> always I (replay fs t1) t2 -> always I fs (t1 ++ t2)%list.
Proof.
  intros H1 H2 u1 u2 Hu. apply app_eq_inv in Hu as [(k & -> & ->)|(k & -> & ->)].
  - by eapply H1.
  - rewrite replay_app. by eapply H2.
Qed.

Lemma always_one (I : FS -> Prop) fs a : I fs -> I (apply_act fs a) -> always I fs [a].
Proof.
  intros H0 H1 [|x t1] t2 Ht; simplify_eq/=; [done|].
  match goal with H : [] = _ |- _ => symmetry in H; apply app_nil in H as [-> ->] end. done.
Qed.

Lemma apply_act_quiet fs a : sys_write a = None -> apply_act fs a = fs.
Proof. by destruct a as [[] []| | | | | | | | | |]. Qed.

Lemma replay_quiet fs t : Forall (fun a => sys_write a = None) t -> replay fs t = fs.
Proof.
  revert fs. induction t as [|a t IH]; intros fs H; [done|]. apply Forall_cons in H as [Ha Ht].
  simpl. rewrite apply_act_quiet by done. by apply IH.
Qed.

Lemma always_quiet (I : FS -> Prop) fs t :
  Forall (fun a => sys_write a = None) t -> I fs -> always I fs t.
Proof.
  intros Hq HI t1 t2 ->. apply Forall_app in Hq as [Hq _]. by rewrite replay_quiet.
Qed.

Section crash.
Context {E : Env}.

(** Operations that leave the tree alone and make no system call that writes it. *)
Definition fs_quiet (w w' : World) : Prop :=
  same_fs w w' /\ traces (fun a => sys_write a = None) w w'.
#[export] Instance fs_quiet_rel : Rel fs_quiet.
Proof.
  split.
  - intros w. split; reflexivity.
  - intros x y z [? ?] [? ?]. split; etrans; eauto.
  - intros w e. split; apply rel_est.
Qed.

Lemma fs_quiet_log a w : sys_write a = None -> fs_quiet w (log a w).
Proof. intros H. split; [done|by apply traces_log]. Qed.

Lemma fs_quiet_mem m w : fs_quiet w (set_mem m w).
Proof. split; [done|apply traces_mem]. Qed.

Definition history (I : FS -> Prop) (w w' : World) : Prop :=
  exists t, w_trace w' = (w_trace w ++ t)%list /\ w_fs w' = replay (w_fs w) t /\ always I (w_fs w) t.

Lemma history_refl (I : FS -> Prop) w : I (w_fs w) -> history I w w.
Proof. intros H. exists []. rewrite app_nil_r. repeat split; [done..|by apply always_nil]. Qed.

Lemma history_trans I w1 w2 w3 : history I w1 w2 -> history I w2 w3 -> history I w1 w3.
Proof.
  intros (t1 & T1 & F1 & A1) (t2 & T2 & F2 & A2). exists (t1 ++ t2)%list.
  rewrite T2, T1, F2, F1, app_assoc, replay_app. repeat split; [done..|].
  apply always_app; [done|]. by rewrite <- F1.
Qed.

Lemma history_quiet (I : FS -> Prop) w w' : I (w_fs w) -> fs_quiet w w' -> history I w w'.
Proof.
  intros HI [Hf (t & Ht & Hq)]. exists t. split; [done|]. split.
  - by rewrite replay_quiet.
  - by apply always_quiet.
Qed.

Definition crash_wp {A} (I : FS -> Prop) (m : M A) (Q : A -> World -> Prop) (w : World) : Prop :=
  wp m (fun a w' => history I w w' /\ Q a w') w.

Lemma cwp_ret {A} I (a : A) (Q : A -> World -> Prop) w : I (w_fs w) -> Q a w -> crash_wp I (mret a) Q w.
Proof. intros HI HQ. apply wp_ret. split; [by apply history_refl|done]. Qed.

Lemma cwp_bind {A B} I (m : M A) (f : A -> M B) Q w :
  crash_wp I m (fun a w' => crash_wp I (f a) Q w') w -> crash_wp I (bindM m f) Q w.
Proof.
  intros H. apply wp_bind. eapply wp_mono; [apply H|]. intros a w1 [H1 H2].
  eapply wp_mono; [apply H2|]. intros b w2 [H3 H4]. split; [by eapply history_trans|done].
Qed.

Lemma cwp_mono {A} I (m : M A) (Q Q' : A -> World -> Prop) w :
  crash_wp I m Q w -> (forall a w', Q a w' -> Q' a w') -> crash_wp I m Q' w.
Proof. intros H HQ. eapply wp_mono; [apply H|]. intros a w' [? ?]. auto. Qed.

(** An operation that is quiet on the tree, with what is known of its result. *)
Lemma cwp_quiet {A} (I : FS -> Prop) (m : M A) (Q : A -> World -> Prop) w :
  I (w_fs w) -> frame fs_quiet m ->
  wp m (fun a w' => fs_quiet w w' -> Q a w') w -> crash_wp I m Q w.
Proof.
  intros HI Hf H. unfold crash_wp, wp in *. pose proof (Hf w) as Hq.
  split; [by apply history_quiet|by apply H].
Qed.

Lemma cwp_reads {A} (I : FS -> Prop) (m : M A) (Q : A -> World -> Prop) w :
  I (w_fs w) -> reads m -> (forall a e, m w = (a, set_est e w) -> Q a (set_est e w)) -> crash_wp I m Q w.
Proof.
  intros HI Hr H. apply cwp_quiet; [done|apply frame_reads; [apply _|done]|].
  apply wp_reads; [done|]. auto.
Qed.

Lemma cwp_write_fs (I : FS -> Prop) s f (Q : option GoErr -> World -> Prop) w :
  (forall fs fs', f fs = Ok fs' -> apply_act fs (ASys s None) = fs') ->
  I (w_fs w) ->
  (forall e en, (sys_fault s (w_est w)).1 = Some e \/ f (w_fs w) = Err e ->
     Q (Some e) (log (ASys s (Some e)) (set_est en w))) ->
  (forall fs' en, f (w_fs w) = Ok fs' ->
     I fs' /\ Q None (log (ASys s None) (set_fs fs' (set_est en w)))) ->
  crash_wp I (write_fs s f) Q w.
Proof.
  intros Happ HI He Hok. apply wp_write_fs.
  - intros e en H. split; [|by apply He]. exists [ASys s (Some e)]. split; [done|].
    assert (forall fs, apply_act fs (ASys s (Some e)) = fs) as Hid by (by destruct s).
    split; [symmetry; apply Hid|]. apply always_one; [done|by rewrite Hid].
  - intros fs' en H. destruct (Hok fs' en H) as [HI' HQ]. split; [|done].
    exists [ASys s None]. split; [done|]. apply Happ in H as Ha. split; [symmetry; apply Ha|].
    apply always_one; [done|by rewrite Ha].
Qed.

Lemma crash_wp_inv {A} (I I' : FS -> Prop) (m : M A) Q w :
  (forall fs, I fs -> I' fs) -> crash_wp I m Q w -> crash_wp I' m Q w.
Proof.
  intros HI H. eapply wp_mono; [apply H|]. intros a w' [(t & T & F & A') HQ].
  split; [|done]. exists t. split; [done|]. split; [done|]. intros t1 t2 Ht. eapply HI, A', Ht.
Qed.

(** The invariant holds when the operation returns. *)
Lemma cwp_now {A} (I : FS -> Prop) (m : M A) Q w :
  crash_wp I m Q w -> crash_wp I m (fun a w' => I (w_fs w') /\ Q a w') w.
Proof.
  intros H. eapply wp_mono; [apply H|]. intros a w' [(t & T & F & A') HQ].
  split; [by exists t|]. split; [|done]. rewrite F. apply (A' t []). by rewrite app_nil_r.
Qed.

Lemma fs_mkdir_all_adds fs p fs' :
  fs_mkdir_all fs p = Ok fs' -> forall q, fs' !! q = fs !! q \/ fs !! q = None /\ fs' !! q = Some NDir.
Proof.
  unfold fs_mkdir_all. generalize (prefixes_go [] (comps p)). intros ps.
  revert fs. induction ps as [|d ps IH]; intros fs; simpl; [intros [= ->]; by left|].
  assert (forall (l : list string) (e : GoErr), fold_left (fun acc d => match acc with
    | Err e => Err e
    | Ok fs => match (fs : FS) !! d with
               | Some NDir => Ok fs
               | Some (NLink _) => match fs_stat fs d with
                                   | Ok NDir => Ok fs | _ => Err (PathError d ENOTDIR) end
               | Some _ => Err (PathError d ENOTDIR)
               | None => Ok (<[d := NDir]> fs)
               end end) l (Err e) = Err e) as Herr by (induction l; simpl; auto).
  destruct (fs !! d) as [n|] eqn:Hd.
  - destruct n as [|t| |]; try (rewrite Herr; discriminate); [apply IH|].
    destruct (fs_stat fs d) as [[]|]; try (rewrite Herr; discriminate). apply IH.
  - intros H q. destruct (IH _ H q) as [->|[Hn ->]].
    + destruct (decide (q = d)) as [->|]; [right; by rewrite lookup_insert_eq|left; by rewrite lookup_insert_ne].
    + right. split; [|done]. destruct (decide (q = d)) as [->|]; [done|by rewrite lookup_insert_ne in Hn].
Qed.

Lemma cwp_MkdirAll (I : FS -> Prop) p (Q : option GoErr -> World -> Prop) w :
  I (w_fs w) -> (forall fs', fs_mkdir_all (w_fs w) p = Ok fs' -> I fs') ->
  (forall r w', (w_fs w' = w_fs w /\ r <> None \/ fs_mkdir_all (w_fs w) p = Ok (w_fs w') /\ r = None) ->
     w_mem w' = w_mem w -> w_trace w' = (w_trace w ++ [ASys (SMkdirAll p) r])%list -> Q r w') ->
  crash_wp I (MkdirAll p) Q w.
Proof.
  intros HI HI' H. apply cwp_write_fs; [|done|..].
  - intros fs fs' Hf. unfold apply_act. by rewrite Hf.
  - intros e en _. apply H; [by left|done|done].
  - intros fs' en Hf. split; [by apply HI'|]. apply H; [by right|done|done].
Qed.

Lemma cwp_Remove (I : FS -> Prop) p (Q : option GoErr -> World -> Prop) w :
  I (w_fs w) -> I (delete (fkey p) (w_fs w)) ->
  (forall r w', (w_fs w' = w_fs w /\ r <> None \/ w_fs w' = delete (fkey p) (w_fs w) /\ r = None) ->
     w_mem w' = w_mem w -> w_trace w' = (w_trace w ++ [ASys (SRemove p) r])%list -> Q r w') ->
  crash_wp I (Remove p) Q w.
Proof.
  intros HI HI' H. apply cwp_write_fs; [|done|..].
  - intros fs fs' Hf. unfold apply_act. by rewrite Hf.
  - intros e en _. apply H; [by left|done|done].
  - intros fs' en Hf. assert (fs' = delete (fkey p) (w_fs w)) as ->.
    { unfold fs_remove in Hf. repeat (hyp_case Hf); congruence. }
    split; [done|]. apply H; [by right|done|done].
Qed.

Lemma cwp_Symlink (I : FS -> Prop) t p (Q : option GoErr -> World -> Prop) w :
  I (w_fs w) -> (w_fs w !! fkey p = None -> I (<[fkey p := NLink t]> (w_fs w))) ->
  (forall r w', (w_fs w' = w_fs w /\ r <> None \/
       w_fs w !! fkey p = None /\ w_fs w' = <[fkey p := NLink t]> (w_fs w) /\ r = None) ->
     w_mem w' = w_mem w -> w_trace w' = (w_trace w ++ [ASys (SSymlink t p) r])%list -> Q r w') ->
  crash_wp I (Symlink t p) Q w.
Proof.
  intros HI HI' H. apply cwp_write_fs; [|done|..].
  - intros fs fs' Hf. unfold apply_act. by rewrite Hf.
  - intros e en _. apply H; [by left|done|done].
  - intros fs' en Hf. unfold fs_symlink in Hf. destruct (w_fs w !! fkey p) eqn:Hp; [done|].
    hyp_case Hf; [|done]. injection Hf as <-. split; [by apply HI'|].
    apply H; [by right|done|done].
Qed.

Lemma cwp_Rename (I : FS -> Prop) a b (Q : option GoErr -> World -> Prop) w :
  I (w_fs w) ->
  (forall n, w_fs w !! fkey a = Some n -> I (<[fkey b := n]> (delete (fkey a) (w_fs w)))) ->
  (forall r w', (w_fs w' = w_fs w /\ r <> None \/
       (exists n, w_fs w !! fkey a = Some n /\ w_fs w' = <[fkey b := n]> (delete (fkey a) (w_fs w)))
       /\ r = None) ->
     w_mem w' = w_mem w -> w_trace w' = (w_trace w ++ [ASys (SRename a b) r])%list -> Q r w') ->
  crash_wp I (Rename a b) Q w.
Proof.
  intros HI HI' H. apply cwp_write_fs; [|done|..].
  - intros fs fs' Hf. unfold apply_act. by rewrite Hf.
  - intros e en _. apply H; [by left|done|done].
  - intros fs' en Hf. unfold fs_rename in Hf. destruct (w_fs w !! fkey a) as [n|] eqn:Ha; [|done].
    assert (fs' = <[fkey b := n]> (delete (fkey a) (w_fs w))) as -> by (repeat (hyp_case Hf); congruence).
    split; [by apply HI'|]. apply H; [|done|done]. right. split; [by exists n|done].
Qed.

(** [I] is kept at every moment of any run that starts in it. *)
Definition keeps {A} (I : FS -> Prop) (m : M A) : Prop :=
  forall w, I (w_fs w) -> crash_wp I m (fun _ w' => I (w_fs w')) w.

Lemma keeps_ret {A} I (a : A) : keeps I (mret a).
Proof. intros w HI. by apply cwp_ret. Qed.

Lemma keeps_bind {A B} I (m : M A) (f : A -> M B) : keeps I m -> (forall a, keeps I (f a)) -> keeps I (bindM m f).
Proof. intros Hm Hf w HI. apply cwp_bind. eapply cwp_mono; [by apply Hm|]. intros a w' HI'. by apply Hf. Qed.

Lemma keeps_quiet {A} I (m : M A) : frame fs_quiet m -> keeps I m.
Proof.
  intros Hm w HI. apply cwp_quiet; [done|done|]. apply wp_any. intros a w' [Hf _].
  unfold same_fs in Hf. by rewrite Hf.
Qed.

Lemma keeps_reads {A} I (m : M A) : reads m -> keeps I m.
Proof. intros Hr. by apply keeps_quiet, frame_reads; [apply _|]. Qed.

Lemma keeps_forM {A} I (l : list A) f : (forall a, keeps I (f a)) -> keeps I (forM l f).
Proof.
  intros Hf. induction l as [|a l IH]; simpl; [apply keeps_ret|].
  apply keeps_bind; [apply Hf|]. intros []; [apply keeps_ret|apply IH].
Qed.

Lemma keeps_forM_ {A} I (l : list A) f : (forall a, keeps I (f a)) -> keeps I (forM_ l f).
Proof.
  intros Hf. induction l as [|a l IH]; simpl; [apply keeps_ret|]. apply keeps_bind; [apply Hf|intros _; apply IH].
Qed.
End crash.

(** Frames of operations that write no link: the API, events, metrics, memory. *)
Ltac quiet_tac :=
  frame_tac ltac:(idtac;
    match goal with
    | |- frame _ (act _) => apply frame_act; intros; by apply fs_quiet_log
    | |- frame _ (Eventf _ _ _) => apply frame_act; intros; by apply fs_quiet_log
    | |- frame _ (SetMetric _ _ _) => apply frame_act; intros; by apply fs_quiet_log
    | |- frame _ (DeleteMetric _ _) => apply frame_act; intros; by apply fs_quiet_log
    | |- frame _ (put_mem _) => apply frame_put_mem; intros; apply fs_quiet_mem
    | |- frame _ (ClientCreate _ _) => apply (frame_ask_act _); intros; by apply fs_quiet_log
    | |- frame _ (ClientUpdate _ _) => apply (frame_ask_act _); intros; by apply fs_quiet_log
    | |- frame _ (StatusUpdate _ _) => apply (frame_ask_act _); intros; by apply fs_quiet_log
    | |- frame _ (ClientDelete _ _) => apply (frame_ask_act _); intros; by apply fs_quiet_log
    | |- frame _ _ => solve [eauto 2 with lso_quiet]
    end).
Create HintDb lso_quiet.

(** [keeps] by structure; [extra] proves the operations that write the tree. *)
Ltac keeps_tac extra :=
  repeat (intros; first
    [ assumption
    | apply keeps_ret
    | solve [extra]
    | apply keeps_reads; solve [eauto 3 with lso]
    | apply keeps_bind; [|intros ?]
    | apply keeps_forM; intros ?
    | apply keeps_forM_; intros ?
    | progress (cbv beta iota zeta)
    | match goal with |- keeps _ (match ?e with _ => _ end) => destruct e end
    | apply keeps_quiet; solve [quiet_tac] ]).
