(* ===== verification/DiskUtil.v ===== *)
(** * Block devices: pkg/internal/diskutil.go

    The methods of [BlockDevice], the parsers of lsblk's and blkid's output, the
    search for the preferred /dev/disk/by-id link, the orphaned-symlink scan and
    the exclusive lock taken before a device is claimed. *)
From stdpp Require Import base list strings gmap.
From Stdlib Require Import ZArith Lia String.
From S2P Require Import Prelude GoLib Types World Sys.

Open Scope string_scope.

Definition StateSuspended := "suspended".
Definition DiskByIDDir := "/dev/disk/by-id/".
Definition mountFile := "/proc/1/mountinfo".

Definition preferredPatterns : list string :=
  ["wwn"; "scsi-3"; "scsi-2"; "scsi-8"; "scsi-S"; "scsi-1"; "scsi-0"; "scsi"; "nvme-eui"; "nvme"; ""].

(** ** Column values *)

Definition parseBitBool (s : string) : Res bool :=
  if decide (s = "0" \/ s = "") then Ok false
  else if decide (s = "1") then Ok true
  else Err (Errorf (sprintf "lsblk bool value not 0 or 1: %q" [s])).

Definition wrap_res {A} (msg : string) (r : Res A) : Res A :=
  match r with Ok a => Ok a | Err e => Err (Wrap msg e) end.

Definition GetRotational (b : BlockDevice) : Res bool :=
  wrap_res (sprintf "failed to parse rotational property %q as bool" [bd_Rotational b])
    (parseBitBool (bd_Rotational b)).
Definition GetReadOnly (b : BlockDevice) : Res bool :=
  wrap_res (sprintf "failed to parse readOnly property %q as bool" [bd_ReadOnly b])
    (parseBitBool (bd_ReadOnly b)).
Definition GetRemovable (b : BlockDevice) : Res bool :=
  wrap_res (sprintf "failed to parse removable property %q as bool" [bd_Removable b])
    (parseBitBool (bd_Removable b)).

Definition parse_error_text (e : parse_error) : string :=
  match e with ErrSyntax => "invalid syntax" | ErrRange => "value out of range" end.

(** The value is returned next to the error, as ParseInt leaves it. *)
Definition GetSize (b : BlockDevice) : Z * option GoErr :=
  let (v, e) := parse_int (bd_Size b) in
  (v, option_map (fun e => Wrap (sprintf "failed to parse size property %q as int64" [bd_Size b])
                             (Errorf (parse_error_text e))) e).

(** [GetDevPath]: the path is set even when the error is. *)
Definition GetDevPath (b : BlockDevice) : string * option GoErr :=
  let err := if decide (bd_KName b = "") then Some (Errorf "empty KNAME") else None in
  (path_join ["/dev/"; bd_KName b], err).

(** ** Parsers *)

(** Rows of [lsblk --pairs]: [None] is the nil map of a bad row. *)
Definition parse_pair (m : gmap string string) (keyValue : string) : gmap string string :=
  match split keyValue "=" with
  | [k; v] => <[to_lower k := trim_space (remove_char (Ascii.ascii_of_nat 34) v)]> m
  | _ => m
  end.

Definition parseLSBLKRow (row : string) (deviceFSMap : gmap string string)
  : option (gmap string string) :=
  let outputMap := fold_left parse_pair (split row (DQ ++s " ")) ∅ in
  match outputMap !! "name" with
  | None => None
  | Some name =>
      if decide (trim name " " = "") then None
      else match deviceFSMap !! ("/dev/" ++s name) with
           | Some fs => Some (<["fsType" := fs]> outputMap)
           | None => Some outputMap
           end
  end.

(** encoding/json: a map is marshalled with its keys sorted, and a struct field
    takes the last key equal to its tag up to case.  All keys are in lower case but
    [fsType], which sorts before [fstype]. *)
Definition json_field (m : gmap string string) (tag : string) : string :=
  match m !! to_lower tag with Some v => v | None => default "" (m !! tag) end.

Definition device_of (m : gmap string string) : BlockDevice :=
  {| bd_Name := json_field m "name"; bd_KName := json_field m "kname";
     bd_Type := json_field m "type"; bd_Model := json_field m "model";
     bd_Vendor := json_field m "vendor"; bd_State := json_field m "state";
     bd_FSType := json_field m "fsType"; bd_Size := json_field m "size";
     bd_Rotational := json_field m "rota"; bd_ReadOnly := json_field m "ro";
     bd_Removable := json_field m "rm"; bd_PathByID := json_field m "pathByID";
     bd_Serial := json_field m "serial"; bd_PartLabel := json_field m "partLabel" |}.

(** JSON [null] decodes to the zero value. *)
Definition unmarshal_row (m : option (gmap string string)) : BlockDevice :=
  match m with None => zero_device | Some m => device_of m end.

(** The loop over the rows: the devices appended and the bad rows. *)
Fixpoint parse_rows (rows : list string) (fsMap : gmap string string)
  : list BlockDevice * list string :=
  match rows with
  | [] => ([], [])
  | row :: rows' =>
      if decide (trim row " " = "") then ([], [])
      else
        let m := parseLSBLKRow row fsMap in
        let (devs, bad) := parse_rows rows' fsMap in
        (unmarshal_row m :: devs, match m with None => row :: bad | Some _ => bad end)
  end.

(** The lines of [blkid -s TYPE]. *)
Definition parse_blkid_line (m : gmap string string) (l : string) : gmap string string :=
  if decide (l = "") then m
  else match split l ":" with
       | [dev; rest] =>
           match split rest "=" with
           | [_; fs] => <[dev := trim (trim_space fs) DQ]> m
           | _ => m
           end
       | _ => m
       end.

Definition parse_blkid (output : string) : gmap string string :=
  fold_left parse_blkid_line (split output NL) ∅.

(** [HasBindMounts]: the lines of /proc/1/mountinfo. *)
Definition bind_mount_line (kname mountInfo : string) : option string :=
  if contains_str kname mountInfo then
    let l := split mountInfo " " in
    if (10 <=? List.length l)%nat then
      if decide (List.nth 3 l "" = "/" ++s kname \/ List.nth 9 l "" = "/dev/" ++s kname)
      then Some (List.nth 4 l "") else None
    else None
  else None.

(** ** Ranking of /dev/disk/by-id names *)

(** Index of the first pattern that is a prefix of the link's name. *)
Fixpoint bucket (ps : list string) (name : string) : option nat :=
  match ps with
  | [] => None
  | p :: ps' => if has_prefix name p then Some O else option_map S (bucket ps' name)
  end.

Definition add_bucket (sorted : list (list string)) (path : string) : list (list string) :=
  match bucket preferredPatterns (base path) with
  | Some i => alter (fun l => (l ++ [path])%list) i sorted
  | None => sorted
  end.

Definition sortedSymlinks (allDisks : list string) : list (list string) :=
  fold_left add_bucket allDisks (repeat [] (List.length preferredPatterns)).

(** [sets.New], [Insert], [sets.List]: sorted and without duplicates. *)
Definition set_list (l : list string) : list string :=
  sort_strings (elements (list_to_set l : gset string)).

Record ExclusiveFileLock := { efl_Path : string; efl_locked : bool; efl_fd : Z }.

Section diskutil.
Context {E : Env}.

Definition executeCmdWithCombinedOutput (cmd : string) (args : list string)
  : M (string * option GoErr) :=
  r ← CombinedOutput cmd args;
  match r with
  | (output, Some err) => mret (output, Some err)
  | (output, None) => mret (trim_space output, None)
  end.

(** A loop that returns at the first hit or error. *)
Fixpoint firstM {A B} (l : list A) (f : A -> M (Res (option B))) : M (Res (option B)) :=
  match l with
  | [] => mret (Ok None)
  | a :: l' => r ← f a;
               match r with Ok None => firstM l' f | _ => mret r end
  end.

Definition PathEvalsToDiskLabel (path devName : string) : M (Res bool) :=
  r ← EvalSymlinks path;
  match r with
  | Err err => if os_is ENOENT err then mret (Ok false)
               else mret (Err (Wrap (sprintf "could not eval symLink %q" [""]) err))
  | Ok devPath => mret (Ok (bool_decide (base devPath = devName)))
  end.

Definition HasChildren (b : BlockDevice) : M (Res bool) :=
  r ← Glob (path_join ["/sys/block/"; bd_KName b; "/*"]);
  match r with
  | Err err => mret (Err (Wrap (sprintf "failed to check if device %q has partitions" [bd_KName b]) err))
  | Ok paths => mret (Ok (existsb (fun p => has_prefix (base p) (bd_KName b)) paths))
  end.

Definition HasBindMounts (b : BlockDevice) : M (Res (bool * string)) :=
  r ← ReadFile mountFile;
  match r with
  | Err err => mret (Err (Errorf (sprintf "failed to read file %s: %v" [mountFile; error_text err])))
  | Ok data =>
      match find_first (bind_mount_line (bd_KName b)) (split data NL) with
      | Some mountPoint => mret (Ok (true, mountPoint))
      | None => mret (Ok (false, ""))
      end
  end.

Definition matching_path (kname path : string) : M (Res (option string)) :=
  r ← PathEvalsToDiskLabel path kname;
  match r with
  | Err err => mret (Err err)
  | Ok isMatch => mret (Ok (if isMatch then Some path else None))
  end.

(** The empty string stands for "not found". *)
Definition findDeviceInSortedSymlink (b : BlockDevice) (allDisks : list string) : M (Res string) :=
  r ← firstM (sortedSymlinks allDisks) (fun group => firstM group (matching_path (bd_KName b)));
  match r with
  | Err err => mret (Err err)
  | Ok (Some path) => mret (Ok path)
  | Ok None => mret (Ok "")
  end.

Definition list_by_id : M (Res (list string)) :=
  r ← Glob (path_join [DiskByIDDir; "/*"]);
  match r with
  | Err err => mret (Err (Errorf (sprintf "error listing files in %s: %v" [DiskByIDDir; error_text err])))
  | Ok l => mret (Ok l)
  end.

(** [GetPathByID] on a pointer receiver: the path, the error, and the device with
    its [PathByID] field updated. *)
Definition GetPathByID (b : BlockDevice) : M (string * option GoErr * BlockDevice) :=
  cached ← (if decide (bd_PathByID b <> "" /\ has_prefix (bd_PathByID b) DiskByIDDir = true)
            then (r ← PathEvalsToDiskLabel (bd_PathByID b) (bd_KName b);
                  mret (match r with Ok ok => ok | Err _ => false end))
            else mret false);
  if cached : bool then mret (bd_PathByID b, None, b)
  else
    let b := set_PathByID "" b in
    all ← list_by_id;
    match all with
    | Err err => mret ("", Some err, b)
    | Ok allDisks =>
        r ← findDeviceInSortedSymlink b allDisks;
        match r with
        | Err err => mret ("", Some err, b)
        | Ok diskPathID =>
            if decide (diskPathID <> "") then mret (diskPathID, None, set_PathByID diskPathID b)
            else match GetDevPath b with
                 | (_, Some err) => mret ("", Some err, b)
                 | (devPath, None) => mret (devPath, Some (IDPathNotFoundError (bd_KName b)), b)
                 end
        end
    end.

Definition GetUncachedPathID (b : BlockDevice) : M (Res string * BlockDevice) :=
  all ← list_by_id;
  match all with
  | Err err => mret (Err err, b)
  | Ok allDisks =>
      r ← findDeviceInSortedSymlink b allDisks;
      match r with
      | Err err => mret (Err err, b)
      | Ok diskPathID =>
          if decide (diskPathID <> "") then mret (Ok diskPathID, set_PathByID diskPathID b)
          else mret (Err (IDPathNotFoundError (bd_KName b)), b)
      end
  end.

Definition GetValidByIDSymlinks (b : BlockDevice) : M (Res (list string)) :=
  r ← Glob (DiskByIDDir ++s "*");
  match r with
  | Err err => mret (Err err)
  | Ok paths =>
      ms ← foldM (fun matches path =>
                    r ← PathEvalsToDiskLabel path (bd_KName b);
                    match r with
                    | Err err => mret (Err err)
                    | Ok isMatch => mret (Ok (if isMatch : bool then (matches ++ [path])%list else matches))
                    end) [] paths;
      match ms with
      | Err err => mret (Err err)
      | Ok matches => mret (Ok (set_list matches))
      end
  end.

Definition GetFilesystemUUID (b : BlockDevice) : M (Res string) :=
  match GetDevPath b with
  | (_, Some err) => mret (Err (Wrap (sprintf "failed to get /dev path for %s" [bd_Name b]) err))
  | (devicePath, None) =>
      r ← executeCmdWithCombinedOutput "blkid" ["-s"; "UUID"; "-o"; "value"; devicePath];
      match r with
      | (_, Some (ExitError 2)) => mret (Ok "")
      | (_, Some err) => mret (Err err)
      | (output, None) => mret (Ok (trim_space output))
      end
  end.

Definition GetDeviceFSMap (devices : list string) : M (Res (gmap string string)) :=
  r ← executeCmdWithCombinedOutput "blkid" (["-s"; "TYPE"] ++ devices)%list;
  match r with
  | (_, Some (ExitError 2)) => mret (Ok ∅)
  | (_, Some err) => mret (Err err)
  | (output, None) => mret (Ok (parse_blkid output))
  end.

Definition lsblk_columns := "NAME,ROTA,TYPE,SIZE,MODEL,VENDOR,RO,RM,STATE,KNAME,SERIAL,PARTLABEL".

Definition ListBlockDevices (devices : list string)
  : M (list BlockDevice * list string * option GoErr) :=
  m ← GetDeviceFSMap devices;
  match m with
  | Err err => mret ([], [], Some (Wrap "failed to list block devices" err))
  | Ok deviceFSMap =>
      r ← executeCmdWithCombinedOutput "lsblk" ["--pairs"; "-b"; "-o"; lsblk_columns];
      match r with
      | (output, Some err) => mret ([], [output], Some err)
      | (output, None) =>
          let rowList := split output NL in
          let (devs, badRows) := parse_rows rowList deviceFSMap in
          if (List.length badRows =? List.length rowList)%nat
          then mret ([], badRows, Some (Errorf "could not parse any of the lsblk rows"))
          else mret (devs, badRows, None)
      end
  end.

(** ** Locks *)

Definition Lock (path : string) : M (ExclusiveFileLock * bool * option GoErr) :=
  r ← OpenExcl path;
  match r with
  | (fd, Some errno) =>
      mret ({| efl_Path := path; efl_locked := false; efl_fd := fd |}, false, Some errno)
  | (fd, None) =>
      mret ({| efl_Path := path; efl_locked := true; efl_fd := fd |}, true, None)
  end.

Definition Unlock (e : ExclusiveFileLock) : M (ExclusiveFileLock * option GoErr) :=
  if efl_locked e then
    err ← Close (efl_fd e);
    match err with
    | None => mret ({| efl_Path := efl_Path e; efl_locked := false; efl_fd := efl_fd e |}, None)
    | Some err => mret (e, Some (Errorf (sprintf "failed to unlock fd %q: %+v"
                                          [itoa (efl_fd e); error_text err])))
    end
  else mret (e, None).

Definition GetMatchingSymlinksInDirs (path : string) (dirs : list string) : M (Res (list string)) :=
  r ← executeCmdWithCombinedOutput "find" (["-L"] ++ dirs ++ ["-samefile"; path])%list;
  match r with
  | (_, Some err) =>
      mret (Err (Errorf (sprintf "failed to get symlinks in directories: %q for device path %q. %v"
                           [show_list dirs; path; error_text err])))
  | (output, None) =>
      let output := trim output (" " ++s NL) in
      if decide (output = "") then mret (Ok [])
      else mret (Ok (List.filter (fun l => negb (String.eqb l ""))
                       (List.map (fun entry => trim entry " ") (split output NL))))
  end.

(** The lock (to be released whatever happens), whether it is held, the existing
    links, and the error. *)
Definition GetPVCreationLock (device : string) (symlinkDirs : list string)
  : M (ExclusiveFileLock * bool * list string * option GoErr) :=
  l ← Lock device;
  let '(lock, locked, err) := l in
  match err with
  | Some e =>
      if negb (os_is EBUSY e) then mret (lock, locked, [], err)
      else
        r ← GetMatchingSymlinksInDirs device symlinkDirs;
        match r with
        | Err symErr => mret (lock, locked, [], Some symErr)
        | Ok links =>
            if (List.length links =? 0)%nat && negb locked then mret (lock, locked, links, err)
            else mret (lock, locked, links, None)
        end
  | None =>
      r ← GetMatchingSymlinksInDirs device symlinkDirs;
      match r with
      | Err symErr => mret (lock, locked, [], Some symErr)
      | Ok links =>
          if (List.length links =? 0)%nat && negb locked then mret (lock, locked, links, err)
          else mret (lock, locked, links, None)
      end
  end.

(** Is [path] a link to one of the devices?  The inner loop of the two scans. *)
Definition links_to_any (devices : list BlockDevice) (path : string) : M (Res (option unit)) :=
  firstM devices (fun device =>
    r ← PathEvalsToDiskLabel path (bd_KName device);
    match r with
    | Err err => mret (Err err)
    | Ok isMatch => mret (Ok (if isMatch : bool then Some tt else None))
    end).

(** On an error the orphans found so far are returned with it. *)
Fixpoint orphans_loop (paths : list string) (validDevices : list BlockDevice) (acc : list string)
  : M (list string * option GoErr) :=
  match paths with
  | [] => mret (acc, None)
  | path :: paths' =>
      r ← links_to_any validDevices path;
      match r with
      | Err err => mret (acc, Some err)
      | Ok (Some _) => orphans_loop paths' validDevices acc
      | Ok None => orphans_loop paths' validDevices (acc ++ [path])%list
      end
  end.

Definition GetOrphanedSymlinks (symlinkDir : string) (validDevices : list BlockDevice)
  : M (list string * option GoErr) :=
  r ← Glob (path_join [symlinkDir; "/*"]);
  match r with
  | Err err => mret ([], Some err)
  | Ok paths => orphans_loop paths validDevices []
  end.
End diskutil.

(** ** Readers *)

Section readers.
Context {E : Env}.

Lemma reads_executeCmd cmd args : reads (executeCmdWithCombinedOutput cmd args).
Proof. unfold executeCmdWithCombinedOutput. reads_tac. Qed.
Hint Resolve reads_executeCmd : lso.

Lemma reads_firstM {A B} (l : list A) (f : A -> M (Res (option B))) :
  (forall a, reads (f a)) -> reads (firstM l f).
Proof.
  intros Hf. induction l as [|a l IH]; simpl; [apply reads_ret|].
  apply reads_bind; [apply Hf|]. intros [[b|]|e]; [apply reads_ret|apply IH|apply reads_ret].
Qed.

Lemma reads_PathEvalsToDiskLabel p d : reads (PathEvalsToDiskLabel p d).
Proof. unfold PathEvalsToDiskLabel. reads_tac. Qed.
Hint Resolve reads_PathEvalsToDiskLabel : lso.

Lemma reads_HasChildren b : reads (HasChildren b).
Proof. unfold HasChildren. reads_tac. Qed.
Lemma reads_HasBindMounts b : reads (HasBindMounts b).
Proof. unfold HasBindMounts. reads_tac. Qed.

Lemma reads_matching_path k p : reads (matching_path k p).
Proof. unfold matching_path. reads_tac. Qed.
Hint Resolve reads_matching_path : lso.

Lemma reads_findDevice b l : reads (findDeviceInSortedSymlink b l).
Proof.
  unfold findDeviceInSortedSymlink. apply reads_bind; [|reads_tac].
  apply reads_firstM. intros. apply reads_firstM. eauto with lso.
Qed.
Lemma reads_list_by_id : reads list_by_id.
Proof. unfold list_by_id. reads_tac. Qed.
Hint Resolve reads_findDevice reads_list_by_id : lso.

Lemma reads_GetPathByID b : reads (GetPathByID b).
Proof. unfold GetPathByID. reads_tac. Qed.
Lemma reads_GetUncachedPathID b : reads (GetUncachedPathID b).
Proof. unfold GetUncachedPathID. reads_tac. Qed.
Lemma reads_GetValidByIDSymlinks b : reads (GetValidByIDSymlinks b).
Proof. unfold GetValidByIDSymlinks. reads_tac. Qed.
Lemma reads_GetFilesystemUUID b : reads (GetFilesystemUUID b).
Proof. unfold GetFilesystemUUID. reads_tac. Qed.
Lemma reads_GetDeviceFSMap l : reads (GetDeviceFSMap l).
Proof. unfold GetDeviceFSMap. reads_tac. Qed.
Hint Resolve reads_GetDeviceFSMap : lso.
Lemma reads_ListBlockDevices l : reads (ListBlockDevices l).
Proof. unfold ListBlockDevices. reads_tac. Qed.
Lemma reads_GetMatchingSymlinksInDirs p l : reads (GetMatchingSymlinksInDirs p l).
Proof. unfold GetMatchingSymlinksInDirs. reads_tac. Qed.

Lemma reads_links_to_any l p : reads (links_to_any l p).
Proof. unfold links_to_any. apply reads_firstM. intros. reads_tac. Qed.
Hint Resolve reads_links_to_any : lso.
Lemma reads_orphans_loop ps l acc : reads (orphans_loop ps l acc).
Proof.
  revert acc. induction ps as [|p ps IH]; intros acc; simpl; [apply reads_ret|].
  apply reads_bind; [eauto with lso|]. intros [[u|]|e]; [apply IH|apply IH|apply reads_ret].
Qed.
Hint Resolve reads_orphans_loop : lso.
Lemma reads_GetOrphanedSymlinks d l : reads (GetOrphanedSymlinks d l).
Proof. unfold GetOrphanedSymlinks. reads_tac. Qed.
End readers.

#[export] Hint Resolve reads_executeCmd reads_firstM reads_PathEvalsToDiskLabel reads_HasChildren
  reads_HasBindMounts reads_matching_path reads_findDevice reads_list_by_id reads_GetPathByID
  reads_GetUncachedPathID reads_GetValidByIDSymlinks reads_GetFilesystemUUID reads_GetDeviceFSMap
  reads_ListBlockDevices reads_GetMatchingSymlinksInDirs reads_links_to_any reads_orphans_loop
  reads_GetOrphanedSymlinks : lso.
