(* ===== verification/DiskText.v ===== *)
(** * What lsblk prints is what the operator reads

    A printer of the table of [lsblk --pairs] with the columns the code asks for, and
    the proof that [ListBlockDevices] (pkg/internal/diskutil.go) reads back every
    device of the table.  The printer is the documented format of the command; the
    fields may not hold a quote, an equals sign or a line break, nor begin or end with
    white space: on those the parser of the code loses or changes the value. *)
From stdpp Require Import base list strings gmap.
From Stdlib Require Import ZArith Lia Ascii String.
From S2P Require Import Prelude GoLib Types World Sys Envs DiskUtil.

Open Scope string_scope.

Definition dq : ascii := ascii_of_nat 34.
Definition nl : ascii := ascii_of_nat 10.

Fixpoint string_all (f : ascii -> bool) (s : string) : bool :=
  match s with String c s' => f c && string_all f s' | EmptyString => true end.

(** ** The printer *)

Definition show_pair (kv : string * string) : string := kv.1 ++s "=" ++s DQ ++s kv.2 ++s DQ.
Definition show_row (kvs : list (string * string)) : string := join " " (show_pair <$> kvs).
Definition columns_of (b : BlockDevice) : list (string * string) :=
  [("NAME", bd_Name b); ("ROTA", bd_Rotational b); ("TYPE", bd_Type b); ("SIZE", bd_Size b);
   ("MODEL", bd_Model b); ("VENDOR", bd_Vendor b); ("RO", bd_ReadOnly b); ("RM", bd_Removable b);
   ("STATE", bd_State b); ("KNAME", bd_KName b); ("SERIAL", bd_Serial b); ("PARTLABEL", bd_PartLabel b)].
Definition show_device (b : BlockDevice) : string := show_row (columns_of b).
(** Every row ends its line. *)
Definition show_table (ds : list BlockDevice) : string := join NL (show_device <$> ds) ++s NL.

(** What a field of the table may be. *)
Definition field_char (c : ascii) : bool :=
  negb (Ascii.eqb c dq || Ascii.eqb c "=" || Ascii.eqb c nl).
Definition field_ok (v : string) : bool := string_all field_char v && String.eqb (trim_space v) v.
Definition device_ok (b : BlockDevice) : bool :=
  forallb (fun kv => field_ok kv.2) (columns_of b) && negb (String.eqb (bd_Name b) "").

(** What lsblk does not print: the filesystem, which is blkid's, and the by-id link. *)
Definition listed (fsMap : gmap string string) (b : BlockDevice) : BlockDevice :=
  {| bd_Name := bd_Name b; bd_KName := bd_KName b; bd_Type := bd_Type b; bd_Model := bd_Model b;
     bd_Vendor := bd_Vendor b; bd_State := bd_State b;
     bd_FSType := default "" (fsMap !! ("/dev/" ++s bd_Name b)); bd_Size := bd_Size b;
     bd_Rotational := bd_Rotational b; bd_ReadOnly := bd_ReadOnly b; bd_Removable := bd_Removable b;
     bd_PathByID := ""; bd_Serial := bd_Serial b; bd_PartLabel := bd_PartLabel b |}.

(** ** Splitting *)

Lemma string_all_app f a b : string_all f (a ++s b) = string_all f a && string_all f b.
Proof. induction a as [|c a IH]; [done|]. rewrite str_app_cons. cbn [string_all]. by rewrite IH, andb_assoc. Qed.

Lemma string_all_impl (f g : ascii -> bool) s :
  (forall c, f c = true -> g c = true) -> string_all f s = true -> string_all g s = true.
Proof. intros H. induction s as [|c s IH]; simpl; [done|]. rewrite !andb_true_iff. intros [? ?]; auto. Qed.

Lemma prefix_one (x c : ascii) s : prefix (String x "") (String c s) = Ascii.eqb x c.
Proof. simpl. destruct (Ascii.eqb_spec x c) as [->|]; [by destruct (ascii_dec c c), s|by destruct (ascii_dec x c)]. Qed.

(** A separator of one byte. *)
Lemma split_go_one (x : ascii) a b cur :
  string_all (fun c => negb (Ascii.eqb x c)) a = true ->
  split_go (String x "") (a ++s String x b) 0 cur = (cur ++s a) :: split_go (String x "") b 0 "".
Proof.
  revert cur. induction a as [|c a IH]; intros cur H; simpl in H.
  - rewrite str_app_nil_l. cbn [split_go]. rewrite prefix_one, Ascii.eqb_refl. by rewrite str_app_nil_r.
  - apply andb_true_iff in H as [Hc Ha]. rewrite str_app_cons. cbn [split_go]. rewrite prefix_one.
    apply negb_true_iff in Hc. rewrite Hc, IH by done. by rewrite str_app_assoc, str_app_cons, str_app_nil_l.
Qed.

Lemma split_go_one_last (x : ascii) a cur :
  string_all (fun c => negb (Ascii.eqb x c)) a = true -> split_go (String x "") a 0 cur = [cur ++s a].
Proof.
  revert cur. induction a as [|c a IH]; intros cur H; simpl in H.
  - cbn [split_go]. by rewrite str_app_nil_r.
  - apply andb_true_iff in H as [Hc Ha]. cbn [split_go]. rewrite prefix_one. apply negb_true_iff in Hc.
    rewrite Hc, IH by done. by rewrite str_app_assoc, str_app_cons, str_app_nil_l.
Qed.

(** A separator of two different bytes; [clear2] says that it is nowhere. *)
Fixpoint clear2 (x y : ascii) (s : string) : bool :=
  match s with
  | String c s' => match s' with String d _ => negb (Ascii.eqb x c && Ascii.eqb y d) | _ => true end && clear2 x y s'
  | EmptyString => true
  end.

Lemma prefix_two (x y c d : ascii) s :
  prefix (String x (String y "")) (String c (String d s)) = Ascii.eqb x c && Ascii.eqb y d.
Proof.
  simpl. destruct (Ascii.eqb_spec x c) as [->|], (Ascii.eqb_spec y d) as [->|];
    repeat match goal with |- context [ascii_dec ?a ?b] => destruct (ascii_dec a b) end; by destruct s.
Qed.

Lemma split_go_two (x y : ascii) a b cur :
  x <> y -> clear2 x y a = true ->
  split_go (String x (String y "")) (a ++s String x (String y b)) 0 cur =
    (cur ++s a) :: split_go (String x (String y "")) b 0 "".
Proof.
  intros Hxy. revert cur. induction a as [|c a IH]; intros cur H.
  - rewrite str_app_nil_l. cbn [split_go]. rewrite prefix_two, !Ascii.eqb_refl. simpl. by rewrite str_app_nil_r.
  - simpl in H. apply andb_true_iff in H as [Hc Ha]. rewrite str_app_cons. cbn [split_go].
    destruct (prefix (String x (String y "")) (String c (a ++s String x (String y b)))) eqn:Hp.
    + destruct a as [|d a].
      * rewrite str_app_nil_l, prefix_two in Hp. apply andb_true_iff in Hp as [_ Hy%Ascii.eqb_eq]. congruence.
      * rewrite str_app_cons, prefix_two in Hp. by rewrite Hp in Hc.
    + rewrite IH by done. by rewrite str_app_assoc, str_app_cons, str_app_nil_l.
Qed.

Lemma split_go_two_last (x y : ascii) a cur :
  clear2 x y a = true -> split_go (String x (String y "")) a 0 cur = [cur ++s a].
Proof.
  revert cur. induction a as [|c a IH]; intros cur H.
  - cbn [split_go]. by rewrite str_app_nil_r.
  - simpl in H. apply andb_true_iff in H as [Hc Ha]. cbn [split_go].
    destruct (prefix (String x (String y "")) (String c a)) eqn:Hp.
    + destruct a as [|d a]; [simpl in Hp; by destruct (ascii_dec x c)|]. rewrite prefix_two in Hp. by rewrite Hp in Hc.
    + rewrite IH by done. by rewrite str_app_assoc, str_app_cons, str_app_nil_l.
Qed.

Lemma clear2_app x y a b :
  string_all (fun c => negb (Ascii.eqb x c)) a = true -> clear2 x y (a ++s b) = clear2 x y b.
Proof.
  induction a as [|c a IH]; intros H; simpl in H; [done|]. apply andb_true_iff in H as [Hc Ha].
  rewrite str_app_cons. cbn [clear2]. rewrite IH by done. apply negb_true_iff in Hc. rewrite Hc. simpl.
  by destruct (a ++s b).
Qed.

Lemma split_join_one (x : ascii) (l : list string) :
  l <> [] -> Forall (fun s => string_all (fun c => negb (Ascii.eqb x c)) s = true) l ->
  split (join (String x "") l) (String x "") = l.
Proof.
  intros Hl Hf. unfold split. induction Hf as [|s l Hs Hf IH]; [done|]. destruct l as [|t l].
  - simpl. by rewrite split_go_one_last.
  - cbn [join]. rewrite str_app_cons, str_app_nil_l, split_go_one by done. rewrite str_app_nil_l. f_equal. by apply IH.
Qed.

(** ** A pair and a row *)

Lemma field_char_dq c : field_char c = true -> negb (Ascii.eqb dq c) = true.
Proof. unfold field_char. rewrite !negb_orb, !andb_true_iff, (Ascii.eqb_sym dq). by intros [[? ?] ?]. Qed.
Lemma field_char_eq c : field_char c = true -> negb (Ascii.eqb "=" c) = true.
Proof. unfold field_char. rewrite !negb_orb, !andb_true_iff, (Ascii.eqb_sym "="). by intros [[? ?] ?]. Qed.
Lemma field_char_nl c : field_char c = true -> negb (Ascii.eqb nl c) = true.
Proof. unfold field_char. rewrite !negb_orb, !andb_true_iff, (Ascii.eqb_sym nl). by intros [[? ?] ?]. Qed.

Lemma remove_char_none v : string_all field_char v = true -> remove_char (Ascii.ascii_of_nat 34) v = v.
Proof.
  induction v as [|c v IH]; simpl; [done|]. intros [Hc Hv]%andb_true_iff. apply field_char_dq, negb_true_iff in Hc.
  rewrite Ascii.eqb_sym in Hc. unfold dq in Hc. rewrite Hc. by rewrite IH.
Qed.

Lemma remove_char_app c a b : remove_char c (a ++s b) = remove_char c a ++s remove_char c b.
Proof.
  induction a as [|d a IH]; [done|]. rewrite str_app_cons. cbn [remove_char]. rewrite IH.
  by destruct (Ascii.eqb d c).
Qed.

(** A pair as the split leaves it: with or without its closing quote. *)
Lemma parse_pair_show (m : gmap string string) (kv : string * string) (close : string) :
  string_all field_char kv.1 = true -> field_ok kv.2 = true -> close = "" \/ close = DQ ->
  parse_pair m (kv.1 ++s "=" ++s DQ ++s kv.2 ++s close) = <[to_lower kv.1 := kv.2]> m.
Proof.
  destruct kv as [k v]. simpl. intros Hk [Hv Ht%String.eqb_eq]%andb_true_iff Hc.
  unfold parse_pair, split. rewrite str_app_cons, str_app_nil_l.
  assert (string_all (fun c => negb (Ascii.eqb "=" c)) (DQ ++s v ++s close) = true) as Hrest.
  { rewrite !string_all_app. rewrite (string_all_impl field_char _ v field_char_eq Hv). by destruct Hc as [->| ->]. }
  rewrite split_go_one by by apply (string_all_impl field_char _ _ field_char_eq).
  rewrite split_go_one_last by done. rewrite !str_app_nil_l, !remove_char_app, (remove_char_none v) by done.
  replace (remove_char (Ascii.ascii_of_nat 34) DQ) with "" by done.
  replace (remove_char (Ascii.ascii_of_nat 34) close) with "" by by destruct Hc as [->| ->].
  by rewrite str_app_nil_l, str_app_nil_r, Ht.
Qed.

Definition not_space_first (v : string) : bool :=
  match v with String c _ => negb (Ascii.eqb " " c) | EmptyString => true end.

Lemma trim_left_shorter f s : String.length (trim_left_with f s) <= String.length s.
Proof. induction s as [|c s IH]; simpl; [done|]. destruct (f c); simpl; lia. Qed.
Lemma trim_right_shorter f s : String.length (trim_right_with f s) <= String.length s.
Proof.
  induction s as [|c s IH]; simpl; [done|]. destruct (trim_right_with f s) eqn:H.
  - destruct (f c); simpl; lia.
  - cbn [String.length] in *. lia.
Qed.

(** A trimmed field does not begin with a space. *)
Lemma trimmed_first v : trim_space v = v -> not_space_first v = true.
Proof.
  destruct v as [|c v]; [done|]. intros H. unfold not_space_first. destruct (Ascii.eqb_spec " " c) as [<-|]; [|done]. exfalso.
  assert (String.length (trim_space (String " " v)) <= String.length v) as Hl.
  { unfold trim_space, trim_with. etrans; [apply trim_right_shorter|]. exact (trim_left_shorter is_space v). }
  rewrite H in Hl. simpl in Hl. lia.
Qed.

Lemma clear_pair (k v close : string) :
  string_all field_char k = true -> field_ok v = true -> close = "" \/ close = DQ ->
  clear2 dq " " (k ++s "=" ++s DQ ++s v ++s close) = true.
Proof.
  intros Hk [Hv Ht%String.eqb_eq]%andb_true_iff Hc.
  rewrite clear2_app by by apply (string_all_impl field_char _ _ field_char_dq).
  rewrite clear2_app by done. pose proof (trimmed_first v Ht) as Hf.
  assert (clear2 dq " " (v ++s close) = true) as Hrest.
  { rewrite clear2_app by by apply (string_all_impl field_char _ _ field_char_dq). by destruct Hc as [->| ->]. }
  unfold DQ, chr. rewrite str_app_cons, str_app_nil_l. cbn [clear2]. rewrite Hrest, andb_true_r.
  destruct v as [|c v]; [by destruct Hc as [->| ->]|]. rewrite str_app_cons. unfold not_space_first in Hf. apply negb_true_iff in Hf.
  by rewrite Hf, andb_false_r.
Qed.

Lemma parse_row_show (kvs : list (string * string)) (m : gmap string string) :
  kvs <> [] -> Forall (fun kv => string_all field_char kv.1 = true /\ field_ok kv.2 = true) kvs ->
  fold_left parse_pair (split (show_row kvs) (DQ ++s " ")) m =
    fold_left (fun m kv => <[to_lower kv.1 := kv.2]> m) kvs m.
Proof.
  intros Hne Hf. unfold split, show_row. change (DQ ++s " ") with (String dq (String " " "")). revert m.
  induction Hf as [|kv kvs [Hk Hv] Hf IH]; intros m; [done|]. destruct kvs as [|kv' kvs].
  - cbn [fmap list_fmap join]. unfold show_pair. rewrite split_go_two_last by (apply clear_pair; auto).
    rewrite str_app_nil_l. cbn [fold_left]. by rewrite parse_pair_show by auto.
  - cbn [fmap list_fmap join]. unfold show_pair at 1.
    assert (forall r, (kv.1 ++s "=" ++s DQ ++s kv.2 ++s DQ) ++s " " ++s r =
      (kv.1 ++s "=" ++s DQ ++s kv.2 ++s "") ++s String dq (String " " r)) as Ha.
    { intros r. rewrite !str_app_assoc. repeat f_equal. }
    rewrite Ha. rewrite split_go_two; [|done|by apply clear_pair; auto].
    rewrite str_app_nil_l. cbn [fold_left]. rewrite parse_pair_show by auto. by apply IH.
Qed.

(** ** The table *)

Lemma trim_right_keep f a c t :
  f c = false -> trim_right_with f (a ++s String c t) = a ++s String c (trim_right_with f t).
Proof.
  intros Hc. induction a as [|d a IH].
  - rewrite !str_app_nil_l. cbn [trim_right_with]. destruct (trim_right_with f t); [by rewrite Hc|done].
  - rewrite !str_app_cons. cbn [trim_right_with]. rewrite IH. by destruct a.
Qed.

Lemma trim_first_kept f c s : f c = false -> trim_with f (String c s) <> "".
Proof.
  intros Hc. unfold trim_with. cbn [trim_left_with]. rewrite Hc. cbn [trim_right_with].
  destruct (trim_right_with f s); [by rewrite Hc|done].
Qed.

(** Text that ends with a quote. *)
Definition ends_dq (s : string) : Prop := exists a, s = a ++s DQ.

Lemma ends_dq_join sep l : l <> [] -> Forall ends_dq l -> ends_dq (join sep l).
Proof.
  intros Hne Hf. induction Hf as [|s l [a Ha] Hf IH]; [done|]. destruct l as [|t l]; [by exists a|].
  destruct IH as [b Hb]; [done|]. exists (s ++s sep ++s b).
  change (join sep (s :: t :: l)) with (s ++s sep ++s join sep (t :: l)). by rewrite Hb, !str_app_assoc.
Qed.

Lemma show_pair_ends kv : ends_dq (show_pair kv).
Proof. exists (kv.1 ++s "=" ++s DQ ++s kv.2). unfold show_pair. by rewrite !str_app_assoc. Qed.

Lemma show_device_ends b : ends_dq (show_device b).
Proof. apply ends_dq_join; [done|]. apply Forall_fmap, Forall_true. intros kv. apply show_pair_ends. Qed.

Lemma string_all_join f sep l :
  string_all f sep = true -> Forall (fun s => string_all f s = true) l -> string_all f (join sep l) = true.
Proof.
  intros Hs Hf. induction Hf as [|s l H Hf IH]; [done|]. destruct l as [|t l]; [done|].
  change (join sep (s :: t :: l)) with (s ++s sep ++s join sep (t :: l)). by rewrite !string_all_app, H, Hs, IH.
Qed.

Lemma columns_wf b :
  device_ok b = true ->
  Forall (fun kv => string_all field_char kv.1 = true /\ field_ok kv.2 = true) (columns_of b).
Proof.
  intros [H _]%andb_true_iff. rewrite List.forallb_forall in H. apply List.Forall_forall. intros kv Hin.
  split; [|by apply H]. clear H. unfold columns_of in Hin. simpl in Hin.
  repeat destruct Hin as [<-|Hin]; done.
Qed.

Lemma show_device_no_nl b :
  device_ok b = true -> string_all (fun c => negb (Ascii.eqb nl c)) (show_device b) = true.
Proof.
  intros H%columns_wf. apply string_all_join; [done|]. apply Forall_fmap. eapply Forall_impl; [exact H|].
  intros kv [Hk [Hv _]%andb_true_iff]. change (string_all (fun c => negb (Ascii.eqb nl c)) (show_pair kv) = true).
  unfold show_pair. rewrite !string_all_app.
  by rewrite (string_all_impl field_char _ _ field_char_nl Hk), (string_all_impl field_char _ _ field_char_nl Hv).
Qed.

Lemma show_device_first b : exists s, show_device b = String "N" s.
Proof. eexists. unfold show_device, show_row. simpl. reflexivity. Qed.

(** What the command printed, without the last line break. *)
Lemma trim_table ds : ds <> [] -> trim_space (show_table ds) = join NL (show_device <$> ds).
Proof.
  intros Hne. unfold show_table. destruct (ends_dq_join NL (show_device <$> ds)) as [a Ha].
  { by destruct ds. } { apply Forall_fmap, Forall_true. intros b. apply show_device_ends. }
  assert (exists s, join NL (show_device <$> ds) = String "N" s) as [s Hs].
  { destruct ds as [|b ds]; [done|]. destruct (show_device_first b) as [s Hs]. cbn [fmap list_fmap join].
    rewrite Hs. destruct (show_device <$> ds); [by exists s|]. eexists. by rewrite str_app_cons. }
  unfold trim_space, trim_with. rewrite Hs at 1. rewrite str_app_cons. cbn [trim_left_with].
  replace (is_space "N") with false by done. rewrite <- str_app_cons, <- Hs, Ha, str_app_assoc.
  by apply (trim_right_keep is_space a dq NL).
Qed.

(** One row is read back as the device. *)
Lemma parse_device_row b fsMap :
  device_ok b = true -> unmarshal_row (parseLSBLKRow (show_device b) fsMap) = listed fsMap b /\
    parseLSBLKRow (show_device b) fsMap <> None.
Proof.
  intros H. pose proof (columns_wf b H) as Hwf. unfold parseLSBLKRow, show_device.
  rewrite parse_row_show by done. cbn [fold_left columns_of fst snd].
  set (m := <[to_lower "PARTLABEL" := _]> _).
  replace (m !! "name") with (Some (bd_Name b)) by reflexivity.
  unfold device_ok in H. apply andb_true_iff in H as [Hf Hn]. apply negb_true_iff, String.eqb_neq in Hn.
  simpl in Hf. apply andb_true_iff in Hf as [[_ Ht%String.eqb_eq]%andb_true_iff _].
  rewrite decide_False; [|].
  - destruct (fsMap !! ("/dev/" ++s bd_Name b)) as [fs|] eqn:Hfs; (split; [|done]); unfold listed; rewrite Hfs; reflexivity.
  - apply trimmed_first in Ht. destruct (bd_Name b) as [|c s]; [done|]. unfold trim. apply trim_first_kept.
    unfold not_space_first in Ht. apply negb_true_iff in Ht. unfold in_cutset. simpl.
    by rewrite Ascii.eqb_sym, Ht.
Qed.

Lemma parse_rows_show ds fsMap :
  Forall (fun b => device_ok b = true) ds -> parse_rows (show_device <$> ds) fsMap = (listed fsMap <$> ds, []).
Proof.
  intros Hf. induction Hf as [|b ds Hb Hf IH]; [done|]. cbn [fmap list_fmap parse_rows].
  rewrite decide_False.
  - destruct (parse_device_row b fsMap Hb) as [Hu Hs]. rewrite Hu. cbn [fmap list_fmap] in IH. rewrite IH.
    by destruct (parseLSBLKRow (show_device b) fsMap).
  - destruct (show_device_first b) as [s ->]. unfold trim. by apply trim_first_kept.
Qed.

Section listing.
Context {E : Env}.

(** C15: [ListBlockDevices] reads what lsblk prints: every device of the table comes
    back, in order and with all its fields, the filesystem being the one blkid reports
    for it; no row is bad.  The table is any non-empty one whose fields hold no quote,
    equals sign or line break and have no white space around them. *)
Theorem ListBlockDevices_roundtrip (devices : list string) (ds : list BlockDevice) (fsMap : gmap string string) (w : World) :
  ds <> [] -> Forall (fun b => device_ok b = true) ds ->
  (GetDeviceFSMap devices w).1 = Ok fsMap ->
  (forall fs en, (exec_cmd "lsblk" ["--pairs"; "-b"; "-o"; lsblk_columns] fs en).1 = (show_table ds, None)) ->
  wp (ListBlockDevices devices) (fun r w' => r = (listed fsMap <$> ds, [], None) /\ w_fs w' = w_fs w) w.
Proof.
  intros Hne Hok Hfs Hcmd. unfold ListBlockDevices. apply wp_bind, wp_reads; [eauto with lso|].
  intros r en Hr. rewrite Hr in Hfs. simpl in Hfs. subst r. unfold executeCmdWithCombinedOutput, CombinedOutput.
  apply wp_bind, wp_bind. unfold wp at 1. simpl. specialize (Hcmd (w_fs w) en).
  destruct (exec_cmd _ _ _ _) as [out e]. simpl in Hcmd. subst out. apply wp_ret.
  rewrite trim_table by done. cbv zeta. change NL with (String nl ""). rewrite split_join_one; [|by destruct ds|].
  - rewrite parse_rows_show by done. destruct ds; [done|]. by apply wp_ret.
  - apply Forall_fmap. eapply Forall_impl; [exact Hok|]. apply show_device_no_nl.
Qed.
End listing.

(** ** Instances *)

Definition ex_disk : BlockDevice :=
  {| bd_Name := "sda"; bd_KName := "sda"; bd_Type := "disk"; bd_Model := "QEMU HARDDISK"; bd_Vendor := "ATA";
     bd_State := "running"; bd_FSType := "ext4"; bd_Size := "107374182400"; bd_Rotational := "1";
     bd_ReadOnly := "0"; bd_Removable := "0"; bd_PathByID := ""; bd_Serial := "QM00001"; bd_PartLabel := "" |}.

Definition ex_tools : Static := {|
  st_get := fun _ key => Err (StatusError ReasonNotFound (nn_Name key)); st_list := fun _ _ => [];
  st_fault := fun _ => None;
  st_exec := fun cmd _ => if String.eqb cmd "lsblk" then (show_table [ex_disk; ex_disk], None)
                          else ("/dev/sda: TYPE=" ++s DQ ++s "ext4" ++s DQ ++s NL, None);
  st_file := fun p => Err (PathError p ENOENT); st_clock := 1000%Z |}.

Example listed_disk : listed {["/dev/sda" := "ext4"]} ex_disk = ex_disk.
Proof. reflexivity. Qed.

Lemma ListBlockDevices_roundtrip_witness :
  wp (ListBlockDevices (E := static_env ex_tools) [])
     (fun r w' => r = (listed {["/dev/sda" := "ext4"]} <$> [ex_disk; ex_disk], [], None) /\
        w_fs w' = w_fs (static_world ex_tools ∅ empty_mem)) (static_world ex_tools ∅ empty_mem).
Proof.
  apply (ListBlockDevices_roundtrip (E := static_env ex_tools) [] [ex_disk; ex_disk] {["/dev/sda" := "ext4"]});
    [done|repeat constructor; vm_compute; reflexivity|vm_compute; reflexivity|intros; reflexivity].
Defined.

(** A value that begins with a space is lost: the opening quote and the space are taken
    for the end of the pair.  So is a value with an equals sign. *)
Lemma leading_space_is_lost :
  parseLSBLKRow (show_row [("NAME", "sda"); ("MODEL", " disk"); ("SERIAL", "a=b"); ("RO", "0")]) ∅ =
    Some {["name" := "sda"; "model" := ""; "ro" := "0"]}.
Proof. vm_compute. done. Qed.
