(* ===== verification/ByID.v ===== *)
(** * The links of /dev/disk/by-id

    What [GetUncachedPathID], [GetPathByID], [GetValidByIDSymlinks] and
    [GetOrphanedSymlinks] of pkg/internal/diskutil.go answer, against a reference:
    the links of the directory that lead to the device, the preferred one being the
    first in directory order of the smallest rank. *)
From stdpp Require Import base list strings gmap sorting.
From Stdlib Require Import ZArith Lia String.
From S2P Require Import Prelude GoLib Types World Sys Envs DiskUtil.

Open Scope string_scope.

(** ** The reference *)

(** The device a link leads to. *)
Definition leads_to (fs : FS) (kname path : string) : Prop :=
  exists q, eval_symlinks fs path = Ok q /\ base q = kname.
(** It leads nowhere or elsewhere, and that can be told. *)
Definition leads_elsewhere (fs : FS) (kname path : string) : Prop :=
  (exists q, eval_symlinks fs path = Ok q /\ base q <> kname) \/
  (exists e, eval_symlinks fs path = Err e /\ os_is ENOENT e = true).
(** It cannot be told: a loop, or a component that is not a directory. *)
Definition unreadable (fs : FS) (path : string) : Prop :=
  exists e, eval_symlinks fs path = Err e /\ os_is ENOENT e = false.

(** The names in the directory, in order. *)
Definition by_id (fs : FS) : list string :=
  match glob (S (String.length "/dev/disk/by-id/*")) fs "/dev/disk/by-id/*" with Ok l => l | Err _ => [] end.

(** The rank of a link: the first of [preferredPatterns] its name begins with. *)
Definition rank (path : string) : nat := default 0 (bucket preferredPatterns (base path)).

(** The preferred link of a device: none before it has its rank or a smaller one, none
    after it a smaller one. *)
Record preferred_link (fs : FS) (kname : string) (links : list string) (p : string) : Prop := {
  pl_leads : leads_to fs kname p;
  pl_first : exists l1 l2, links = (l1 ++ p :: l2)%list /\
    (forall q, q ∈ l1 -> leads_to fs kname q -> rank p < rank q) /\
    (forall q, q ∈ l2 -> leads_to fs kname q -> rank p <= rank q) }.

(** Reading links and directories never fails but for what the tree says. *)
Definition reads_work (E : Env) : Prop :=
  forall s e, match s with SEval _ | SGlob _ => (sys_fault s e).1 = None | _ => True end.

(** ** The directory *)

Lemma glob_dir_star d l acc :
  d <> "" -> Forall (fun p => p <> "") acc ->
  exists l', fold_left (fun acc n => match acc with
                   | Err e => Err e
                   | Ok m => match path_match "*" n with
                             | None => Err ErrBadPattern
                             | Some true => Ok (m ++ [path_join [d; n]])%list
                             | Some false => Ok m
                             end
                   end) l (Ok acc) = Ok l' /\ Forall (fun p => p <> "") l'.
Proof.
  intros Hd. revert acc. induction l as [|n l IH]; intros acc Ha; simpl; [by exists acc|].
  change (path_match "*" n) with (Some (negb (contains_str "/" n))).
  destruct (negb _); apply IH; [|done]. apply Forall_app. split; [done|].
  apply Forall_singleton. by apply path_join_nonempty.
Qed.

Lemma glob_by_id fs :
  glob (S (String.length "/dev/disk/by-id/*")) fs "/dev/disk/by-id/*" = Ok (by_id fs) /\ "" ∉ by_id fs.
Proof.
  assert (exists l, glob (S (String.length "/dev/disk/by-id/*")) fs "/dev/disk/by-id/*" = Ok l /\ Forall (fun p => p <> "") l)
    as (l & Hl & Hf).
  { change (glob _ fs _) with (glob_dir fs "/dev/disk/by-id" "*"). unfold glob_dir.
    destruct (fs_stat fs _) as [[]|]; try (by exists []). by apply glob_dir_star. }
  unfold by_id. rewrite Hl. split; [done|]. intros Hin. rewrite Forall_forall in Hf. by apply (Hf "").
Qed.

(** ** Ranks and buckets *)

Lemma bucket_rank path : bucket preferredPatterns (base path) = Some (rank path) /\ rank path < 11.
Proof.
  assert (has_prefix (base path) "" = true) as Hall by (unfold has_prefix; by destruct (base path)).
  unfold rank, preferredPatterns. cbn [bucket]. rewrite Hall.
  repeat (lazymatch goal with |- context [if ?b then _ else _] => destruct b end; [simpl; split; [done|lia]|]).
  simpl. split; [done|lia].
Qed.

Lemma add_buckets links (sorted : list (list string)) i :
  List.length sorted = 11 -> i < 11 ->
  fold_left add_bucket links sorted !! i =
    Some (default [] (sorted !! i) ++ filter (fun p => rank p = i) links)%list.
Proof.
  intros Hlen Hi. revert sorted Hlen. induction links as [|p links IH]; intros sorted Hlen; simpl.
  - destruct (lookup_lt_is_Some_2 sorted i) as [g Hg]; [lia|]. rewrite Hg. simpl. by rewrite app_nil_r.
  - unfold add_bucket at 2. destruct (bucket_rank p) as [-> Hr]. rewrite IH by by rewrite length_alter.
    f_equal. rewrite filter_cons. case_decide as Hp.
    + rewrite Hp. destruct (lookup_lt_is_Some_2 sorted i) as [g Hg]; [lia|].
      rewrite list_lookup_alter_eq, Hg. simpl. by rewrite <- app_assoc.
    + by rewrite list_lookup_alter_ne by done.
Qed.

Lemma sortedSymlinks_spec links :
  sortedSymlinks links = (fun i => filter (fun p => rank p = i) links) <$> seq 0 11.
Proof.
  apply list_eq. intros i. destruct (decide (i < 11)) as [Hi|Hi].
  - unfold sortedSymlinks. rewrite add_buckets; [|done|done].
    rewrite list_lookup_fmap, lookup_seq_lt by done. simpl. f_equal.
    by do 11 (destruct i as [|i]; [done|]).
  - rewrite (lookup_ge_None_2 (_ <$> _)) by (rewrite length_fmap, length_seq; lia).
    apply lookup_ge_None_2. unfold sortedSymlinks.
    assert (forall l, List.length (fold_left add_bucket links l) = List.length l) as ->; [|simpl; lia].
    clear. induction links as [|p links IH]; intros l; simpl; [done|]. rewrite IH.
    unfold add_bucket. destruct (bucket _ _); [by rewrite length_alter|done].
Qed.

(** ** The calls *)

(** The first hit or error of a search. *)
Fixpoint first {A B} (l : list A) (g : A -> Res (option B)) : Res (option B) :=
  match l with [] => Ok None | a :: l => match g a with Ok None => first l g | r => r end end.

Lemma first_Some {A B} (l : list A) (g : A -> Res (option B)) b :
  first l g = Ok (Some b) ->
  exists l1 a l2, l = (l1 ++ a :: l2)%list /\ (forall x, x ∈ l1 -> g x = Ok None) /\ g a = Ok (Some b).
Proof.
  induction l as [|a l IH]; simpl; [discriminate|]. destruct (g a) as [[c|]|e] eqn:Ha; [|intros H|discriminate].
  - intros [= ->]. exists [], a, l. split; [done|]. split; [by intros x ?%elem_of_nil|done].
  - destruct (IH H) as (l1 & x & l2 & -> & Hl & Hx). exists (a :: l1), x, l2. split; [done|]. split; [|done].
    intros y [->|Hy]%elem_of_cons; auto.
Qed.
Lemma first_None {A B} (l : list A) (g : A -> Res (option B)) : first l g = Ok None -> forall a, a ∈ l -> g a = Ok None.
Proof.
  induction l as [|a l IH]; simpl; [by intros _ a ?%elem_of_nil|]. destruct (g a) as [[c|]|e] eqn:Ha; [done| |done].
  intros H b [->|Hb]%elem_of_cons; auto.
Qed.
Lemma first_Err {A B} (l : list A) (g : A -> Res (option B)) e : first l g = Err e -> exists a, a ∈ l /\ g a = Err e.
Proof.
  induction l as [|a l IH]; simpl; [done|]. destruct (g a) as [[c|]|e'] eqn:Ha; [done|intros H|intros [= ->]].
  - destruct (IH H) as (x & Hx & ?). exists x. split; [by right|done].
  - exists a. split; [by left|done].
Qed.

(** What [PathEvalsToDiskLabel] answers. *)
Definition label_of (fs : FS) (kname path : string) : Res bool :=
  match eval_symlinks fs path with
  | Ok q => Ok (bool_decide (base q = kname))
  | Err e => if os_is ENOENT e then Ok false else Err (Wrap (sprintf "could not eval symLink %q" [""]) e)
  end.

Lemma label_of_spec fs kname path :
  match label_of fs kname path with
  | Ok true => leads_to fs kname path | Ok false => leads_elsewhere fs kname path | Err _ => unreadable fs path end.
Proof.
  unfold label_of, leads_to, leads_elsewhere, unreadable. destruct (eval_symlinks fs path) as [q|e].
  - case_bool_decide; eauto.
  - destruct (os_is ENOENT e) eqn:He; eauto.
Qed.
Lemma leads_to_label fs kname path : leads_to fs kname path -> label_of fs kname path = Ok true.
Proof. intros (q & Hq & Hb). unfold label_of. rewrite Hq. by rewrite bool_decide_eq_true_2. Qed.
Lemma leads_elsewhere_not fs kname path : leads_elsewhere fs kname path -> ~ leads_to fs kname path.
Proof. intros [(q & Hq & Hb)|(e & He & _)] (q' & Hq' & Hb'); congruence. Qed.

(** The answer of a reader, as a function of the tree. *)
Definition answers {E : Env} {A} (m : M A) (fs : FS) (a : A) : Prop :=
  forall w, w_fs w = fs -> wp m (fun r w' => w_fs w' = fs /\ r = a) w.

Section answers.
Context {E : Env} (Hw : reads_work E).

Lemma answers_bind {A B} (m : M A) (f : A -> M B) fs a b :
  answers m fs a -> answers (f a) fs b -> answers (bindM m f) fs b.
Proof using. intros Hm Hf w Hfs. apply wp_bind. eapply wp_mono; [by apply Hm|]. intros ? w' [H ->]. by apply Hf. Qed.
Lemma answers_ret {A} (a : A) fs : answers (mret a) fs a.
Proof using. by intros w H. Qed.

Lemma answers_EvalSymlinks p fs : answers (EvalSymlinks p) fs (eval_symlinks fs p).
Proof.
  intros w <-. apply wp_read_fs; [|done]. intros e en He. by rewrite (Hw (SEval p) (w_est w)) in He.
Qed.
Lemma answers_Glob p fs : answers (Glob p) fs (glob (S (String.length p)) fs p).
Proof.
  intros w <-. unfold Glob. apply wp_bind, wp_ask. intros r en He.
  pose proof (Hw (SGlob p) (w_est w)) as Hn. rewrite He in Hn. simpl in Hn. by rewrite Hn.
Qed.
Lemma answers_label p kname fs : answers (PathEvalsToDiskLabel p kname) fs (label_of fs kname p).
Proof.
  eapply answers_bind; [apply answers_EvalSymlinks|]. unfold label_of.
  destruct (eval_symlinks fs p) as [q|e]; [apply answers_ret|]. destruct (os_is ENOENT e); apply answers_ret.
Qed.
Lemma answers_firstM {A B} (l : list A) (f : A -> M (Res (option B))) g fs :
  (forall a, answers (f a) fs (g a)) -> answers (firstM l f) fs (first l g).
Proof using.
  intros Hf. induction l as [|a l IH]; [apply answers_ret|]. cbn [firstM first].
  eapply answers_bind; [apply Hf|]. destruct (g a) as [[b|]|e]; [apply answers_ret|apply IH|apply answers_ret].
Qed.

Definition match_of (fs : FS) (kname path : string) : Res (option string) :=
  match label_of fs kname path with Ok b => Ok (if b then Some path else None) | Err e => Err e end.
Definition search (fs : FS) (kname : string) (links : list string) : Res (option string) :=
  first (sortedSymlinks links) (fun group => first group (match_of fs kname)).

Lemma answers_matching kname p fs : answers (matching_path kname p) fs (match_of fs kname p).
Proof.
  eapply answers_bind; [apply answers_label|]. unfold match_of. destruct (label_of fs kname p); apply answers_ret.
Qed.
Lemma answers_find b links fs :
  answers (findDeviceInSortedSymlink b links) fs
    (match search fs (bd_KName b) links with Err e => Err e | Ok r => Ok (default "" r) end).
Proof.
  eapply answers_bind; [apply answers_firstM; intros group; apply answers_firstM; intros p; apply answers_matching|].
  unfold search. destruct (first _ _) as [[p|]|e]; apply answers_ret.
Qed.
Lemma answers_list_by_id fs : answers list_by_id fs (Ok (by_id fs)).
Proof.
  eapply answers_bind; [apply answers_Glob|].
  change (path_join [DiskByIDDir; "/*"]) with "/dev/disk/by-id/*". rewrite (proj1 (glob_by_id fs)). apply answers_ret.
Qed.
End answers.

(** *** The search *)

Lemma filter_split {A} (P : A -> Prop) `{forall x, Decision (P x)} l g1 x g2 :
  filter P l = (g1 ++ x :: g2)%list ->
  exists l1 l2, l = (l1 ++ x :: l2)%list /\ filter P l1 = g1 /\ filter P l2 = g2.
Proof.
  revert g1. induction l as [|a l IH]; intros g1; [by destruct g1|].
  rewrite filter_cons. destruct (decide (P a)) as [Ha|Ha]; [destruct g1 as [|b g1]|]; simpl.
  - intros [= -> <-]. by exists [], l.
  - intros [= -> Hl]. apply IH in Hl as (l1 & l2 & -> & H1 & H2). exists (b :: l1), l2. split; [done|].
    by rewrite filter_cons_True, H1.
  - intros Hl. apply IH in Hl as (l1 & l2 & -> & H1 & H2). exists (a :: l1), l2. split; [done|].
    by rewrite filter_cons_False.
Qed.

Lemma in_group p links group :
  group ∈ sortedSymlinks links -> p ∈ group -> p ∈ links.
Proof. rewrite sortedSymlinks_spec. intros (i & -> & _)%list_elem_of_fmap Hp. by apply list_elem_of_filter in Hp as [_ ?]. Qed.
Lemma group_of p links : p ∈ links -> filter (fun q => rank q = rank p) links ∈ sortedSymlinks links.
Proof.
  intros Hp. rewrite sortedSymlinks_spec. apply list_elem_of_fmap. exists (rank p). split; [done|].
  apply elem_of_seq. pose proof (bucket_rank p). lia.
Qed.

(** The groups before the one with index [i], and the one. *)
Lemma groups_split links l1 group l2 :
  sortedSymlinks links = (l1 ++ group :: l2)%list ->
  group = filter (fun p => rank p = List.length l1) links /\
  (forall q, rank q < List.length l1 -> filter (fun p => rank p = rank q) links ∈ l1).
Proof.
  rewrite sortedSymlinks_spec. intros Hs.
  assert (forall i, i < 11 -> (l1 ++ group :: l2)%list !! i = Some (filter (fun p => rank p = i) links)) as Hi.
  { intros i Hi. rewrite <- Hs, list_lookup_fmap, lookup_seq_lt by done. done. }
  assert (List.length l1 < 11) as Hl.
  { apply (f_equal List.length) in Hs. rewrite length_fmap, length_seq, length_app in Hs. simpl in Hs. lia. }
  split.
  - specialize (Hi _ Hl). rewrite list_lookup_middle in Hi by done. by injection Hi.
  - intros q Hq. pose proof (Hi (rank q)) as H. rewrite lookup_app_l in H by done.
    apply list_elem_of_lookup_2 with (rank q). apply H. lia.
Qed.

Lemma match_of_None fs kname p : match_of fs kname p = Ok None -> leads_elsewhere fs kname p.
Proof.
  unfold match_of. pose proof (label_of_spec fs kname p) as H. by destruct (label_of fs kname p) as [[]|].
Qed.

Lemma search_spec fs kname links :
  match search fs kname links with
  | Ok (Some p) => preferred_link fs kname links p
  | Ok None => forall q, q ∈ links -> leads_elsewhere fs kname q
  | Err _ => exists q, q ∈ links /\ unreadable fs q
  end.
Proof.
  destruct (search fs kname links) as [[p|]|e] eqn:Hs; unfold search in Hs.
  - apply first_Some in Hs as (b1 & group & b2 & Hgs & Hb1 & Hg).
    apply first_Some in Hg as (g1 & p' & g2 & Hgr & Hg1 & Hp).
    apply groups_split in Hgs as [Hgroup Hbefore].
    unfold match_of in Hp. pose proof (label_of_spec fs kname p') as Hl.
    destruct (label_of fs kname p') as [[]|]; try discriminate. injection Hp as ->.
    rewrite Hgr in Hgroup. symmetry in Hgroup.
    assert (rank p = List.length b1) as Hr.
    { assert (p ∈ filter (fun p => rank p = List.length b1) links) as H by (rewrite Hgroup; set_solver).
      by apply list_elem_of_filter in H as [? _]. }
    apply filter_split in Hgroup as (l1 & l2 & -> & H1 & H2).
    assert (forall q, q ∈ (l1 ++ p :: l2)%list -> leads_to fs kname q -> rank p <= rank q) as Hmin.
    { intros q Hq Hlead. destruct (decide (rank q < List.length b1)) as [Hlt|]; [|lia]. exfalso.
      apply Hbefore, Hb1 in Hlt. apply (leads_elsewhere_not fs kname q); [|done].
      apply match_of_None, (first_None _ _ Hlt). by apply list_elem_of_filter. }
    split; [done|]. exists l1, l2. split; [done|]. split.
    + intros q Hq Hlead. assert (rank q <> rank p) as Hne.
      { intros He. apply (leads_elsewhere_not fs kname q); [|done]. apply match_of_None, Hg1. rewrite <- H1.
        apply list_elem_of_filter. split; [congruence|done]. }
      specialize (Hmin q). rewrite elem_of_app in Hmin. assert (rank p <= rank q) by auto. lia.
    + intros q Hq Hlead. apply Hmin; [|done]. apply elem_of_app. right. by right.
  - intros q Hq. apply match_of_None.
    apply (first_None _ _ (first_None _ _ Hs _ (group_of q links Hq))). by apply list_elem_of_filter.
  - apply first_Err in Hs as (group & Hgr & (p & Hp & He)%first_Err). exists p.
    split; [by apply (in_group p links group)|]. unfold match_of in He.
    pose proof (label_of_spec fs kname p) as Hl. by destruct (label_of fs kname p) as [[]|].
Qed.

Lemma preferred_nonempty fs kname p : preferred_link fs kname (by_id fs) p -> p <> "".
Proof.
  intros [_ (l1 & l2 & Hl & _)] ->. apply (proj2 (glob_by_id fs)). rewrite Hl. set_solver.
Qed.

(** The error of an unreadable link is never taken for a missing one. *)
Lemma walk_err fs n dest todo e : walk fs n dest todo = Err e -> as_id_not_found e = None.
Proof.
  revert dest todo. induction n as [|n IH]; intros dest todo; revert dest; induction todo as [|c todo IHt]; intros dest; simpl;
    try done; (destruct (String.eqb c "."); [apply IHt|]); (destruct (String.eqb c ".."); [apply IHt|]);
    (destruct (fs !! _) as [[]|]; [apply IHt| | | |by intros [= <-]]).
  all: try (destruct todo; [done|]); try by intros [= <-].
  apply IH.
Qed.

Lemma search_err fs kname links e : search fs kname links = Err e -> as_id_not_found e = None.
Proof.
  intros (g & _ & (p & _ & He)%first_Err)%first_Err. unfold match_of, label_of in He.
  destruct (eval_symlinks fs p) as [q|c] eqn:Hc; [done|]. destruct (os_is ENOENT c); [done|]. injection He as <-.
  by apply (walk_err _ _ _ _ _ Hc).
Qed.

(** [sets.List] of the links found. *)
Lemma elem_of_set_list x l : x ∈ set_list l <-> x ∈ l.
Proof. unfold set_list, sort_strings. by rewrite merge_sort_Permutation, elem_of_elements, elem_of_list_to_set. Qed.
Lemma NoDup_set_list l : NoDup (set_list l).
Proof. unfold set_list, sort_strings. rewrite merge_sort_Permutation. apply NoDup_elements. Qed.

Section links.
Context {E : Env} (Hw : reads_work E).

(** What the search for a device in the directory answers. *)
Definition uncached (b : BlockDevice) (fs : FS) (r : Res string * BlockDevice) : Prop :=
  match r with
  | (Ok p, b') => preferred_link fs (bd_KName b) (by_id fs) p /\ b' = set_PathByID p b
  | (Err e, b') => b' = b /\
      match as_id_not_found e with
      | Some k => k = bd_KName b /\ forall q, q ∈ by_id fs -> leads_elsewhere fs (bd_KName b) q
      | None => exists q, q ∈ by_id fs /\ unreadable fs q
      end
  end.

Lemma answers_uncached b fs : exists r, answers (GetUncachedPathID b) fs r /\ uncached b fs r.
Proof.
  pose proof (search_spec fs (bd_KName b) (by_id fs)) as Hs.
  destruct (search fs (bd_KName b) (by_id fs)) as [[p|]|e] eqn:He.
  - pose proof (preferred_nonempty _ _ _ Hs) as Hne. exists (Ok p, set_PathByID p b). split; [|done].
    eapply answers_bind; [by apply answers_list_by_id|]. eapply answers_bind; [by apply answers_find|].
    rewrite He. simpl. rewrite decide_True by done. apply answers_ret.
  - exists (Err (IDPathNotFoundError (bd_KName b)), b). split; [|done].
    eapply answers_bind; [by apply answers_list_by_id|]. eapply answers_bind; [by apply answers_find|].
    rewrite He. apply answers_ret.
  - exists (Err e, b). split; [|simpl; by rewrite (search_err _ _ _ _ He)].
    eapply answers_bind; [by apply answers_list_by_id|]. eapply answers_bind; [by apply answers_find|].
    rewrite He. apply answers_ret.
Qed.

Definition valid_links (b : BlockDevice) (fs : FS) (r : Res (list string)) : Prop :=
  match r with
  | Ok l => NoDup l /\ Sorted str_le l /\ forall p, p ∈ l <-> p ∈ by_id fs /\ leads_to fs (bd_KName b) p
  | Err _ => exists q, q ∈ by_id fs /\ unreadable fs q
  end.

Lemma answers_valid b fs : exists r, answers (GetValidByIDSymlinks b) fs r /\ valid_links b fs r.
Proof.
  set (step := fun (matches : list string) path =>
    r ← PathEvalsToDiskLabel path (bd_KName b);
    match r with
    | Err err => mret (Err err)
    | Ok isMatch => mret (Ok (if isMatch : bool then (matches ++ [path])%list else matches))
    end).
  assert (forall links acc, exists r, answers (foldM step acc links) fs r /\
    match r with
    | Ok l => forall p, p ∈ l <-> p ∈ acc \/ p ∈ links /\ leads_to fs (bd_KName b) p
    | Err _ => exists q, q ∈ links /\ unreadable fs q
    end) as H.
  { induction links as [|q links IH]; intros acc.
    - exists (Ok acc). split; [apply answers_ret|]. set_solver.
    - pose proof (label_of_spec fs (bd_KName b) q) as Hq. destruct (label_of fs (bd_KName b) q) as [m|e] eqn:Hl.
      + destruct (IH (if m then (acc ++ [q])%list else acc)) as (r & Hr & Hspec). exists r. split.
        * cbn [foldM]. eapply answers_bind; [eapply answers_bind; [by apply answers_label|]; rewrite Hl; apply answers_ret|].
          exact Hr.
        * destruct r as [l|e]; [|destruct Hspec as (x & ? & ?); exists x; split; [by right|done]].
          intros p. rewrite Hspec. destruct m.
          -- rewrite elem_of_app, !elem_of_cons, elem_of_nil. naive_solver.
          -- rewrite elem_of_cons. apply leads_elsewhere_not in Hq. naive_solver.
      + exists (Err e). split; [|exists q; split; [by left|done]].
        cbn [foldM]. eapply answers_bind; [eapply answers_bind; [by apply answers_label|]; rewrite Hl; apply answers_ret|].
        apply answers_ret. }
  destruct (H (by_id fs) []) as (r & Hr & Hspec).
  exists (match r with Ok l => Ok (set_list l) | Err e => Err e end). split.
  - eapply answers_bind; [by apply answers_Glob|]. change (DiskByIDDir ++s "*") with "/dev/disk/by-id/*".
    rewrite (proj1 (glob_by_id fs)). eapply answers_bind; [exact Hr|]. destruct r; apply answers_ret.
  - destruct r as [l|e]; [|done]. split; [apply NoDup_set_list|]. split; [apply Sorted_merge_sort, _|].
    intros p. rewrite elem_of_set_list, Hspec. rewrite elem_of_nil. naive_solver.
Qed.
End links.

(** ** The choice of the preferred link *)

(** What [GetPathByID] answers: the path, the error and the device. *)
Definition remembered (b : BlockDevice) (fs : FS) : Prop :=
  bd_PathByID b <> "" /\ has_prefix (bd_PathByID b) DiskByIDDir = true /\ leads_to fs (bd_KName b) (bd_PathByID b).

Definition found (b : BlockDevice) (fs : FS) (r : string * option GoErr * BlockDevice) : Prop :=
  match r with
  | (p, None, b') => bd_PathByID b' = p /\
      (remembered b fs /\ p = bd_PathByID b \/ ~ remembered b fs /\ preferred_link fs (bd_KName b) (by_id fs) p)
  | (_, Some err, b') => ~ remembered b fs /\ bd_PathByID b' = "" /\
      match as_id_not_found err with
      | Some k => k = bd_KName b /\ forall q, q ∈ by_id fs -> leads_elsewhere fs (bd_KName b) q
      | None => bd_KName b = "" \/ exists q, q ∈ by_id fs /\ unreadable fs q
      end
  end.

(** C13: the path of a device.  A path that was found before is kept while it lies in
    /dev/disk/by-id and leads to the device; otherwise the answer is the link of the
    directory of the best rank that leads to the device, the first in the order of the
    directory among equals, and it is remembered; the device is reported to have no link
    only when every link of the directory leads elsewhere, and any other error means that
    a link of the directory cannot be read or the device has no name.  The search that
    ignores what was found before answers from the directory alone. *)
Theorem GetPathByID_preferred {E : Env} (b : BlockDevice) (w : World) :
  reads_work E ->
  wp (GetPathByID b) (fun r w' => w_fs w' = w_fs w /\ found b (w_fs w) r) w /\
  wp (GetUncachedPathID b) (fun r w' => w_fs w' = w_fs w /\ uncached b (w_fs w) r) w.
Proof.
  intros Hw. set (fs := w_fs w). set (cached := if decide (bd_PathByID b <> "" /\ has_prefix (bd_PathByID b) DiskByIDDir = true)
    then (match label_of fs (bd_KName b) (bd_PathByID b) with Ok ok => ok | Err _ => false end) else false).
  assert (cached = true <-> remembered b fs) as Hk.
  { unfold cached, remembered. pose proof (label_of_spec fs (bd_KName b) (bd_PathByID b)) as Hl. case_decide as Hd; [|naive_solver].
    destruct (label_of _ _ _) as [[]|e]; [naive_solver|apply leads_elsewhere_not in Hl; naive_solver|].
    split; [done|]. intros (_ & _ & q & Hq & _). destruct Hl as (e' & He & _). congruence. }
  assert (answers (if decide (bd_PathByID b <> "" /\ has_prefix (bd_PathByID b) DiskByIDDir = true)
            then (r ← PathEvalsToDiskLabel (bd_PathByID b) (bd_KName b);
                  mret (match r with Ok ok => ok | Err _ => false end))
            else mret false) fs cached) as Hcached.
  { unfold cached. case_decide; [|apply answers_ret]. eapply answers_bind; [by apply answers_label|]. apply answers_ret. }
  split.
  2: { destruct (answers_uncached Hw b fs) as (r & Hr & Hs). eapply wp_mono; [by apply Hr|]. by intros ? w' [H ->]. }
  unfold GetPathByID. apply wp_bind. eapply wp_mono; [by apply Hcached|]. intros ? w1 [H1 ->].
  destruct cached; [apply wp_ret; split; [done|]; split; [done|]; left; by rewrite <- Hk|].
  assert (~ remembered b fs) as Hnk by by rewrite <- Hk. clear Hk Hcached.
  apply wp_bind. eapply wp_mono; [by apply answers_list_by_id|]. intros ? w2 [H2 ->].
  apply wp_bind. eapply wp_mono; [by apply answers_find|]. intros ? w3 [H3 ->].
  pose proof (search_spec fs (bd_KName b) (by_id fs)) as Hs. change (bd_KName (set_PathByID "" b)) with (bd_KName b).
  destruct (search fs (bd_KName b) (by_id fs)) as [[p|]|e] eqn:He.
  - simpl. rewrite decide_True by by eapply preferred_nonempty. split; [done|]. split; [done|]. by right.
  - simpl. unfold GetDevPath. simpl. destruct (decide (bd_KName b = "")) as [Hn|Hn]; simpl; [|done].
    split; [done|]. split; [done|]. split; [done|by left].
  - apply wp_ret. split; [done|]. simpl. rewrite (search_err _ _ _ _ He). auto.
Qed.

Lemma wp_value {E : Env} {A} (m : M A) (P : World -> Prop) (Q : A -> Prop) w :
  wp m (fun r w' => P w' /\ Q r) w -> Q (m w).1.
Proof. by intros [_ H]. Qed.

(** Two links to a device: wwn before nvme; a third leads elsewhere. *)
Definition ex_links : FS :=
  {["/dev" := NDir; "/dev/disk" := NDir; "/dev/disk/by-id" := NDir; "/dev/sda" := NBlock; "/dev/sdb" := NBlock;
    "/dev/disk/by-id/nvme-x" := NLink "../../sda"; "/dev/disk/by-id/wwn-2" := NLink "../../sda";
    "/dev/disk/by-id/wwn-1" := NLink "../../sdb"]}.
Definition ex_device : BlockDevice := 
  {| bd_Name := "sda"; bd_KName := "sda"; bd_Type := "disk"; bd_Model := ""; bd_Vendor := ""; bd_State := "running";
     bd_FSType := ""; bd_Size := "1024"; bd_Rotational := "0"; bd_ReadOnly := "0"; bd_Removable := "0";
     bd_PathByID := ""; bd_Serial := ""; bd_PartLabel := "" |}.

Lemma GetPathByID_preferred_witness :
  let w := static_world quiet ex_links empty_mem in
  (GetPathByID ex_device w).1.1.1 = "/dev/disk/by-id/wwn-2" /\
  preferred_link ex_links "sda" (by_id ex_links) "/dev/disk/by-id/wwn-2".
Proof.
  intros w. assert (reads_work (static_env quiet)) as Hw by by intros [].
  pose proof (wp_value _ _ _ _ (proj1 (GetPathByID_preferred ex_device w Hw))) as H.
  assert ((GetPathByID ex_device w).1 = ("/dev/disk/by-id/wwn-2", None, set_PathByID "/dev/disk/by-id/wwn-2" ex_device)) as Hr
    by (vm_compute; reflexivity).
  rewrite Hr in H. split; [by rewrite Hr|].
  destruct H as [_ [[Hr' _]|[_ H]]]; [by destruct (proj1 Hr')|exact H].
Defined.
