(* ===== verification/LinkCache.v ===== *)
(** * The LocalVolumeDeviceLink index: pkg/common/pv_link_cache.go and
    pkg/common/current_block_device_info.go

    The index maps a /dev/disk/by-id link to the LocalVolumeDeviceLink objects, by
    name, that list it as a valid target.  It is kept by the informer's event
    handlers, by the initial list and by write-through updates; every operation
    runs under the cache's mutex, so it is one step. *)
From stdpp Require Import base list strings gmap.
From Stdlib Require Import ZArith Lia String.
From S2P Require Import Prelude GoLib Types World Sys Envs DiskUtil.

Open Scope string_scope.

(** [CurrentBlockDeviceInfo.lvdls]. *)
Abbreviation DeviceInfo := (gmap string LocalVolumeDeviceLink).
(** [LocalVolumeDeviceLinkCache.localDeviceInfos]. *)
Abbreviation LinkIndex := (gmap string (gmap string LocalVolumeDeviceLink)).

Definition targets (l : LocalVolumeDeviceLink) : list string := ls_ValidLinkTargets (ld_Status l).

Definition shouldIndexLVDL (localNodeName : string) (lvdl : option LocalVolumeDeviceLink) : bool :=
  match lvdl with
  | None => false
  | Some l => bool_decide (lds_NodeName (ld_Spec l) = localNodeName)
  end.

(** One entry of the loop that removes the object from links it no longer has. *)
Definition drop_stale (lvdl : LocalVolumeDeviceLink) (symlink : string) (info : DeviceInfo)
  : option DeviceInfo :=
  if decide (symlink ∈ targets lvdl) then Some info
  else match info !! ld_Name lvdl with
       | None => Some info
       | Some _ => let info' := delete (ld_Name lvdl) info in
                   if decide (info' = ∅) then None else Some info'
       end.

Definition add_target (lvdl : LocalVolumeDeviceLink) (links : LinkIndex) (linkTarget : string)
  : LinkIndex :=
  <[linkTarget := <[ld_Name lvdl := lvdl]> (default ∅ (links !! linkTarget))]> links.

Definition addOrUpdateLVDL (localNodeName : string) (lvdl : option LocalVolumeDeviceLink)
  (links : LinkIndex) : LinkIndex :=
  if shouldIndexLVDL localNodeName lvdl then
    match lvdl with
    | None => links
    | Some l => fold_left (add_target l) (targets l) (map_imap (drop_stale l) links)
    end
  else links.

Definition remove_target (name : string) (links : LinkIndex) (linkTarget : string) : LinkIndex :=
  match links !! linkTarget with
  | None => links
  | Some info =>
      let info' := delete name info in
      if decide (info' = ∅) then delete linkTarget links else <[linkTarget := info']> links
  end.

Definition removeLVDL (lvdl : LocalVolumeDeviceLink) (links : LinkIndex) : LinkIndex :=
  fold_left (remove_target (ld_Name lvdl)) (targets lvdl) links.

(** ** The events that reach the index *)

Inductive CacheEvent :=
  | EvAdd (obj : LocalVolumeDeviceLink)                 (* AddFunc *)
  | EvUpdate (oldObj newObj : LocalVolumeDeviceLink)    (* UpdateFunc *)
  | EvDelete (obj : LocalVolumeDeviceLink)              (* DeleteFunc *)
  | EvTombstone (obj : option LocalVolumeDeviceLink)    (* DeleteFunc, DeletedFinalStateUnknown *)
  | EvWriteThrough (obj : LocalVolumeDeviceLink).       (* AddOrUpdateLVDL *)

Definition watchForEvents (localNodeName : string) (e : CacheEvent) (links : LinkIndex) : LinkIndex :=
  match e with
  | EvAdd obj => addOrUpdateLVDL localNodeName (Some obj) links
  | EvUpdate _ newObj => addOrUpdateLVDL localNodeName (Some newObj) links
  | EvDelete obj => removeLVDL obj links
  | EvTombstone (Some obj) => removeLVDL obj links
  | EvTombstone None => links
  | EvWriteThrough obj => addOrUpdateLVDL localNodeName (Some obj) links
  end.

(** [maps.Copy(dst, src)]. *)
Definition maps_copy (dst src : DeviceInfo) : DeviceInfo := src ∪ dst.

Definition merge_siblings (links : LinkIndex) (validLinkTargets : list string) : DeviceInfo :=
  fold_left (fun acc linkTarget => match links !! linkTarget with
                                   | Some info => maps_copy acc info
                                   | None => acc
                                   end) validLinkTargets ∅.

(** [PolicyNotPreferredLVDL]. *)
Definition PolicyNotPreferredLVDL (err : GoErr) : option (LocalVolumeDeviceLink * string) :=
  match as_policy_not_preferred err with
  | Some (p, Some l) => Some (l, p)
  | _ => None
  end.

Section linkcache.
Context {E : Env}.

(** Write-through update of the index held by the process. *)
Definition AddOrUpdateLVDL (lvdl : LocalVolumeDeviceLink) : M unit :=
  put_mem (fun m => set_m_links (addOrUpdateLVDL (m_localNodeName m) (Some lvdl) (m_links m)) m).

(** The part of [Start] that fills the index before the cache is declared synced
    ([waitForSync] is the answer of WaitForCacheSync). *)
Definition Start (waitForSync : bool) : M (option GoErr) :=
  node ← get_mem m_localNodeName;
  if decide (node = "")
  then mret (Some (Errorf "LocalVolumeDeviceLink cache requires a local node name"))
  else if negb waitForSync
  then mret (Some (Errorf "cache sync failed for LocalVolumeDeviceLink"))
  else
    r ← ClientList KLVDL no_opts;
    match r with
    | Err err => mret (Some (Wrap "failed to list LocalVolumeDeviceLink objects" err))
    | Ok items =>
        forM_ items AddOrUpdateLVDL ;;
        put_mem (set_m_linksSynced true) ;;
        mret None
    end.

Definition IsSynced : M bool := get_mem m_linksSynced.

(** The device information and whether any was found. *)
Definition FindLSOManagedDeviceInfo (symlink : string) (blockDevice : BlockDevice)
  : M (Res (option DeviceInfo)) :=
  links ← get_mem m_links;
  match (links : LinkIndex) !! symlink with
  | Some info => mret (Ok (Some info))
  | None =>
      r ← GetValidByIDSymlinks blockDevice;
      match r with
      | Err err =>
          mret (Err (Wrap (sprintf "error listing valid symlinks in %s for finding stale pvs for device %s"
                             [DiskByIDDir; bd_Name blockDevice]) err))
      | Ok validLinkTargets =>
          let info := merge_siblings links validLinkTargets in
          mret (Ok (if decide (info = ∅) then None else Some info))
      end
  end.

(** Any object of the set and its symlink path under /mnt/local-storage. *)
Definition getLVDLAndSymlinkPath (lvdls : DeviceInfo)
  : M (Res (LocalVolumeDeviceLink * string)) :=
  order ← range_map (map_to_list lvdls);
  match order with
  | [] => mret (Err (Errorf "unexpected empty lvdl set for symlink"))
  | (_, lvdl) :: _ =>
      let p := ls_PersistentVolumeSymlinkPath (ld_Status lvdl) in
      if decide (p <> "") then mret (Ok (lvdl, p))
      else
        r ← ClientGet KPV {| nn_Namespace := ""; nn_Name := lds_PersistentVolumeName (ld_Spec lvdl) |};
        match r with
        | Err err => mret (Err (Errorf (sprintf "error getting associated pv object %s: %v"
                                          [ld_Name lvdl; error_text err])))
        | Ok pv =>
            match pv_Local pv with
            | None | Some "" => mret (Err (Errorf (sprintf "pv %s has empty local path" [pv_Name pv])))
            | Some path => mret (Ok (lvdl, path))
            end
        end
  end.

Definition RecoverPVSymlinkPath (lvdls : DeviceInfo) (symlinkDir newSymlinkSourcePath : string)
  : M (Res string) :=
  if decide (1 < size lvdls) then
    mret (Err (Errorf (sprintf "more than one LocalVolumeDevicelink found for %s path" [newSymlinkSourcePath])))
  else if decide (size lvdls = 0) then
    mret (Err (Errorf (sprintf "unexpected empty lvdl set for symlink %s" [newSymlinkSourcePath])))
  else
    r ← getLVDLAndSymlinkPath lvdls;
    match r with
    | Err err => mret (Err err)
    | Ok (lvdl, symlinkPath) =>
        let discoveredSymlinkDir := dir symlinkPath in
        if decide (discoveredSymlinkDir <> symlinkDir) then
          mret (Err (Errorf (sprintf "discovered symlink directory %s does not match expected symlink directory %s for device %s - is this device matched by multiple LocalVolumes / LocalVolumeSets?"
                               [discoveredSymlinkDir; symlinkDir; newSymlinkSourcePath])))
        else if decide (lds_Policy (ld_Spec lvdl) <> DeviceLinkPolicyPreferredLinkTarget) then
          mret (Err (PolicyNotPreferredError newSymlinkSourcePath symlinkDir symlinkPath (Some lvdl)))
        else
          let currentLinkTarget := ls_CurrentLinkTarget (ld_Status lvdl) in
          r ← EvalSymlinks currentLinkTarget;
          match r with
          | Ok resolvedCurrent =>
              mret (Err (Errorf (sprintf "currentSymlink %s still resolves to %s for %s"
                                   [currentLinkTarget; resolvedCurrent; newSymlinkSourcePath])))
          | Err _ => mret (Ok symlinkPath)
          end
    end.
End linkcache.

(** ** The index as a function of the objects it has been told about

    The abstract cache is the map from names to the last objects of this node;
    the index is its inversion, without empty entries. *)

Abbreviation AbsCache := (gmap string LocalVolumeDeviceLink).

Definition idx_lookup (links : LinkIndex) (t n : string) : option LocalVolumeDeviceLink :=
  links !! t ≫= (fun info => info !! n).

Definition no_empty (links : LinkIndex) : Prop := map_Forall (fun _ (info : DeviceInfo) => info <> ∅) links.

Definition abs_lookup (A : AbsCache) (t n : string) : option LocalVolumeDeviceLink :=
  match A !! n with
  | Some l => if decide (t ∈ targets l) then Some l else None
  | None => None
  end.

Record Idx (A : AbsCache) (links : LinkIndex) : Prop := {
  idx_no_empty : no_empty links;
  idx_agree : forall t n, idx_lookup links t n = abs_lookup A t n }.

(** The objects the process may know after an event. *)
Definition abs_event (localNodeName : string) (e : CacheEvent) (A : AbsCache) : AbsCache :=
  match e with
  | EvAdd o | EvUpdate _ o | EvWriteThrough o =>
      if decide (lds_NodeName (ld_Spec o) = localNodeName) then <[ld_Name o := o]> A else A
  | EvDelete o | EvTombstone (Some o) => delete (ld_Name o) A
  | EvTombstone None => A
  end.

(** A deletion must carry an object whose targets cover those that were indexed. *)
Definition event_ok (A : AbsCache) (e : CacheEvent) : Prop :=
  match e with
  | EvDelete o | EvTombstone (Some o) =>
      forall l, A !! ld_Name o = Some l -> targets l ⊆ targets o
  | _ => True
  end.

(** The indices a process can hold, with the abstract cache they stand for. *)
Inductive index_reach (node : string) : AbsCache -> LinkIndex -> Prop :=
  | reach_new : index_reach node ∅ ∅
  | reach_event A links e :
      index_reach node A links -> event_ok A e ->
      index_reach node (abs_event node e A) (watchForEvents node e links).

(** ** Lemmas *)

Lemma lookup_drop_stale l (links : LinkIndex) t n :
  idx_lookup (map_imap (drop_stale l) links) t n =
    if decide (n = ld_Name l /\ t ∉ targets l) then None else idx_lookup links t n.
Proof.
  unfold idx_lookup. rewrite map_lookup_imap.
  destruct (links !! t) as [info|] eqn:Ht; simpl; [|by case_decide].
  unfold drop_stale. destruct (decide (t ∈ targets l)) as [Hin|Hout].
  { rewrite decide_False by tauto. done. }
  destruct (decide (n = ld_Name l)) as [->|Hn].
  - rewrite (decide_True (P := _ /\ _)) by tauto. destruct (info !! ld_Name l) eqn:Hl; [|done].
    case_decide; simpl; [done|by rewrite lookup_delete_eq].
  - rewrite (decide_False (P := _ /\ _)) by tauto. destruct (info !! ld_Name l) eqn:Hl; [|done].
    rewrite <- (lookup_delete_ne info (ld_Name l) n) by done. case_decide as Hd; simpl; [by rewrite Hd|done].
Qed.

Lemma lookup_add_targets l ts (links : LinkIndex) t n :
  idx_lookup (fold_left (add_target l) ts links) t n =
    if decide (n = ld_Name l /\ t ∈ ts) then Some l else idx_lookup links t n.
Proof.
  revert links. induction ts as [|t' ts IH]; intros links; simpl.
  - case_decide; [set_solver|done].
  - rewrite IH. unfold idx_lookup, add_target at 1.
    destruct (decide (t = t')) as [->|Ht].
    + rewrite lookup_insert_eq. simpl. destruct (decide (n = ld_Name l)) as [->|Hn].
      * rewrite lookup_insert_eq. repeat case_decide; set_solver.
      * rewrite lookup_insert_ne by done. rewrite !decide_False by tauto.
        by destruct (links !! t').
    + rewrite lookup_insert_ne by done. repeat case_decide; set_solver.
Qed.

Lemma lookup_remove_targets name ts (links : LinkIndex) t n :
  idx_lookup (fold_left (remove_target name) ts links) t n =
    if decide (n = name /\ t ∈ ts) then None else idx_lookup links t n.
Proof.
  revert links. induction ts as [|t' ts IH]; intros links; simpl.
  - case_decide; [set_solver|done].
  - rewrite IH. clear IH.
    assert (idx_lookup (remove_target name links t') t n =
            if decide (n = name /\ t = t') then None else idx_lookup links t n) as ->.
    { unfold idx_lookup, remove_target. destruct (links !! t') as [info|] eqn:Ht'.
      - destruct (decide (t = t')) as [->|Hne].
        + destruct (decide (n = name)) as [->|Hn].
          * rewrite (decide_True (P := _ /\ _)) by tauto. case_decide.
            { by rewrite lookup_delete_eq. }
            { rewrite lookup_insert_eq. simpl. by rewrite lookup_delete_eq. }
          * rewrite (decide_False (P := _ /\ _)) by tauto. rewrite Ht'. simpl.
            rewrite <- (lookup_delete_ne info name n) by done. case_decide as Hd.
            { by rewrite lookup_delete_eq, Hd. } { by rewrite lookup_insert_eq. }
        + rewrite (decide_False (P := _ /\ _)) by tauto.
          case_decide; [rewrite lookup_delete_ne|rewrite lookup_insert_ne]; done.
      - case_decide; [|done]. destruct_and?; subst. by rewrite Ht'. }
    repeat case_decide; set_solver.
Qed.

Lemma no_empty_drop_stale l links : no_empty links -> no_empty (map_imap (drop_stale l) links).
Proof.
  intros H t info. rewrite map_lookup_imap. destruct (links !! t) as [i|] eqn:Hi; [|done].
  specialize (H t i Hi). simpl. unfold drop_stale.
  repeat case_decide; try destruct (i !! ld_Name l); try case_decide; naive_solver.
Qed.

Lemma no_empty_add_targets l ts links : no_empty links -> no_empty (fold_left (add_target l) ts links).
Proof.
  revert links. induction ts as [|t ts IH]; intros links H; simpl; [done|].
  apply IH, map_Forall_insert_2; [apply insert_non_empty|done].
Qed.

Lemma no_empty_remove_targets n ts links : no_empty links -> no_empty (fold_left (remove_target n) ts links).
Proof.
  revert links. induction ts as [|t ts IH]; intros links H; simpl; [done|].
  apply IH. unfold remove_target. destruct (links !! t); [|done].
  case_decide; [by apply map_Forall_delete|by apply map_Forall_insert_2].
Qed.

Lemma addOrUpdateLVDL_Idx node o A links :
  Idx A links -> lds_NodeName (ld_Spec o) = node ->
  Idx (<[ld_Name o := o]> A) (addOrUpdateLVDL node (Some o) links).
Proof.
  intros [Hne Hag] Hn. unfold addOrUpdateLVDL, shouldIndexLVDL.
  rewrite bool_decide_eq_true_2 by done. split.
  - by apply no_empty_add_targets, no_empty_drop_stale.
  - intros t n. rewrite lookup_add_targets, lookup_drop_stale, Hag. unfold abs_lookup.
    destruct (decide (n = ld_Name o)) as [->|Hne'].
    + rewrite lookup_insert_eq. repeat case_decide; naive_solver.
    + rewrite lookup_insert_ne by done. by rewrite !decide_False by tauto.
Qed.

Lemma removeLVDL_Idx o A links :
  Idx A links -> (forall l, A !! ld_Name o = Some l -> targets l ⊆ targets o) ->
  Idx (delete (ld_Name o) A) (removeLVDL o links).
Proof.
  intros [Hne Hag] Hcov. split; [by apply no_empty_remove_targets|].
  intros t n. unfold removeLVDL. rewrite lookup_remove_targets, Hag. unfold abs_lookup.
  destruct (decide (n = ld_Name o)) as [->|Hn].
  - rewrite lookup_delete_eq. destruct (A !! ld_Name o) as [l|] eqn:Hl; [|by case_decide].
    specialize (Hcov l eq_refl). repeat case_decide; set_solver.
  - rewrite lookup_delete_ne by done. by rewrite decide_False by tauto.
Qed.

Lemma watchForEvents_Idx node A links e :
  Idx A links -> event_ok A e -> Idx (abs_event node e A) (watchForEvents node e links).
Proof.
  intros HI Hok. assert (forall o, Idx (if decide (lds_NodeName (ld_Spec o) = node) then <[ld_Name o := o]> A else A)
                           (addOrUpdateLVDL node (Some o) links)) as Hadd.
  { intros o. case_decide; [by apply addOrUpdateLVDL_Idx|].
    unfold addOrUpdateLVDL, shouldIndexLVDL. by rewrite bool_decide_eq_false_2. }
  destruct e as [o|? o|o|[o|]|o]; simpl in *; auto using removeLVDL_Idx.
Qed.

Lemma index_reach_Idx node A links : index_reach node A links -> Idx A links.
Proof.
  induction 1 as [|A links e _ IH Hok]; [|by apply watchForEvents_Idx].
  split; [apply map_Forall_empty|]. intros t n. done.
Qed.

(** Every object of the abstract cache is stored under its name and lives here. *)
Lemma index_reach_own node A links :
  index_reach node A links ->
  map_Forall (fun n l => ld_Name l = n /\ lds_NodeName (ld_Spec l) = node) A.
Proof.
  induction 1 as [|A links e _ IH _]; [apply map_Forall_empty|].
  destruct e as [o|? o|o|[o|]|o]; simpl; try case_decide;
    first [done | by apply map_Forall_insert_2 | by apply map_Forall_delete].
Qed.

Lemma abs_lookup_Some A t n l : abs_lookup A t n = Some l <-> A !! n = Some l /\ t ∈ targets l.
Proof.
  unfold abs_lookup. destruct (A !! n) as [l'|]; [|naive_solver].
  case_decide; naive_solver.
Qed.

(** A key of the index stands for the set of objects that list it. *)
Lemma Idx_hit A links t info :
  Idx A links -> links !! t = Some info ->
  info <> ∅ /\ forall n l, info !! n = Some l <-> A !! n = Some l /\ t ∈ targets l.
Proof.
  intros [Hne Hag] Ht. split; [by apply (Hne t)|]. intros n l.
  rewrite <- abs_lookup_Some, <- Hag. unfold idx_lookup. by rewrite Ht.
Qed.

Lemma Idx_miss A links t n l :
  Idx A links -> links !! t = None -> A !! n = Some l -> t ∉ targets l.
Proof.
  intros [_ Hag] Ht Hl Hin. specialize (Hag t n). unfold idx_lookup in Hag.
  rewrite Ht in Hag. simpl in Hag. symmetry in Hag.
  assert (abs_lookup A t n = Some l) by (by apply abs_lookup_Some). congruence.
Qed.

Lemma lookup_merge_siblings_go (A : AbsCache) links ts acc n :
  (forall t l, idx_lookup links t n = Some l -> A !! n = Some l) ->
  (forall l, acc !! n = Some l -> A !! n = Some l) ->
  forall l, (fold_left (fun acc linkTarget => match links !! linkTarget with
                                   | Some info => maps_copy acc info
                                   | None => acc end) ts acc) !! n = Some l <->
    acc !! n = Some l \/ exists t, t ∈ ts /\ idx_lookup links t n = Some l.
Proof.
  intros Hidx. revert acc. induction ts as [|t ts IH]; intros acc Hacc l; simpl; [set_solver|].
  setoid_rewrite elem_of_cons.
  destruct (links !! t) as [info|] eqn:Ht; (rewrite IH; clear IH).
  - assert (forall l', maps_copy acc info !! n = Some l' <->
      acc !! n = Some l' \/ idx_lookup links t n = Some l') as Hm.
    { intros l'. unfold maps_copy. rewrite lookup_union_Some_raw.
      specialize (Hidx t). unfold idx_lookup in *. rewrite Ht in *. simpl in *.
      destruct (info !! n) as [li|] eqn:Hn; [|naive_solver]. specialize (Hidx li eq_refl).
      split; [naive_solver|]. intros [Ha|?]; [|by left]. apply Hacc in Ha. left. congruence. }
    rewrite Hm. naive_solver.
  - specialize (Hidx t). intros l' Hl'. unfold maps_copy in Hl'.
    apply lookup_union_Some_raw in Hl' as [Hi|[_ ?]]; [|by apply Hacc].
    apply Hidx. unfold idx_lookup. by rewrite Ht.
  - assert (idx_lookup links t n = None) by (unfold idx_lookup; by rewrite Ht). naive_solver.
  - done.
Qed.

Lemma Idx_merge A links ts n l :
  Idx A links ->
  merge_siblings links ts !! n = Some l <-> A !! n = Some l /\ exists t, t ∈ ts /\ t ∈ targets l.
Proof.
  intros [Hne Hag]. unfold merge_siblings. rewrite (lookup_merge_siblings_go A).
  - rewrite lookup_empty. setoid_rewrite Hag. setoid_rewrite abs_lookup_Some. naive_solver.
  - intros t l'. rewrite Hag, abs_lookup_Some. naive_solver.
  - done.
Qed.

Section readers.
Context {E : Env}.
Lemma reads_FindLSO s b : reads (FindLSOManagedDeviceInfo s b).
Proof. unfold FindLSOManagedDeviceInfo. reads_tac. Qed.
Lemma reads_getLVDLAndSymlinkPath ls : reads (getLVDLAndSymlinkPath ls).
Proof. unfold getLVDLAndSymlinkPath. reads_tac. Qed.
Hint Resolve reads_getLVDLAndSymlinkPath : lso.
Lemma reads_RecoverPVSymlinkPath ls d s : reads (RecoverPVSymlinkPath ls d s).
Proof. unfold RecoverPVSymlinkPath. reads_tac. Qed.
End readers.
#[export] Hint Resolve reads_FindLSO reads_getLVDLAndSymlinkPath reads_RecoverPVSymlinkPath : lso.

(** ** Properties *)

(** C16: whatever events reach the cache (adds, updates, deletions that carry the
    last indexed targets, tombstones, write-throughs), the index maps a
    /dev/disk/by-id link exactly to the objects of this node that list the link in
    their last known status, each under its name, and holds no empty entry. *)
Theorem index_inverts_cache (node : string) (A : AbsCache) (links : LinkIndex) :
  index_reach node A links ->
  (forall t n l, (exists info, links !! t = Some info /\ info !! n = Some l) <->
                 A !! n = Some l /\ t ∈ targets l) /\
  (forall t info, links !! t = Some info -> info <> ∅) /\
  (forall n l, A !! n = Some l -> ld_Name l = n /\ lds_NodeName (ld_Spec l) = node).
Proof.
  intros H. pose proof (index_reach_Idx _ _ _ H) as HI. split; [|split].
  - intros t n l. rewrite <- abs_lookup_Some, <- (idx_agree _ _ HI). unfold idx_lookup.
    by rewrite bind_Some.
  - intros t info Ht. by apply (idx_no_empty _ _ HI t).
  - apply (index_reach_own _ _ _ H).
Qed.

(** C17: a lookup in an index that stands for [A] gives, when the link is a key, the
    objects that list it; otherwise the objects that list any of the valid links
    of the device; "not found" only when there is no such object, and an error
    only when the links of the device could not be listed. *)
Theorem FindLSOManagedDeviceInfo_spec {E : Env} (A : AbsCache) (s : string) (b : BlockDevice) (w : World) :
  Idx A (m_links (w_mem w)) ->
  let listed l := s ∈ targets l in
  let sibling l := exists ts t, (GetValidByIDSymlinks b w).1 = Ok ts /\ t ∈ ts /\ t ∈ targets l in
  wp (FindLSOManagedDeviceInfo s b) (fun r w' =>
    same_fs w w' /\ same_mem w w' /\
    match r with
    | Ok (Some info) => info <> ∅ /\
        ((forall n l, info !! n = Some l <-> A !! n = Some l /\ listed l) \/
         (forall n l, A !! n = Some l -> ~ listed l) /\
         (forall n l, info !! n = Some l <-> A !! n = Some l /\ sibling l))
    | Ok None => is_ok (GetValidByIDSymlinks b w).1 = true /\
        forall n l, A !! n = Some l -> ~ listed l /\ ~ sibling l
    | Err e => exists e', (GetValidByIDSymlinks b w).1 = Err e' /\ exists m, e = Wrap m e'
    end) w.
Proof.
  intros HI listed sibling. unfold FindLSOManagedDeviceInfo.
  wp_step. apply wp_get_mem. destruct (m_links (w_mem w) !! s) as [info|] eqn:Hs.
  { apply wp_ret. destruct (Idx_hit A _ _ _ HI Hs) as [Hne Hin].
    do 2 (split; [done|]). split; [done|]. by left. }
  wp_step. wp_step. destruct a as [ts|err].
  - assert ((GetValidByIDSymlinks b w).1 = Ok ts) as Hts by (by rewrite H).
    assert (forall n l, merge_siblings (m_links (w_mem w)) ts !! n = Some l <-> A !! n = Some l /\ sibling l) as Hm.
    { intros n l. rewrite (Idx_merge A) by done. unfold sibling. rewrite Hts. naive_solver. }
    apply wp_ret. do 2 (split; [done|]). case_decide as He.
    + rewrite Hts. split; [done|]. intros n l Hl. split; [by eapply Idx_miss|].
      intros Hsib. assert (merge_siblings (m_links (w_mem w)) ts !! n = Some l) as Hn by (by apply Hm).
      by rewrite He in Hn.
    + split; [done|]. right. split; [|done]. intros n l. by eapply Idx_miss.
  - apply wp_ret. do 2 (split; [done|]). exists err. rewrite H. eauto.
Qed.

Section recover.
Context {E : Env}.

(** The path comes from the only object of a singleton. *)
Lemma wp_getLVDLAndSymlinkPath_singleton n l (Q : Res (LocalVolumeDeviceLink * string) -> World -> Prop) w :
  (forall p en, (ls_PersistentVolumeSymlinkPath (ld_Status l) <> "" ->
              p = ls_PersistentVolumeSymlinkPath (ld_Status l)) -> Q (Ok (l, p)) (set_est en w)) ->
  (forall m en, Q (Err (Errorf m)) (set_est en w)) ->
  wp (getLVDLAndSymlinkPath {[n := l]}) Q w.
Proof.
  intros Hok Herr. unfold getLVDLAndSymlinkPath. rewrite map_to_list_singleton.
  wp_step. wp_step. pose proof (range_map_perm [(n, l)] w) as Hp. rewrite H in Hp. simpl in Hp.
  apply Permutation_singleton_r in Hp as ->.
  case_decide.
  - apply wp_ret. by apply Hok.
  - wp_step. wp_step. destruct w; simpl in *. destruct a as [pv|err]; [|by apply wp_ret, Herr].
    destruct (pv_Local pv) as [[|]|]; apply wp_ret; try apply Herr. by apply Hok.
Qed.
End recover.

(** [RecoverPVSymlinkPath] changes nothing and returns a path only for the single
    object known for the device: the path lies in the directory of the storage
    class and is the one recorded in the object's status when there is one, the
    policy is PreferredLinkTarget, and the link the volume currently uses does not
    resolve.  A PolicyNotPreferredError carries that single object and its path in
    the same directory, and the policy is another one. *)
Theorem RecoverPVSymlinkPath_spec {E : Env} (lvdls : DeviceInfo) (symlinkDir src : string) (w : World) :
  wp (RecoverPVSymlinkPath lvdls symlinkDir src) (fun r w' =>
    same_fs w w' /\ same_mem w w' /\
    match r with
    | Ok p => exists n l, lvdls = {[n := l]} /\ dir p = symlinkDir
        /\ (ls_PersistentVolumeSymlinkPath (ld_Status l) <> "" ->
            p = ls_PersistentVolumeSymlinkPath (ld_Status l))
        /\ lds_Policy (ld_Spec l) = DeviceLinkPolicyPreferredLinkTarget
        /\ ((exists en f, (sys_fault (SEval (ls_CurrentLinkTarget (ld_Status l))) en).1 = Some f)
            \/ is_ok (eval_symlinks (w_fs w) (ls_CurrentLinkTarget (ld_Status l))) = false)
    | Err e => forall q l, as_policy_not_preferred e = Some (q, Some l) ->
        exists n, lvdls = {[n := l]} /\ dir q = symlinkDir
          /\ lds_Policy (ld_Spec l) <> DeviceLinkPolicyPreferredLinkTarget
    end) w.
Proof.
  unfold RecoverPVSymlinkPath.
  case_decide as H1; [by apply wp_ret|]. case_decide as H0; [by apply wp_ret|].
  assert (exists n l, lvdls = {[n := l]}) as (n & l & ->) by (apply map_size_one; lia).
  apply wp_bind, wp_getLVDLAndSymlinkPath_singleton; [|by intros; apply wp_ret].
  intros p en Hp. cbv beta iota zeta.
  case_decide as Hd; [by apply wp_ret|].
  case_decide as Hpol; [apply wp_ret; simpl; naive_solver|].
  apply wp_bind. apply wp_read_fs.
  - intros e en' Hf. apply wp_ret. do 2 (split; [done|]). exists n, l. eauto 10.
  - intros en' _. destruct (eval_symlinks _ _) eqn:He; apply wp_ret; do 2 (split; [done|]); [done|].
    exists n, l. repeat split; try done. right. simpl in He. by rewrite He.
Qed.

(** ** Concrete runs *)

(** A LocalVolumeDeviceLink of a node, as the examples use it. *)
Definition example_lvdl (node name current preferred : string) (links : list string) : LocalVolumeDeviceLink :=
  {| ld_meta := empty_meta "openshift-local-storage" name;
     ld_Spec := {| lds_PersistentVolumeName := name; lds_NodeName := node;
                   lds_Policy := DeviceLinkPolicyPreferredLinkTarget |};
     ld_Status := {| ls_CurrentLinkTarget := current; ls_PreferredLinkTarget := preferred;
                     ls_ValidLinkTargets := links;
                     ls_PersistentVolumeSymlinkPath := "/mnt/local-storage/sc/" ++s name;
                     ls_FilesystemUUID := ""; ls_Conditions := [] |} |}.

Definition ex_old := example_lvdl "n1" "pv-a" "" "" ["/dev/disk/by-id/wwn-1"; "/dev/disk/by-id/scsi-1"].
Definition ex_new := example_lvdl "n1" "pv-a" "" "" ["/dev/disk/by-id/scsi-1"; "/dev/disk/by-id/nvme-1"].

Lemma index_inverts_cache_witness :
  let A := abs_event "n1" (EvUpdate ex_old ex_new) (abs_event "n1" (EvAdd ex_old) ∅) in
  let links := watchForEvents "n1" (EvUpdate ex_old ex_new) (watchForEvents "n1" (EvAdd ex_old) ∅) in
  index_reach "n1" A links /\ links !! "/dev/disk/by-id/wwn-1" = None /\
  (exists info, links !! "/dev/disk/by-id/nvme-1" = Some info /\ info !! "pv-a" = Some ex_new).
Proof.
  set (A := abs_event _ _ _). set (links := watchForEvents _ _ _). cbv zeta.
  assert (index_reach "n1" A links) as H.
  { apply reach_event; [|done]. apply reach_event; [|done]. apply reach_new. }
  split; [done|]. split; [vm_compute; reflexivity|].
  apply (proj1 (index_inverts_cache "n1" A links H)). split; [vm_compute; reflexivity|].
  apply list_elem_of_further, list_elem_of_here.
Defined.

Definition ex_dev : BlockDevice :=
  {| bd_Name := "sda"; bd_KName := "sda"; bd_Type := "disk"; bd_Model := ""; bd_Vendor := "";
     bd_State := ""; bd_FSType := ""; bd_Size := "10"; bd_Rotational := "0"; bd_ReadOnly := "0";
     bd_Removable := "0"; bd_PathByID := ""; bd_Serial := ""; bd_PartLabel := "" |}.

(** A node with one disk and two links to it. *)
Definition ex_fs : FS :=
  list_to_map [("/dev", NDir); ("/dev/sda", NBlock); ("/dev/disk", NDir); ("/dev/disk/by-id", NDir);
               ("/dev/disk/by-id/wwn-1", NLink "../../sda"); ("/dev/disk/by-id/scsi-1", NLink "../../sda");
               ("/mnt", NDir); ("/mnt/local-storage", NDir); ("/mnt/local-storage/sc", NDir)].

Lemma FindLSOManagedDeviceInfo_witness :
  let A := {["pv-a" := ex_new]} : AbsCache in
  let m := set_m_links (addOrUpdateLVDL "n1" (Some ex_new) ∅) empty_mem in
  Idx A (m_links m) /\
  wp (E := static_env quiet) (FindLSOManagedDeviceInfo (E := static_env quiet) "/dev/disk/by-id/wwn-1" ex_dev)
     (fun r w' => r = Ok (Some {["pv-a" := ex_new]}) /\ w_mem w' = m) (static_world quiet ex_fs m).
Proof.
  intros A m. assert (Idx A (m_links m)) as HI.
  { apply (index_reach_Idx "n1"). apply (reach_event "n1" ∅ ∅ (EvAdd ex_new)); [apply reach_new|done]. }
  split; [done|].
  pose proof (FindLSOManagedDeviceInfo_spec (E := static_env quiet) A "/dev/disk/by-id/wwn-1" ex_dev
                (static_world quiet ex_fs m) HI) as H.
  destruct H as (_ & Hm & _). split; [vm_compute; reflexivity|exact Hm].
Defined.
