(* ===== verification/Common.v ===== *)
(** * pkg/common: names, capacities, persistent volume predicates, the volume
    cache, the storage class owner map and the finalizer helpers *)
From stdpp Require Import base list strings gmap.
From Stdlib Require Import ZArith Lia Ascii String.
From S2P Require Import Prelude GoLib Types World Sys.

Open Scope string_scope.

(** ** types.go, names.go *)

Definition LocalVolumeOwnerNameForPV := "storage.openshift.com/local-volume-owner-name".
Definition LocalVolumeOwnerNamespaceForPV := "storage.openshift.com/local-volume-owner-namespace".
Definition PVOwnerKindLabel := "storage.openshift.com/owner-kind".
Definition PVOwnerNameLabel := "storage.openshift.com/owner-name".
Definition PVOwnerNamespaceLabel := "storage.openshift.com/owner-namespace".
Definition PVDeviceNameLabel := "storage.openshift.com/device-name".
Definition PVDeviceIDLabel := "storage.openshift.com/device-id".
Definition DeprecatedLabels := [PVDeviceNameLabel; PVDeviceIDLabel].
Definition OwnerNamespaceLabel := "local.storage.openshift.io/owner-namespace".
Definition OwnerNameLabel := "local.storage.openshift.io/owner-name".
Definition OwnerKindLabel := "local.storage.openshift.io/owner-kind".
Definition ProvisionerConfigMapName := "local-provisioner".
Definition DiscoveryNodeLabel := "discovery-result-node".
Definition LocalVolumeProtectionFinalizer := "storage.openshift.com/local-volume-protection".
Definition LSOSymlinkDeleterFinalizer := "storage.openshift.com/lso-symlink-deleter".
Definition AnnProvisionedBy := "pv.kubernetes.io/provisioned-by".

Definition LocalVolumeKey (lv : LocalVolume) : string :=
  sprintf "%s/%s" [om_Namespace (lv_meta lv); om_Name (lv_meta lv)].
Definition LocalVolumeSetKey (s : LocalVolumeSet) : string :=
  sprintf "%s/%s" [om_Namespace (lset_meta s); om_Name (lset_meta s)].
Definition GetProvisionedByValue (node : Node) : string :=
  sprintf "local-volume-provisioner-%v" [nd_Name node].

(** The expression anchored at the end of the annotation: a UID. *)
Definition is_word (c : Ascii.ascii) : bool :=
  let n := Ascii.nat_of_ascii c in
  ((48 <=? n) && (n <=? 57) || (65 <=? n) && (n <=? 90) || (97 <=? n) && (n <=? 122) || (n =? 95))%nat.

Fixpoint all_word (n : nat) (l : list Ascii.ascii) : option (list Ascii.ascii) :=
  match n, l with
  | O, _ => Some l
  | S k, c :: l' => if is_word c then all_word k l' else None
  | S _, [] => None
  end.

Definition dash (l : list Ascii.ascii) : option (list Ascii.ascii) :=
  match l with c :: l' => if Ascii.eqb c "-" then Some l' else None | [] => None end.

Definition is_uid (l : list Ascii.ascii) : bool :=
  match fold_left (fun acc step => match acc with Some l => step l | None => None end)
          [all_word 8; dash; all_word 4; dash; all_word 4; dash; all_word 4; dash; all_word 12] (Some l)
  with Some [] => true | _ => false end.

Definition ends_with_uid (s : string) : bool :=
  let l := list_ascii_of_string s in
  (36 <=? List.length l)%nat && is_uid (drop (List.length l - 36) l).

(** The expression [^name] for a name made of letters, digits, dashes and dots: a
    dot of the name matches any character but a newline. *)
Fixpoint re_starts_with (name s : list Ascii.ascii) : bool :=
  match name, s with
  | [], _ => true
  | c :: name', d :: s' =>
      (if Ascii.eqb c "." then negb (Ascii.eqb d (Ascii.ascii_of_nat 10)) else Ascii.eqb c d)
      && re_starts_with name' s'
  | _ :: _, [] => false
  end.

Definition PVMatchesProvisioner (pv : PersistentVolume) (provisionerName : string) : bool :=
  match pv_Annotations pv !! AnnProvisionedBy with
  | None => false
  | Some PVAnnotation =>
      if decide (provisionerName = PVAnnotation) then true
      else ends_with_uid PVAnnotation
           && re_starts_with (list_ascii_of_string provisionerName) (list_ascii_of_string PVAnnotation)
  end.

(** ** capacity.go *)

Definition KiB : Z := 1024.
Definition MiB : Z := 1024 * KiB.
Definition GiB : Z := 1024 * MiB.

(** Go's [/] on int64 truncates towards zero. *)
Fixpoint round_down (units : list Z) (capacityBytes : Z) : Z :=
  match units with
  | [] => capacityBytes
  | u :: units' =>
      let size := Z.quot capacityBytes u in
      if (10 <=? size)%Z then (size * u)%Z else round_down units' capacityBytes
  end.

Definition RoundDownCapacityPretty (capacityBytes : Z) : Z := round_down [GiB; MiB] capacityBytes.

(** ** GeneratePVName *)

Definition pv_hash (file node class : string) : Z :=
  fnv_write (fnv_write (fnv_write fnv_offset (bytes file)) (bytes node)) (bytes class).

Definition GeneratePVName (file node class : string) : string :=
  sprintf "local-pv-%x" [hex (pv_hash file node class)].

(** ** controller_runtime_utils.go *)

Definition appLabelIn (meta : ObjectMeta) (components : list string) : bool :=
  match om_Labels meta !! "app" with
  | None => false
  | Some appName => existsb (fun validName => bool_decide (appName = validName)) components
  end.

Inductive WatchEvent := GenericEvent (o : ObjectMeta) | CreateEvent (o : ObjectMeta)
  | UpdateEvent (old new : ObjectMeta) | DeleteEvent (o : ObjectMeta).

Definition EnqueueOnlyLabeledSubcomponents (components : list string) (e : WatchEvent) : bool :=
  match e with
  | GenericEvent o | CreateEvent o | DeleteEvent o => appLabelIn o components
  | UpdateEvent old new => appLabelIn old components || appLabelIn new components
  end.

Definition InitMapIfNil (m : gmap string string) : gmap string string :=
  if decide (1 < size m) then m else ∅.

(** ** Labels and finalizers *)

Definition pvHasLabels (pv : PersistentVolume) (labels : list (string * string)) : bool :=
  forallb (fun kv => bool_decide (pv_Labels pv !! kv.1 = Some kv.2)) labels.

Definition IsLocalVolumePV (pv : PersistentVolume) : bool :=
  bool_decide (pv_Labels pv !! PVOwnerKindLabel = Some LocalVolumeKind).
Definition IsLocalVolumeSetPV (pv : PersistentVolume) : bool :=
  bool_decide (pv_Labels pv !! PVOwnerKindLabel = Some LocalVolumeSetKind).

(** controllerutil: [ContainsFinalizer], [AddFinalizer], [RemoveFinalizer] (which
    removes every occurrence). *)
Definition ContainsFinalizer (m : ObjectMeta) (f : string) : bool := bool_decide (f ∈ om_Finalizers m).
Definition AddFinalizer (m : ObjectMeta) (f : string) : bool * ObjectMeta :=
  if ContainsFinalizer m f then (false, m) else (true, set_finalizers (om_Finalizers m ++ [f])%list m).
Definition RemoveFinalizer (m : ObjectMeta) (f : string) : bool * ObjectMeta :=
  if ContainsFinalizer m f
  then (true, set_finalizers (List.filter (fun x => negb (String.eqb x f)) (om_Finalizers m)) m)
  else (false, m).

Definition hasSymlinkFinalizer (pv : PersistentVolume) : bool :=
  ContainsFinalizer (pv_meta pv) LSOSymlinkDeleterFinalizer.

(** ** storage_class_owner.go *)

Abbreviation OwnerMap := (gmap string (gset NamespacedName)).

Definition GetStorageClassOwners (m : OwnerMap) (storageClass : string) : list NamespacedName :=
  match m !! storageClass with
  | None => []
  | Some names => elements names
  end.

Definition RegisterStorageClassOwner (storageClass : string) (name : NamespacedName) (m : OwnerMap)
  : OwnerMap :=
  match m !! storageClass with
  | None => <[storageClass := {[name]}]> m
  | Some names => if decide (names = ∅) then <[storageClass := {[name]}]> m
                  else <[storageClass := {[name]} ∪ names]> m
  end.

Definition DeregisterStorageClassOwner (storageClass : string) (name : NamespacedName) (m : OwnerMap)
  : OwnerMap :=
  match m !! storageClass with
  | None => m
  | Some names => if decide (names = ∅) then m else <[storageClass := names ∖ {[name]}]> m
  end.

(** ** The provisioner's volume cache *)

Abbreviation VolumeCache := (gmap string PersistentVolume).

Definition RemovePV (pv : PersistentVolume) (c : VolumeCache) : VolumeCache :=
  match c !! pv_Name pv with Some _ => delete (pv_Name pv) c | None => c end.

(** UpdatePV and AddPV both store the object under its name. *)
Definition AddOrUpdatePV (pv : PersistentVolume) (c : VolumeCache) : VolumeCache :=
  match c !! pv_Name pv with
  | Some _ => <[pv_Name pv := pv]> c
  | None => <[pv_Name pv := pv]> c
  end.

(** The requests added to the queue and the cache. *)
Definition HandlePVChange (rcName : string) (pv : PersistentVolume) (watchNamespace : string)
  (isDelete : bool) (c : VolumeCache) : list NamespacedName * VolumeCache :=
  if decide (rcName = "") then ([{| nn_Namespace := watchNamespace; nn_Name := "" |}], c)
  else if negb (PVMatchesProvisioner pv rcName) then ([], c)
  else
    let c := if isDelete then RemovePV pv c else AddOrUpdatePV pv c in
    match pv_Labels pv !! PVOwnerNameLabel with
    | None => ([], c)
    | Some ownerName =>
        match pv_Labels pv !! PVOwnerNamespaceLabel with
        | None => ([], c)
        | Some ownerNamespace => ([{| nn_Namespace := ownerNamespace; nn_Name := ownerName |}], c)
        end
    end.

Definition OwnerHasReleasedPVs (c : VolumeCache) (ownerLabels : list (string * string)) : bool :=
  existsb (fun kv => pvHasLabels kv.2 ownerLabels && bool_decide (pv_Phase kv.2 = VolumeReleased))
    (map_to_list c).

(** ** Owner objects: runtime.Object values that are a LocalVolume or a LocalVolumeSet *)

Inductive RuntimeObject := OLocalVolume (lv : LocalVolume) | OLocalVolumeSet (s : LocalVolumeSet).
Definition obj_meta (o : RuntimeObject) : ObjectMeta :=
  match o with OLocalVolume lv => lv_meta lv | OLocalVolumeSet s => lset_meta s end.
Definition obj_type (o : RuntimeObject) : TypeMeta :=
  match o with OLocalVolume lv => lv_type lv | OLocalVolumeSet s => lset_type s end.

Section common.
Context {E : Env}.

Definition GetWatchNamespace : Res string :=
  match getenv "WATCH_NAMESPACE" with
  | None => Err (Errorf (sprintf "%s must be set" ["WATCH_NAMESPACE"]))
  | Some ns => Ok ns
  end.
Definition GetNodeNameEnvVar : string := Getenv "MY_NODE_NAME".

Definition defaultlocalDiskLocation := "/mnt/local-storage".
Definition GetLocalDiskLocationPath : string :=
  if decide (Getenv "LOCAL_DISK_LOCATION" <> "") then Getenv "LOCAL_DISK_LOCATION"
  else defaultlocalDiskLocation.
Definition GetDiskMakerImage : string :=
  if decide (Getenv "DISKMAKER_IMAGE" <> "") then Getenv "DISKMAKER_IMAGE"
  else "quay.io/openshift/origin-local-storage-diskmaker".
Definition GetKubeRBACProxyImage : string :=
  if decide (Getenv "KUBE_RBAC_PROXY_IMAGE" <> "") then Getenv "KUBE_RBAC_PROXY_IMAGE"
  else "quay.io/openshift/origin-kube-rbac-proxy:latest".

Definition ReloadRuntimeConfig (request : NamespacedName) (nodeName : string) : M (option GoErr) :=
  r ← ClientGet KCM {| nn_Namespace := nn_Namespace request; nn_Name := ProvisionerConfigMapName |};
  match r with
  | Err err => mret (Some err)
  | Ok cm =>
      r ← ClientGet KNode {| nn_Namespace := ""; nn_Name := nodeName |};
      match r with
      | Err err => mret (Some err)
      | Ok node =>
          match load_volume_config (cm_Data cm) with
          | Err err => mret (Some err)
          | Ok discoveryMap =>
              put_mem (set_m_rc {| rc_Name := GetProvisionedByValue node; rc_Node := node;
                                   rc_Namespace := nn_Namespace request;
                                   rc_DiscoveryMap := discoveryMap |}) ;;
              mret None
          end
      end
  end.

Definition NodeSelectorMatchesNodeLabels (node : option Node) (nodeSelector : option NodeSelector)
  : Res bool :=
  match nodeSelector with
  | None => Ok true
  | Some sel => match node with
                | None => Err (Errorf "the node var is nil")
                | Some n => match_node_selector_terms n sel
                end
  end.

Definition GenerateMountMap : M (Res (gset string)) :=
  r ← ask mount_list;
  match r with
  | Err err => mret (Err (Wrap "error retrieving mountpoints" err))
  | Ok mps => mret (Ok (list_to_set mps))
  end.

(** ** finalizer_util.go *)

Definition owner_labels (kind namespace name : string) : list (string * string) :=
  [(PVOwnerKindLabel, kind); (PVOwnerNameLabel, name); (PVOwnerNamespaceLabel, namespace)].

Definition owner_ids (obj : RuntimeObject) : Res (string * string * string) :=
  let name := om_Name (obj_meta obj) in
  let namespace := om_Namespace (obj_meta obj) in
  let kind := tm_Kind (obj_type obj) in
  if decide (name = "" \/ namespace = "" \/ kind = "")
  then Err (Errorf (sprintf "name: %q, namespace: %q, or  kind: %q is empty for obj" [name; namespace; kind]))
  else Ok (kind, namespace, name).

Definition GetOwnedPVs (obj : RuntimeObject) : M (Res (list PersistentVolume)) :=
  match owner_ids obj with
  | Err err => mret (Err err)
  | Ok (kind, namespace, name) =>
      r ← ClientList KPV (matching_labels (owner_labels kind namespace name));
      match r with
      | Err err => mret (Err (Wrap "failed to list persistent volumes" err))
      | Ok items => mret (Ok items)
      end
  end.

(** One volume of the loop: the flag [deletionBlocked] is threaded. *)
Definition release_pv (kind namespace name : string) (deletionBlocked : bool)
  (pv : PersistentVolume) : M (Res bool) :=
  if decide (pv_ReclaimPolicy pv = ReclaimRetain) then mret (Ok true)
  else if decide (pv_Phase pv = VolumeAvailable /\ pv_ClaimRef pv = None) then
    uid ← ask new_uuid;
    let pvCopy := set_pv_claim (Some {| ref_UID := uid; ref_Namespace := namespace;
                                        ref_Name := "release-" ++s uid |}) pv in
    r ← ClientUpdate KPV pvCopy;
    match r with
    | Err err => mret (Err (Wrap (sprintf "failed to set ClaimRef for persistent volume %s" [pv_Name pv]) err))
    | Ok _ => mret (Ok deletionBlocked)
    end
  else mret (Ok deletionBlocked).

Definition ReleaseAvailablePVs (obj : RuntimeObject) : M (option GoErr) :=
  match owner_ids obj with
  | Err err => mret (Some err)
  | Ok (kind, namespace, name) =>
      r ← ClientList KPV (matching_labels (owner_labels kind namespace name));
      match r with
      | Err err => mret (Some (Wrap "failed to list persistent volumes" err))
      | Ok items =>
          r ← foldM (release_pv kind namespace name) false items;
          match r with
          | Err err => mret (Some err)
          | Ok true => mret (Some (Errorf (sprintf "%s object %s/%s has persistent volumes with Retain reclaim policy blocking deletion"
                                             [kind; namespace; name])))
          | Ok false => mret None
          end
      end
  end.
End common.

(** ** Capacities *)

Lemma quot_ge_10 u c : (0 < u)%Z -> (10 <=? Z.quot c u)%Z = (10 * u <=? c)%Z.
Proof.
  intros Hu. destruct (Z.leb_spec (10 * u) c); destruct (Z.leb_spec 10 (Z.quot c u)); try done; exfalso.
  - pose proof (Z.quot_le_lower_bound c u 10 Hu). lia.
  - pose proof (Z.quot_rem' c u) as Hq. pose proof (Z.rem_bound_abs c u ltac:(lia)).
    assert (0 <= c)%Z by nia. pose proof (Z.rem_bound_pos c u ltac:(done) Hu). nia.
Qed.

(** The rounding in terms of the thresholds. *)
Definition round_spec (c : Z) : Z :=
  if (10 * GiB <=? c)%Z then (GiB * (c / GiB))%Z
  else if (10 * MiB <=? c)%Z then (MiB * (c / MiB))%Z else c.

Lemma RoundDown_spec c : RoundDownCapacityPretty c = round_spec c.
Proof.
  unfold RoundDownCapacityPretty, round_down, round_spec. rewrite !quot_ge_10 by done.
  destruct (Z.leb_spec (10 * GiB) c); [|destruct (Z.leb_spec (10 * MiB) c); [|done]];
    rewrite Z.quot_div_nonneg by (unfold GiB, MiB, KiB in *; lia); lia.
Qed.

Lemma round_unit u c : (0 < u)%Z -> (10 * u <= c)%Z ->
  (10 * u <= u * (c / u) <= c /\ c - u * (c / u) < u)%Z /\ (u * (u * (c / u) / u) = u * (c / u))%Z.
Proof.
  intros Hu Hc. pose proof (Z.mul_div_le c u Hu). pose proof (Z.mul_succ_div_gt c u Hu).
  assert (10 <= c / u)%Z by (apply Z.div_le_lower_bound; lia).
  split; [nia|]. rewrite (Z.mul_comm u (c / u)), Z.div_mul; lia.
Qed.

(** C38: rounding a capacity never raises it and stays within int64; below 10 MiB it
    is the identity, from 10 MiB it rounds down to a multiple of MiB, from 10 GiB
    to a multiple of GiB; rounding twice changes nothing. *)
Theorem RoundDownCapacityPretty_bounds (c : Z) :
  (int64_min <= c <= int64_max)%Z ->
  let r := RoundDownCapacityPretty c in
  (int64_min <= r <= c)%Z /\
  ((c < 10 * MiB)%Z -> r = c) /\
  ((10 * MiB <= c < 10 * GiB)%Z -> r = (MiB * (c / MiB))%Z /\ (c - r < MiB)%Z) /\
  ((10 * GiB <= c)%Z -> r = (GiB * (c / GiB))%Z /\ (c - r < GiB)%Z) /\
  RoundDownCapacityPretty r = r.
Proof.
  assert (0 < MiB /\ GiB = 1024 * MiB)%Z as [HM HG] by done. intros Hc r. subst r.
  pose proof (round_unit MiB c HM). pose proof (round_unit GiB c ltac:(lia)).
  rewrite !RoundDown_spec. unfold round_spec at 1 2 3 4 5 6 7 9. unfold int64_min in *.
  destruct (Z.leb_spec (10 * GiB) c); [|destruct (Z.leb_spec (10 * MiB) c)];
    (split; [lia|]); (split; [lia|]); (split; [lia|]); (split; [lia|]); unfold round_spec;
    repeat match goal with |- context [(?a <=? ?b)%Z] => destruct (Z.leb_spec a b) end; lia.
Qed.

Lemma RoundDownCapacityPretty_witness :
  (int64_min <= 11811160065 <= int64_max)%Z /\ RoundDownCapacityPretty 11811160065 = (11 * GiB)%Z.
Proof.
  assert (int64_min <= 11811160065 <= int64_max)%Z as H by (unfold int64_min, int64_max; lia).
  split; [exact H|].
  destruct (RoundDownCapacityPretty_bounds _ H) as (_ & _ & _ & H10 & _).
  destruct H10 as [-> _]; [unfold GiB, MiB, KiB; lia|reflexivity].
Defined.

(** ** Names of volumes *)

Lemma w32_bounds x : (0 <= w32 x < 2 ^ 32)%Z.
Proof. unfold w32. change 4294967295%Z with (Z.ones 32). rewrite Z.land_ones by lia. by apply Z.mod_pos_bound. Qed.

Lemma fnv_write_bounds data h : (0 <= h < 2 ^ 32)%Z -> (0 <= fnv_write h data < 2 ^ 32)%Z.
Proof.
  unfold fnv_write. revert h. induction data as [|b data IH]; intros h Hh; simpl; [done|].
  apply IH, w32_bounds.
Qed.

Lemma fnv_write_app h a b : fnv_write h (a ++ b)%list = fnv_write (fnv_write h a) b.
Proof. apply fold_left_app. Qed.

Lemma bytes_app a b : bytes (a ++s b) = (bytes a ++ bytes b)%list.
Proof.
  unfold bytes. induction a as [|x a IH]; [done|]. rewrite str_app_cons. simpl. by f_equal.
Qed.

Lemma hex_go_length k fuel n acc :
  (0 <= n < 16 ^ Z.of_nat (S k))%Z -> (String.length (hex_go fuel n acc) <= S k + String.length acc)%nat.
Proof.
  revert n acc fuel. induction k as [|k IH]; intros n acc [|fuel] Hn; simpl; try lia.
  - destruct (Z.ltb_spec n 16); simpl; lia.
  - destruct (Z.ltb_spec n 16); simpl; [lia|].
    etrans; [apply IH|simpl; lia]. split; [apply Z.div_pos; lia|].
    apply Z.div_lt_upper_bound; [lia|]. rewrite Nat2Z.inj_succ, Z.pow_succ_r in Hn; lia.
Qed.

(** The name of a volume is the prefix local-pv- and the 32-bit FNV-1a hash, in at
    most eight hexadecimal digits, of the concatenation of the link's name, the
    node's name and the class; nothing separates the three. *)
Theorem GeneratePVName_format (file node class : string) :
  (0 <= fnv_write fnv_offset (bytes (file ++s node ++s class)) < 2 ^ 32)%Z /\
  GeneratePVName file node class =
    "local-pv-" ++s hex (fnv_write fnv_offset (bytes (file ++s node ++s class))) /\
  (String.length (GeneratePVName file node class) <= 17)%nat.
Proof.
  assert (forall s, sprintf "local-pv-%x" [s] = "local-pv-" ++s s) as Hs.
  { intros s. simpl. by rewrite str_app_nil_r. }
  assert (pv_hash file node class = fnv_write fnv_offset (bytes (file ++s node ++s class))) as Hh.
  { unfold pv_hash. by rewrite !bytes_app, !fnv_write_app. }
  assert (0 <= pv_hash file node class < 2 ^ 32)%Z as Hb by (by rewrite Hh; apply fnv_write_bounds).
  rewrite <- Hh. split; [done|]. unfold GeneratePVName. rewrite Hs. split; [done|].
  rewrite str_length_app. change 17%nat with (9 + (8 + 0))%nat. apply Nat.add_le_mono; [done|].
  by apply (hex_go_length 7 16 (pv_hash file node class) EmptyString).
Qed.

(** Two nodes and links whose names only differ in where they are cut share a volume name. *)
Lemma GeneratePVName_collision : GeneratePVName "wwn-1" "0node" "sc" = GeneratePVName "wwn-10" "node" "sc".
Proof. reflexivity. Qed.

(** ** The owners of a storage class *)

Inductive OwnerOp := Register (class : string) (n : NamespacedName) | Deregister (class : string) (n : NamespacedName).

Definition run_owner_op (m : OwnerMap) (o : OwnerOp) : OwnerMap :=
  match o with
  | Register c n => RegisterStorageClassOwner c n m
  | Deregister c n => DeregisterStorageClassOwner c n m
  end.

(** The last operation on the pair decides. *)
Fixpoint last_op (class : string) (n : NamespacedName) (ops : list OwnerOp) : bool :=
  match ops with
  | [] => false
  | o :: ops' =>
      match o with
      | Register c x => if decide (c = class /\ x = n) then true else last_op class n ops'
      | Deregister c x => if decide (c = class /\ x = n) then false else last_op class n ops'
      end
  end.

Lemma elem_of_owners m c n :
  n ∈ GetStorageClassOwners m c <-> n ∈ default ∅ ((m : OwnerMap) !! c).
Proof. unfold GetStorageClassOwners. destruct (m !! c); simpl; [by rewrite elem_of_elements|set_solver]. Qed.

Lemma owners_register m c' n' c :
  default ∅ (RegisterStorageClassOwner c' n' m !! c) =
    if decide (c' = c) then {[n']} ∪ default ∅ ((m : OwnerMap) !! c) else default ∅ (m !! c).
Proof.
  unfold RegisterStorageClassOwner. case_decide as Hc.
  - subst. destruct (m !! c) as [ns|]; [case_decide|]; subst; rewrite lookup_insert_eq; simpl;
      by rewrite ?(right_id_L ∅ (∪)).
  - destruct (m !! c') as [ns|]; [case_decide|]; by rewrite lookup_insert_ne.
Qed.

Lemma owners_deregister m c' n' c :
  default ∅ (DeregisterStorageClassOwner c' n' m !! c) =
    if decide (c' = c) then default ∅ ((m : OwnerMap) !! c) ∖ {[n']} else default ∅ (m !! c).
Proof.
  unfold DeregisterStorageClassOwner. case_decide as Hc.
  - subst. destruct (m !! c) as [ns|] eqn:Hm; [case_decide|]; subst; rewrite ?lookup_insert_eq, ?Hm; simpl; set_solver.
  - destruct (m !! c') as [ns|]; [case_decide|]; try done; by rewrite lookup_insert_ne.
Qed.

Lemma owners_run_op m o c n :
  n ∈ GetStorageClassOwners (run_owner_op m o) c <->
  match o with
  | Register c' n' => c' = c /\ n' = n \/ n ∈ GetStorageClassOwners m c
  | Deregister c' n' => ~ (c' = c /\ n' = n) /\ n ∈ GetStorageClassOwners m c
  end.
Proof.
  destruct o as [c' n'|c' n']; simpl; rewrite !elem_of_owners;
    rewrite ?owners_register, ?owners_deregister; case_decide;
    set_solver.
Qed.

(** After any sequence of registrations and deregistrations, an object owns a
    storage class exactly when the last operation on the pair registered it; the
    list of owners has no duplicates. *)
Theorem owners_last_op (ops : list OwnerOp) (class : string) (n : NamespacedName) :
  let m := fold_left run_owner_op ops ∅ in
  (n ∈ GetStorageClassOwners m class <-> last_op class n (rev ops) = true) /\
  NoDup (GetStorageClassOwners m class).
Proof.
  intros m. split.
  - subst m. induction ops as [|o ops IH] using rev_ind; [set_solver|].
    rewrite fold_left_app, rev_app_distr. cbn [fold_left rev app last_op].
    etrans; [apply owners_run_op|]. destruct o; rewrite IH; case_decide; naive_solver.
  - unfold GetStorageClassOwners. destruct (m !! class); [apply NoDup_elements|constructor].
Qed.

(** ** Maps and annotations *)

(** [InitMapIfNil] empties a map with one entry. *)
Lemma InitMapIfNil_drops k v : InitMapIfNil {[k := v]} = ∅.
Proof. unfold InitMapIfNil. rewrite map_size_singleton. done. Qed.

(** The volumes of node node10 match the provisioner of node1. *)
Lemma PVMatchesProvisioner_other_node :
  let pv := set_pv_meta (set_annotations
    {[AnnProvisionedBy := "local-volume-provisioner-node10-0a1b2c3d-0000-1111-2222-0123456789ab"]}
    (empty_meta "" "local-pv-1")) (empty_pv "local-pv-1") in
  PVMatchesProvisioner pv (GetProvisionedByValue {| nd_meta := empty_meta "" "node1" |}) = true.
Proof. reflexivity. Qed.

(** ** Releasing volumes *)

Section release.
Context {E : Env}.

Definition releasable (pv : PersistentVolume) : Prop :=
  pv_ReclaimPolicy pv <> ReclaimRetain /\ pv_Phase pv = VolumeAvailable /\ pv_ClaimRef pv = None.

(** The claim of a released volume names an object that does not exist. *)
Definition released (ns : string) (pv o : PersistentVolume) : Prop :=
  exists uid, o = set_pv_claim (Some {| ref_UID := uid; ref_Namespace := ns;
                                        ref_Name := "release-" ++s uid |}) pv.

(** The effect of the loop over [items]. *)
Record release_post (ns : string) (items : list PersistentVolume) (blocked : bool)
  (r : Res bool) (w w' : World) (t : list Act) : Prop := {
  rl_trace : w_trace w' = (w_trace w ++ t)%list;
  rl_fs : w_fs w' = w_fs w;
  rl_mem : w_mem w' = w_mem w;
  rl_updates : forall o e, (o, e) ∈ pv_updates t -> exists pv, pv ∈ items /\ releasable pv /\ released ns pv o;
  rl_done : forall b, r = Ok b ->
    b = (blocked || existsb (fun pv => bool_decide (pv_ReclaimPolicy pv = ReclaimRetain)) items) /\
    forall pv, pv ∈ items -> releasable pv -> exists o, released ns pv o /\ (o, None) ∈ pv_updates t }.

Lemma wp_release_pv kind ns name blocked pv w :
  wp (release_pv kind ns name blocked pv)
     (fun r w' => exists t, release_post ns [pv] blocked r w w' t) w.
Proof.
  unfold release_pv. case_decide as Hret.
  { apply wp_ret. exists []. split; [by rewrite app_nil_r|done|done|set_solver|].
    intros b [= <-]. simpl. rewrite bool_decide_eq_true_2 by done. rewrite orb_true_r. split; [done|].
    intros pv' ->%list_elem_of_singleton [? _]. done. }
  assert (forall b, b = (b || existsb (fun pv => bool_decide (pv_ReclaimPolicy pv = ReclaimRetain)) [pv])) as Hb.
  { intros b. simpl. rewrite bool_decide_eq_false_2 by done. by rewrite !orb_false_r. }
  case_decide as Hav.
  2: { apply wp_ret. exists []. split; [by rewrite app_nil_r|done|done|set_solver|].
       intros b [= <-]. split; [apply Hb|]. intros pv' ->%list_elem_of_singleton (? & ? & ?). tauto. }
  apply wp_bind, wp_ask. intros uid en1 _. apply wp_bind. unfold ClientUpdate.
  apply wp_bind, wp_ask. intros r en _. apply wp_bind, wp_act, wp_ret. cbv beta iota zeta.
  set (o := set_pv_claim _ pv).
  assert (released ns pv o) as Hrel by (by exists uid).
  assert (releasable pv) as Hok by (split; [done|tauto]).
  assert (forall r', (forall b, r' = Ok b -> err_of r = None /\ b = blocked) ->
    exists t, release_post ns [pv] blocked r' w (log (AUpdate KPV o (err_of r)) (set_est en (set_est en1 w))) t) as H.
  { intros r' Hr'. exists [AUpdate KPV o (err_of r)]. split; [done..| |].
    - intros o' e Hin. apply list_elem_of_singleton in Hin as [= -> ->]. exists pv. set_solver.
    - intros b Hrb. destruct (Hr' b Hrb) as [He ->]. split; [apply Hb|].
      intros pv' ->%list_elem_of_singleton _. exists o. split; [done|]. rewrite He. set_solver. }
  destruct r as [x|err]; apply wp_ret, H; intros b; naive_solver.
Qed.

Lemma wp_release_loop kind ns name items blocked w :
  wp (foldM (release_pv kind ns name) blocked items)
     (fun r w' => exists t, release_post ns items blocked r w w' t) w.
Proof.
  revert blocked w. induction items as [|pv items IH]; intros blocked w; simpl.
  { apply wp_ret. exists []. split; [by rewrite app_nil_r|done|done|set_solver|].
    intros b [= <-]. rewrite orb_false_r. split; [done|set_solver]. }
  apply wp_bind. eapply wp_mono; [apply wp_release_pv|]. intros r w1 (t1 & [T1 F1 M1 U1 D1]).
  destruct r as [b1|err].
  - destruct (D1 b1 eq_refl) as [-> Hd1].
    eapply wp_mono; [apply IH|]. intros r w2 (t2 & [T2 F2 M2 U2 D2]). exists (t1 ++ t2)%list. split.
    + by rewrite T2, T1, app_assoc.
    + congruence.
    + congruence.
    + intros o e. rewrite pv_updates_app, elem_of_app. intros [Hin|Hin].
      * destruct (U1 o e Hin) as (pv' & ->%list_elem_of_singleton & ?). exists pv. set_solver.
      * destruct (U2 o e Hin) as (pv' & ? & ?). exists pv'. set_solver.
    + intros b Hb. destruct (D2 b Hb) as [-> Hd2]. simpl. rewrite orb_false_r, orb_assoc. split; [done|].
      intros pv'. rewrite elem_of_cons. setoid_rewrite pv_updates_app. setoid_rewrite elem_of_app.
      intros [->|Hin] Hr.
      * destruct (Hd1 pv) as (o & ? & ?); [set_solver|done|]. eauto.
      * destruct (Hd2 pv' Hin Hr) as (o & ? & ?). eauto.
  - apply wp_ret. exists t1. split; try done.
    intros o e Hin. destruct (U1 o e Hin) as (pv' & ->%list_elem_of_singleton & ?). exists pv. set_solver.
Qed.
End release.

(** [ReleaseAvailablePVs] only updates volumes of the owner that are Available,
    unclaimed and not retained, and only sets a claim on them; when it succeeds no
    volume of the owner has the Retain policy and all those volumes were updated;
    a retained volume makes it fail, the others being released all the same. *)
Theorem ReleaseAvailablePVs_spec {E : Env} (obj : RuntimeObject) (w : World) :
  wp (ReleaseAvailablePVs obj) (fun r w' => exists t,
    w_trace w' = (w_trace w ++ t)%list /\ same_fs w w' /\ same_mem w w' /\
    match owner_ids obj with
    | Err err => r = Some err /\ t = []
    | Ok (kind, ns, name) =>
        match (ClientList KPV (matching_labels (owner_labels kind ns name)) w).1 with
        | Err err => r <> None /\ t = []
        | Ok items =>
            (forall o e, (o, e) ∈ pv_updates t ->
               exists pv, pv ∈ items /\ releasable pv /\ released ns pv o) /\
            (r = None -> forall pv, pv ∈ items -> pv_ReclaimPolicy pv <> ReclaimRetain /\
               (releasable pv -> exists o, released ns pv o /\ (o, None) ∈ pv_updates t))
        end
    end) w.
Proof.
  unfold ReleaseAvailablePVs. destruct (owner_ids obj) as [[[kind ns] name]|err].
  2: { apply wp_ret. exists []. by rewrite app_nil_r. }
  wp_step. wp_step. rewrite H. cbn [fst]. destruct a as [items|err].
  2: { apply wp_ret. exists []. by rewrite app_nil_r. }
  apply wp_bind. eapply wp_mono; [apply wp_release_loop|]. intros r w' (t & [T F M U D]).
  assert (w_trace w' = (w_trace w ++ t)%list /\ same_fs w w' /\ same_mem w w') as (? & ? & ?) by done.
  destruct r as [[|]|err]; apply wp_ret; exists t; (split; [done|]); (split; [done|]); (split; [done|]);
    (split; [done|]); try done.
  intros _ pv Hin. destruct (D false eq_refl) as [Hb Hd]. split; [|by auto].
  intros Hret. symmetry in Hb. simpl in Hb.
  assert (existsb (fun pv => bool_decide (pv_ReclaimPolicy pv = ReclaimRetain)) items = true) as He.
  { apply existsb_In. exists pv. by rewrite bool_decide_eq_true_2. }
  congruence.
Qed.

Section readers.
Context {E : Env}.
Lemma reads_GenerateMountMap : reads GenerateMountMap.
Proof. unfold GenerateMountMap. reads_tac. Qed.
End readers.
#[export] Hint Resolve reads_GenerateMountMap : lso.
