(* ===== verification/Controller.v ===== *)
(** * What the reconcilers share: controller-runtime's [Result] and [CreateOrUpdate],
    [ApplyStorageClass] of pkg/common/resourceapply.go and the merge of object metadata
    it calls *)
From stdpp Require Import base list strings gmap.
From Stdlib Require Import ZArith Lia String.
From S2P Require Import Prelude GoLib Types World Sys Envs Common.

Open Scope string_scope.

(** [ctrl.Result]. *)
Record CtrlResult := { cr_Requeue : bool; cr_RequeueAfter : Z }.
Definition no_result : CtrlResult := {| cr_Requeue := false; cr_RequeueAfter := 0 |}.
Definition requeue_after (t : Z) : CtrlResult := {| cr_Requeue := true; cr_RequeueAfter := t |}.

(** ** The metadata of an object of any kind *)

Definition kmeta {k : Kind} : Obj k -> ObjectMeta :=
  match k with
  | KPV => pv_meta | KLVDL => ld_meta | KSC => sc_meta | KNode => nd_meta | KCM => cm_meta
  | KLV => lv_meta | KLVSet => lset_meta | KLVD => lvd_meta | KLVDR => lvdr_meta | KDS => ds_meta
  | KPod => fun m => m | KSM => mo_meta | KSvc => svc_meta | KRule => mo_meta | KAPIServer => api_meta
  end.

#[export] Instance Obj_eq_dec (k : Kind) : EqDecision (Obj k).
Proof. destruct k; apply _. Defined.

Definition object_key {k} (o : Obj k) : NamespacedName :=
  {| nn_Namespace := om_Namespace (kmeta o); nn_Name := om_Name (kmeta o) |}.

(** ** controllerutil.CreateOrUpdate *)

Inductive OperationResult := OperationResultNone | OperationResultCreated | OperationResultUpdated.
#[export] Instance OperationResult_eq_dec : EqDecision OperationResult.
Proof. solve_decision. Defined.

Definition changed_key : GoErr := Errorf "MutateFn cannot mutate object name and/or object namespace".

Section controller.
Context {E : Env}.

(** [mutate]. *)
Definition mutate_checked {k} (f : Obj k -> M (Res (Obj k))) (key : NamespacedName) (obj : Obj k)
  : M (Res (Obj k)) :=
  r ← f obj;
  mret (match r with
        | Err err => Err err
        | Ok o => if decide (object_key o = key) then Ok o else Err changed_key
        end).

(** A failed read leaves [obj] as it was; a write leaves the server's answer in it. *)
Definition CreateOrUpdate {k} (obj : Obj k) (f : Obj k -> M (Res (Obj k)))
  : M (Obj k * OperationResult * option GoErr) :=
  let key := object_key obj in
  r ← ClientGet k key;
  match r with
  | Err err =>
      if negb (is_not_found err) then mret (obj, OperationResultNone, Some err)
      else
        m ← mutate_checked f key obj;
        match m with
        | Err err => mret (obj, OperationResultNone, Some err)
        | Ok o =>
            r ← ClientCreate k o;
            mret (match r with
                  | Err err => (o, OperationResultNone, Some err)
                  | Ok o' => (o', OperationResultCreated, None)
                  end)
        end
  | Ok existing =>
      m ← mutate_checked f key existing;
      match m with
      | Err err => mret (existing, OperationResultNone, Some err)
      | Ok o =>
          if decide (existing = o) then mret (o, OperationResultNone, None)
          else
            r ← ClientUpdate k o;
            mret (match r with
                  | Err err => (o, OperationResultNone, Some err)
                  | Ok o' => (o', OperationResultUpdated, None)
                  end)
      end
  end.
End controller.

(** An object the mutation does not change is not written. *)
Lemma CreateOrUpdate_settled {E : Env} {k} (obj o : Obj k) (f : Obj k -> Res (Obj k)) (w : World) :
  (kget k false (object_key obj) (w_est w)).1 = Ok o -> object_key o = object_key obj -> f o = Ok o ->
  wp (CreateOrUpdate obj (fun x => mret (f x))) (fun r w' =>
    r = (o, OperationResultNone, None) /\ exists e, w' = set_est e w) w.
Proof.
  intros Hget Hkey Hf. unfold CreateOrUpdate, mutate_checked. apply wp_bind, wp_ask. intros r en Hr.
  rewrite Hr in Hget. simpl in Hget. subst r. apply wp_bind, wp_bind, wp_ret. rewrite Hf.
  apply wp_ret. rewrite decide_True by done. rewrite decide_True by done. apply wp_ret. eauto.
Qed.

(** A mutation without effects. *)
Definition checked {k} (f : Obj k -> Res (Obj k)) (key : NamespacedName) (x : Obj k) : Res (Obj k) :=
  match f x with
  | Err err => Err err
  | Ok o => if decide (object_key o = key) then Ok o else Err changed_key
  end.

Lemma checked_Ok {k} (f : Obj k -> Res (Obj k)) key x o : checked f key x = Ok o -> f x = Ok o /\ object_key o = key.
Proof. unfold checked. destruct (f x) as [o'|]; [|done]. case_decide; [|done]. by intros [= <-]. Qed.

Lemma frame_mutate_checked {E : Env} R {k B} (f : Obj k -> Res (Obj k)) key x (g : Res (Obj k) -> M B) :
  frame R (g (checked f key x)) -> frame R (bindM (mutate_checked (fun x => mret (f x)) key x) g).
Proof. done. Qed.

(** Whatever [CreateOrUpdate] writes is a result of the mutation. *)
Lemma traces_CreateOrUpdate {E : Env} {k} (P : Act -> Prop) (obj : Obj k) (f : Obj k -> Res (Obj k)) :
  (forall x o e, f x = Ok o -> P (ACreate k o e) /\ P (AUpdate k o e)) ->
  frame (traces P) (CreateOrUpdate obj (fun x => mret (f x))).
Proof.
  intros HP. unfold CreateOrUpdate. cbv zeta.
  apply frame_bind; [apply _|apply frame_reads; [apply _|eauto with lso]|]. intros [existing|err].
  - apply frame_mutate_checked. destruct (checked f (object_key obj) existing) as [o|err] eqn:Ho; [|by apply frame_ret, _].
    apply checked_Ok in Ho as [Ho _]. case_decide; [by apply frame_ret, _|].
    apply frame_bind; [apply _| |intros []; by apply frame_ret, _].
    apply (frame_ask_act _). intros w r. apply traces_log. by eapply HP.
  - destruct (is_not_found err); [|by apply frame_ret, _].
    apply frame_mutate_checked. destruct (checked f (object_key obj) obj) as [o|err'] eqn:Ho; [|by apply frame_ret, _].
    apply checked_Ok in Ho as [Ho _].
    apply frame_bind; [apply _| |intros []; by apply frame_ret, _].
    apply (frame_ask_act _). intros w r. apply traces_log. by eapply HP.
Qed.

Lemma wp_mutate_checked {E : Env} {k B} (f : Obj k -> Res (Obj k)) key x (g : Res (Obj k) -> M B) Q w :
  wp (g (checked f key x)) Q w -> wp (bindM (mutate_checked (fun x => mret (f x)) key x) g) Q w.
Proof. done. Qed.

(** What a successful [CreateOrUpdate] answers: a result of the mutation, or what the
    server made of it. *)
Definition stored {E : Env} {k} (o o' : Obj k) : Prop :=
  o' = o \/ exists en, (kcreate k o en).1 = Ok o' \/ (kupdate k o en).1 = Ok o'.

Lemma wp_CreateOrUpdate_result {E : Env} {k} (obj : Obj k) (f : Obj k -> Res (Obj k)) w :
  wp (CreateOrUpdate obj (fun x => mret (f x)))
     (fun r _ => r.2 = None -> exists x o, f x = Ok o /\ stored o r.1.1) w.
Proof.
  unfold CreateOrUpdate. apply wp_bind, wp_ask. intros r en _.
  destruct r as [existing|err]; [|destruct (is_not_found err); [|by apply wp_ret]]; apply wp_mutate_checked.
  - destruct (checked _ _ existing) as [o|err] eqn:Ho; [|by apply wp_ret]. apply checked_Ok in Ho as [Ho _].
    case_decide; [apply wp_ret; intros _; exists existing, o; split; [done|by left]|].
    unfold ClientUpdate. apply wp_bind, wp_bind, wp_ask. intros r en' Hr. apply wp_bind, wp_act, wp_ret, wp_ret.
    destruct r as [o'|]; [|done]. intros _. exists existing, o. split; [done|]. right. eexists. right. by rewrite Hr.
  - destruct (checked _ _ obj) as [o|err'] eqn:Ho; [|by apply wp_ret]. apply checked_Ok in Ho as [Ho _].
    unfold ClientCreate. apply wp_bind, wp_bind, wp_ask. intros r en' Hr. apply wp_bind, wp_act, wp_ret, wp_ret.
    destruct r as [o'|]; [|done]. intros _. exists obj, o. split; [done|]. right. eexists. left. by rewrite Hr.
Qed.

(** ** The volumes of an owner *)

(** The cache listed no volume with the owner's labels. *)
Definition no_owned_volumes {E : Env} (obj : RuntimeObject) : Prop :=
  exists en kind ns name, owner_ids obj = Ok (kind, ns, name) /\
    (klist KPV (matching_labels (owner_labels kind ns name)) en).1 = Ok [].

Lemma reads_GetOwnedPVs {E : Env} obj : reads (GetOwnedPVs obj).
Proof. unfold GetOwnedPVs. destruct (owner_ids obj) as [[[] ?]|]; reads_tac. Qed.
#[export] Hint Resolve reads_GetOwnedPVs : lso.

Lemma wp_GetOwnedPVs {E : Env} obj w :
  wp (GetOwnedPVs obj) (fun r w' => (exists e, w' = set_est e w) /\ (r = Ok [] -> no_owned_volumes obj)) w.
Proof.
  unfold GetOwnedPVs. destruct (owner_ids obj) as [[[kind ns] name]|] eqn:Hids.
  - apply wp_bind, wp_ask. intros r en Hr. destruct r as [items|]; apply wp_ret; (split; [by exists en|]); [|done].
    intros [= ->]. exists (w_est w), kind, ns, name. split; [done|]. by rewrite Hr.
  - apply wp_ret. split; [|done]. by exists (w_est w); destruct w.
Qed.

(** A release only updates volumes. *)
Lemma traces_ReleaseAvailablePVs {E : Env} (P : Act -> Prop) obj :
  (forall o e, P (AUpdate KPV o e)) -> frame (traces P) (ReleaseAvailablePVs obj).
Proof.
  intros H. unfold ReleaseAvailablePVs, release_pv. destruct (owner_ids obj) as [[[] ?]|];
    frame_tac ltac:(idtac; match goal with
      | |- frame _ (ClientUpdate _ _) => apply (frame_ask_act _); intros; apply traces_log, H end).
Qed.

(** ** resourcemerge.EnsureObjectMeta *)

Definition has_suffix (s p : string) : bool :=
  String.eqb (String.substring (String.length s - String.length p) (String.length p) s) p
  && (String.length p <=? String.length s)%nat.

Definition SetStringIfSet (modified : bool) (existing required : string) : bool * string :=
  if decide (required = "") then (modified, existing)
  else if decide (required <> existing) then (true, required)
  else (modified, existing).

(** One entry of the required map; a key that ends with a dash removes. *)
Definition merge_entry (acc : bool * gmap string string) (kv : string * string) : bool * gmap string string :=
  let '(modified, existing) := acc in
  let '(k, v) := kv in
  if has_suffix k "-" then
    let actualKey := trim_right_with (in_cutset "-") k in
    match existing !! actualKey with
    | None => acc
    | Some _ => (true, delete actualKey existing)
    end
  else if decide (existing !! k = Some v) then acc
  else (true, <[k := v]> existing).

(** [schema.ParseGroupVersion], the group. *)
Definition parse_group (gv : string) : option string :=
  if decide (gv = "" \/ gv = "/") then Some ""
  else match split gv "/" with
       | [_] => Some ""
       | [g; _] => Some g
       | _ => None
       end.

Definition ownerRefMatched (existing required : OwnerReference) : bool :=
  if decide (or_Name existing <> or_Name required) then false
  else if decide (or_Kind existing <> or_Kind required) then false
  else match parse_group (or_APIVersion existing), parse_group (or_APIVersion required) with
       | Some g, Some g' => bool_decide (g = g')
       | _, _ => false
       end.

Definition merge_owner (acc : bool * list OwnerReference) (o : OwnerReference) : bool * list OwnerReference :=
  let '(modified, existing) := acc in
  let removeOwner := has_suffix (or_UID o) "-" in
  match list_find (fun x => ownerRefMatched o x = true) existing with
  | None => if removeOwner then acc else (true, existing ++ [o])%list
  | Some (i, x) =>
      if removeOwner then (true, delete i existing)
      else if decide (o = x) then acc
      else (true, <[i := o]> existing)
  end.

Definition MergeOwnerRefs (modified : bool) (existing required : list OwnerReference) : bool * list OwnerReference :=
  fold_left merge_owner required (modified, existing).

Definition set_name (ns name : string) (m : ObjectMeta) : ObjectMeta :=
  {| om_Name := name; om_Namespace := ns; om_UID := om_UID m;
     om_Labels := om_Labels m; om_Annotations := om_Annotations m; om_Finalizers := om_Finalizers m;
     om_OwnerReferences := om_OwnerReferences m; om_CreationTimestamp := om_CreationTimestamp m;
     om_DeletionTimestamp := om_DeletionTimestamp m; om_Generation := om_Generation m;
     om_ResourceVersion := om_ResourceVersion m |}.

Definition set_sc_meta (m : ObjectMeta) (sc : StorageClass) : StorageClass :=
  {| sc_meta := m; sc_Provisioner := sc_Provisioner sc; sc_ReclaimPolicy := sc_ReclaimPolicy sc;
     sc_VolumeBindingMode := sc_VolumeBindingMode sc; sc_MountOptions := sc_MountOptions sc;
     sc_AllowedTopologies := sc_AllowedTopologies sc |}.
Definition set_sc_MountOptions (l : list string) (sc : StorageClass) : StorageClass :=
  {| sc_meta := sc_meta sc; sc_Provisioner := sc_Provisioner sc; sc_ReclaimPolicy := sc_ReclaimPolicy sc;
     sc_VolumeBindingMode := sc_VolumeBindingMode sc; sc_MountOptions := l;
     sc_AllowedTopologies := sc_AllowedTopologies sc |}.
Definition set_sc_AllowedTopologies (l : list TopologySelectorTerm) (sc : StorageClass) : StorageClass :=
  {| sc_meta := sc_meta sc; sc_Provisioner := sc_Provisioner sc; sc_ReclaimPolicy := sc_ReclaimPolicy sc;
     sc_VolumeBindingMode := sc_VolumeBindingMode sc; sc_MountOptions := sc_MountOptions sc;
     sc_AllowedTopologies := l |}.

(** Mount options and topologies. *)
Definition apply_fields (changed : bool) (required sc : StorageClass) : bool * StorageClass :=
  let '(changed, sc) :=
    if decide (sc_MountOptions required = sc_MountOptions sc) then (changed, sc)
    else (true, set_sc_MountOptions (sc_MountOptions required) sc) in
  if decide (sc_AllowedTopologies sc = sc_AllowedTopologies required) then (changed, sc)
  else (true, set_sc_AllowedTopologies (sc_AllowedTopologies required) sc).

Section apply.
Context {E : Env}.

Definition MergeMap (modified : bool) (existing required : gmap string string)
  : M (bool * gmap string string) :=
  entries ← range_map (map_to_list required);
  mret (fold_left merge_entry entries (modified, existing)).

Definition EnsureObjectMeta (modified : bool) (existing required : ObjectMeta) : M (bool * ObjectMeta) :=
  let '(modified, ns) := SetStringIfSet modified (om_Namespace existing) (om_Namespace required) in
  let '(modified, name) := SetStringIfSet modified (om_Name existing) (om_Name required) in
  l ← MergeMap modified (om_Labels existing) (om_Labels required);
  a ← MergeMap l.1 (om_Annotations existing) (om_Annotations required);
  let '(modified, owners) := MergeOwnerRefs a.1 (om_OwnerReferences existing) (om_OwnerReferences required) in
  mret (modified, set_owner_refs owners (set_annotations a.2 (set_labels l.2 (set_name ns name existing)))).

(** [common.ApplyStorageClass]: the class, and whether it was written.  The client set
    reads from the API server. *)
Definition ApplyStorageClass (required : StorageClass) : M (Res StorageClass * bool) :=
  r ← ReaderGet KSC {| nn_Namespace := ""; nn_Name := sc_Name required |};
  match r with
  | Err err =>
      if is_not_found err then
        actual ← ClientCreate KSC required;
        mret (actual, true)
      else mret (Err err, false)
  | Ok existing =>
      m ← EnsureObjectMeta false (sc_meta existing) (sc_meta required);
      let '(changed, meta) := m in
      let '(changed, sc) := apply_fields changed required (set_sc_meta meta existing) in
      if negb changed then mret (Ok sc, false)
      else
        actual ← ClientUpdate KSC sc;
        mret (actual, true)
  end.
End apply.

(** ** Correctness of the merge *)

Definition no_removal (m : gmap string string) : Prop := map_Forall (fun k _ => has_suffix k "-" = false) m.

Lemma fold_merge_entry (l : list (string * string)) (b : bool) (m : gmap string string) :
  NoDup l.*1 -> Forall (fun kv => has_suffix kv.1 "-" = false) l ->
  fold_left merge_entry l (b, m) =
    (b || negb (bool_decide (list_to_map l ∪ m = m)), list_to_map l ∪ m).
Proof.
  revert b m. induction l as [|[k v] l IH]; intros b m Hn Hf.
  { simpl. rewrite (left_id_L ∅ (∪)), bool_decide_eq_true_2 by done. by rewrite orb_false_r. }
  apply NoDup_cons in Hn as [Hk Hn]. apply Forall_cons in Hf as [Hs Hf]. simpl in Hs.
  assert ((list_to_map l : gmap string string) !! k = None) as HNone by by apply not_elem_of_list_to_map_1.
  assert (list_to_map l ∪ <[k:=v]> m = <[k:=v]> (list_to_map l ∪ m)) as Hu by by rewrite insert_union_r.
  assert (list_to_map ((k, v) :: l) ∪ m = <[k:=v]> (list_to_map l ∪ m)) as Hu' by (simpl; by rewrite insert_union_l).
  rewrite Hu'. cbn [fold_left merge_entry]. rewrite Hs. case_decide as Hm.
  - rewrite IH by done. rewrite <- Hu, (insert_id m) by done. done.
  - rewrite IH by done. rewrite Hu. f_equal. simpl.
    rewrite (bool_decide_eq_false_2 (<[k:=v]> (list_to_map l ∪ m) = m)); [by rewrite orb_true_r|].
    intros He. apply Hm. by rewrite <- He, lookup_insert_eq.
Qed.

Lemma merge_perm (l : list (string * string)) (b : bool) (m r : gmap string string) :
  l ≡ₚ map_to_list r -> no_removal r ->
  fold_left merge_entry l (b, m) = (b || negb (bool_decide (r ∪ m = m)), r ∪ m).
Proof.
  intros Hp Hr. assert (NoDup l.*1) as Hn by (rewrite Hp; apply NoDup_fst_map_to_list).
  rewrite fold_merge_entry; [|done|].
  - assert (list_to_map l = r) as ->; [|done].
    rewrite <- (list_to_map_to_list r). by apply list_to_map_proper.
  - apply Forall_forall. intros [k v] Hin. rewrite Hp in Hin. apply elem_of_map_to_list in Hin. by apply (Hr k v).
Qed.

(** What is left in the class of the cluster. *)
Definition applied (required existing : StorageClass) : StorageClass :=
  let m := sc_meta existing in
  let rm := sc_meta required in
  {| sc_meta := set_annotations (om_Annotations rm ∪ om_Annotations m)
                  (set_labels (om_Labels rm ∪ om_Labels m)
                     (set_name (om_Namespace m) (om_Name rm) m));
     sc_Provisioner := sc_Provisioner existing; sc_ReclaimPolicy := sc_ReclaimPolicy existing;
     sc_VolumeBindingMode := sc_VolumeBindingMode existing; sc_MountOptions := sc_MountOptions required;
     sc_AllowedTopologies := sc_AllowedTopologies required |}.

Lemma meta_unchanged (m : ObjectMeta) name l a :
  set_annotations a (set_labels l (set_name (om_Namespace m) name m)) = m <->
  name = om_Name m /\ l = om_Labels m /\ a = om_Annotations m.
Proof.
  destruct m. unfold set_annotations, set_labels, set_name. simpl. split; [by intros [= -> -> ->]|by intros (-> & -> & ->)].
Qed.

Lemma apply_fields_eq changed (required existing : StorageClass) meta :
  meta = sc_meta (applied required existing) ->
  changed = negb (bool_decide (sc_meta (applied required existing) = sc_meta existing)) ->
  apply_fields changed required (set_sc_meta meta existing) =
    (negb (bool_decide (applied required existing = existing)), applied required existing).
Proof.
  intros -> ->. unfold apply_fields. set (a := applied required existing).
  assert (a = {| sc_meta := sc_meta a; sc_Provisioner := sc_Provisioner existing;
    sc_ReclaimPolicy := sc_ReclaimPolicy existing; sc_VolumeBindingMode := sc_VolumeBindingMode existing;
    sc_MountOptions := sc_MountOptions required; sc_AllowedTopologies := sc_AllowedTopologies required |}) as Ha by done.
  generalize dependent a. intros a. generalize (sc_meta a). intros m ->.
  destruct existing as [m0 p r b o t]. simpl.
  repeat case_decide; simpl in *; subst; f_equal; try done; repeat case_bool_decide; simplify_eq; done.
Qed.

Section apply_spec.
Context {E : Env}.

Lemma wp_MergeMap b m r (Q : bool * gmap string string -> World -> Prop) w :
  no_removal r ->
  (forall en, Q (b || negb (bool_decide (r ∪ m = m)), r ∪ m) (set_est en w)) ->
  wp (MergeMap b m r) Q w.
Proof.
  intros Hr HQ. unfold MergeMap. apply wp_bind, wp_reads; [eauto with lso|]. intros l en Hl. apply wp_ret.
  pose proof (range_map_perm (map_to_list r) w) as Hp. rewrite Hl in Hp. simpl in Hp.
  rewrite (merge_perm l b m r Hp Hr). apply HQ.
Qed.

(** C29: [ApplyStorageClass] creates a class that does not exist and makes one update
    otherwise, exactly when the update changes something: the required labels and
    annotations win over those of the class and the others are kept, mount options and
    topologies are replaced, and the provisioner, the reclaim policy, the binding mode
    and the owners are never changed.  It reports whether it wrote. *)
Theorem ApplyStorageClass_spec (required : StorageClass) (w : World) :
  no_removal (om_Labels (sc_meta required)) -> no_removal (om_Annotations (sc_meta required)) ->
  om_OwnerReferences (sc_meta required) = [] -> om_Namespace (sc_meta required) = "" -> sc_Name required <> "" ->
  wp (ApplyStorageClass required) (fun r w' =>
    w_fs w' = w_fs w /\ w_mem w' = w_mem w /\
    match (kget KSC true {| nn_Namespace := ""; nn_Name := sc_Name required |} (w_est w)).1 with
    | Err err =>
        if is_not_found err
        then w_trace w' = (w_trace w ++ [ACreate KSC required (err_of r.1)])%list /\ r.2 = true
        else w_trace w' = w_trace w /\ r = (Err err, false)
    | Ok existing =>
        if decide (applied required existing = existing)
        then w_trace w' = w_trace w /\ r = (Ok existing, false)
        else w_trace w' = (w_trace w ++ [AUpdate KSC (applied required existing) (err_of r.1)])%list /\ r.2 = true
    end) w.
Proof.
  intros Hl Ha Ho Hns Hname. unfold ApplyStorageClass. apply wp_bind, wp_ask. intros r en ->. simpl.
  destruct r as [existing|err]; [|destruct (is_not_found err)].
  2: { unfold ClientCreate. wp_steps. done. }
  2: { by apply wp_ret. }
  unfold EnsureObjectMeta. rewrite Hns, Ho. cbn [MergeOwnerRefs fold_left].
  assert (SetStringIfSet false (om_Namespace (sc_meta existing)) "" = (false, om_Namespace (sc_meta existing))) as -> by done.
  assert (SetStringIfSet false (om_Name (sc_meta existing)) (om_Name (sc_meta required)) =
    (negb (bool_decide (om_Name (sc_meta required) = om_Name (sc_meta existing))), om_Name (sc_meta required))) as ->.
  { unfold SetStringIfSet. rewrite decide_False by done. case_decide as He.
    - by rewrite bool_decide_eq_false_2. - by rewrite He, bool_decide_eq_true_2. }
  apply wp_bind, wp_bind, wp_MergeMap; [done|]. intros en1. apply wp_bind, wp_MergeMap; [done|]. intros en2.
  simpl. apply wp_ret. cbv beta iota zeta. rewrite apply_fields_eq.
  - case_decide as Happ; [rewrite bool_decide_eq_true_2 by done|rewrite bool_decide_eq_false_2 by done].
    + apply wp_ret. by rewrite Happ.
    + unfold ClientUpdate. simpl. wp_steps. done.
  - done.
  - rewrite <- !negb_andb. f_equal. unfold applied. simpl. rewrite (bool_decide_ext _ _ (meta_unchanged _ _ _ _)).
    by rewrite !bool_decide_and, andb_assoc.
Qed.
End apply_spec.

(** Applying a class only creates or updates classes. *)
Lemma traces_ApplyStorageClass {E : Env} (P : Act -> Prop) sc :
  (forall o e, P (ACreate KSC o e) /\ P (AUpdate KSC o e)) -> frame (traces P) (ApplyStorageClass sc).
Proof.
  intros H. unfold ApplyStorageClass, EnsureObjectMeta, MergeMap.
  frame_tac ltac:(idtac; match goal with
    | |- frame _ (ClientUpdate _ _) => apply (frame_ask_act _); intros; apply traces_log, H
    | |- frame _ (ClientCreate _ _) => apply (frame_ask_act _); intros; apply traces_log, H end).
Qed.

Definition ex_class : StorageClass := {|
  sc_meta := set_labels {[OwnerNameLabel := "lv"; OwnerNamespaceLabel := "ns"]} (empty_meta "" "sc");
  sc_Provisioner := "kubernetes.io/no-provisioner"; sc_ReclaimPolicy := Some ReclaimDelete;
  sc_VolumeBindingMode := Some "WaitForFirstConsumer"; sc_MountOptions := []; sc_AllowedTopologies := [] |}.

Lemma ApplyStorageClass_witness :
  wp (ApplyStorageClass ex_class) (fun r w' => r.2 = true /\ exists e, w_trace w' = [ACreate KSC ex_class e])
     (static_world quiet ∅ empty_mem).
Proof.
  eapply wp_mono.
  - apply (ApplyStorageClass_spec ex_class); try done; apply (bool_decide_unpack _); by vm_compute.
  - intros r w' (_ & _ & H). simpl in H. destruct H as [Ht Hr]. eauto.
Defined.
