(* ===== verification/Symlinks.v ===== *)
(** * Symlinks under /mnt/local-storage: pkg/common/symlink_utils.go *)
From stdpp Require Import base list strings gmap.
From Stdlib Require Import ZArith Lia String.
From S2P Require Import Prelude GoLib Types World Sys Envs DiskUtil LinkCache Common.

Open Scope string_scope.

Section symlinks.
Context {E : Env}.

(** source, target, idExists and the error. *)
Definition GetSymLinkSourceAndTarget (dev : BlockDevice) (symlinkDir : string)
  : M (string * string * bool * option GoErr) :=
  match GetDevPath dev with
  | (_, Some err) => mret ("", "", false, Some err)
  | (devLabelPath, None) =>
      r ← GetPathByID dev;
      let '(source, err, _) := r in
      match err with
      | None => mret (source, path_join [symlinkDir; base source], true, None)
      | Some e =>
          match as_id_not_found e with
          | Some _ => mret (devLabelPath, path_join [symlinkDir; base devLabelPath], false, None)
          | None => mret (source, "", false, Some e)
          end
      end
  end.

Definition GetSymlinkedForCurrentSC (symlinkDir kname : string) : M (Res string) :=
  r ← Glob (path_join [symlinkDir; "*"]);
  match r with
  | Err err => mret (Err err)
  | Ok paths =>
      r ← firstM paths (matching_path kname);
      match r with
      | Err err => mret (Err err)
      | Ok (Some path) => mret (Ok (base path))
      | Ok None => mret (Ok "")
      end
  end.

Definition removeSymlinkFinalizer (pv : PersistentVolume) : M (option GoErr) :=
  let (removed, meta) := RemoveFinalizer (pv_meta pv) LSOSymlinkDeleterFinalizer in
  if removed : bool then
    let pvCopy := set_pv_meta meta pv in
    r ← ClientUpdate KPV pvCopy;
    match r with
    | Err err => mret (Some (Errorf (sprintf "error removing %s finalizer from PV %s: %v"
                                       [LSOSymlinkDeleterFinalizer; pv_Name pvCopy; error_text err])))
    | Ok _ => mret None
    end
  else mret None.

Definition deleteSymlinkParentDir (symlink : string) : M (option GoErr) :=
  let parentDir := dir symlink in
  err ← Remove parentDir;
  match err with
  | Some e =>
      if is_errno ENOENT e || is_errno ENOTEMPTY e then mret None
      else mret (Some (Errorf (sprintf "error removing symlink dir %s: %v" [parentDir; error_text e])))
  | None => mret None
  end.

Definition deleteSymlink (pv : PersistentVolume) : M (option GoErr) :=
  if not_deleting (pv_meta pv) then
    mret (Some (Errorf (sprintf "failed to remove symlink, PV %s does not have DeletionTimestamp" [pv_Name pv])))
  else
    match pv_Local pv with
    | None => mret (Some (Errorf (sprintf "failed to remove symlink, PV %s does not have a local volume path"
                                    [pv_Name pv])))
    | Some symlink =>
        r ← Lstat symlink;
        match r with
        | Err e =>
            if is_errno ENOENT e then deleteSymlinkParentDir symlink
            else mret (Some (Errorf (sprintf "failed to lstat %s: %v" [symlink; error_text e])))
        | Ok (NLink _) =>
            err ← Remove symlink;
            match err with
            | Some e =>
                if is_errno ENOENT e then deleteSymlinkParentDir symlink
                else mret (Some (Errorf (sprintf "error removing symlink %s: %v" [symlink; error_text e])))
            | None => deleteSymlinkParentDir symlink
            end
        | Ok _ => mret (Some (Errorf (sprintf "not removing %s: file is not a symlink" [symlink])))
        end
    end.

(** The volumes [CleanupSymlinks] acts on. *)
Definition cleanup_candidate (ownerLabels : list (string * string)) (pv : PersistentVolume) : bool :=
  pvHasLabels pv ownerLabels
  && negb (not_deleting (pv_meta pv))
  && bool_decide (pv_Phase pv = VolumeReleased \/ pv_Phase pv = VolumeAvailable)
  && hasSymlinkFinalizer pv.

Definition cleanup_pv (ownerLabels : list (string * string)) (shouldDelete : bool)
  (pv : PersistentVolume) : M (option GoErr) :=
  if negb (cleanup_candidate ownerLabels pv) then mret None
  else
    err ← (if shouldDelete then deleteSymlink pv else mret None);
    match err with
    | Some e => mret (Some e)
    | None => removeSymlinkFinalizer pv
    end.

(** [shouldDeleteSymlinkFnArg]: nil means "always". *)
Definition CleanupSymlinks (ownerLabels : list (string * string))
  (shouldDeleteSymlinkFnArg : option bool) : M (option GoErr) :=
  let shouldDelete := default true shouldDeleteSymlinkFnArg in
  pvs ← get_mem m_pvs;
  order ← range_map (map snd (map_to_list (pvs : VolumeCache)));
  forM order (cleanup_pv ownerLabels shouldDelete).

Definition HasExistingLocalVolumes (symlinkDir : string) (blockDevice : BlockDevice)
  : M (Res string) :=
  r ← GetSymlinkedForCurrentSC symlinkDir (bd_KName blockDevice);
  match r with
  | Err err => mret (Err err)
  | Ok existingSymlink =>
      if decide (existingSymlink <> "") then mret (Ok (path_join [symlinkDir; existingSymlink]))
      else
        r ← GetPathByID blockDevice;
        let '(symlinkSource, err, blockDevice) := r in
        match err with
        | Some e => mret (Err e)
        | None =>
            r ← FindLSOManagedDeviceInfo symlinkSource blockDevice;
            match r with
            | Err err => mret (Err err)
            | Ok None => mret (Ok "")
            | Ok (Some currentDeviceInfo) =>
                RecoverPVSymlinkPath currentDeviceInfo symlinkDir symlinkSource
            end
        end
  end.
End symlinks.

(** ** Properties *)

(** The volume without the operator's finalizer. *)
Definition without_finalizer (pv : PersistentVolume) : PersistentVolume :=
  set_pv_meta (RemoveFinalizer (pv_meta pv) LSOSymlinkDeleterFinalizer).2 pv.

(** An injected failure never claims that a file is missing: whether it exists is
    decided by the tree. *)
Definition honest_faults (E : Env) : Prop :=
  forall c en e, (sys_fault c en).1 = Some e -> is_errno ENOENT e = false.

(** What the removal of links may do to the tree: keys disappear, and only those of
    the volume's link and of its directory. *)
Definition only_removes (keys : string -> Prop) (fs fs' : FS) : Prop :=
  forall q, fs' !! q = fs !! q \/ fs' !! q = None /\ keys q.

Definition link_keys (pv : PersistentVolume) (q : string) : Prop :=
  exists p, pv_Local pv = Some p /\ (q = fkey p \/ q = fkey (dir p)).

Definition link_gone (pv : PersistentVolume) (fs : FS) : Prop :=
  exists p, pv_Local pv = Some p /\ fs !! fkey p = None.

Lemma only_removes_refl K fs : only_removes K fs fs.
Proof. intros q. by left. Qed.

Lemma only_removes_trans K fs1 fs2 fs3 :
  only_removes K fs1 fs2 -> only_removes K fs2 fs3 -> only_removes K fs1 fs3.
Proof.
  intros H1 H2 q. destruct (H2 q) as [->|[? ?]]; [apply H1|by right].
Qed.

Lemma only_removes_mono (K K' : string -> Prop) fs fs' :
  (forall q, K q -> K' q) -> only_removes K fs fs' -> only_removes K' fs fs'.
Proof. intros HK H q. destruct (H q) as [?|[? ?]]; auto. Qed.

Lemma only_removes_gone K fs fs' q : only_removes K fs fs' -> fs !! q = None -> fs' !! q = None.
Proof. intros H Hq. destruct (H q) as [->|[? ?]]; auto. Qed.

Lemma fs_remove_only fs p fs' : fs_remove fs p = Ok fs' -> fs' = delete (fkey p) fs.
Proof.
  unfold fs_remove. intros H. repeat (hyp_case H); congruence.
Qed.

Lemma only_removes_delete (K : string -> Prop) (fs : FS) p : K p -> only_removes K fs (delete p fs).
Proof.
  intros HK q. destruct (decide (p = q)) as [->|]; [right; by rewrite lookup_delete_eq|left].
  by rewrite lookup_delete_ne.
Qed.

Lemma fs_lstat_ENOENT fs p e : fs_lstat fs p = Err e -> fs !! fkey p = None.
Proof.
  unfold fs_lstat, lookup_comps, fkey. destruct (comps p); [done|].
  destruct (fs !! _); [done|]. done.
Qed.

Lemma fs_lstat_NLink fs p t :
  fs_lstat fs p = Ok (NLink t) -> fs !! fkey p = Some (NLink t).
Proof.
  unfold fs_lstat, lookup_comps, fkey. destruct (comps p); [done|].
  destruct (fs !! _); congruence.
Qed.

Section properties.
Context {E : Env}.

Lemma wp_deleteSymlinkParentDir p (Q : option GoErr -> World -> Prop) w :
  (forall r w', w_mem w' = w_mem w -> only_removes (fun q => q = fkey (dir p)) (w_fs w) (w_fs w') ->
     (exists e, w_trace w' = (w_trace w ++ [ASys (SRemove (dir p)) e])%list) -> Q r w') ->
  wp (deleteSymlinkParentDir p) Q w.
Proof.
  intros H. unfold deleteSymlinkParentDir. cbv zeta. apply wp_bind, wp_write_fs.
  - intros e en _. goal_case; apply wp_ret; apply H; eauto using only_removes_refl.
  - intros fs' en Hf. apply wp_ret, H; [done| |eauto].
    apply fs_remove_only in Hf as ->. by apply only_removes_delete.
Qed.

Lemma wp_deleteSymlink pv (Q : option GoErr -> World -> Prop) w :
  honest_faults E ->
  (forall r w', w_mem w' = w_mem w -> only_removes (link_keys pv) (w_fs w) (w_fs w') ->
     (exists t, w_trace w' = (w_trace w ++ t)%list /\ pv_updates t = []) ->
     (r = None -> not_deleting (pv_meta pv) = false /\ link_gone pv (w_fs w')) -> Q r w') ->
  wp (deleteSymlink pv) Q w.
Proof.
  intros Hh H. unfold deleteSymlink.
  assert (forall e, Q (Some e) w) as Hstop.
  { intros e. apply H; [done|apply only_removes_refl|exists []; by rewrite app_nil_r|done]. }
  destruct (not_deleting (pv_meta pv)) eqn:Hdel; [by apply wp_ret|].
  destruct (pv_Local pv) as [p|] eqn:Hp; [|by apply wp_ret].
  assert (forall r w0 e, w_mem w0 = w_mem w -> only_removes (link_keys pv) (w_fs w) (w_fs w0) ->
     (exists t, w_trace w0 = (w_trace w ++ t)%list /\ pv_updates t = []) ->
     r = Some e -> Q r w0) as Herr.
  { intros r w0 e Hm Hr Ht ->. by apply H. }
  assert (forall w0, w_mem w0 = w_mem w -> only_removes (link_keys pv) (w_fs w) (w_fs w0) ->
     w_fs w0 !! fkey p = None ->
     (exists t, w_trace w0 = (w_trace w ++ t)%list /\ pv_updates t = []) ->
     wp (deleteSymlinkParentDir p) Q w0) as Hparent.
  { intros w0 Hm Hr Hg (t & Ht & Hn). apply wp_deleteSymlinkParentDir.
    intros r w1 Hm1 Hr1 (e & Ht1). apply H.
    - congruence.
    - eapply only_removes_trans; [done|]. eapply only_removes_mono; [|done].
      intros q ->. exists p. auto.
    - exists (t ++ [ASys (SRemove (dir p)) e])%list. rewrite Ht1, Ht, app_assoc. split; [done|].
      by rewrite pv_updates_app, Hn.
    - intros _. split; [done|]. exists p. split; [done|]. by eapply only_removes_gone. }
  assert (forall (w0 : World) e0, w_trace w0 = w_trace w ->
    exists t, (w_trace w0 ++ [ASys (SRemove p) e0])%list = (w_trace w ++ t)%list /\ pv_updates t = []) as Hlog.
  { intros w0 e0 ->. eauto. }
  apply wp_bind, wp_read_fs.
  - intros e en Hf. rewrite (Hh _ _ _ Hf). apply wp_ret.
    eapply Herr; [done|apply only_removes_refl|exists []; by rewrite app_nil_r|done].
  - intros en _. destruct (fs_lstat (w_fs w) p) as [n|e] eqn:Hl.
    2: { destruct (is_errno ENOENT e); [|apply wp_ret; eapply Herr; try done;
           [apply only_removes_refl|exists []; by rewrite app_nil_r]].
         apply Hparent; [done|apply only_removes_refl|by eapply fs_lstat_ENOENT|
           exists []; by rewrite app_nil_r]. }
    destruct n as [|tgt| |]; try (apply wp_ret; eapply Herr; try done;
           [apply only_removes_refl|exists []; by rewrite app_nil_r]).
    apply wp_bind, wp_write_fs.
    + intros e en1 [Hf|Hf].
      * rewrite (Hh _ _ _ Hf). apply wp_ret. eapply Herr; [done|apply only_removes_refl|by apply Hlog|done].
      * apply fs_lstat_NLink in Hl. simpl in Hf. unfold fs_remove in Hf. by rewrite Hl in Hf.
    + intros fs' en1 Hf. apply fs_remove_only in Hf as ->. apply Hparent; [done|..].
      * apply only_removes_delete. exists p. auto.
      * simpl. by rewrite lookup_delete_eq.
      * by apply Hlog.
Qed.

Lemma without_finalizer_removed pv :
  hasSymlinkFinalizer pv = true ->
  RemoveFinalizer (pv_meta pv) LSOSymlinkDeleterFinalizer = (true, pv_meta (without_finalizer pv)).
Proof. unfold hasSymlinkFinalizer, without_finalizer, RemoveFinalizer. by intros ->. Qed.

(** The result of the loop over the volumes [l]. *)
Record cleaned (labels : list (string * string)) (del : bool) (l : list PersistentVolume)
  (r : option GoErr) (w w' : World) (t : list Act) : Prop := {
  cl_trace : w_trace w' = (w_trace w ++ t)%list;
  cl_mem : w_mem w' = w_mem w;
  cl_updates : forall o e, (o, e) ∈ pv_updates t -> exists pv,
    pv ∈ l /\ cleanup_candidate labels pv = true /\ o = without_finalizer pv /\
    (del = true -> link_gone pv (w_fs w'));
  cl_fs : only_removes (fun q => del = true /\ exists pv, pv ∈ l /\
    cleanup_candidate labels pv = true /\ link_keys pv q) (w_fs w) (w_fs w');
  cl_done : r = None -> forall pv, pv ∈ l -> cleanup_candidate labels pv = true ->
    (without_finalizer pv, None) ∈ pv_updates t }.

Lemma wp_cleanup_pv labels del pv w :
  honest_faults E ->
  wp (cleanup_pv labels del pv) (fun r w' => exists t, cleaned labels del [pv] r w w' t) w.
Proof.
  intros Hh. unfold cleanup_pv. destruct (cleanup_candidate labels pv) eqn:Hc; simpl.
  2: { apply wp_ret. exists []. split; [by rewrite app_nil_r|done|set_solver|apply only_removes_refl|].
       intros _ pv'. rewrite list_elem_of_singleton. intros ->. congruence. }
  assert (hasSymlinkFinalizer pv = true) as Hfin by (unfold cleanup_candidate in Hc; by apply andb_true_iff in Hc as [_ ?]).
  (* the update of the finalizer, from the world the deletion leaves *)
  assert (forall w0 t0, w_trace w0 = (w_trace w ++ t0)%list -> pv_updates t0 = [] -> w_mem w0 = w_mem w ->
    (del = true -> link_gone pv (w_fs w0)) ->
    only_removes (fun q => del = true /\ link_keys pv q) (w_fs w) (w_fs w0) ->
    wp (removeSymlinkFinalizer pv) (fun r w' => exists t, cleaned labels del [pv] r w w' t) w0) as Hupd.
  { intros w0 t0 Ht0 Hu0 Hm0 Hg Hr. unfold removeSymlinkFinalizer.
    rewrite without_finalizer_removed by done.
    replace (set_pv_meta (pv_meta (without_finalizer pv)) pv) with (without_finalizer pv) by done.
    apply wp_bind. unfold ClientUpdate. apply wp_bind, wp_ask. intros r en _.
    apply wp_bind, wp_act, wp_ret.
    assert (forall r', (r' = None -> err_of r = None) -> exists t, cleaned labels del [pv] r' w
      (log (AUpdate KPV (without_finalizer pv) (err_of r)) (set_est en w0)) t) as Hfinal.
    { intros r' Hr'. exists (t0 ++ [AUpdate KPV (without_finalizer pv) (err_of r)])%list.
      assert (pv_updates (t0 ++ [AUpdate KPV (without_finalizer pv) (err_of r)])%list
              = [(without_finalizer pv, err_of r)]) as Hu by (by rewrite pv_updates_app, Hu0).
      split.
      - simpl. by rewrite Ht0, app_assoc.
      - done.
      - rewrite Hu. intros o e. rewrite list_elem_of_singleton. intros [= -> ->].
        exists pv. repeat split; [set_solver|done..].
      - simpl. eapply only_removes_mono; [|done]. intros q [? ?]. split; [done|]. exists pv. set_solver.
      - rewrite Hu. intros Hn pv'. rewrite !list_elem_of_singleton. intros -> _. by rewrite Hr'. }
    destruct r as [o|err]; apply wp_ret, Hfinal; done. }
  apply wp_bind. destruct del.
  - apply wp_deleteSymlink; [done|]. intros r w0 Hm Hr (t0 & Ht0 & Hu0) Hok. destruct r as [e|].
    + apply wp_ret. exists t0. split; [done|done| |..].
      * rewrite Hu0. set_solver.
      * eapply only_removes_mono; [|done]. intros q Hq. split; [done|]. exists pv. set_solver.
      * done.
    + eapply Hupd; try done. { by destruct Hok. }
      eapply only_removes_mono; [|done]. auto.
  - apply wp_ret, (Hupd w []); try done; [by rewrite app_nil_r|apply only_removes_refl].
Qed.

Lemma wp_cleanup_loop labels del l w :
  honest_faults E ->
  wp (forM l (cleanup_pv labels del)) (fun r w' => exists t, cleaned labels del l r w w' t) w.
Proof.
  intros Hh. revert w. induction l as [|pv l IH]; intros w; simpl.
  { apply wp_ret. exists []. split; [by rewrite app_nil_r|done|set_solver|apply only_removes_refl|set_solver]. }
  apply wp_bind. eapply wp_mono; [by apply wp_cleanup_pv|]. intros r w1 (t1 & [T1 M1 U1 F1 D1]).
  destruct r as [e|].
  - apply wp_ret. exists t1. split; try done.
    + intros o e' Hin. destruct (U1 o e' Hin) as (pv' & ?%list_elem_of_singleton & ?). subst. exists pv. set_solver.
    + eapply only_removes_mono; [|done]. intros q (? & pv' & ?%list_elem_of_singleton & ?). subst.
      split; [done|]. exists pv. set_solver.
  - eapply wp_mono; [apply IH|]. intros r w2 (t2 & [T2 M2 U2 F2 D2]). exists (t1 ++ t2)%list. split.
    + by rewrite T2, T1, app_assoc.
    + congruence.
    + intros o e0. rewrite pv_updates_app, elem_of_app. intros [Hin|Hin].
      * destruct (U1 o e0 Hin) as (pv' & ?%list_elem_of_singleton & ? & ? & Hg). subst. exists pv.
        repeat split; [set_solver|done|]. intros Hd. destruct (Hg Hd) as (p & ? & ?).
        exists p. split; [done|]. by eapply only_removes_gone.
      * destruct (U2 o e0 Hin) as (pv' & ? & ?). exists pv'. set_solver.
    + eapply only_removes_trans; (eapply only_removes_mono; [|done]).
      * intros q (? & pv' & ?%list_elem_of_singleton & ?). subst. split; [done|]. exists pv. set_solver.
      * intros q (? & pv' & ? & ?). split; [done|]. exists pv'. set_solver.
    + intros Hr pv'. rewrite elem_of_cons, pv_updates_app, elem_of_app. intros [->|Hin] Hc.
      * left. apply D1; [done|set_solver|done].
      * right. by apply D2.
Qed.
End properties.

(** C11: [CleanupSymlinks] removes the operator's finalizer only from volumes of the
    cache that carry the owner's labels, are being deleted, are Released or
    Available and have the finalizer, and changes nothing else of them; when it is
    to delete the links, the link of every such volume is gone from the tree, only
    links of those volumes and their directories are removed, and nothing is
    created or replaced; when it succeeds, every such volume was updated. *)
Theorem CleanupSymlinks_safe {E : Env} (labels : list (string * string)) (fn : option bool) (w : World) :
  honest_faults E ->
  let del := default true fn in
  let volume pv := exists n, m_pvs (w_mem w) !! n = Some pv in
  wp (CleanupSymlinks labels fn) (fun r w' => exists t,
    w_trace w' = (w_trace w ++ t)%list /\
    (forall o e, (o, e) ∈ pv_updates t -> exists pv,
       volume pv /\ cleanup_candidate labels pv = true /\ o = without_finalizer pv /\
       (del = true -> link_gone pv (w_fs w'))) /\
    (forall q, w_fs w' !! q = w_fs w !! q \/
       w_fs w' !! q = None /\ del = true /\
       exists pv, volume pv /\ cleanup_candidate labels pv = true /\ link_keys pv q) /\
    (r = None -> forall pv, volume pv -> cleanup_candidate labels pv = true ->
       (without_finalizer pv, None) ∈ pv_updates t)) w.
Proof.
  intros Hh del volume. unfold CleanupSymlinks. fold del.
  wp_step. apply wp_get_mem. wp_step. wp_step.
  pose proof (range_map_perm (map snd (map_to_list (m_pvs (w_mem w)))) w) as Hp. rewrite H in Hp. simpl in Hp.
  assert (forall pv, pv ∈ a <-> volume pv) as Hin.
  { intros pv. rewrite Hp. unfold volume. rewrite list_elem_of_fmap.
    setoid_rewrite <- elem_of_map_to_list. split; [intros ([n ?] & -> & ?); eauto|].
    intros (n & ?). by exists (n, pv). }
  eapply wp_mono; [by apply wp_cleanup_loop|]. intros r w' (t & [T _ U F D]). exists t.
  split; [done|]. split; [|split].
  - intros o e0 Ho. destruct (U o e0 Ho) as (pv & ? & ?). exists pv. by rewrite <- Hin.
  - intros q. destruct (F q) as [?|(? & ? & pv & ? & ?)]; [by left|right].
    do 2 (split; [done|]). exists pv. by rewrite <- Hin.
  - intros Hr pv Hv. apply (D Hr). by apply Hin.
Qed.

Definition ex_pv : PersistentVolume :=
  {| pv_meta := {| om_Name := "local-pv-1"; om_Namespace := ""; om_UID := "";
                   om_Labels := list_to_map (owner_labels LocalVolumeKind "ns" "lv"); om_Annotations := ∅;
                   om_Finalizers := ["kubernetes.io/pv-protection"; LSOSymlinkDeleterFinalizer];
                   om_OwnerReferences := []; om_CreationTimestamp := None;
                   om_DeletionTimestamp := Some 5%Z; om_Generation := 0; om_ResourceVersion := "" |};
     pv_Local := Some "/mnt/local-storage/sc/wwn-1"; pv_ReclaimPolicy := ReclaimDelete;
     pv_ClaimRef := None; pv_VolumeMode := None; pv_StorageClassName := "sc"; pv_Capacity := 0;
     pv_NodeAffinity := None; pv_MountOptions := []; pv_FsType := None; pv_Phase := VolumeReleased |}.

Lemma CleanupSymlinks_witness :
  let E := static_env quiet in
  let fs : FS := <["/mnt/local-storage/sc/wwn-1" := NLink "/dev/disk/by-id/wwn-1"]> ex_fs in
  let w := static_world quiet fs (set_m_pvs {["local-pv-1" := ex_pv]} empty_mem) in
  let labels := owner_labels LocalVolumeKind "ns" "lv" in
  honest_faults E /\
  wp (E := E) (CleanupSymlinks (E := E) labels None) (fun r w' =>
    r = None /\ w_fs w' !! "/mnt/local-storage/sc/wwn-1" = None /\
    pv_updates (w_trace w') = [(without_finalizer ex_pv, None)] /\
    (forall q, w_fs w' !! q = w_fs w !! q \/ w_fs w' !! q = None)) w.
Proof.
  intros E fs w labels. assert (honest_faults E) as Hh by done. split; [done|].
  pose proof (CleanupSymlinks_safe labels None w Hh) as (t & _ & _ & Hq & _).
  split; [vm_compute; reflexivity|]. split; [vm_compute; reflexivity|]. split; [vm_compute; reflexivity|].
  intros q. destruct (Hq q) as [?|[? _]]; [by left|by right].
Defined.

(** ** Readers *)

Section readers.
Context {E : Env}.
Lemma reads_GetSymLinkSourceAndTarget d s : reads (GetSymLinkSourceAndTarget d s).
Proof. unfold GetSymLinkSourceAndTarget. reads_tac. Qed.
Lemma reads_GetSymlinkedForCurrentSC d k : reads (GetSymlinkedForCurrentSC d k).
Proof.
  unfold GetSymlinkedForCurrentSC. apply reads_bind; [eauto with lso|].
  intros [paths|e]; [|apply reads_ret]. apply reads_bind; [apply reads_firstM; eauto with lso|].
  intros [[p|]|e]; apply reads_ret.
Qed.
Hint Resolve reads_GetSymlinkedForCurrentSC : lso.
Lemma reads_HasExistingLocalVolumes d b : reads (HasExistingLocalVolumes d b).
Proof. unfold HasExistingLocalVolumes. reads_tac. Qed.
End readers.
#[export] Hint Resolve reads_GetSymLinkSourceAndTarget reads_GetSymlinkedForCurrentSC
  reads_HasExistingLocalVolumes : lso.
