(* ===== verification/DeviceLink.v ===== *)
(** * LocalVolumeDeviceLink objects: pkg/common/device_link_handler.go

    Creation and status of the objects, the symlink mismatch test and the atomic
    replacement of a symlink.  [nodeName] is the handler's field. *)
From stdpp Require Import base list strings gmap.
From Stdlib Require Import ZArith Lia String.
From S2P Require Import Prelude GoLib Types World Sys Envs Crash DiskUtil LinkCache Common.

Open Scope string_scope.

Definition DeviceSymlinkErrorType := "SymlinkRecreateError".

Definition NewDeviceLinkHandler (nodeName : string) : Res string :=
  if decide (nodeName = "") then Err (Errorf "node name is required for DeviceLinkHandler")
  else Ok nodeName.

Definition buildOwnerRefs (ownerObj : option RuntimeObject) : Res (list OwnerReference) :=
  match ownerObj with
  | None => Err (Errorf "owner object is nil")
  | Some obj =>
      let kind := tm_Kind (obj_type obj) in
      let apiVersion := tm_APIVersion (obj_type obj) in
      let (kind, apiVersion) :=
        if decide (kind = "" \/ apiVersion = "") then
          match obj with
          | OLocalVolume _ => (LocalVolumeKind, v1_GroupVersion)
          | OLocalVolumeSet _ => (LocalVolumeSetKind, v1alpha1_GroupVersion)
          end
        else (kind, apiVersion) in
      Ok [{| or_APIVersion := apiVersion; or_Kind := kind; or_Name := om_Name (obj_meta obj);
             or_UID := om_UID (obj_meta obj); or_Controller := Some true;
             or_BlockOwnerDeletion := None |}]
  end.

Definition generateLVDLObj (nodeName pvName namespace : string) (ownerObj : option RuntimeObject)
  : Res LocalVolumeDeviceLink :=
  match buildOwnerRefs ownerObj with
  | Err err => Err err
  | Ok ownerRefs =>
      if decide (nodeName = "")
      then Err (Errorf (sprintf "node name is required for LocalVolumeDeviceLink %s" [pvName]))
      else Ok {| ld_meta := set_owner_refs ownerRefs (empty_meta namespace pvName);
                 ld_Spec := {| lds_PersistentVolumeName := pvName; lds_NodeName := nodeName;
                               lds_Policy := DeviceLinkPolicyNone |};
                 ld_Status := empty_ld_status |}
  end.

(** [metav1.GetControllerOf]. *)
Definition GetControllerOf (m : ObjectMeta) : option OwnerReference :=
  find_first (fun r => if bool_decide (or_Controller r = Some true) then Some r else None)
    (om_OwnerReferences m).

(** The loop keeps the last index of the condition's type. *)
Fixpoint last_index (ty : string) (l : list OperatorCondition) (i : nat) (acc : option nat) : option nat :=
  match l with
  | [] => acc
  | c :: l' => last_index ty l' (S i) (if decide (oc_Type c = ty) then Some i else acc)
  end.

Definition setLVDLCondition (lvdl : LocalVolumeDeviceLink) (condition : OperatorCondition)
  : LocalVolumeDeviceLink :=
  let existingConditions := ls_Conditions (ld_Status lvdl) in
  match last_index (oc_Type condition) existingConditions 0 None with
  | Some index =>
      match existingConditions !! index with
      | Some existingCondition =>
          if decide (oc_Message existingCondition = oc_Message condition
                     /\ oc_Reason existingCondition = oc_Reason condition
                     /\ oc_Status existingCondition = oc_Status condition)
          then lvdl
          else set_ld_conditions (<[index := condition]> existingConditions) lvdl
      | None => lvdl
      end
  | None => set_ld_conditions (existingConditions ++ [condition])%list lvdl
  end.

Section devicelink.
Context {E : Env}.

Definition getCondition (reason msg status : string) : M OperatorCondition :=
  now ← ask clock;
  mret {| oc_Type := DeviceSymlinkErrorType; oc_Status := status; oc_Reason := reason;
          oc_Message := msg; oc_LastTransitionTime := now |}.

Definition createLVDL (nodeName pvName namespace : string) (ownerObj : option RuntimeObject)
  : M (Res LocalVolumeDeviceLink) :=
  match generateLVDLObj nodeName pvName namespace ownerObj with
  | Err err => mret (Err err)
  | Ok required => ClientCreate KLVDL required
  end.

(** The object with the refreshed status, or the reason why it could not be. *)
Definition setStatusSymlinks (lvdl : LocalVolumeDeviceLink) (blockDevice : BlockDevice)
  (preferredLinkTarget currentSymlink symlinkPath : string) : M (Res LocalVolumeDeviceLink) :=
  match GetDevPath blockDevice with
  | (_, Some err) =>
      mret (Err (Wrap (sprintf "failed to get /dev path for %s" [bd_Name blockDevice]) err))
  | (_, None) =>
      p ← (if decide (preferredLinkTarget = "") then
             (r ← GetUncachedPathID blockDevice;
              match r with
              | (Ok path, b) => mret (Ok path, b)
              | (Err err, b) =>
                  match as_id_not_found err with
                  | Some _ => mret (Ok "", b)
                  | None => mret (Err (Wrap (sprintf "failed to get preferred device link for %s"
                                               [bd_Name blockDevice]) err), b)
                  end
              end)
           else mret (Ok preferredLinkTarget, blockDevice));
      match p with
      | (Err err, _) => mret (Err err)
      | (Ok preferred, blockDevice) =>
          r ← GetValidByIDSymlinks blockDevice;
          match r with
          | Err err => mret (Err err)
          | Ok validLinks =>
              r ← GetFilesystemUUID blockDevice;
              match r with
              | Err err => mret (Err err)
              | Ok filesystemUUID =>
                  mret (Ok (set_ld_status
                    {| ls_CurrentLinkTarget := currentSymlink; ls_PreferredLinkTarget := preferred;
                       ls_ValidLinkTargets := validLinks;
                       ls_PersistentVolumeSymlinkPath := symlinkPath;
                       ls_FilesystemUUID := filesystemUUID;
                       ls_Conditions := ls_Conditions (ld_Status lvdl) |} lvdl))
              end
          end
      end
  end.

Definition resolveOwnerObjectFromLVDL (lvdl : LocalVolumeDeviceLink) : M (Res RuntimeObject) :=
  let ownerRef := match GetControllerOf (ld_meta lvdl) with
                  | Some r => Some r | None => head (om_OwnerReferences (ld_meta lvdl)) end in
  match ownerRef with
  | None => mret (Err (Errorf (sprintf "no owner references for lvdl %s" [ld_Name lvdl])))
  | Some ownerRef =>
      let nn := {| nn_Namespace := om_Namespace (ld_meta lvdl); nn_Name := or_Name ownerRef |} in
      if decide (or_Kind ownerRef = LocalVolumeKind) then
        r ← ReaderGet KLV nn;
        mret (match r with Ok owner => Ok (OLocalVolume owner) | Err err => Err err end)
      else if decide (or_Kind ownerRef = LocalVolumeSetKind) then
        r ← ReaderGet KLVSet nn;
        mret (match r with Ok owner => Ok (OLocalVolumeSet owner) | Err err => Err err end)
      else mret (Err (Errorf (sprintf "unsupported owner kind %q for lvdl %s"
                                [or_Kind ownerRef; ld_Name lvdl])))
  end.

(** The object the caller gets back and the error. *)
Definition UpdateDeviceLinks (existing : LocalVolumeDeviceLink) (blockDevice : BlockDevice)
  (currentSymlink symlinkPath : string) : M (LocalVolumeDeviceLink * option GoErr) :=
  r ← setStatusSymlinks existing blockDevice "" currentSymlink symlinkPath;
  match r with
  | Err err => mret (existing, Some err)
  | Ok copyToUpdate =>
      if decide (ld_Status existing = ld_Status copyToUpdate) then mret (existing, None)
      else
        (if decide (ls_PreferredLinkTarget (ld_Status existing)
                    <> ls_PreferredLinkTarget (ld_Status copyToUpdate)) then
           (ownerObj ← resolveOwnerObjectFromLVDL copyToUpdate;
            match ownerObj with
            | Ok _ => Eventf "Normal" "PreferredSymlinkChanged"
                        (sprintf "PreferredLinkTarget has changed from %s to %s for device %s"
                           [ls_PreferredLinkTarget (ld_Status existing);
                            ls_PreferredLinkTarget (ld_Status copyToUpdate); bd_Name blockDevice])
            | Err _ => mret tt
            end)
         else mret tt) ;;
        r ← StatusUpdate KLVDL copyToUpdate;
        match r with
        | Ok updated => AddOrUpdateLVDL updated ;; mret (updated, None)
        | Err err => mret (copyToUpdate, Some err)
        end
  end.

Definition FindLVDL (lvdlName namespace : string) : M (Res LocalVolumeDeviceLink) :=
  ReaderGet KLVDL {| nn_Namespace := namespace; nn_Name := lvdlName |}.

Definition findOrCreateLVDL (nodeName pvName namespace devicePath : string)
  (ownerObj : option RuntimeObject) : M (Res LocalVolumeDeviceLink) :=
  r ← ReaderGet KLVDL {| nn_Namespace := namespace; nn_Name := pvName |};
  match r with
  | Ok existing => mret (Ok existing)
  | Err err =>
      if negb (is_not_found err) then mret (Err err)
      else match ownerObj with
           | None => mret (Err (Errorf (sprintf "unable to determine owner for LocalVolumeDeviceLink %s" [pvName])))
           | Some _ =>
               r ← createLVDL nodeName pvName namespace ownerObj;
               match r with
               | Ok existing => mret (Ok existing)
               | Err err =>
                   if is_already_exists err then FindLVDL pvName namespace
                   else mret (Err (Wrap (sprintf "error creating lvdl object %s, for device %s"
                                           [pvName; devicePath]) err))
               end
           end
  end.

(** The nil object without an error: there is no volume yet. *)
Definition ApplyStatus (nodeName pvName namespace : string) (blockDevice : BlockDevice)
  (ownerObj : option RuntimeObject) (currentSymlink symlinkPath : string)
  : M (option LocalVolumeDeviceLink * option GoErr) :=
  match GetDevPath blockDevice with
  | (_, Some err) =>
      mret (None, Some (Wrap (sprintf "failed to get /dev path for %s" [bd_Name blockDevice]) err))
  | (devicePath, None) =>
      r ← ReaderGet KPV {| nn_Namespace := ""; nn_Name := pvName |};
      match r with
      | Err err => mret (None, if is_not_found err then None else Some err)
      | Ok _ =>
          r ← findOrCreateLVDL nodeName pvName namespace devicePath ownerObj;
          match r with
          | Err err => mret (None, Some err)
          | Ok existing =>
              r ← UpdateDeviceLinks existing blockDevice currentSymlink symlinkPath;
              let (lvdl, err) := r in
              mret (Some lvdl, err)
          end
      end
  end.

Definition updateStatus (lvdl : LocalVolumeDeviceLink) (condition : OperatorCondition)
  (blockDevice : BlockDevice) (preferredLinkTarget currentSymlink symlinkPath : string)
  : M (LocalVolumeDeviceLink * option GoErr) :=
  let failed := sprintf "symlink recreation failed %s, setting conditions also failed with"
                  [oc_Message condition] in
  r ← setStatusSymlinks lvdl blockDevice preferredLinkTarget currentSymlink symlinkPath;
  match r with
  | Err err => mret (lvdl, Some (Wrap failed err))
  | Ok copyToUpdate =>
      let copyToUpdate := setLVDLCondition copyToUpdate condition in
      if decide (ld_Status lvdl = ld_Status copyToUpdate) then mret (lvdl, None)
      else
        r ← StatusUpdate KLVDL copyToUpdate;
        match r with
        | Err err => mret (lvdl, Some (Wrap failed err))
        | Ok updated => AddOrUpdateLVDL updated ;; mret (updated, None)
        end
  end.

Definition HasMismatchingSymlink (lvdl : option LocalVolumeDeviceLink) (blockDevice : BlockDevice)
  : M bool :=
  match lvdl with
  | None => mret false
  | Some lvdl =>
      if decide (lds_Policy (ld_Spec lvdl) <> DeviceLinkPolicyPreferredLinkTarget) then mret false
      else
        r ← GetPathByID blockDevice;
        match r with
        | (_, Some _, _) => mret false
        | (preferredTarget, None, _) =>
            let currentTarget := ls_CurrentLinkTarget (ld_Status lvdl) in
            if decide (preferredTarget = "") then mret false
            else if decide (currentTarget = preferredTarget) then mret false
            else mret true
        end
  end.

(** The search for another link of the directory that already claims the device. *)
Fixpoint claimed_by (entries : list string) (symLinkPath resolvedPreferred : string)
  : M (option string) :=
  match entries with
  | [] => mret None
  | entry :: entries' =>
      if decide (entry = symLinkPath) then claimed_by entries' symLinkPath resolvedPreferred
      else
        r ← EvalSymlinks entry;
        match r with
        | Err _ => claimed_by entries' symLinkPath resolvedPreferred
        | Ok resolvedEntry =>
            if decide (resolvedEntry = resolvedPreferred) then mret (Some entry)
            else claimed_by entries' symLinkPath resolvedPreferred
        end
  end.

(** After the rename: the status with the new target and no condition. *)
Definition finish_recreate (lvdl : LocalVolumeDeviceLink) (blockDevice : BlockDevice)
  (currentTarget preferredTarget symLinkPath : string)
  : M (LocalVolumeDeviceLink * option GoErr) :=
  r ← setStatusSymlinks lvdl blockDevice preferredTarget preferredTarget symLinkPath;
  match r with
  | Err err => mret (lvdl, Some (Wrap "refreshing lvdl status after symlink recreation failed" err))
  | Ok copyToUpdate =>
      let copyToUpdate := set_ld_conditions [] copyToUpdate in
      r ← StatusUpdate KLVDL copyToUpdate;
      match r with
      | Err err => mret (lvdl, Some (Wrap "updating lvdl failed with" err))
      | Ok updated =>
          AddOrUpdateLVDL updated ;;
          ownerObj ← resolveOwnerObjectFromLVDL lvdl;
          (match ownerObj with
           | Err _ => mret tt
           | Ok _ => Eventf "Normal" "SymlinkRecreated"
                       (sprintf "Successfully updated symlink %s from %s to %s"
                          [symLinkPath; currentTarget; preferredTarget])
           end) ;;
          mret (updated, None)
      end
  end.

Definition RecreateSymlinkIfNeeded (lvdl : LocalVolumeDeviceLink) (symLinkPath : string)
  (blockDevice : BlockDevice) : M (LocalVolumeDeviceLink * option GoErr) :=
  let currentTarget := ls_CurrentLinkTarget (ld_Status lvdl) in
  p ← GetPathByID blockDevice;
  let '(preferredTarget, err, blockDevice) := p in
  let fail (reason msg preferred : string) :=
    condition ← getCondition reason msg ConditionTrue;
    updateStatus lvdl condition blockDevice preferred currentTarget symLinkPath in
  match err with
  | Some e =>
      fail "PreferredTargetNotFound"
        (sprintf "couldn't find preferredLinkTarget for device %s with currentLink %s: %v"
           [bd_Name blockDevice; currentTarget; error_text e]) ""
  | None =>
      r ← EvalSymlinks preferredTarget;
      match r with
      | Err e =>
          fail "EvalSymlinkFailed"
            (sprintf "failed to eval preferred target %s: %v" [preferredTarget; error_text e])
            preferredTarget
      | Ok resolvedPreferred =>
          let symLinkDir := dir symLinkPath in
          r ← Glob (symLinkDir ++s "/*");
          match r with
          | Err e =>
              fail "ListDirFailed"
                (sprintf "failed to list symlink dir %s: %v" [symLinkDir; error_text e])
                preferredTarget
          | Ok entries =>
              claimed ← claimed_by entries symLinkPath resolvedPreferred;
              match claimed with
              | Some entry =>
                  fail "TargetAlreadyClaimed"
                    (sprintf "preferred target %s is already claimed by symlink %s"
                       [preferredTarget; entry]) preferredTarget
              | None =>
                  let tmpPath := symLinkPath ++s ".tmp" in
                  _ ← Remove tmpPath;
                  result ←
                    (e ← Symlink preferredTarget tmpPath;
                     match e with
                     | Some e =>
                         fail "TempSymlinkCreateFailed"
                           (sprintf "failed to create temp symlink %s -> %s: %v"
                              [tmpPath; preferredTarget; error_text e]) preferredTarget
                     | None =>
                         e ← Rename tmpPath symLinkPath;
                         match e with
                         | Some e =>
                             fail "RenameSymlinkFailed"
                               (sprintf "failed to atomically replace symlink %s: %v"
                                  [symLinkPath; error_text e]) preferredTarget
                         | None => finish_recreate lvdl blockDevice currentTarget preferredTarget symLinkPath
                         end
                     end);
                  (* defer os.Remove(tmpPath) *)
                  _ ← Remove tmpPath;
                  mret result
              end
          end
      end
  end.
End devicelink.

(** ** Readers and quiet operations *)

Section frames.
Context {E : Env}.

Lemma reads_setStatusSymlinks l b p c sp : reads (setStatusSymlinks l b p c sp).
Proof. unfold setStatusSymlinks. reads_tac. Qed.
Lemma reads_resolveOwner l : reads (resolveOwnerObjectFromLVDL l).
Proof. unfold resolveOwnerObjectFromLVDL. reads_tac. Qed.
Lemma reads_getCondition r m s : reads (getCondition r m s).
Proof. unfold getCondition. reads_tac. Qed.
Lemma reads_HasMismatchingSymlink l b : reads (HasMismatchingSymlink l b).
Proof. unfold HasMismatchingSymlink. reads_tac. Qed.
Lemma reads_claimed_by entries p r : reads (claimed_by entries p r).
Proof.
  induction entries as [|e entries IH]; simpl; [apply reads_ret|].
  case_decide; [done|]. apply reads_bind; [eauto with lso|]. intros [q|err]; [|done].
  case_decide; [apply reads_ret|done].
Qed.
End frames.
#[export] Hint Resolve reads_setStatusSymlinks reads_resolveOwner reads_getCondition
  reads_HasMismatchingSymlink reads_claimed_by : lso.

Section frames2.
Context {E : Env}.

Lemma quiet_AddOrUpdateLVDL l : frame fs_quiet (AddOrUpdateLVDL l).
Proof. unfold AddOrUpdateLVDL. quiet_tac. Qed.
Hint Resolve quiet_AddOrUpdateLVDL : lso_quiet.
Lemma quiet_updateStatus l c b p cs sp : frame fs_quiet (updateStatus l c b p cs sp).
Proof. unfold updateStatus. quiet_tac. Qed.
Lemma quiet_finish_recreate l b c p sp : frame fs_quiet (finish_recreate l b c p sp).
Proof. unfold finish_recreate. quiet_tac. Qed.
Lemma quiet_UpdateDeviceLinks l b c sp : frame fs_quiet (UpdateDeviceLinks l b c sp).
Proof. unfold UpdateDeviceLinks. quiet_tac. Qed.
Hint Resolve quiet_UpdateDeviceLinks : lso_quiet.
Lemma quiet_createLVDL n p ns o : frame fs_quiet (createLVDL n p ns o).
Proof. unfold createLVDL. quiet_tac. Qed.
Hint Resolve quiet_createLVDL : lso_quiet.
Lemma quiet_findOrCreateLVDL n p ns d o : frame fs_quiet (findOrCreateLVDL n p ns d o).
Proof. unfold findOrCreateLVDL, FindLVDL. quiet_tac. Qed.
Hint Resolve quiet_findOrCreateLVDL : lso_quiet.
Lemma quiet_ApplyStatus n p ns b o c sp : frame fs_quiet (ApplyStatus n p ns b o c sp).
Proof. unfold ApplyStatus. quiet_tac. Qed.
End frames2.
#[export] Hint Resolve quiet_AddOrUpdateLVDL quiet_updateStatus quiet_finish_recreate
  quiet_UpdateDeviceLinks quiet_createLVDL quiet_findOrCreateLVDL quiet_ApplyStatus : lso_quiet.

(** ** Conditions *)

(** The list reports the condition, whatever its time. *)
Definition has_condition (c : OperatorCondition) (l : list OperatorCondition) : Prop :=
  exists c', c' ∈ l /\ oc_Type c' = oc_Type c /\ oc_Status c' = oc_Status c
    /\ oc_Reason c' = oc_Reason c /\ oc_Message c' = oc_Message c.

Lemma last_index_spec ty l i acc :
  last_index ty l i acc = acc \/
  exists j c, last_index ty l i acc = Some (i + j) /\ l !! j = Some c /\ oc_Type c = ty.
Proof.
  revert i acc. induction l as [|c l IH]; intros i acc; simpl; [by left|].
  destruct (IH (S i) (if decide (oc_Type c = ty) then Some i else acc)) as [->|(j & c' & -> & Hj & Hc)].
  - case_decide; [right|by left]. exists 0, c. by rewrite Nat.add_0_r.
  - right. exists (S j), c'. split; [f_equal; lia|done].
Qed.

Lemma last_index_None ty l i :
  last_index ty l i None = None -> forall c, c ∈ l -> oc_Type c <> ty.
Proof.
  assert (forall l i k, last_index ty l i (Some k) <> None) as Hsome.
  { induction l0 as [|c l0 IH]; intros j k; simpl; [done|]. case_decide; apply IH. }
  revert i. induction l as [|c l IH]; intros i H c' Hin; simpl in *; [set_solver|].
  case_decide as Hc; [by apply Hsome in H|]. apply elem_of_cons in Hin as [->|Hin]; [done|by eapply IH].
Qed.

Lemma setLVDLCondition_has l c : has_condition c (ls_Conditions (ld_Status (setLVDLCondition l c))).
Proof.
  unfold setLVDLCondition. destruct (last_index_spec (oc_Type c) (ls_Conditions (ld_Status l)) 0 None)
    as [->|(j & c' & -> & Hj & Hc')].
  - exists c. simpl. set_solver.
  - simpl. rewrite Hj. case_decide as H.
    + destruct H as (? & ? & ?). exists c'. split; [by eapply list_elem_of_lookup_2|done].
    + exists c. simpl. split; [|done]. eapply list_elem_of_lookup_2, list_lookup_insert_eq.
      by eapply lookup_lt_Some.
Qed.

(** Only the conditions of the status change. *)
Lemma setLVDLCondition_frame l c :
  exists cs, setLVDLCondition l c = set_ld_conditions cs l \/ setLVDLCondition l c = l.
Proof.
  unfold setLVDLCondition. exists (ls_Conditions (ld_Status (setLVDLCondition l c))).
  unfold setLVDLCondition. repeat (goal_case; simpl); by (left + right).
Qed.

(** ** What the status writes report *)

(** [o] is [l] with a status that names [cur] as the current target. *)
Definition reports (l : LocalVolumeDeviceLink) (cur : string) (o : LocalVolumeDeviceLink) : Prop :=
  ld_meta o = ld_meta l /\ ld_Spec o = ld_Spec l /\ ls_CurrentLinkTarget (ld_Status o) = cur.

Section status.
Context {E : Env}.

Lemma wp_setStatusSymlinks l b p cur sp (Q : Res LocalVolumeDeviceLink -> World -> Prop) w :
  (forall r en, (forall o, r = Ok o -> reports l cur o
       /\ ls_PersistentVolumeSymlinkPath (ld_Status o) = sp
       /\ ls_Conditions (ld_Status o) = ls_Conditions (ld_Status l)) -> Q r (set_est en w)) ->
  wp (setStatusSymlinks l b p cur sp) Q w.
Proof.
  intros H. apply wp_reads; [apply reads_setStatusSymlinks|]. intros r en Hr. apply H.
  intros o ->. assert (wp (setStatusSymlinks l b p cur sp) (fun r _ => forall o, r = Ok o -> reports l cur o
       /\ ls_PersistentVolumeSymlinkPath (ld_Status o) = sp
       /\ ls_Conditions (ld_Status o) = ls_Conditions (ld_Status l)) w) as Hw.
  { unfold setStatusSymlinks. wp_steps; by intros ? [= <-]. }
  unfold wp in Hw. rewrite Hr in Hw. by apply Hw.
Qed.

(** The status writes of [t] satisfy [P], and [t] makes no system call. *)
Definition only_status (P : LocalVolumeDeviceLink -> Prop) (w w' : World) : Prop :=
  exists t, w_trace w' = (w_trace w ++ t)%list /\ forall o e, (o, e) ∈ lvdl_status_writes t -> P o.

Lemma only_status_refl P w : only_status P w w.
Proof. exists []. rewrite app_nil_r. set_solver. Qed.

Lemma only_status_eq P w w' : w_trace w' = w_trace w -> only_status P w w'.
Proof. intros H. exists []. rewrite app_nil_r. set_solver. Qed.

Lemma only_status_trans P w1 w2 w3 : only_status P w1 w2 -> only_status P w2 w3 -> only_status P w1 w3.
Proof.
  intros (t1 & T1 & H1) (t2 & T2 & H2). exists (t1 ++ t2)%list. rewrite T2, T1, app_assoc.
  split; [done|]. intros o e. rewrite lvdl_status_writes_app, elem_of_app. naive_solver.
Qed.

Lemma only_status_mono (P P' : LocalVolumeDeviceLink -> Prop) w w' :
  (forall o, P o -> P' o) -> only_status P w w' -> only_status P' w w'.
Proof. intros H (t & ? & ?). exists t. eauto. Qed.

Lemma only_status_log P w w0 a :
  w_trace w0 = w_trace w ->
  (forall o e, lvdl_status_write a = Some (o, e) -> P o) -> only_status P w (log a w0).
Proof.
  intros Hw H. exists [a]. split; [simpl; by rewrite Hw|]. intros o e. unfold lvdl_status_writes. simpl.
  destruct (lvdl_status_write a) as [[o' e']|] eqn:Ha; [|set_solver].
  rewrite list_elem_of_singleton. intros [= -> ->]. by eapply H.
Qed.

Lemma only_status_sys P w w' s e : w_trace w' = (w_trace w ++ [ASys s e])%list -> only_status P w w'.
Proof. intros H. exists [ASys s e]. split; [done|]. intros o e'. simpl. set_solver. Qed.

Lemma wp_updateStatus l c b p cur sp w :
  wp (updateStatus l c b p cur sp) (fun r w' =>
    only_status (fun o => reports l cur o /\ has_condition c (ls_Conditions (ld_Status o))) w w') w.
Proof.
  unfold updateStatus. cbv zeta. apply wp_bind, wp_setStatusSymlinks. intros r en Hr.
  destruct r as [o|err]; [|by apply wp_ret, only_status_eq].
  destruct (Hr o eq_refl) as ((Hm & Hs & Hc) & _ & _).
  case_decide; [by apply wp_ret, only_status_eq|].
  apply wp_bind. unfold StatusUpdate. apply wp_bind, wp_ask. intros r en1 _.
  apply wp_bind, wp_act, wp_ret.
  assert (only_status (fun o => reports l cur o /\ has_condition c (ls_Conditions (ld_Status o))) w
    (log (AStatus KLVDL (setLVDLCondition o c) (err_of r)) (set_est en1 (set_est en w)))) as Hone.
  { apply only_status_log; [done|]. intros o' e [= <- <-]. split; [|apply setLVDLCondition_has].
    destruct (setLVDLCondition_frame o c) as (cs & [->| ->]); by repeat split. }
  destruct r as [u|err]; [|by apply wp_ret].
  apply wp_bind, wp_put_mem, wp_ret. eapply only_status_trans; [apply Hone|by apply only_status_eq].
Qed.

Lemma wp_finish_recreate l b c p sp w :
  wp (finish_recreate l b c p sp) (fun r w' =>
    only_status (fun o => reports l p o /\ ls_Conditions (ld_Status o) = []) w w') w.
Proof.
  unfold finish_recreate. apply wp_bind, wp_setStatusSymlinks. intros r en Hr.
  destruct r as [o|err]; [|by apply wp_ret, only_status_eq].
  destruct (Hr o eq_refl) as ((Hm & Hs & Hc) & _ & _). cbv zeta.
  apply wp_bind. unfold StatusUpdate. apply wp_bind, wp_ask. intros r en1 _.
  apply wp_bind, wp_act, wp_ret.
  assert (only_status (fun o => reports l p o /\ ls_Conditions (ld_Status o) = []) w
    (log (AStatus KLVDL (set_ld_conditions [] o) (err_of r)) (set_est en1 (set_est en w)))) as Hone.
  { apply only_status_log; [done|]. intros o' e [= <- <-]. by repeat split. }
  destruct r as [u|err]; [|by apply wp_ret].
  apply wp_bind, wp_put_mem, wp_bind, wp_reads; [eauto with lso|]. intros ow en2 _.
  apply wp_bind. destruct ow; [unfold Eventf; apply wp_act|apply wp_ret]; apply wp_ret;
    (eapply only_status_trans; [apply Hone|]); [|by apply only_status_eq].
  by apply only_status_log.
Qed.
End status.

(** ** The atomic replacement of a symlink *)

Section recreate.
Context {E : Env} (lvdl : LocalVolumeDeviceLink) (symLinkPath : string) (b : BlockDevice) (w : World).
Let L := fkey symLinkPath.
Let T := fkey (symLinkPath ++s ".tmp").
Let pref := (GetPathByID b w).1.1.1.
Let cur := ls_CurrentLinkTarget (ld_Status lvdl).

(** The link is the old one or the preferred one, and nothing but the link and the
    temporary link differs. *)
Definition swap_safe (fs : FS) : Prop :=
  (fs !! L = w_fs w !! L \/ fs !! L = Some (NLink pref)) /\
  forall q, q <> L -> q <> T -> fs !! q = w_fs w !! q.

(** A status that is written agrees with what the link is. *)
Definition truthful (link : option FNode) (o : LocalVolumeDeviceLink) : Prop :=
  (reports lvdl pref o /\ ls_Conditions (ld_Status o) = [] /\ link = Some (NLink pref)) \/
  (reports lvdl cur o /\ link = w_fs w !! L /\
   exists c, oc_Type c = DeviceSymlinkErrorType /\ oc_Status c = ConditionTrue /\
             has_condition c (ls_Conditions (ld_Status o))).

Definition recreate_post {A} (r : A) (w' : World) : Prop :=
  swap_safe (w_fs w') /\ only_status (truthful (w_fs w' !! L)) w w'.

Lemma swap_safe_start : swap_safe (w_fs w).
Proof. split; [by left|done]. Qed.

Lemma swap_safe_T (fs fs' : FS) :
  (forall q, q <> T -> fs' !! q = fs !! q) -> T <> L -> swap_safe fs -> swap_safe fs'.
Proof.
  intros Hq HTL [H1 H2]. split; [by rewrite Hq|]. intros q ? ?. rewrite Hq by done. by apply H2.
Qed.

(** A failure is recorded in the status while the link is still the old one. *)
Lemma cwp_fail reason msg b' p w0 :
  swap_safe (w_fs w0) -> w_fs w0 !! L = w_fs w !! L -> only_status (truthful (w_fs w0 !! L)) w w0 ->
  crash_wp swap_safe (condition ← getCondition reason msg ConditionTrue;
                      updateStatus lvdl condition b' p cur symLinkPath) recreate_post w0.
Proof.
  intros HI HL Hs. apply cwp_quiet; [done|quiet_tac|].
  apply wp_bind. unfold getCondition. apply wp_bind, wp_ask. intros now en _. apply wp_ret.
  eapply wp_mono; [apply wp_updateStatus|]. intros r w1 H1 [Hf _]. unfold same_fs in Hf.
  split; [by rewrite Hf|]. rewrite Hf. eapply only_status_trans; [done|].
  eapply only_status_trans; [by apply (only_status_eq _ _ (set_est en w0))|].
  eapply only_status_mono; [|apply H1]. intros o [Hr Hc]. right. do 2 (split; [done|]).
  eexists. split; [|split; [|exact Hc]]; done.
Qed.

(** The deferred removal of the temporary link. *)
Lemma cwp_defer rr w0 :
  T <> L -> recreate_post rr w0 ->
  crash_wp swap_safe (_ ← Remove (symLinkPath ++s ".tmp"); mret rr)
    (recreate_post (A := LocalVolumeDeviceLink * option GoErr)) w0.
Proof.
  intros HTL [HI Hs].
  assert (swap_safe (delete T (w_fs w0))) as HI'.
  { eapply swap_safe_T; [|done|done]. intros q ?. by rewrite lookup_delete_ne. }
  apply cwp_bind, cwp_Remove; [done|done|]. intros r' w1 Hf _ Ht.
  assert (w_fs w1 !! L = w_fs w0 !! L /\ swap_safe (w_fs w1)) as [HL HI1].
  { destruct Hf as [[-> _]|[-> _]]; [done|]. split; [by rewrite lookup_delete_ne|done]. }
  apply cwp_ret; [done|]. split; [done|]. rewrite HL. eapply only_status_trans; [done|].
  by eapply only_status_sys.
Qed.

(** The rename, from a world in which the temporary link is the preferred one and
    no status has been written. *)
Lemma cwp_rename p b' w6 :
  T <> L -> pref = p -> swap_safe (w_fs w6) -> w_fs w6 !! L = w_fs w !! L ->
  w_fs w6 !! T = Some (NLink p) -> only_status (fun _ => False) w w6 ->
  crash_wp swap_safe (e ← Rename (symLinkPath ++s ".tmp") symLinkPath;
    match e with
    | Some e => condition ← getCondition "RenameSymlinkFailed"
        (sprintf "failed to atomically replace symlink %s: %v" [symLinkPath; error_text e]) ConditionTrue;
        updateStatus lvdl condition b' p cur symLinkPath
    | None => finish_recreate lvdl b' cur p symLinkPath
    end) recreate_post w6.
Proof.
  intros HTL Hpref HI6 HL6 HT6 Hs6. apply cwp_bind, cwp_Rename; [done|..].
  { intros n Hn. fold T in Hn. rewrite HT6 in Hn. injection Hn as <-. split.
    - right. rewrite Hpref. fold L. by rewrite lookup_insert_eq.
    - intros q ? ?. fold L T. rewrite lookup_insert_ne, lookup_delete_ne by done. by apply HI6. }
  intros r7 w7 Hf7 _ Ht7.
  assert (only_status (fun _ => False) w w7) as Hs7 by (eapply only_status_trans; [done|by eapply only_status_sys]).
  destruct Hf7 as [[Hf7 Hr7]|((n & Hn & Hf7) & ->)].
  { destruct r7 as [e|]; [|done]. apply cwp_fail; rewrite Hf7; [done..|].
    eapply only_status_mono; [|done]. done. }
  fold T in Hn. rewrite HT6 in Hn. injection Hn as <-. fold L T in Hf7.
  assert (w_fs w7 !! L = Some (NLink pref)) as HL7 by (rewrite Hf7, Hpref; by rewrite lookup_insert_eq).
  assert (swap_safe (w_fs w7)) as HI7.
  { split; [by right|]. intros q ? ?. rewrite Hf7, lookup_insert_ne, lookup_delete_ne by done. by apply HI6. }
  apply cwp_quiet; [done|eauto with lso_quiet|].
  eapply wp_mono; [apply wp_finish_recreate|]. intros r8 w8 Hs8 [Hf8 _]. unfold same_fs in Hf8.
  split; [by rewrite Hf8|]. rewrite Hf8, HL7.
  eapply only_status_trans; [by eapply only_status_mono; [|done]|].
  eapply only_status_mono; [|apply Hs8]. intros o [Hr Hc]. left. by rewrite Hpref.
Qed.

(** The temporary link and the rename, once the stale temporary link is removed. *)
Lemma cwp_swap p b' w5 :
  T <> L -> pref = p -> swap_safe (w_fs w5) -> w_fs w5 !! L = w_fs w !! L ->
  only_status (fun _ => False) w w5 ->
  crash_wp swap_safe (e ← Symlink p (symLinkPath ++s ".tmp");
    match e with
    | Some e => condition ← getCondition "TempSymlinkCreateFailed"
        (sprintf "failed to create temp symlink %s -> %s: %v" [symLinkPath ++s ".tmp"; p; error_text e]) ConditionTrue;
        updateStatus lvdl condition b' p cur symLinkPath
    | None => e ← Rename (symLinkPath ++s ".tmp") symLinkPath;
        match e with
        | Some e => condition ← getCondition "RenameSymlinkFailed"
            (sprintf "failed to atomically replace symlink %s: %v" [symLinkPath; error_text e]) ConditionTrue;
            updateStatus lvdl condition b' p cur symLinkPath
        | None => finish_recreate lvdl b' cur p symLinkPath
        end
    end) recreate_post w5.
Proof.
  intros HTL Hpref HI5 HL5 Hs5. apply cwp_bind, cwp_Symlink; [done|..].
  { intros _. eapply swap_safe_T; [|done|done]. intros q ?. by rewrite lookup_insert_ne. }
  intros r6 w6 Hf6 _ Ht6.
  assert (only_status (fun _ => False) w w6) as Hs6 by (eapply only_status_trans; [done|by eapply only_status_sys]).
  destruct Hf6 as [[Hf6 Hr6]|(_ & Hf6 & ->)].
  { destruct r6 as [e|]; [|done]. apply cwp_fail; rewrite Hf6; [done..|].
    eapply only_status_mono; [|done]. done. }
  apply cwp_rename; [done|done| | | |done]; rewrite Hf6.
  - eapply swap_safe_T; [|done|done]. intros q ?. by rewrite lookup_insert_ne.
  - by rewrite lookup_insert_ne.
  - by rewrite lookup_insert_eq.
Qed.

Lemma cwp_recreate :
  T <> L -> crash_wp swap_safe (RecreateSymlinkIfNeeded lvdl symLinkPath b) recreate_post w.
Proof.
  intros HTL. unfold RecreateSymlinkIfNeeded. cbv zeta. pose proof swap_safe_start as H0.
  apply cwp_bind, cwp_reads; [done|eauto with lso|].
  intros [[p err] b'] e1 Hp. assert (pref = p) as Hpref by (unfold pref; by rewrite Hp).
  clear Hp. destruct err as [e|]; [apply cwp_fail; [done|done|by apply only_status_eq]|].
  apply cwp_bind, cwp_reads; [done|eauto with lso|]. intros [rp|e] e2 _.
  2: { apply cwp_fail; [done|done|by apply only_status_eq]. }
  apply cwp_bind, cwp_reads; [done|eauto with lso|]. intros [entries|e] e3 _.
  2: { apply cwp_fail; [done|done|by apply only_status_eq]. }
  apply cwp_bind, cwp_reads; [done|eauto with lso|]. intros [entry|] e4 _.
  { apply cwp_fail; [done|done|by apply only_status_eq]. }
  assert (swap_safe (delete T (w_fs w))) as HId.
  { eapply swap_safe_T; [|done|done]. intros q ?. by rewrite lookup_delete_ne. }
  apply cwp_bind, cwp_Remove; [done|done|]. intros r5 w5 Hf5 _ Ht5.
  apply cwp_bind. eapply cwp_mono; [|intros r w6 H6; by apply cwp_defer].
  apply cwp_swap; [done|done| | |by eapply only_status_sys];
    destruct Hf5 as [[-> _]|[-> _]]; try done. by apply lookup_delete_ne.
Qed.
End recreate.

(** C2: wherever the process is killed during [RecreateSymlinkIfNeeded], the volume's
    symlink is what it was or the link to the preferred target, and nothing but
    it and the temporary link has changed in the tree; every status it writes
    keeps the object's identity and specification and is true when it returns:
    it names the preferred target, without conditions, only if the symlink is that
    link, and otherwise it names the old target, the symlink is unchanged and the
    status has a SymlinkRecreateError condition. *)
Theorem RecreateSymlinkIfNeeded_atomic {E : Env} (lvdl : LocalVolumeDeviceLink) (symLinkPath : string)
  (b : BlockDevice) (w : World) :
  let L := fkey symLinkPath in
  let T := fkey (symLinkPath ++s ".tmp") in
  let preferred := (GetPathByID b w).1.1.1 in
  T <> L ->
  wp (RecreateSymlinkIfNeeded lvdl symLinkPath b) (fun r w' => exists t,
    w_trace w' = (w_trace w ++ t)%list /\ w_fs w' = replay (w_fs w) t /\
    (forall t1 t2, t = (t1 ++ t2)%list ->
       (replay (w_fs w) t1 !! L = w_fs w !! L \/ replay (w_fs w) t1 !! L = Some (NLink preferred)) /\
    (forall q, q <> L -> q <> T -> replay (w_fs w) t1 !! q = w_fs w !! q)) /\
    (forall o e, (o, e) ∈ lvdl_status_writes t ->
       (reports lvdl preferred o /\ ls_Conditions (ld_Status o) = [] /\ w_fs w' !! L = Some (NLink preferred)) \/
       (reports lvdl (ls_CurrentLinkTarget (ld_Status lvdl)) o /\ w_fs w' !! L = w_fs w !! L /\
    exists c, oc_Type c = DeviceSymlinkErrorType /\ oc_Status c = ConditionTrue /\
    has_condition c (ls_Conditions (ld_Status o))))) w.
Proof.
  intros L T preferred HTL. eapply wp_mono; [by apply cwp_recreate|].
  intros r w' [(t & Ht & Hf & Ha) [_ (t' & Ht' & Hs)]].
  assert (t' = t) as -> by (rewrite Ht in Ht'; by apply app_inv_head in Ht').
  exists t. do 2 (split; [done|]). split; [|done]. intros t1 t2 Heq. by apply (Ha t1 t2).
Qed.

(** ** Concrete runs *)

Definition ex_swap : LocalVolumeDeviceLink :=
  example_lvdl "n1" "local-pv-1" "/dev/disk/by-id/scsi-1" "" ["/dev/disk/by-id/scsi-1"].

Definition ex_swap_fs : FS := <["/mnt/local-storage/sc/x" := NLink "/dev/disk/by-id/scsi-1"]> ex_fs.

Lemma RecreateSymlinkIfNeeded_witness :
  let L := "/mnt/local-storage/sc/x" in
  let w := static_world quiet ex_swap_fs empty_mem in
  fkey (L ++s ".tmp") <> fkey L /\
  wp (E := static_env quiet) (RecreateSymlinkIfNeeded (E := static_env quiet) ex_swap L ex_dev) (fun r w' =>
    r.2 = None /\ w_fs w' = <[L := NLink "/dev/disk/by-id/wwn-1"]> ex_fs /\
    exists t, w_trace w' = t /\ forall t1 t2, t = (t1 ++ t2)%list ->
      replay ex_swap_fs t1 !! L = Some (NLink "/dev/disk/by-id/scsi-1") \/
      replay ex_swap_fs t1 !! L = Some (NLink "/dev/disk/by-id/wwn-1")) w.
Proof.
  intros L w. assert (fkey (L ++s ".tmp") <> fkey L) as Hne by (by vm_compute). split; [exact Hne|].
  destruct (RecreateSymlinkIfNeeded_atomic (E := static_env quiet) ex_swap L ex_dev w Hne)
    as (t & Ht & _ & Hcrash & _).
  split; [vm_compute; reflexivity|]. split; [vm_compute; reflexivity|].
  exists t. split; [exact Ht|]. intros t1 t2 Heq. destruct (Hcrash t1 t2 Heq) as [Hs _]. exact Hs.
Defined.

(** A temporary link left by a killed run stops every later run: the scan for rivals
    finds it before it is cleaned up. *)
Lemma stale_tmp_blocks_recreate :
  let L := "/mnt/local-storage/sc/x" in
  let T := L ++s ".tmp" in
  let w := static_world quiet (<[T := NLink "/dev/disk/by-id/wwn-1"]> ex_swap_fs) empty_mem in
  wp (E := static_env quiet) (RecreateSymlinkIfNeeded (E := static_env quiet) ex_swap L ex_dev) (fun r w' =>
    (r.2, oc_Reason <$> ls_Conditions (ld_Status r.1), w_fs w' !! T, w_fs w' !! L)
    = (None, ["TargetAlreadyClaimed"], Some (NLink "/dev/disk/by-id/wwn-1"),
       Some (NLink "/dev/disk/by-id/scsi-1"))) w.
Proof. vm_compute. reflexivity. Qed.

(** That state is one a crash leaves: the tree after two actions of the successful run. *)
Lemma stale_tmp_reachable :
  let L := "/mnt/local-storage/sc/x" in
  let w := static_world quiet ex_swap_fs empty_mem in
  let w' := (RecreateSymlinkIfNeeded (E := static_env quiet) ex_swap L ex_dev w).2 in
  replay ex_swap_fs (take 2 (w_trace w')) !! (L ++s ".tmp") = Some (NLink "/dev/disk/by-id/wwn-1").
Proof. vm_compute. reflexivity. Qed.

(** ** What the handler may do outside *)

(** It creates objects of its kind and writes their status, emits events, and
    replaces links; it never touches a volume. *)
Definition dl_act (a : Act) : Prop :=
  match a with
  | ASys _ _ | AEvent _ _ _ | ACreate KLVDL _ _ | AStatus KLVDL _ _ => True
  | _ => False
  end.

Section acts.
Context {E : Env}.

Lemma traces_updateStatus l c b p cs sp : frame (traces dl_act) (updateStatus l c b p cs sp).
Proof. unfold updateStatus, AddOrUpdateLVDL. traces_tac. Qed.
Lemma traces_finish_recreate l b c p sp : frame (traces dl_act) (finish_recreate l b c p sp).
Proof. unfold finish_recreate, AddOrUpdateLVDL. traces_tac. Qed.
Hint Resolve traces_updateStatus traces_finish_recreate : lso_traces.
Lemma traces_Recreate l p b : frame (traces dl_act) (RecreateSymlinkIfNeeded l p b).
Proof. unfold RecreateSymlinkIfNeeded. traces_tac. Qed.
Lemma traces_UpdateDeviceLinks l b c sp : frame (traces dl_act) (UpdateDeviceLinks l b c sp).
Proof. unfold UpdateDeviceLinks, AddOrUpdateLVDL. traces_tac. Qed.
Hint Resolve traces_UpdateDeviceLinks : lso_traces.
Lemma traces_findOrCreateLVDL n p ns d o : frame (traces dl_act) (findOrCreateLVDL n p ns d o).
Proof. unfold findOrCreateLVDL, FindLVDL, createLVDL. traces_tac. Qed.
Hint Resolve traces_findOrCreateLVDL : lso_traces.
Lemma traces_ApplyStatus n p ns b o c sp : frame (traces dl_act) (ApplyStatus n p ns b o c sp).
Proof. unfold ApplyStatus. traces_tac. Qed.
End acts.
#[export] Hint Resolve traces_updateStatus traces_finish_recreate traces_Recreate
  traces_UpdateDeviceLinks traces_findOrCreateLVDL traces_ApplyStatus : lso_traces.

(** ** The handler keeps every part of the memory but the link index *)

Section same.
Context {E : Env} {B : Type} (f : Mem -> B).
Hypothesis f_links : forall x m, f (set_m_links x m) = f m.

Lemma same_put_links g : frame (same_of f) (put_mem (fun m => set_m_links (g m) m)).
Proof using f_links. apply frame_put_mem. intros w. unfold same_of. simpl. apply f_links. Qed.
Lemma same_AddOrUpdate l : frame (same_of f) (AddOrUpdateLVDL l).
Proof using f_links. apply same_put_links. Qed.
Hint Resolve same_AddOrUpdate : lso_same.
Lemma same_updateStatus l c b p cs sp : frame (same_of f) (updateStatus l c b p cs sp).
Proof using f_links. unfold updateStatus. same_tac. Qed.
Lemma same_finish_recreate l b c p sp : frame (same_of f) (finish_recreate l b c p sp).
Proof using f_links. unfold finish_recreate. same_tac. Qed.
Hint Resolve same_updateStatus same_finish_recreate : lso_same.
Lemma same_Recreate l p b : frame (same_of f) (RecreateSymlinkIfNeeded l p b).
Proof using f_links. unfold RecreateSymlinkIfNeeded. same_tac. Qed.
Lemma same_UpdateDeviceLinks l b c sp : frame (same_of f) (UpdateDeviceLinks l b c sp).
Proof using f_links. unfold UpdateDeviceLinks. same_tac. Qed.
Hint Resolve same_UpdateDeviceLinks : lso_same.
Lemma same_findOrCreateLVDL n p ns d o : frame (same_of f) (findOrCreateLVDL n p ns d o).
Proof using f_links. unfold findOrCreateLVDL, FindLVDL, createLVDL. same_tac. Qed.
Hint Resolve same_findOrCreateLVDL : lso_same.
Lemma same_ApplyStatus n p ns b o c sp : frame (same_of f) (ApplyStatus n p ns b o c sp).
Proof using f_links. unfold ApplyStatus. same_tac. Qed.
End same.
