(* ===== verification/Provisioner.v ===== *)
(** * Provisioning of a device: [SyncPVAndLVDL] of pkg/common/provisioner_utils.go

    The volume object of a symlinked device is created or brought up to date and
    its LocalVolumeDeviceLink follows.  [CreateLocalPVSpec] and [CreateOrUpdate]
    are the vendored functions of the static provisioner and of
    controller-runtime. *)
From stdpp Require Import base list strings gmap.
From Stdlib Require Import ZArith Lia String.
From S2P Require Import Prelude GoLib Types World Sys Envs Crash DiskUtil LinkCache Common Controller Symlinks DeviceLink.

Open Scope string_scope.

Record SyncPVAndLVDLArgs := {
  sa_Object : RuntimeObject; sa_StorageClass : StorageClass; sa_MountPointMap : gset string;
  sa_SymLinkPath : string; sa_ExtraLabels : gmap string string; sa_BlockDevice : BlockDevice }.

Record LocalPVConfig := {
  lpc_Name : string; lpc_HostPath : string; lpc_Capacity : Z; lpc_StorageClass : string;
  lpc_ReclaimPolicy : string; lpc_ProvisionerName : string; lpc_VolumeMode : string;
  lpc_MountOptions : list string; lpc_NodeAffinity : NodeSelector; lpc_FsType : option string }.

Definition CreateLocalPVSpec (config : LocalPVConfig) : PersistentVolume :=
  {| pv_meta := set_annotations {[AnnProvisionedBy := lpc_ProvisionerName config]}
                  (empty_meta "" (lpc_Name config));
     pv_Local := Some (lpc_HostPath config); pv_ReclaimPolicy := lpc_ReclaimPolicy config;
     pv_ClaimRef := None; pv_VolumeMode := Some (lpc_VolumeMode config);
     pv_StorageClassName := lpc_StorageClass config; pv_Capacity := lpc_Capacity config;
     pv_NodeAffinity := Some (lpc_NodeAffinity config); pv_MountOptions := lpc_MountOptions config;
     pv_FsType := lpc_FsType config; pv_Phase := "" |}.

Definition hostname_affinity (hostname : string) : NodeSelector :=
  [{| nst_MatchExpressions := [{| nsr_Key := LabelHostname; nsr_Operator := "In"; nsr_Values := [hostname] |}];
      nst_MatchFields := [] |}].

Definition pv_labels (hostname kind namespace name : string) (extra : gmap string string)
  : gmap string string :=
  extra ∪ list_to_map [(LabelHostname, hostname); (PVOwnerKindLabel, kind);
                       (PVOwnerNamespaceLabel, namespace); (PVOwnerNameLabel, name)].

Definition pv_annotations (deviceName rcName : string) (idExists : bool) (symLinkPath : string)
  : gmap string string :=
  let m := <[PVDeviceNameLabel := deviceName]> {[AnnProvisionedBy := rcName]} in
  if idExists then <[PVDeviceIDLabel := base symLinkPath]> m else m.

(** Existing keys win; missing ones are added. *)
Definition merge_missing (existing wanted : gmap string string) : gmap string string :=
  existing ∪ wanted.

Definition drop_keys (keys : list string) (m : gmap string string) : gmap string string :=
  fold_left (fun m k => delete k m) keys m.

(** The object [mutate] leaves in [existingPV]. *)
Definition mutated_pv (newPV : PersistentVolume) (labels annotations : gmap string string)
  (existingPV : PersistentVolume) : PersistentVolume :=
  let pv := if decide (om_CreationTimestamp (pv_meta existingPV) = None) then newPV else existingPV in
  let labels' := merge_missing (drop_keys DeprecatedLabels (InitMapIfNil (pv_Labels pv))) labels in
  let annotations' := merge_missing (InitMapIfNil (pv_Annotations pv)) annotations in
  set_pv_meta (set_annotations annotations' (set_labels labels' (pv_meta pv))) pv.

Section provisioner.
Context {E : Env}.

Definition mutate_pv (newPV : PersistentVolume) (labels annotations : gmap string string)
  (actualVolumeMode : string) (existingPV : PersistentVolume) : M PersistentVolume :=
  let pv := if decide (om_CreationTimestamp (pv_meta existingPV) = None) then newPV else existingPV in
  (if decide (pv_VolumeMode pv = Some PersistentVolumeBlock /\ actualVolumeMode = PersistentVolumeFilesystem)
   then Eventf "Warning" "VolumeFailedDelete" "PV requires block mode but path was in fs mode"
   else mret tt) ;;
  mret (mutated_pv newPV labels annotations existingPV).

(** [controllerutil.CreateOrUpdate] on a volume; its mutation does not fail. *)
Definition CreateOrUpdatePV (obj : PersistentVolume) (f : PersistentVolume -> M PersistentVolume)
  : M (option GoErr) :=
  r ← CreateOrUpdate (k := KPV) obj (fun o => o' ← f o; mret (Ok o'));
  mret r.2.

(** The capacity of the path, checked against the desired mode. *)
Definition device_capacity (symLinkPath actualVolumeMode desiredVolumeMode : string)
  (mountPointMap : gset string) : M (Res Z) :=
  if decide (actualVolumeMode = PersistentVolumeBlock) then
    r ← ask (get_block_capacity symLinkPath);
    mret (match r with Ok c => Ok c | Err err => Err (Wrap "could not read device capacity" err) end)
  else if decide (actualVolumeMode = PersistentVolumeFilesystem) then
    if decide (desiredVolumeMode = PersistentVolumeBlock) then
      mret (Err (Errorf (sprintf "path %q of filesystem mode cannot be used to create block volume" [symLinkPath])))
    else if negb (bool_decide (symLinkPath ∈ mountPointMap)) then
      mret (Err (Errorf (sprintf "path %q is not an actual mountpoint" [symLinkPath])))
    else
      r ← ask (get_fs_capacity symLinkPath);
      mret (match r with Ok c => Ok c
            | Err err => Err (Wrap (sprintf "path %q fs stats error" [symLinkPath]) err) end)
  else mret (Err (Errorf (sprintf "path %q has unexpected volume type %q" [symLinkPath; actualVolumeMode]))).

(** The new volume object. *)
Definition new_pv (rc : RuntimeConfig) (sc : StorageClass) (pvName hostname symLinkPath : string)
  (mountConfig : MountConfig) (capacityBytes : Z) : PersistentVolume :=
  let desiredVolumeMode := mc_VolumeMode mountConfig in
  let pv := CreateLocalPVSpec
    {| lpc_Name := pvName; lpc_HostPath := symLinkPath;
       lpc_Capacity := RoundDownCapacityPretty capacityBytes; lpc_StorageClass := sc_Name sc;
       lpc_ReclaimPolicy := default ReclaimDelete (sc_ReclaimPolicy sc);
       lpc_ProvisionerName := rc_Name rc; lpc_VolumeMode := desiredVolumeMode;
       lpc_MountOptions := sc_MountOptions sc; lpc_NodeAffinity := hostname_affinity hostname;
       lpc_FsType := if decide (desiredVolumeMode = PersistentVolumeFilesystem /\ mc_FsType mountConfig <> "")
                     then Some (mc_FsType mountConfig) else None |} in
  set_pv_meta (AddFinalizer (pv_meta pv) LSOSymlinkDeleterFinalizer).2 pv.

(** From the volume's mode on: the released test, the capacity, the volume object
    and the device link's status. *)
Definition sync_pv (args : SyncPVAndLVDLArgs) (rc : RuntimeConfig)
  (hostname kind namespace name pvName : string) (requiresSymlinkRecreation : bool)
  (effectiveCurrentSource : string) (mountConfig : MountConfig) (actualVolumeMode : string)
  : M (option GoErr) :=
  let symLinkPath := sa_SymLinkPath args in
  let idExists := has_prefix effectiveCurrentSource DiskByIDDir in
  r ← ClientGet KPV {| nn_Namespace := ""; nn_Name := pvName |};
  let existingPV := match r with Ok pv => pv | Err _ => empty_pv pvName end in
  if decide (is_ok r = true /\ pv_Phase existingPV = VolumeReleased) then mret (Some ErrTryAgain)
  else
    c ← device_capacity symLinkPath actualVolumeMode (mc_VolumeMode mountConfig) (sa_MountPointMap args);
    match c with
    | Err err => mret (Some err)
    | Ok capacityBytes =>
        let labels := pv_labels hostname kind namespace name (sa_ExtraLabels args) in
        let annotations := pv_annotations (bd_KName (sa_BlockDevice args)) (rc_Name rc) idExists symLinkPath in
        let newPV := new_pv rc (sa_StorageClass args) pvName hostname symLinkPath mountConfig capacityBytes in
        err ← CreateOrUpdatePV existingPV (mutate_pv newPV labels annotations actualVolumeMode);
        match err with
        | Some e => mret (Some e)
        | None =>
            if requiresSymlinkRecreation then mret None
            else
              r ← ApplyStatus (nd_Name (rc_Node rc)) pvName namespace (sa_BlockDevice args)
                    (Some (sa_Object args)) effectiveCurrentSource symLinkPath;
              match r with
              | (_, Some err) => mret (Some (Wrap "error applying device link status" err))
              | (_, None) => mret None
              end
        end
    end.

Definition SyncPVAndLVDL (args : SyncPVAndLVDLArgs) : M (option GoErr) :=
  rc ← get_mem m_rc;
  let symLinkPath := sa_SymLinkPath args in
  match om_Labels (nd_meta (rc_Node rc)) !! LabelHostname with
  | None => mret (Some (Errorf (sprintf "could node find label %q for node %q" [LabelHostname; nd_Name (rc_Node rc)])))
  | Some hostname =>
      let pvName := GeneratePVName (base symLinkPath) (nd_Name (rc_Node rc)) (sc_Name (sa_StorageClass args)) in
      match owner_ids (sa_Object args) with
      | Err err => mret (Some err)
      | Ok (kind, namespace, name) =>
          match NewDeviceLinkHandler (nd_Name (rc_Node rc)) with
          | Err err => mret (Some err)
          | Ok nodeName =>
              r ← FindLVDL pvName namespace;
              match (match r with Err e => negb (is_not_found e) | Ok _ => false end), r with
              | true, Err err =>
                  mret (Some (Wrap (sprintf "error finding localvolumedevicelink object %s" [pvName]) err))
              | _, _ =>
                  let lvdl := match r with Ok l => Some l | Err _ => None end in
                  requiresSymlinkRecreation ← HasMismatchingSymlink lvdl (sa_BlockDevice args);
                  recreated ← (match requiresSymlinkRecreation, lvdl with
                               | true, Some l =>
                                   r ← RecreateSymlinkIfNeeded l symLinkPath (sa_BlockDevice args);
                                   mret r.2
                               | _, _ => mret None
                               end);
                  match recreated with
                  | Some err => mret (Some (Wrap "error recreating symlink" err))
                  | None =>
                      r ← Readlink symLinkPath;
                      match r with
                      | Err err =>
                          _ ← GetPathByID (sa_BlockDevice args);
                          mret (Some (Errorf (sprintf "unable to resolve symlink %s: %v" [symLinkPath; error_text err])))
                      | Ok effectiveCurrentSource =>
                          match rc_DiscoveryMap rc !! sc_Name (sa_StorageClass args) with
                          | None => mret (Some (Errorf (sprintf "could not find config for storageClass: %q"
                                                         [sc_Name (sa_StorageClass args)])))
                          | Some mountConfig =>
                              r ← ask (get_volume_mode symLinkPath);
                              match r with
                              | Err err =>
                                  mret (Some (Wrap "could not read the device's volume mode from the node" err))
                              | Ok actualVolumeMode =>
                                  sync_pv args rc hostname kind namespace name pvName
                                    requiresSymlinkRecreation effectiveCurrentSource mountConfig actualVolumeMode
                              end
                          end
                      end
                  end
              end
          end
      end
  end.
End provisioner.

(** ** The volume that is written *)

Lemma drop_keys_empty keys : drop_keys keys ∅ = ∅.
Proof. unfold drop_keys. induction keys as [|k keys IH]; simpl; [done|]. by rewrite delete_empty. Qed.

Lemma merge_missing_wanted m wanted k : is_Some (wanted !! k) -> is_Some (merge_missing m wanted !! k).
Proof.
  intros [v Hv]. unfold merge_missing. destruct (m !! k) as [u|] eqn:Hm.
  - exists u. by apply lookup_union_Some_l.
  - exists v. by rewrite lookup_union_r.
Qed.

(** What a written volume looks like: its name, the owner's labels, and, for a new
    one, its whole content. *)
Record written (rc : RuntimeConfig) (args : SyncPVAndLVDLArgs) (o : PersistentVolume) : Prop := {
  wr_name : pv_Name o = GeneratePVName (base (sa_SymLinkPath args)) (nd_Name (rc_Node rc))
                          (sc_Name (sa_StorageClass args));
  wr_labels : forall k, k ∈ [LabelHostname; PVOwnerKindLabel; PVOwnerNamespaceLabel; PVOwnerNameLabel] ->
    is_Some (pv_Labels o !! k);
  wr_annotations : is_Some (pv_Annotations o !! AnnProvisionedBy);
  wr_new : om_CreationTimestamp (pv_meta o) = None ->
    exists hostname kind ns name capacity,
      om_Labels (nd_meta (rc_Node rc)) !! LabelHostname = Some hostname /\
      owner_ids (sa_Object args) = Ok (kind, ns, name) /\
      pv_Labels o = pv_labels hostname kind ns name (sa_ExtraLabels args) /\
      pv_Annotations o !! AnnProvisionedBy = Some (rc_Name rc) /\
      om_Finalizers (pv_meta o) = [LSOSymlinkDeleterFinalizer] /\
      pv_Local o = Some (sa_SymLinkPath args) /\
      pv_StorageClassName o = sc_Name (sa_StorageClass args) /\
      pv_NodeAffinity o = Some (hostname_affinity hostname) /\
      pv_ReclaimPolicy o = default ReclaimDelete (sc_ReclaimPolicy (sa_StorageClass args)) /\
      pv_ClaimRef o = None /\ pv_Capacity o = RoundDownCapacityPretty capacity }.

Lemma pv_labels_wanted hostname kind ns name extra k :
  k ∈ [LabelHostname; PVOwnerKindLabel; PVOwnerNamespaceLabel; PVOwnerNameLabel] ->
  is_Some (pv_labels hostname kind ns name extra !! k).
Proof.
  intros Hk. unfold pv_labels. apply (merge_missing_wanted extra).
  rewrite !elem_of_cons in Hk. destruct Hk as [->|[->|[->|[->|Hk]]]]; [by eexists..|set_solver].
Qed.

Lemma pv_annotations_provisioned d n b p : pv_annotations d n b p !! AnnProvisionedBy = Some n.
Proof. unfold pv_annotations. by destruct b. Qed.

Lemma mutated_written rc args hostname kind ns name mc capacity d b existing :
  om_Labels (nd_meta (rc_Node rc)) !! LabelHostname = Some hostname ->
  owner_ids (sa_Object args) = Ok (kind, ns, name) ->
  let pvName := GeneratePVName (base (sa_SymLinkPath args)) (nd_Name (rc_Node rc)) (sc_Name (sa_StorageClass args)) in
  let o := mutated_pv (new_pv rc (sa_StorageClass args) pvName hostname (sa_SymLinkPath args) mc capacity)
             (pv_labels hostname kind ns name (sa_ExtraLabels args))
             (pv_annotations d (rc_Name rc) b (sa_SymLinkPath args)) existing in
  pv_Name o = pvName -> written rc args o.
Proof.
  intros Hh Ho pvName o Hn. split.
  - done.
  - intros k Hk. by apply merge_missing_wanted, pv_labels_wanted.
  - apply merge_missing_wanted. by rewrite pv_annotations_provisioned.
  - unfold o, mutated_pv. case_decide as Hc; [|done]. intros _.
    exists hostname, kind, ns, name, capacity. do 2 (split; [done|]). simpl.
    repeat split; try done.
    + change (pv_Labels _) with (merge_missing (drop_keys DeprecatedLabels (InitMapIfNil ∅))
        (pv_labels hostname kind ns name (sa_ExtraLabels args))).
      replace (InitMapIfNil ∅) with (∅ : gmap string string) by done.
      unfold merge_missing. by rewrite drop_keys_empty, (left_id_L ∅ (∪)).
    + change (pv_Annotations _) with (merge_missing (InitMapIfNil {[AnnProvisionedBy := rc_Name rc]})
        (pv_annotations d (rc_Name rc) b (sa_SymLinkPath args))).
      rewrite InitMapIfNil_drops. unfold merge_missing.
      by rewrite (left_id_L ∅ (∪)), pv_annotations_provisioned.
Qed.

Section spec.
Context {E : Env}.

(** At most one volume is written, and it satisfies [P]. *)
Definition one_write (P : PersistentVolume -> Prop) (w w' : World) : Prop :=
  exists t, w_trace w' = (w_trace w ++ t)%list /\ (List.length (pv_writes t) <= 1)%nat /\
    forall o e, (o, e) ∈ pv_writes t -> P o.

Lemma one_write_none P w w' : traces (fun a => pv_write a = None) w w' -> one_write P w w'.
Proof.
  intros (t & Ht & Hf). exists t. split; [done|].
  assert (pv_writes t = []) as ->; [|simpl; split; [lia|set_solver]].
  clear Ht. induction Hf as [|a t Ha _ IH]; [done|]. unfold pv_writes in *. simpl. by rewrite Ha.
Qed.

Lemma dl_act_no_pv a : dl_act a -> pv_write a = None.
Proof. destruct a as [| | | |[]|[]| | | | |]; done. Qed.

Lemma one_write_l P w1 w2 w3 :
  traces (fun a => pv_write a = None) w1 w2 -> one_write P w2 w3 -> one_write P w1 w3.
Proof.
  intros H1 (t2 & T2 & L2 & H2). destruct (one_write_none P _ _ H1) as (t1 & T1 & _ & _).
  destruct H1 as (t1' & T1' & F1). rewrite T1' in T1. apply app_inv_head in T1 as ->.
  assert (pv_writes t1 = []) as He.
  { clear T1'. induction F1 as [|a t Ha _ IH]; [done|]. unfold pv_writes in *. simpl. by rewrite Ha. }
  exists (t1 ++ t2)%list. rewrite T2, T1', app_assoc, pv_writes_app, He. done.
Qed.

Lemma one_write_r P w1 w2 w3 :
  one_write P w1 w2 -> traces (fun a => pv_write a = None) w2 w3 -> one_write P w1 w3.
Proof.
  intros (t1 & T1 & L1 & H1) (t2 & T2 & F2).
  assert (pv_writes t2 = []) as He.
  { clear T2. induction F2 as [|a t Ha _ IH]; [done|]. unfold pv_writes in *. simpl. by rewrite Ha. }
  exists (t1 ++ t2)%list. rewrite T2, T1, app_assoc, pv_writes_app, He, app_nil_r. done.
Qed.

Abbreviation no_pv := (traces (fun a => pv_write a = None)).

Lemma no_pv_dl w w' : traces dl_act w w' -> no_pv w w'.
Proof. apply traces_mono, dl_act_no_pv. Qed.

Lemma wp_no_pv {A} (m : M A) P w : frame no_pv m -> wp m (fun _ w' => one_write P w w') w.
Proof. intros H. unfold wp. by apply one_write_none, H. Qed.

Lemma no_pv_Recreate l p b : frame no_pv (RecreateSymlinkIfNeeded l p b).
Proof. eapply frame_mono; [apply no_pv_dl|apply traces_Recreate]. Qed.
Lemma no_pv_ApplyStatus n p ns b o c sp : frame no_pv (ApplyStatus n p ns b o c sp).
Proof. eapply frame_mono; [apply no_pv_dl|apply traces_ApplyStatus]. Qed.

(** A step that writes no volume, before the rest. *)
Lemma wp_bind_no_pv {A B} (m : M A) (f : A -> M B) P w :
  frame no_pv m -> (forall a w', wp (f a) (fun _ w'' => one_write P w' w'') w') ->
  wp (bindM m f) (fun _ w' => one_write P w w') w.
Proof.
  intros Hm Hf. apply wp_bind. unfold wp at 1. eapply wp_mono; [apply Hf|].
  intros ? w' H. eapply one_write_l; [apply Hm|done].
Qed.

(** One write recorded at the end of a part that writes no volume. *)
Lemma one_write_log P w w' (o : PersistentVolume) (a : Act) e en :
  no_pv w w' -> pv_write a = Some (o, e) -> P o -> one_write P w (log a (set_est en w')).
Proof.
  intros Hn Ha HP. eapply one_write_l; [done|]. exists [a]. split; [done|].
  unfold pv_writes. simpl. rewrite Ha. simpl. split; [lia|].
  intros o' e'. rewrite list_elem_of_singleton. by intros [= -> ->].
Qed.

Lemma wp_CreateOrUpdatePV obj f P w :
  (forall o, frame no_pv (f o)) ->
  (forall o w', wp (f o) (fun o' _ => object_key (k := KPV) o' = object_key (k := KPV) obj -> P o') w') ->
  wp (CreateOrUpdatePV obj f) (fun _ w' => one_write P w w') w.
Proof.
  intros Hf HP. unfold CreateOrUpdatePV. apply wp_bind.
  apply (wp_mono _ (fun _ w' => one_write P w w')); [|by intros ? w' H; apply wp_ret].
  assert (forall o w1, wp (mutate_checked (k := KPV) (fun o => o' ← f o; mret (Ok o')) (object_key (k := KPV) obj) o)
    (fun m w2 => (forall o', m = Ok o' -> P o') /\ no_pv w1 w2) w1) as Hm.
  { intros o w1. unfold mutate_checked. apply wp_bind, wp_bind.
    apply (wp_mono _ (fun o' w2 => (object_key (k := KPV) o' = object_key (k := KPV) obj -> P o') /\ no_pv w1 w2));
      [split; [apply HP|apply Hf]|].
    intros o' w2 [H Hn]. apply wp_ret, wp_ret. split; [|done]. case_decide; [|done]. intros ? [= <-]. auto. }
  unfold CreateOrUpdate. cbv zeta. apply wp_bind_no_pv; [traces_tac|]. intros [existing|err] w1.
  - apply wp_bind. eapply wp_mono; [apply Hm|]. intros [o|err] w2 [Ho Hn]; [|by apply wp_ret, one_write_none].
    case_decide; [by apply wp_ret, one_write_none|].
    apply wp_bind. unfold ClientUpdate. apply wp_bind, wp_ask. intros r en _.
    apply wp_bind, wp_act, wp_ret, wp_ret. by apply (one_write_log P w1 w2 o _ (err_of r)); auto.
  - destruct (is_not_found err); simpl; [|apply wp_ret, one_write_none; reflexivity].
    apply wp_bind. eapply wp_mono; [apply Hm|]. intros [o|err'] w2 [Ho Hn]; [|by apply wp_ret, one_write_none].
    apply wp_bind. unfold ClientCreate. apply wp_bind, wp_ask. intros r en _.
    apply wp_bind, wp_act, wp_ret, wp_ret. by apply (one_write_log P w1 w2 o _ (err_of r)); auto.
Qed.

Lemma reads_device_capacity p a d m : reads (device_capacity p a d m).
Proof. unfold device_capacity. reads_tac. Qed.
Hint Resolve reads_device_capacity : lso.

Lemma no_pv_mutate n l a m o : frame no_pv (mutate_pv n l a m o).
Proof. unfold mutate_pv. traces_tac. Qed.

(** The API server answers a read of a volume with a volume of that name. *)
Definition api_names : Prop :=
  forall d key en pv, (kget KPV d key en).1 = Ok pv -> pv_Name pv = nn_Name key.

Lemma wp_sync_pv args rc hostname kind ns name req eff mc avm w :
  api_names ->
  om_Labels (nd_meta (rc_Node rc)) !! LabelHostname = Some hostname ->
  owner_ids (sa_Object args) = Ok (kind, ns, name) ->
  wp (sync_pv args rc hostname kind ns name
        (GeneratePVName (base (sa_SymLinkPath args)) (nd_Name (rc_Node rc)) (sc_Name (sa_StorageClass args)))
        req eff mc avm)
     (fun _ w' => one_write (written rc args) w w') w.
Proof.
  intros Hapi Hh Ho. unfold sync_pv. set (pvName := GeneratePVName _ _ _). cbv zeta.
  apply wp_bind, wp_ask. intros r en Hget. eapply wp_mono.
  2: { intros a w' H. eapply (one_write_l _ w (set_est en w)); [apply rel_est|exact H]. }
  assert (pv_Name (match r with Ok pv => pv | Err _ => empty_pv pvName end) = pvName) as Hname.
  { destruct r as [pv|]; [|done]. apply (Hapi false {| nn_Namespace := ""; nn_Name := pvName |} (w_est w)).
    by rewrite Hget. }
  case_decide; [apply wp_no_pv; traces_tac|].
  apply wp_bind_no_pv; [traces_tac|]. intros [capacity|err] w2; [|apply wp_no_pv; traces_tac].
  apply wp_bind. eapply wp_mono.
  - apply (wp_CreateOrUpdatePV _ _ (written rc args)); [intros; apply no_pv_mutate|].
    intros o w3. unfold mutate_pv. apply wp_bind. unfold wp at 1. apply wp_ret. intros Hk.
    injection Hk as _ Hk. eapply mutated_written; [done|done|]. etrans; [exact Hk|done].
  - intros [err|] w3 H3; [by apply wp_ret|]. destruct req; [by apply wp_ret|].
    apply wp_bind. unfold wp at 1. pose proof (traces_ApplyStatus (nd_Name (rc_Node rc)) pvName ns
      (sa_BlockDevice args) (Some (sa_Object args)) eff (sa_SymLinkPath args) w3) as H4%no_pv_dl.
    destruct (ApplyStatus _ _ _ _ _ _ _ w3) as [[l [err|]] w4]; apply wp_ret; by eapply one_write_r.
Qed.
End spec.
#[export] Hint Resolve no_pv_Recreate no_pv_ApplyStatus : lso_traces.
#[export] Hint Resolve reads_device_capacity : lso.



(** ** Concrete runs *)

Definition ex_node : Node :=
  {| nd_meta := set_labels {[LabelHostname := "host-1"]} (empty_meta "" "n1") |}.

Definition ex_rc : RuntimeConfig :=
  {| rc_Name := "local-volume-provisioner-n1"; rc_Node := ex_node; rc_Namespace := "ns";
     rc_DiscoveryMap := ex_config |}.

Definition ex_lv : LocalVolume :=
  {| lv_type := {| tm_Kind := LocalVolumeKind; tm_APIVersion := v1_GroupVersion |};
     lv_meta := empty_meta "ns" "lv";
     lv_Spec := {| lvs_ManagementState := "Managed"; lvs_LogLevel := "Normal"; lvs_NodeSelector := None;
                   lvs_StorageClassDevices := []; lvs_Tolerations := [] |};
     lv_Status := {| lvt_ObservedGeneration := None; lvt_State := ""; lvt_Conditions := [];
                     lvt_ReadyReplicas := 0; lvt_Generations := [] |} |}.

Definition ex_sc : StorageClass :=
  {| sc_meta := empty_meta "" "sc"; sc_Provisioner := "kubernetes.io/no-provisioner";
     sc_ReclaimPolicy := None; sc_VolumeBindingMode := None; sc_MountOptions := [];
     sc_AllowedTopologies := [] |}.

Definition ex_args : SyncPVAndLVDLArgs :=
  {| sa_Object := OLocalVolume ex_lv; sa_StorageClass := ex_sc; sa_MountPointMap := ∅;
     sa_SymLinkPath := "/mnt/local-storage/sc/x"; sa_ExtraLabels := ∅; sa_BlockDevice := ex_dev |}.

Definition ex_sync_fs : FS := <["/mnt/local-storage/sc/x" := NLink "/dev/disk/by-id/wwn-1"]> ex_fs.


Definition released_get (k : Kind) : NamespacedName -> Res (Obj k) :=
  match k return NamespacedName -> Res (Obj k) with
  | KPV => fun _ => Ok ex_pv
  | _ => fun key => Err (StatusError ReasonNotFound (nn_Name key))
  end.

Definition released_api : Static := {|
  st_get := released_get; st_list := fun _ _ => []; st_fault := fun _ => None;
  st_exec := fun _ _ => ("", None); st_file := fun p => Err (PathError p ENOENT); st_clock := 0%Z |}.


(** ** What a run leaves alone *)

Section frames.
Context {E : Env}.

Lemma quiet_mutate n l a m o : frame fs_quiet (mutate_pv n l a m o).
Proof. unfold mutate_pv. quiet_tac. Qed.
Hint Resolve quiet_mutate : lso_quiet.
Lemma quiet_CreateOrUpdatePV o f : (forall o, frame fs_quiet (f o)) -> frame fs_quiet (CreateOrUpdatePV o f).
Proof. intros H. unfold CreateOrUpdatePV, CreateOrUpdate, mutate_checked. quiet_tac; apply H. Qed.
Lemma quiet_sync_pv a rc h k ns n p b e mc m : frame fs_quiet (sync_pv a rc h k ns n p b e mc m).
Proof.
  unfold sync_pv. frame_tac ltac:(idtac; first [
    apply quiet_ApplyStatus | apply quiet_CreateOrUpdatePV; intros; apply quiet_mutate]).
Qed.

Context {B : Type} (f : Mem -> B).
Hypothesis f_links : forall x m, f (set_m_links x m) = f m.

Lemma same_mutate n l a m o : frame (same_of f) (mutate_pv n l a m o).
Proof. unfold mutate_pv. same_tac. Qed.
Lemma same_CreateOrUpdatePV o g : (forall o, frame (same_of f) (g o)) -> frame (same_of f) (CreateOrUpdatePV o g).
Proof. intros H. unfold CreateOrUpdatePV, CreateOrUpdate, mutate_checked. same_tac; apply H. Qed.
Lemma same_sync_pv a rc h k ns n p b e mc m : frame (same_of f) (sync_pv a rc h k ns n p b e mc m).
Proof using f_links.
  unfold sync_pv. frame_tac ltac:(idtac; first [
    by apply same_ApplyStatus | apply same_CreateOrUpdatePV; intros; apply same_mutate]).
Qed.
Lemma same_SyncPVAndLVDL args : frame (same_of f) (SyncPVAndLVDL args).
Proof using f_links.
  unfold SyncPVAndLVDL, FindLVDL. frame_tac ltac:(idtac; first [by apply same_Recreate|apply same_sync_pv]).
Qed.
End frames.

(** ** Crashes *)

(** From [fs0], only the volume's link [L] and the temporary link [T] change, and
    missing directories appear; a file at [L] is kept or replaced by a link. *)
Definition own_changes (fs0 : FS) (L T : string) (fs : FS) : Prop :=
  (forall q, q <> L -> q <> T -> fs !! q = fs0 !! q \/ fs0 !! q = None /\ fs !! q = Some NDir) /\
  (fs !! L = fs0 !! L \/ (fs0 !! L = None /\ fs !! L = Some NDir) \/ exists t, fs !! L = Some (NLink t)).

Lemma own_changes_refl fs L T : own_changes fs L T fs.
Proof. split; [by left|by left]. Qed.

Section crash.
Context {E : Env}.

Lemma own_changes_swap fs0 p b w fs :
  own_changes fs0 (fkey p) (fkey (p ++s ".tmp")) (w_fs w) -> swap_safe p b w fs ->
  own_changes fs0 (fkey p) (fkey (p ++s ".tmp")) fs.
Proof.
  intros [H1 H2] [HL Hq]. split.
  - intros q ? ?. rewrite Hq by done. by apply H1.
  - destruct HL as [-> | ->]; [done|]. right. right. by eexists.
Qed.

Lemma keeps_own_recreate fs0 lvdl p b :
  fkey (p ++s ".tmp") <> fkey p ->
  keeps (own_changes fs0 (fkey p) (fkey (p ++s ".tmp"))) (RecreateSymlinkIfNeeded lvdl p b).
Proof.
  intros HTL w HI.
  apply (cwp_mono _ _ (fun _ w' => own_changes fs0 (fkey p) (fkey (p ++s ".tmp")) (w_fs w') /\ True));
    [|by intros r w' [H _]].
  apply (cwp_now _ _ (fun _ _ => True)). eapply crash_wp_inv; [intros fs H; by eapply own_changes_swap|].
  eapply cwp_mono; [by apply (cwp_recreate lvdl p b w)|done].
Qed.

Lemma keeps_own_SyncPVAndLVDL fs0 args :
  fkey (sa_SymLinkPath args ++s ".tmp") <> fkey (sa_SymLinkPath args) ->
  keeps (own_changes fs0 (fkey (sa_SymLinkPath args)) (fkey (sa_SymLinkPath args ++s ".tmp")))
    (SyncPVAndLVDL args).
Proof.
  intros HTL. unfold SyncPVAndLVDL, FindLVDL.
  keeps_tac ltac:(first [by apply keeps_own_recreate|apply keeps_quiet, quiet_sync_pv]).
Qed.
End crash.
