(* ===== verification/LinkSchema.v ===== *)
(** * The device link objects the diskmaker writes

    The validation rules of LocalVolumeDeviceLink (the kubebuilder markers of
    src/api/v1/localvolumedevicelink_types.go) as a predicate of the objects, and what
    the operations of pkg/common/device_link_handler.go write: objects that satisfy
    the rules, with a status that tells the truth about /dev/disk/by-id. *)
From stdpp Require Import base list strings gmap sorting.
From Stdlib Require Import ZArith Lia String.
From S2P Require Import Prelude GoLib Types World Sys Envs DiskUtil ByID LinkCache Common Controller Symlinks DeviceLink Provisioner.

Open Scope string_scope.

(** ** The rules *)

(** Lists of type set and map have no duplicates, the policy is one of the enumeration
    (or left out), the names are not empty. *)
Record valid_link (o : LocalVolumeDeviceLink) : Prop := {
  vl_conditions : NoDup (oc_Type <$> ls_Conditions (ld_Status o));
  vl_targets : NoDup (ls_ValidLinkTargets (ld_Status o));
  vl_policy : lds_Policy (ld_Spec o) ∈
    [""; DeviceLinkPolicyNone; DeviceLinkPolicyCurrentLinkTarget; DeviceLinkPolicyPreferredLinkTarget];
  vl_pv : lds_PersistentVolumeName (ld_Spec o) <> "";
  vl_node : lds_NodeName (ld_Spec o) <> "" }.

(** The API server enforces the rules. *)
Definition valid_answers (E : Env) : Prop :=
  (forall d key e o, (kget KLVDL d key e).1 = Ok o -> valid_link o) /\
  (forall o e o', (kcreate KLVDL o e).1 = Ok o' -> valid_link o -> valid_link o').

(** The status of [o] is that of [l] after a look at the device: the current target and
    the path are the given ones, the preferred target is the given one or else the one of
    the directory, empty when there is none, and the valid targets are all links of the
    directory that lead to the device. *)
Record refreshed (fs : FS) (b : BlockDevice) (preferred current path : string) (l o : LocalVolumeDeviceLink) : Prop := {
  rf_reports : reports l current o;
  rf_path : ls_PersistentVolumeSymlinkPath (ld_Status o) = path;
  rf_conditions : ls_Conditions (ld_Status o) = ls_Conditions (ld_Status l);
  rf_unique : NoDup (ls_ValidLinkTargets (ld_Status o));
  rf_targets : forall p, p ∈ ls_ValidLinkTargets (ld_Status o) <-> p ∈ by_id fs /\ leads_to fs (bd_KName b) p;
  rf_preferred :
    if decide (preferred = "") then
      preferred_link fs (bd_KName b) (by_id fs) (ls_PreferredLinkTarget (ld_Status o)) \/
      ls_PreferredLinkTarget (ld_Status o) = "" /\ ls_ValidLinkTargets (ld_Status o) = []
    else ls_PreferredLinkTarget (ld_Status o) = preferred }.

Lemma preferred_in fs kname links p : preferred_link fs kname links p -> p ∈ links.
Proof. intros [_ (l1 & l2 & -> & _)]. set_solver. Qed.

(** The preferred target is one of the valid ones. *)
Lemma refreshed_preferred fs b current path l o :
  refreshed fs b "" current path l o ->
  ls_PreferredLinkTarget (ld_Status o) = "" \/ ls_PreferredLinkTarget (ld_Status o) ∈ ls_ValidLinkTargets (ld_Status o).
Proof.
  intros [_ _ _ _ Ht Hp]. rewrite decide_True in Hp by done. destruct Hp as [Hp|[Hp _]]; [right|by left].
  apply Ht. split; [by eapply preferred_in|apply Hp].
Qed.

Lemma refreshed_valid fs b p current path l o : refreshed fs b p current path l o -> valid_link l -> valid_link o.
Proof. intros [(Hm & Hs & _) _ Hc Hn _ _] [H1 H2 H3 H4 H5]. split; rewrite ?Hc, ?Hs; done. Qed.

(** *** Conditions *)

Lemma fmap_insert_same {A B} (f : A -> B) (l : list A) i x y : l !! i = Some y -> f x = f y -> f <$> <[i := x]> l = f <$> l.
Proof. intros Hi Hf. rewrite list_fmap_insert, Hf. apply list_insert_id. by rewrite list_lookup_fmap, Hi. Qed.

Lemma setLVDLCondition_types l c :
  NoDup (oc_Type <$> ls_Conditions (ld_Status l)) -> NoDup (oc_Type <$> ls_Conditions (ld_Status (setLVDLCondition l c))).
Proof.
  intros Hn. unfold setLVDLCondition.
  destruct (last_index (oc_Type c) (ls_Conditions (ld_Status l)) 0 None) as [i|] eqn:Hi.
  - destruct (last_index_spec (oc_Type c) (ls_Conditions (ld_Status l)) 0 None) as [H|(j & c' & H & Hj & Hc)]; [congruence|].
    rewrite Hi in H. injection H as ->. rewrite Hj. case_decide; [done|]. simpl.
    by rewrite (fmap_insert_same _ _ _ _ c') by done.
  - pose proof (last_index_None _ _ _ Hi) as Hnone. simpl. rewrite fmap_app. apply NoDup_app. split; [done|].
    split; [|apply NoDup_singleton]. intros t (c' & -> & Hc')%list_elem_of_fmap Ht.
    apply list_elem_of_singleton in Ht. by apply (Hnone c').
Qed.

Lemma setLVDLCondition_valid l c : valid_link l -> valid_link (setLVDLCondition l c).
Proof.
  intros [H1 H2 H3 H4 H5]. pose proof (setLVDLCondition_types l c H1) as Ht.
  destruct (setLVDLCondition_frame l c) as (cs & [He|He]); rewrite He in *; by split.
Qed.

(** A new object: named like the volume, for the node, without a policy or a status. *)
Record fresh_link (n pv : string) (o : LocalVolumeDeviceLink) : Prop := {
  fl_valid : valid_link o;
  fl_name : ld_Name o = pv /\ lds_PersistentVolumeName (ld_Spec o) = pv /\ lds_NodeName (ld_Spec o) = n;
  fl_policy : lds_Policy (ld_Spec o) = DeviceLinkPolicyNone;
  fl_status : ld_Status o = empty_ld_status }.

Lemma generated_fresh n pv ns owner o : generateLVDLObj n pv ns owner = Ok o -> pv <> "" -> fresh_link n pv o.
Proof.
  unfold generateLVDLObj. intros H Hpv. destruct (buildOwnerRefs owner); [|done].
  case_decide; [done|]. injection H as <-. split; [|done..].
  split; simpl; try done; [apply NoDup_nil_2..|]. set_solver.
Qed.

(** ** What is written *)

(** Creations satisfy [C], status writes [S]. *)
Definition link_act (C S : LocalVolumeDeviceLink -> Prop) (a : Act) : Prop :=
  match a with ACreate KLVDL o _ => C o | AStatus KLVDL o _ => S o | _ => True end.

Section writes.
Context {E : Env} (Hw : reads_work E).

(** Refreshing the status reads the directory. *)
Lemma status_refreshed l b p cur path w :
  wp (setStatusSymlinks l b p cur path)
    (fun r _ => forall o, r = Ok o -> refreshed (w_fs w) b p cur path l o) w.
Proof.
  unfold setStatusSymlinks. destruct (GetDevPath b) as [dev [e|]]; [by apply wp_ret|].
  destruct (answers_valid Hw b (w_fs w)) as (rv & Hrv & Hvalid).
  set (fs := w_fs w) in *.
  assert (forall pr w1, w_fs w1 = fs ->
    (if decide (p = "") then preferred_link fs (bd_KName b) (by_id fs) pr \/
       pr = "" /\ (forall q, q ∈ by_id fs -> leads_elsewhere fs (bd_KName b) q) else pr = p) ->
    forall b', bd_KName b' = bd_KName b ->
    wp (r ← GetValidByIDSymlinks b';
        match r with
        | Err err => mret (Err err)
        | Ok validLinks =>
            r ← GetFilesystemUUID b';
            match r with
            | Err err => mret (Err err)
            | Ok filesystemUUID =>
                mret (Ok (set_ld_status
                    {| ls_CurrentLinkTarget := cur; ls_PreferredLinkTarget := pr;
                       ls_ValidLinkTargets := validLinks;
                       ls_PersistentVolumeSymlinkPath := path;
                       ls_FilesystemUUID := filesystemUUID;
                       ls_Conditions := ls_Conditions (ld_Status l) |} l))
            end
        end) (fun r _ => forall o, r = Ok o -> refreshed fs b p cur path l o) w1) as Hrest.
  { intros pr w1 Hfs Hpr b' Hb. destruct (answers_valid Hw b' fs) as (r' & Hr' & Hv').
    apply wp_bind. eapply wp_mono; [by apply Hr'|]. intros ? w2 [_ ->].
    destruct r' as [links|e]; [|by apply wp_ret]. destruct Hv' as (Hn & _ & Ht). rewrite Hb in Ht.
    apply wp_bind, wp_any. intros [uuid|e] w3; [|by apply wp_ret]. apply wp_ret. intros o [= <-].
    split; simpl; [by repeat split|done|done|done|done|]. destruct (decide (p = "")); [|done].
    destruct Hpr as [Hpr|[-> Hnone]]; [by left|right]. split; [done|].
    destruct links as [|q links]; [done|]. exfalso. assert (q ∈ q :: links) as Hq by by left.
    apply Ht in Hq as [Hin Hl]. by apply (leads_elsewhere_not _ _ _ (Hnone q Hin)). }
  apply wp_bind. destruct (decide (p = "")) as [->|Hp].
  - destruct (answers_uncached Hw b fs) as ([rp b'] & Hrp & Hu). apply wp_bind.
    eapply wp_mono; [by apply Hrp|]. intros ? w1 [Hfs ->]. destruct rp as [pr|e]; apply wp_ret.
    + destruct Hu as [Hpl ->]. apply Hrest; [done|by left|done].
    + destruct Hu as [-> Hu]. destruct (as_id_not_found e) as [k|]; [|by apply wp_ret].
      destruct Hu as [-> Hnone]. apply wp_ret, Hrest; [done|by right|done].
  - apply wp_ret, Hrest; done.
Qed.

(** *** The replacement of a link *)

Abbreviation valid_writes := (traces (link_act valid_link valid_link)).

Lemma writes_AddOrUpdate (P : Act -> Prop) l : frame (traces P) (AddOrUpdateLVDL l).
Proof using. apply frame_put_mem. intros w. apply traces_mem. Qed.

Lemma writes_status (P : Act -> Prop) o : (forall e, P (AStatus KLVDL o e)) -> frame (traces P) (StatusUpdate KLVDL o).
Proof using. intros HP. apply (frame_ask_act _). intros w x. by apply traces_log. Qed.

(** What follows a refresh of the status: it finds a refreshed object. *)
Lemma writes_refresh (P : Act -> Prop) {A} l b p cur path (f : Res LocalVolumeDeviceLink -> M A) w :
  (forall e, frame (traces P) (f (Err e))) ->
  (forall o, refreshed (w_fs w) b p cur path l o -> frame (traces P) (f (Ok o))) ->
  wp (r ← setStatusSymlinks l b p cur path; f r) (fun _ w' => traces P w w') w.
Proof.
  intros He Ho. pose proof (status_refreshed l b p cur path w) as Hs. unfold wp in Hs.
  destruct (reads_setStatusSymlinks l b p cur path w) as (en & Hen & _). apply wp_bind. unfold wp at 1.
  destruct (setStatusSymlinks l b p cur path w) as [[o|e] w1]; simpl in *; subst w1.
  - exact (Ho o (Hs o eq_refl) (set_est en w)).
  - exact (He e (set_est en w)).
Qed.

Lemma writes_updateStatus l c b p cur path : valid_link l -> frame valid_writes (updateStatus l c b p cur path).
Proof.
  intros Hl w. unfold updateStatus. apply writes_refresh; [intros e; traces_tac|]. intros o Ho.
  assert (valid_link (setLVDLCondition o c)) as Hv by by eapply setLVDLCondition_valid, refreshed_valid.
  cbv zeta. pose proof (writes_status (link_act valid_link valid_link) (setLVDLCondition o c) (fun _ => Hv)) as Hws.
  pose proof (writes_AddOrUpdate (link_act valid_link valid_link)) as Hau. traces_tac.
Qed.

Lemma writes_finish l b c p path : valid_link l -> frame valid_writes (finish_recreate l b c p path).
Proof.
  intros Hl w. unfold finish_recreate. apply writes_refresh; [intros e; traces_tac|]. intros o Ho.
  assert (valid_link (set_ld_conditions [] o)) as Hv.
  { destruct (refreshed_valid _ _ _ _ _ _ _ Ho Hl). split; try done. apply NoDup_nil_2. }
  pose proof (writes_status (link_act valid_link valid_link) _ (fun _ => Hv)) as Hws.
  pose proof (writes_AddOrUpdate (link_act valid_link valid_link)) as Hau. traces_tac.
Qed.

Lemma writes_Recreate l path b : valid_link l -> frame valid_writes (RecreateSymlinkIfNeeded l path b).
Proof.
  intros Hl. unfold RecreateSymlinkIfNeeded.
  pose proof (fun c b p cur path => writes_updateStatus l c b p cur path Hl) as H1.
  pose proof (fun b c p path => writes_finish l b c p path Hl) as H2. traces_tac.
Qed.

(** *** The refresh of a status *)

(** A status that is written is a valid one and says what is in the directory. *)
Definition told (fs : FS) (b : BlockDevice) (cur path : string) (o : LocalVolumeDeviceLink) : Prop :=
  valid_link o /\ exists l, refreshed fs b "" cur path l o.

Lemma writes_UpdateDeviceLinks C l b cur path w :
  valid_link l ->
  wp (UpdateDeviceLinks l b cur path) (fun _ w' => traces (link_act C (told (w_fs w) b cur path)) w w') w.
Proof.
  intros Hl. unfold UpdateDeviceLinks. apply writes_refresh; [intros e; traces_tac|]. intros o Ho.
  assert (told (w_fs w) b cur path o) as Hv by (split; [by eapply refreshed_valid|by exists l]).
  pose proof (writes_status (link_act C (told (w_fs w) b cur path)) o (fun _ => Hv)) as Hws.
  pose proof (writes_AddOrUpdate (link_act C (told (w_fs w) b cur path))) as Hau. traces_tac.
Qed.

Hypothesis Hapi : valid_answers E.

Lemma wp_findOrCreate n pv ns dev owner w (C S : LocalVolumeDeviceLink -> Prop) :
  pv <> "" -> (forall o, fresh_link n pv o -> C o) ->
  wp (findOrCreateLVDL n pv ns dev owner) (fun r w' => traces (link_act C S) w w' /\ w_fs w' = w_fs w /\
    forall o, r = Ok o -> valid_link o) w.
Proof using Hapi.
  intros Hpv HC. destruct Hapi as [Hget Hcreate].
  assert (forall w0 key, wp (ReaderGet KLVDL key) (fun r w' => traces (link_act C S) w0 w' /\ w_fs w' = w_fs w0 /\
    forall o, r = Ok o -> valid_link o) w0) as Hg.
  { intros w0 key. apply wp_ask. intros r en He. split; [apply rel_est|]. split; [done|]. intros o ->.
    apply (Hget true key (w_est w0)). by rewrite He. }
  unfold findOrCreateLVDL. apply wp_bind. eapply wp_mono; [apply Hg|]. intros r w1 (Ht1 & Hf1 & Hr1).
  destruct r as [o|err]; [apply wp_ret; by auto|]. destruct (is_not_found err); simpl; [|by apply wp_ret].
  destruct owner as [ow|]; [|by apply wp_ret]. apply wp_bind.
  eapply (wp_mono _ (fun r w' => traces (link_act C S) w w' /\ w_fs w' = w_fs w /\ forall o, r = Ok o -> valid_link o)).
  - unfold createLVDL. destruct (generateLVDLObj n pv ns (Some ow)) as [o|e] eqn:Hgen; [|by apply wp_ret].
    pose proof (generated_fresh _ _ _ _ _ Hgen Hpv) as Hv.
    unfold ClientCreate. apply wp_bind, wp_ask. intros r en He. apply wp_bind, wp_act, wp_ret. split; [|split; [done|]].
    + etrans; [exact Ht1|]. apply (rel_trans w1 (set_est en w1)); [apply rel_est|]. apply traces_log. by apply HC.
    + intros o' ->. apply (Hcreate o (w_est w1)); [by rewrite He|apply Hv].
  - intros [o|e] w2 (Ht2 & Hf2 & Hr2); [by apply wp_ret|]. destruct (is_already_exists e); [|by apply wp_ret].
    eapply wp_mono; [apply (Hg w2)|]. intros r w3 (Ht3 & Hf3 & Hr3). split; [by etrans|]. split; [by rewrite Hf3|done].
Qed.
End writes.


(** ** Concrete runs *)

(** The API server of the run has the volume and no device link. *)
Definition link_api : Static := {|
  st_get := fun k key => match k return Res (Obj k) with
    | KPV => Ok (empty_pv (nn_Name key))
    | _ => Err (StatusError ReasonNotFound (nn_Name key ++s " not found")) end;
  st_list := fun _ _ => []; st_fault := fun _ => None; st_exec := fun _ _ => ("uuid-1", None);
  st_file := fun p => Err (PathError p ENOENT); st_clock := 1000%Z |}.

Lemma link_api_valid : reads_work (static_env link_api) /\ valid_answers (static_env link_api).
Proof. split; [by intros []|]. split; [done|]. by intros o e o' [= <-]. Qed.


(** A link object whose first status could not be written has no current target; a
    failing replacement then writes a status without the field that the rules require,
    which an API server refuses, so the failure is not reported. *)
Lemma failure_without_current :
  let l := set_ld_status empty_ld_status ex_swap in
  let fs : FS := <["/mnt/local-storage/sc/y" := NLink "/dev/disk/by-id/wwn-1"]> ex_swap_fs in
  let w := static_world quiet fs empty_mem in
  (fun o => (ls_CurrentLinkTarget (ld_Status o.1), oc_Reason <$> ls_Conditions (ld_Status o.1)))
    <$> lvdl_status_writes (w_trace (RecreateSymlinkIfNeeded l "/mnt/local-storage/sc/x" ex_dev w).2)
  = [("", ["TargetAlreadyClaimed"])].
Proof. vm_compute. reflexivity. Qed.
