(* ===== verification/Matcher.v ===== *)
(** * Which devices a LocalVolumeSet may claim: lvset/matcher.go, device_age.go,
    event_reporter.go and the device selection of lvset/reconcile.go

    A matcher or filter answers [Ok b] or an error.  Go keeps them in maps and runs
    them in the order the runtime chooses: [range_map].  [inSizeRange] stores the
    default minimum in the specification it is given; no other code reads that
    field, so the default is modelled where it is read. *)
From stdpp Require Import base list strings gmap.
From Stdlib Require Import ZArith Lia String.
From S2P Require Import Prelude GoLib Types World Sys Envs Crash DiskUtil Common.

Open Scope string_scope.

(** ** Events reported once: pkg/diskmaker/event_reporter.go and lvset/event_reporter.go *)

Record DiskEvent := { de_EventType : string; de_EventReason : string; de_Disk : string; de_Message : string }.

Definition newDiskEvent (eventReason message disk eventType : string) : DiskEvent :=
  {| de_EventType := eventType; de_EventReason := eventReason; de_Disk := disk; de_Message := message |}.

Definition eventKey (e : DiskEvent) : string :=
  sprintf "%s:%s:%s" [de_EventReason e; de_EventType e; de_Disk e].

Definition EventTypeNormal := "Normal".
Definition EventTypeWarning := "Warning".
Definition ErrorRunningBlockList := "ErrorRunningBlockList".
Definition ErrorProvisioningDisk := "ErrorProvisioningDisk".
Definition ErrorRemovingSymLink := "ErrorRemovingSymLink".
Definition FoundMatchingDisk := "FoundMatchingDisk".
Definition DeviceSymlinkExists := "DeviceSymlinkExists".
Definition ErrorListingDeviceID := "ErrorListingDeviceID".
Definition ErrorFindingMatchingDisk := "ErrorFindingMatchingDisk".
Definition SymLinkedOnDeviceName := "SymlinkedOnDeivceName".
Definition FailedLVDLProcessing := "FailedLVDLProcessing".
Definition DiscoveredNewDevice := "DiscoveredNewDevice".
Definition ErrorMaxCountReached := "ErrorMaxCountReached".
Definition ErrorListingExistingSymlinks := "ErrorListingExistingSymlinks".

(** [deviceMinAge], in nanoseconds. *)
Definition deviceMinAge : Z := 60 * second.

(** [resource.MustParse("1Gi")], in nano-units. *)
Definition defaultMinSize : Quantity := (1073741824 * 1000000000)%Z.

(** ** Filters on the device alone *)

Definition negate (r : Res bool) : Res bool := match r with Ok b => Ok (negb b) | Err e => Err e end.

Definition notReadOnly (dev : BlockDevice) : Res bool := negate (GetReadOnly dev).
Definition notRemovable (dev : BlockDevice) : Res bool := negate (GetRemovable dev).
Definition notSuspended (dev : BlockDevice) : Res bool :=
  Ok (negb (bool_decide (bd_State dev = StateSuspended))).
Definition noBiosBootInPartLabel (dev : BlockDevice) : Res bool :=
  Ok (negb (contains_str (to_lower "bios") (to_lower (bd_PartLabel dev))
            || contains_str (to_lower "boot") (to_lower (bd_PartLabel dev)))).
Definition noFilesystemSignature (dev : BlockDevice) : Res bool := Ok (bool_decide (bd_FSType dev = "")).

(** ** Matchers on the device and the inclusion specification *)

Definition inTypeList (dev : BlockDevice) (spec : option DeviceInclusionSpec) : Res bool :=
  let is_type (t : string) := bool_decide (to_lower t = to_lower (bd_Type dev)) in
  match spec with
  | None => Ok (is_type RawDisk)
  | Some s => match dis_DeviceTypes s with
              | [] => Ok (is_type RawDisk)
              | ts => Ok (existsb is_type ts)
              end
  end.

Definition inMechanicalPropertyList (dev : BlockDevice) (spec : option DeviceInclusionSpec) : Res bool :=
  match spec with
  | None => Ok true
  | Some s =>
      match dis_MechanicalProperties s with
      | [] => Ok true
      | props =>
          match GetRotational dev with
          | Err err => Err err
          | Ok rotational =>
              Ok (existsb (fun prop => bool_decide (prop = Rotational) && rotational
                                       || bool_decide (prop = NonRotational) && negb rotational) props)
          end
      end
  end.

Definition inVendorList (dev : BlockDevice) (spec : option DeviceInclusionSpec) : Res bool :=
  match spec with
  | None => Ok true
  | Some s => match dis_Vendors s with
              | [] => Ok true
              | vs => Ok (existsb (fun v => contains_str (to_lower v) (to_lower (bd_Vendor dev))) vs)
              end
  end.

Definition inModelList (dev : BlockDevice) (spec : option DeviceInclusionSpec) : Res bool :=
  match spec with
  | None => Ok true
  | Some s => match dis_Models s with
              | [] => Ok true
              | ms => Ok (existsb (fun m => contains_str (to_lower m) (to_lower (bd_Model dev))) ms)
              end
  end.

(** The loop over the name patterns: the first bad pattern or match ends it. *)
Fixpoint name_filter (patterns : list string) (kname : string) : Res bool :=
  match patterns with
  | [] => Ok true
  | p :: ps => match path_match p kname with
               | None => Err (Wrap (sprintf "invalid device name filter pattern %q" [p]) ErrBadPattern)
               | Some true => Ok false
               | Some false => name_filter ps kname
               end
  end.

Definition notInDeviceNameFilter (dev : BlockDevice) (spec : option DeviceExclusionSpec) : Res bool :=
  match spec with
  | None => Ok true
  | Some s => name_filter (des_DeviceNameFilter s) (bd_KName dev)
  end.

Section matcher.
Context {E : Env}.

(** [Report]: an event is emitted once per reason, type and disk. *)
Definition Report (e : DiskEvent) : M unit :=
  reported ← get_mem m_reported;
  if decide (eventKey e ∈ (reported : gset string)) then mret tt
  else
    let nodeName := Getenv "MY_NODE_NAME" in
    let message := if decide (nodeName <> "") then sprintf "%s - %s" [nodeName; de_Message e]
                   else de_Message e in
    Eventf (de_EventType e) (de_EventReason e) message ;;
    put_mem (fun m => set_m_reported ({[eventKey e]} ∪ m_reported m) m).

(** ** The age of devices *)

Definition storeDeviceAge (key : string) : M unit :=
  ages ← get_mem m_ages;
  match (ages : gmap string Z) !! key with
  | Some _ => mret tt
  | None => now ← ask clock;
            put_mem (fun m => set_m_ages (<[key := now]> (m_ages m)) m)
  end.

Definition isOlderThan (key : string) : M bool :=
  ages ← get_mem m_ages;
  match (ages : gmap string Z) !! key with
  | None => mret false
  | Some firstObserved => now ← ask clock;
                          mret (bool_decide (now - firstObserved > deviceMinAge)%Z)
  end.

(** ** Matchers and filters *)

Definition inSizeRange (dev : BlockDevice) (spec : option DeviceInclusionSpec) : Res bool :=
  match spec with
  | None => Ok true
  | Some s =>
      match parse_quantity (bd_Size dev) with
      | Err err => Err (Wrap "could not parse device size" err)
      | Ok quantity =>
          Ok ((default defaultMinSize (dis_MinSize s) <=? quantity)%Z
              && match dis_MaxSize s with None => true | Some m => (quantity <=? m)%Z end)
      end
  end.

Definition matcherMap : list (string * (BlockDevice -> option DeviceInclusionSpec -> Res bool)) :=
  [("inSizeRange", inSizeRange); ("inTypeList", inTypeList);
   ("inMechanicalPropertyList", inMechanicalPropertyList);
   ("inVendorList", inVendorList); ("inModelList", inModelList)].

Definition exclusionMap : list (string * (BlockDevice -> option DeviceExclusionSpec -> Res bool)) :=
  [("notInDeviceNameFilter", notInDeviceNameFilter)].

Definition noBindMounts (dev : BlockDevice) : M (Res bool) :=
  r ← HasBindMounts dev;
  mret (match r with Ok (b, _) => Ok (negb b) | Err e => Err e end).

Definition noChildren (dev : BlockDevice) : M (Res bool) :=
  r ← HasChildren dev;
  mret (negate r).

(** The deferred close of a failed open fails and is ignored. *)
Definition canOpenExclusively (dev : BlockDevice) : M (Res bool) :=
  match GetDevPath dev with
  | (pathname, Some err) => mret (Err (Wrap (sprintf "pathname: %q" [pathname]) err))
  | (pathname, None) =>
      o ← OpenExcl pathname;
      let (fd, errno) := o in
      let result := match errno with
                    | None => Ok true
                    | Some e => if os_is EBUSY e then Ok false
                                else Err (Wrap (sprintf "pathname: %q" [pathname]) e)
                    end in
      _ ← Close fd;
      mret result
  end.

Definition DefaultFilterMap : list (string * (BlockDevice -> M (Res bool))) :=
  [("notReadOnly", fun dev => mret (notReadOnly dev)); ("notRemovable", fun dev => mret (notRemovable dev));
   ("notSuspended", fun dev => mret (notSuspended dev));
   ("noBiosBootInPartLabel", fun dev => mret (noBiosBootInPartLabel dev));
   ("noFilesystemSignature", fun dev => mret (noFilesystemSignature dev));
   ("noBindMounts", noBindMounts); ("noChildren", noChildren); ("canOpenExclusively", canOpenExclusively)].

(** The loop over a map of pure checks: any error or negative answer ends it. *)
Definition passes (r : Res bool) : bool := match r with Ok b => b | Err _ => false end.

Definition matchesDeviceSpec (dev : BlockDevice) (inclusionSpec : option DeviceInclusionSpec)
  (exclusionSpec : option DeviceExclusionSpec) : M bool :=
  matchers ← range_map matcherMap;
  if negb (forallb (fun m => passes (m.2 dev inclusionSpec)) matchers) then mret false
  else
    excluders ← range_map exclusionMap;
    mret (forallb (fun m => passes (m.2 dev exclusionSpec)) excluders).

(** The loop over the filters: they run until one fails. *)
Fixpoint run_filters (filters : list (string * (BlockDevice -> M (Res bool)))) (dev : BlockDevice) : M bool :=
  match filters with
  | [] => mret true
  | (_, f) :: fs =>
      r ← f dev;
      if passes r then run_filters fs dev else mret false
  end.

Inductive Verdict := Unmatched | Valid | Delayed | Rejected.

(** One iteration of the loop of [getValidDevices]. *)
Definition judge_device (lvset : LocalVolumeSet) (dev : BlockDevice) : M Verdict :=
  matched ← matchesDeviceSpec dev (lss_DeviceInclusionSpec (lset_Spec lvset))
                              (lss_DeviceExclusionSpec (lset_Spec lvset));
  if negb matched then mret Unmatched
  else
    storeDeviceAge (bd_KName dev) ;;
    filters ← range_map DefaultFilterMap;
    ok ← run_filters filters dev;
    if negb ok then mret Rejected
    else
      isOldEnough ← isOlderThan (bd_KName dev);
      if negb isOldEnough then
        Report (newDiskEvent DiscoveredNewDevice "found possible matching disk, waiting 1m0s to claim"
                  (bd_KName dev) EventTypeNormal) ;;
        mret Delayed
      else mret Valid.

Fixpoint getValidDevices (lvset : LocalVolumeSet) (blockDevices : list BlockDevice)
  : M (list BlockDevice * list BlockDevice * list BlockDevice) :=
  match blockDevices with
  | [] => mret ([], [], [])
  | dev :: devs =>
      v ← judge_device lvset dev;
      r ← getValidDevices lvset devs;
      let '(valid, delayed, rejected) := r in
      mret (match v with
            | Unmatched => (valid, delayed, rejected)
            | Valid => (dev :: valid, delayed, rejected)
            | Delayed => (valid, dev :: delayed, rejected)
            | Rejected => (valid, delayed, dev :: rejected)
            end)
  end.
End matcher.

(** ** The selection does not depend on the order of Go's maps *)

Section selection.
Context {E : Env}.

(** The conjunction of all checks. *)
Definition spec_matches (dev : BlockDevice) (inc : option DeviceInclusionSpec)
  (exc : option DeviceExclusionSpec) : bool :=
  passes (inSizeRange dev inc) && passes (inTypeList dev inc) && passes (inMechanicalPropertyList dev inc)
  && passes (inVendorList dev inc) && passes (inModelList dev inc) && passes (notInDeviceNameFilter dev exc).

Lemma reads_matchesDeviceSpec d i e : reads (matchesDeviceSpec d i e).
Proof. unfold matchesDeviceSpec. reads_tac. Qed.

Lemma matchesDeviceSpec_eq dev inc exc w :
  exists e, matchesDeviceSpec dev inc exc w = (spec_matches dev inc exc, set_est e w).
Proof.
  destruct (reads_matchesDeviceSpec dev inc exc w) as (e & He & _).
  exists e. rewrite (surjective_pairing (matchesDeviceSpec dev inc exc w)), He. f_equal. clear He e.
  unfold matchesDeviceSpec. rewrite run_bind.
  pose proof (range_map_perm matcherMap w) as Hm. destruct (range_map matcherMap w) as [ms w1]. simpl in Hm.
  rewrite (forallb_perm _ ms matcherMap Hm).
  assert (forallb (fun m => passes (m.2 dev inc)) matcherMap =
    passes (inSizeRange dev inc) && passes (inTypeList dev inc) && passes (inMechanicalPropertyList dev inc)
    && passes (inVendorList dev inc) && passes (inModelList dev inc)) as Hall.
  { simpl. by rewrite andb_true_r, !andb_assoc. }
  rewrite Hall. unfold spec_matches. destruct (_ && _ && _ && _ && _); [|done]. simpl.
  rewrite run_bind. pose proof (range_map_perm exclusionMap w1) as He.
  destruct (range_map exclusionMap w1) as [es w2]. simpl in He.
  rewrite (forallb_perm _ es exclusionMap He). simpl. by rewrite andb_true_r.
Qed.

(** What the filters keep: the ages of the devices. *)
Abbreviation same_ages := (same_of (fun m => m_ages m)).

Lemma ages_OpenExcl p : frame same_ages (OpenExcl p).
Proof.
  unfold OpenExcl. frame_tac ltac:(idtac; match goal with
    | |- frame _ (act _) => apply frame_act; done
    | |- frame _ (put_mem _) => apply frame_put_mem; done end).
Qed.
Lemma ages_Close fd : frame same_ages (Close fd).
Proof.
  unfold Close. frame_tac ltac:(idtac; match goal with
    | |- frame _ (act _) => apply frame_act; done
    | |- frame _ (put_mem _) => apply frame_put_mem; done end).
Qed.

Lemma ages_filters f dev : f ∈ DefaultFilterMap -> frame same_ages (f.2 dev).
Proof.
  assert (Forall (fun f => frame same_ages (f.2 dev)) DefaultFilterMap) as H.
  { unfold DefaultFilterMap. repeat apply Forall_cons_2; simpl; [frame_tac idtac..| | | |apply Forall_nil_2].
    - unfold noBindMounts. frame_tac idtac.
    - unfold noChildren. frame_tac idtac.
    - unfold canOpenExclusively. frame_tac ltac:(first [apply ages_OpenExcl|apply ages_Close]). }
  intros Hf. rewrite Forall_forall in H. by apply H.
Qed.

Lemma ages_run_filters fs dev :
  (forall f, f ∈ fs -> frame same_ages (f.2 dev)) -> frame same_ages (run_filters fs dev).
Proof.
  induction fs as [|[n f] fs IH]; intros H; simpl; [apply frame_ret; apply _|].
  apply frame_bind; [apply _|apply (H (n, f)); by left|]. intros r.
  destruct (passes r); [apply IH; intros; apply H; by right|apply frame_ret; apply _].
Qed.

Lemma ages_Report e : frame same_ages (Report e).
Proof.
  unfold Report, Eventf. frame_tac ltac:(idtac; match goal with
    | |- frame _ (act _) => apply frame_act; done
    | |- frame _ (put_mem _) => apply frame_put_mem; done end).
Qed.

(** The time at which a device was first observed, once recorded, is kept. *)
Definition ages_grow (w w' : World) : Prop :=
  forall k t, m_ages (w_mem w) !! k = Some t -> m_ages (w_mem w') !! k = Some t.
#[export] Instance ages_grow_rel : Rel ages_grow.
Proof.
  split; [by intros ???|intros x y z H1 H2 k t ?; by apply H2, H1|].
  intros w e k t H. done.
Qed.

Lemma same_ages_grow w w' : same_ages w w' -> ages_grow w w'.
Proof. intros H k t Hk. unfold same_of in H. by rewrite H. Qed.

(** A device judged: what its verdict says, in the memory the judgement leaves. *)
Definition verdict_ok (lvset : LocalVolumeSet) (dev : BlockDevice) (v : Verdict) (w' : World) : Prop :=
  let matched := spec_matches dev (lss_DeviceInclusionSpec (lset_Spec lvset))
                              (lss_DeviceExclusionSpec (lset_Spec lvset)) in
  match v with
  | Unmatched => matched = false
  | Valid => matched = true /\ exists t en, m_ages (w_mem w') !! bd_KName dev = Some t /\
      ((clock en).1 - t > deviceMinAge)%Z
  | Delayed | Rejected => matched = true /\ is_Some (m_ages (w_mem w') !! bd_KName dev)
  end.

Lemma wp_storeDeviceAge key w :
  wp (storeDeviceAge key) (fun _ w' => ages_grow w w' /\ is_Some (m_ages (w_mem w') !! key)) w.
Proof.
  unfold storeDeviceAge. apply wp_bind, wp_get_mem. destruct (m_ages (w_mem w) !! key) as [t|] eqn:Hk.
  - apply wp_ret. split; [done|by exists t].
  - apply wp_bind, wp_ask. intros now en _. apply wp_put_mem. split.
    + intros k t Hk'. simpl. rewrite lookup_insert_ne; [done|]. intros ->. congruence.
    + simpl. rewrite lookup_insert_eq. by eexists.
Qed.

Lemma wp_judge_device lvset dev w :
  wp (judge_device lvset dev) (fun v w' => ages_grow w w' /\ verdict_ok lvset dev v w') w.
Proof.
  unfold judge_device. apply wp_bind.
  destruct (matchesDeviceSpec_eq dev (lss_DeviceInclusionSpec (lset_Spec lvset))
              (lss_DeviceExclusionSpec (lset_Spec lvset)) w) as [e He].
  eapply wp_eq; [apply He|]. unfold verdict_ok.
  destruct (spec_matches dev _ _) eqn:Hm; cbn [negb]; [|apply wp_ret; split; [apply rel_est|done]].
  apply wp_bind. eapply wp_mono; [apply wp_storeDeviceAge|]. intros _ w1 [Hg1 [t Ht]].
  assert (ages_grow w w1) as Hg by done.
  apply wp_bind, wp_reads; [eauto with lso|]. intros filters e2 Hf.
  pose proof (range_map_perm DefaultFilterMap w1) as Hp. rewrite Hf in Hp. simpl in Hp. clear Hf.
  eapply wp_bind_frame. { apply (ages_run_filters filters dev). intros f Hin. apply ages_filters. by rewrite <- Hp. }
  intros ok w2 H2. unfold same_of in H2. simpl in H2.
  assert (ages_grow w w2) as Hg2 by (intros k u ?; rewrite H2; by apply Hg).
  assert (m_ages (w_mem w2) !! bd_KName dev = Some t) as Ht2 by (by rewrite H2).
  destruct ok; cbn [negb]; [|apply wp_ret; split; [done|split; [done|by exists t]]].
  apply wp_bind. unfold isOlderThan. apply wp_bind, wp_get_mem. rewrite Ht2.
  apply wp_bind, wp_ask. intros now en Hc. apply wp_ret.
  case_bool_decide as Hold; cbn [negb].
  - apply wp_ret. split; [done|]. split; [done|]. exists t, (w_est w2). rewrite Hc. done.
  - eapply wp_bind_frame; [apply ages_Report|]. intros _ w3 H3. unfold same_of in H3. simpl in H3.
    apply wp_ret. split; [intros k u ?; rewrite H3; by apply Hg2|].
    split; [done|]. exists t. by rewrite H3.
Qed.
End selection.

(** C34: [getValidDevices] splits the devices that satisfy the specification, and only
    those, into the valid, the delayed and the rejected ones, whatever the order
    in which Go runs the matchers and the filters; every such device has a
    recorded first observation, which no later run changes, and a device is valid
    only if it was observed more than the minimum age before. *)
Theorem getValidDevices_partition {E : Env} (lvset : LocalVolumeSet) (devs : list BlockDevice) (w : World) :
  let matched d := spec_matches d (lss_DeviceInclusionSpec (lset_Spec lvset))
                                (lss_DeviceExclusionSpec (lset_Spec lvset)) in
  wp (getValidDevices lvset devs) (fun r w' =>
    let '(valid, delayed, rejected) := r in
    (valid ++ delayed ++ rejected)%list ≡ₚ List.filter matched devs /\
    sublist valid devs /\ sublist delayed devs /\ sublist rejected devs /\
    (forall k t, m_ages (w_mem w) !! k = Some t -> m_ages (w_mem w') !! k = Some t) /\
    (forall d, d ∈ devs -> matched d = true -> is_Some (m_ages (w_mem w') !! bd_KName d)) /\
    (forall d, d ∈ valid -> exists t en, m_ages (w_mem w') !! bd_KName d = Some t /\
       ((clock en).1 - t > deviceMinAge)%Z)) w.
Proof.
  intros matched. revert w. induction devs as [|d devs IH]; intros w; simpl.
  { apply wp_ret. repeat split; try done; set_solver. }
  apply wp_bind. eapply wp_mono; [apply wp_judge_device|]. intros v w1 [Hg1 Hv].
  apply wp_bind. eapply wp_mono; [apply IH|]. intros [[valid delayed] rejected] w2 (Hp & Hs1 & Hs2 & Hs3 & Hg2 & Hm2 & Hv2).
  apply wp_ret. change (ages_grow w1 w2) in Hg2.
  assert (forall k t, m_ages (w_mem w) !! k = Some t -> m_ages (w_mem w2) !! k = Some t) as Hg by auto.
  assert (matched d = true -> is_Some (m_ages (w_mem w2) !! bd_KName d)) as Hd.
  { intros Hmd. unfold verdict_ok in Hv. fold (matched d) in Hv.
    destruct v; [congruence|destruct Hv as (_ & t & _ & Ht & _)|destruct Hv as (_ & t & Ht)..]; exists t; by apply Hg2. }
  assert (forall d', d' ∈ d :: devs -> matched d' = true -> is_Some (m_ages (w_mem w2) !! bd_KName d')) as Hall.
  { intros d' [->|?]%elem_of_cons; auto. }
  unfold verdict_ok in Hv. fold (matched d) in Hv.
  destruct v; simpl.
  - rewrite Hv. repeat split; try done; by apply sublist_cons.
  - destruct Hv as (-> & t & en & Ht & Hage). repeat split; try done; try by (apply sublist_skip || apply sublist_cons).
    + simpl. by rewrite Hp.
    + intros d' [->|?]%elem_of_cons; [exists t, en; split; [by apply Hg2|done]|by apply Hv2].
  - destruct Hv as (-> & _). repeat split; try done; try by (apply sublist_skip || apply sublist_cons).
    rewrite <- Hp. simpl. by rewrite <- Permutation_middle.
  - destruct Hv as (-> & _). repeat split; try done; try by (apply sublist_skip || apply sublist_cons).
    rewrite <- Hp. simpl. by rewrite <- !Permutation_middle.
Qed.

(** The answer of [matchesDeviceSpec] is the conjunction of its six checks, an
    error counting as a failed check, whatever the order in which the runtime
    ranges over the two maps; the call changes nothing. *)
Theorem matchesDeviceSpec_order {E : Env} (dev : BlockDevice) (inc : option DeviceInclusionSpec)
  (exc : option DeviceExclusionSpec) (w : World) :
  wp (matchesDeviceSpec dev inc exc) (fun r w' =>
    same_fs w w' /\ same_mem w w' /\ w_trace w' = w_trace w /\
    (r = true <->
      inSizeRange dev inc = Ok true /\ inTypeList dev inc = Ok true /\
      inMechanicalPropertyList dev inc = Ok true /\ inVendorList dev inc = Ok true /\
      inModelList dev inc = Ok true /\ notInDeviceNameFilter dev exc = Ok true)) w.
Proof.
  destruct (matchesDeviceSpec_eq dev inc exc w) as [e He]. unfold wp. rewrite He. simpl.
  do 3 (split; [done|]). unfold spec_matches. rewrite !andb_true_iff.
  assert (forall r, passes r = true <-> r = Ok true) as Hr.
  { intros [[|]|]; simpl; naive_solver. }
  rewrite !Hr. tauto.
Qed.
