(* ===== verification/Metrics.v ===== *)
(** * pkg/localmetrics: the gauges and the collector of device links *)
From stdpp Require Import base list strings gmap.
From Stdlib Require Import ZArith Lia String.
From S2P Require Import Prelude GoLib Types World Sys Envs.

Open Scope string_scope.

Section metrics.
Context {E : Env}.

Definition SetDiscoveredDevicesMetrics (nodeName : string) (deviceCount : Z) : M unit :=
  SetMetric "lso_discovery_disk_count" [nodeName] deviceCount.
Definition SetLVSProvisionedPVMetric (nodeName storageClassName : string) (count : Z) : M unit :=
  SetMetric "lso_lvset_provisioned_PV_count" [nodeName; storageClassName] count.
Definition SetLVSUnmatchedDiskMetric (nodeName storageClassName : string) (count : Z) : M unit :=
  SetMetric "lso_lvset_unmatched_disk_count" [nodeName; storageClassName] count.
Definition SetLVSOrphanedSymlinksMetric (nodeName storageClassName : string) (count : Z) : M unit :=
  SetMetric "lso_lvset_orphaned_symlink_count" [nodeName; storageClassName] count.
Definition SetLVSDeletionTimestampMetric (lvSetName : string) (ts : Z) : M unit :=
  SetMetric "lso_lvset_deletion_timestamp" [lvSetName] ts.
Definition RemoveLVSDeletionTimestampMetric (lvSetName : string) : M unit :=
  DeleteMetric "lso_lvset_deletion_timestamp" [lvSetName].
Definition SetLVProvisionedPVMetric (nodeName storageClassName : string) (count : Z) : M unit :=
  SetMetric "lso_lv_provisioned_PV_count" [nodeName; storageClassName] count.
Definition SetLVOrphanedSymlinksMetric (nodeName storageClassName : string) (count : Z) : M unit :=
  SetMetric "lso_lv_orphaned_symlink_count" [nodeName; storageClassName] count.
Definition SetLVMissingDevicePathMetric (nodeName storageClassName : string) (count : Z) : M unit :=
  SetMetric "lso_lv_missing_device_path_count" [nodeName; storageClassName] count.

(** What [Collect] sends: a gauge of value 1, or an invalid metric. *)
Inductive Metric :=
  | ConstMetric (desc : string) (value : Z) (labels : list string)
  | InvalidMetric (desc : string) (err : GoErr).

Definition deviceLinkMismatchDesc := "lso_device_link_mismatch".
Definition deviceLinkWithoutStablePathDesc := "lso_device_link_without_stable_path".

Definition policy_label (link : LocalVolumeDeviceLink) : string :=
  if decide (lds_Policy (ld_Spec link) = "") then DeviceLinkPolicyNone else lds_Policy (ld_Spec link).

Definition link_metrics (nodeName : string) (link : LocalVolumeDeviceLink) : list Metric :=
  if decide (lds_NodeName (ld_Spec link) <> nodeName) then []
  else
    let mismatch := bool_decide (ls_CurrentLinkTarget (ld_Status link)
                                 <> ls_PreferredLinkTarget (ld_Status link)) in
    let noStablePath := (List.length (ls_ValidLinkTargets (ld_Status link)) =? 0)%nat in
    if negb mismatch && negb noStablePath then []
    else
      let labels := [ld_Name link; lds_PersistentVolumeName (ld_Spec link); policy_label link] in
      ((if mismatch then [ConstMetric deviceLinkMismatchDesc 1 labels] else [])
       ++ (if noStablePath then [ConstMetric deviceLinkWithoutStablePathDesc 1 labels] else []))%list.

(** The metrics sent on the channel, in order. *)
Definition Collect (namespace nodeName : string) : M (list Metric) :=
  r ← ClientList KLVDL (if decide (namespace <> "") then in_namespace namespace else no_opts);
  match r with
  | Err err => mret [InvalidMetric deviceLinkMismatchDesc err; InvalidMetric deviceLinkWithoutStablePathDesc err]
  | Ok items => mret (flat_map (link_metrics nodeName) items)
  end.
End metrics.

Lemma elem_of_link_metrics nodeName link m :
  m ∈ link_metrics nodeName link <->
  lds_NodeName (ld_Spec link) = nodeName /\ exists desc,
    m = ConstMetric desc 1 [ld_Name link; lds_PersistentVolumeName (ld_Spec link); policy_label link] /\
    (desc = deviceLinkMismatchDesc /\
       ls_CurrentLinkTarget (ld_Status link) <> ls_PreferredLinkTarget (ld_Status link) \/
     desc = deviceLinkWithoutStablePathDesc /\ ls_ValidLinkTargets (ld_Status link) = []).
Proof.
  unfold link_metrics. set (labels := [_; _; _]).
  case_decide as He; [rewrite elem_of_nil; naive_solver|].
  assert ((List.length (ls_ValidLinkTargets (ld_Status link)) =? 0)%nat = true <->
          ls_ValidLinkTargets (ld_Status link) = []) as Hl.
  { rewrite Nat.eqb_eq. apply length_zero_iff_nil. }
  case_bool_decide as Hmis; destruct (_ =? 0)%nat; simpl;
    rewrite ?elem_of_cons, ?elem_of_nil; naive_solver.
Qed.

(** A scrape reports, for the objects of this node, a mismatch gauge exactly when
    the current and the preferred target differ and a gauge for a missing stable
    path exactly when there is no valid link; every gauge is 1 and carries the
    object, its volume and its policy, None when it has none; a failed list makes
    both descriptors invalid. *)
Theorem Collect_spec {E : Env} (namespace nodeName : string) (w : World) :
  wp (Collect namespace nodeName) (fun ms w' => w_trace w' = w_trace w /\ same_mem w w' /\
    match (ClientList KLVDL (if decide (namespace <> "") then in_namespace namespace else no_opts) w).1 with
    | Err err => ms = [InvalidMetric deviceLinkMismatchDesc err; InvalidMetric deviceLinkWithoutStablePathDesc err]
    | Ok items => forall m, m ∈ ms <-> exists link desc,
        link ∈ items /\ lds_NodeName (ld_Spec link) = nodeName /\
        m = ConstMetric desc 1 [ld_Name link; lds_PersistentVolumeName (ld_Spec link); policy_label link] /\
        (desc = deviceLinkMismatchDesc /\
           ls_CurrentLinkTarget (ld_Status link) <> ls_PreferredLinkTarget (ld_Status link) \/
         desc = deviceLinkWithoutStablePathDesc /\ ls_ValidLinkTargets (ld_Status link) = [])
    end) w.
Proof.
  unfold Collect. apply wp_bind, wp_reads; [apply reads_ClientList|]. intros r e Hr. rewrite Hr. simpl.
  destruct r as [items|err]; apply wp_ret; (do 2 (split; [done|])); [|done].
  intros m. rewrite list_elem_of_In, in_flat_map. setoid_rewrite <- list_elem_of_In.
  setoid_rewrite elem_of_link_metrics. naive_solver.
Qed.
