(* ===== verification/LvSet.v ===== *)
(** * The LocalVolumeSet reconciler of the node: pkg/diskmaker/controllers/lvset/reconcile.go

    Errors that the code only logs leave no trace here; [nodeName] is read from the
    environment when the process starts. *)
From stdpp Require Import base list strings gmap.
From Stdlib Require Import ZArith Lia String.
From S2P Require Import Prelude GoLib Types World Sys Envs Crash DiskUtil LinkCache Common Controller Symlinks DeviceLink Provisioner Matcher Metrics.

Open Scope string_scope.

Definition defaultRequeueTime : Z := 60 * second.
Definition fastRequeueTime : Z := 5 * second.

Record processNewSymlinkResult := { pr_fastRequeue : bool; pr_maxCountReached : bool }.

Section lvset.
Context {E : Env}.

(** The volumes of this provisioner and of LocalVolumeSets enter the cache. *)
Definition cache_pvs (isOwned : PersistentVolume -> bool) (items : list PersistentVolume) : M unit :=
  forM_ items (fun pv =>
    rcName ← get_mem (fun m => rc_Name (m_rc m));
    if negb (PVMatchesProvisioner pv rcName) || negb (isOwned pv) then mret tt
    else put_mem (fun m => set_m_pvs (AddOrUpdatePV pv (m_pvs m)) m)).

Definition syncCaches (isOwned : PersistentVolume -> bool) : M (option GoErr) :=
  r ← ClientList KPV no_opts;
  match r with
  | Err err => mret (Some (Wrap "failed to initialize PV cache" err))
  | Ok items =>
      cache_pvs isOwned items ;;
      put_mem (set_m_cacheSynced true) ;;
      mret None
  end.

(** The count of matching links and the links that match no device. *)
Fixpoint symlinked_loop (paths : list string) (validDevices : list BlockDevice) (count : nat)
  (noMatch : list string) : M (Res (nat * list string)) :=
  match paths with
  | [] => mret (Ok (count, noMatch))
  | path :: paths' =>
      r ← links_to_any validDevices path;
      match r with
      | Err err => mret (Err err)
      | Ok (Some _) => symlinked_loop paths' validDevices (S count) noMatch
      | Ok None => symlinked_loop paths' validDevices count (noMatch ++ [path])%list
      end
  end.

Definition getAlreadySymlinked (symLinkDir : string) (validDevices : list BlockDevice)
  : M (Res (nat * list string)) :=
  r ← Glob (path_join [symLinkDir; "/*"]);
  match r with
  | Err err => mret (Err err)
  | Ok paths => symlinked_loop paths validDevices 0 []
  end.

Definition sync_args (obj : RuntimeObject) (dev : BlockDevice) (storageClass : StorageClass)
  (mountPointMap : gset string) (symlinkPath : string) : SyncPVAndLVDLArgs :=
  {| sa_Object := obj; sa_StorageClass := storageClass; sa_MountPointMap := mountPointMap;
     sa_SymLinkPath := symlinkPath; sa_ExtraLabels := ∅; sa_BlockDevice := dev |}.

Definition syncExistingPVAndLVDL (lvset : LocalVolumeSet) (blockDevice : BlockDevice)
  (storageClass : StorageClass) (mountPointMap : gset string) (symlinkPath : string) : M (option GoErr) :=
  SyncPVAndLVDL (sync_args (OLocalVolumeSet lvset) blockDevice storageClass mountPointMap symlinkPath).

(** What follows a successful or failed [os.Symlink]; [os.Stat] never reports a link. *)
Definition after_symlink (err : option GoErr) (dev : BlockDevice) (symlinkSourcePath : string)
  (sync : M (option GoErr)) : M (option GoErr) :=
  match err with
  | None => sync
  | Some e =>
      if os_is EEXIST e then
        r ← Stat symlinkSourcePath;
        match r with
        | Err statErr =>
            mret (Some (Wrapf (sprintf "could not create symlink: %v,%w" [error_text e; error_text statErr]) statErr))
        | Ok (NLink _) =>
            r ← PathEvalsToDiskLabel symlinkSourcePath (bd_Name dev);
            match r with
            | Err evalErr =>
                mret (Some (Wrapf (sprintf "existing symlink not valid: %v,%w" [error_text e; error_text evalErr]) evalErr))
            | Ok _ => sync
            end
        | Ok _ => sync
        end
      else mret (Some e)
  end.

(** The part between the lock and its release. *)
Definition create_locked (lvset : LocalVolumeSet) (dev : BlockDevice) (symlinkSourcePath symlinkPath devLabelPath : string)
  (pvLocked : bool) (existingSymlinks : list string) (lockErr : option GoErr)
  (sync : M (option GoErr)) : M (option GoErr) :=
  if (0 <? List.length existingSymlinks)%nat then
    if existsb (fun path => String.eqb path symlinkPath) existingSymlinks then sync
    else mret (Some (Errorf (sprintf "found existing symlinks for device %s in %s"
                               [bd_KName dev; dir (dir symlinkPath)])))
  else if negb pvLocked then
    match lockErr with
    | Some e => mret (Some e)
    | None => mret (Some (Errorf (sprintf "failed to acquire lock for %s" [devLabelPath])))
    end
  else
    err ← Symlink symlinkSourcePath symlinkPath;
    after_symlink err dev symlinkSourcePath sync.

Definition createSymlinkAndSyncPVAndLVDL (lvset : LocalVolumeSet) (dev : BlockDevice)
  (storageClass : StorageClass) (mountPointMap : gset string) (symlinkSourcePath symlinkPath : string)
  : M (option GoErr) :=
  match GetDevPath dev with
  | (_, Some err) => mret (Some err)
  | (devLabelPath, None) =>
      let symLinkDir := dir symlinkPath in
      err ← MkdirAll symLinkDir;
      match err with
      | Some e => mret (Some (Wrap "could not create symlinkdir" e))
      | None =>
          l ← GetPVCreationLock devLabelPath [dir symLinkDir];
          let '(pvLock, pvLocked, existingSymlinks, lockErr) := l in
          result ← create_locked lvset dev symlinkSourcePath symlinkPath devLabelPath pvLocked
                     existingSymlinks lockErr
                     (SyncPVAndLVDL (sync_args (OLocalVolumeSet lvset) dev storageClass mountPointMap symlinkPath));
          (* defer unlockFunc() *)
          _ ← Unlock pvLock;
          mret result
      end
  end.

Definition reportProvisioningFailure (devName : string) (err : GoErr) : M unit :=
  Report (newDiskEvent ErrorProvisioningDisk
            (sprintf "provisioning failed for %s: %v" [devName; error_text err]) devName EventTypeWarning).

(** The status of an object whose policy keeps the old link is refreshed. *)
Definition refresh_not_preferred (err : GoErr) (blockDevice : BlockDevice) : M unit :=
  match PolicyNotPreferredLVDL err with
  | Some (lvdl, pvSymlinkPath) =>
      _ ← UpdateDeviceLinks lvdl blockDevice (ls_CurrentLinkTarget (ld_Status lvdl)) pvSymlinkPath;
      mret tt
  | None => mret tt
  end.

Definition is_try_again (e : GoErr) : bool := match e with ErrTryAgain => true | _ => false end.

Definition processNewSymlink (lvset : LocalVolumeSet) (blockDevice : BlockDevice)
  (blockDevices : list BlockDevice) (storageClass : StorageClass) (mountPointMap : gset string)
  (symLinkDir : string) : M (Res processNewSymlinkResult) :=
  let result := {| pr_fastRequeue := false; pr_maxCountReached := false |} in
  let fast := {| pr_fastRequeue := true; pr_maxCountReached := false |} in
  s ← GetSymLinkSourceAndTarget blockDevice symLinkDir;
  let '(symlinkSourcePath, symlinkPath, idExists, err) := s in
  match err with
  | Some _ => mret (Ok result)
  | None =>
      c ← getAlreadySymlinked symLinkDir blockDevices;
      match c, lss_MaxDeviceCount (lset_Spec lvset) with
      | Err err, Some _ =>
          Report (newDiskEvent ErrorListingExistingSymlinks "error determining already provisioned disks" ""
                    EventTypeWarning) ;;
          mret (Err (Wrap "could not determine how many devices are already provisioned" err))
      | _, max =>
          let alreadyProvisionedCount := match c with Ok (n, _) => Z.of_nat n | Err _ => 0%Z end in
          if match max with Some m => (m <=? int32_of alreadyProvisionedCount)%Z | None => false end then
            Report (newDiskEvent ErrorMaxCountReached "error provisioning maximum count of devices reached" ""
                      EventTypeWarning) ;;
            mret (Ok {| pr_fastRequeue := false; pr_maxCountReached := true |})
          else
            f ← FindLSOManagedDeviceInfo symlinkSourcePath blockDevice;
            match f with
            | Err err => reportProvisioningFailure (bd_KName blockDevice) err ;; mret (Ok result)
            | Ok (Some currentDeviceInfo) =>
                p ← RecoverPVSymlinkPath currentDeviceInfo symLinkDir symlinkSourcePath;
                match p with
                | Err err =>
                    refresh_not_preferred err blockDevice ;;
                    reportProvisioningFailure (bd_KName blockDevice) err ;;
                    mret (Ok result)
                | Ok symlinkPath =>
                    err ← syncExistingPVAndLVDL lvset blockDevice storageClass mountPointMap symlinkPath;
                    match err with
                    | Some e => if is_try_again e then mret (Ok fast)
                                else reportProvisioningFailure (bd_KName blockDevice) e ;; mret (Ok result)
                    | None => mret (Ok result)
                    end
                end
            | Ok None =>
                Report (newDiskEvent FoundMatchingDisk "provisioning matching disk" (bd_KName blockDevice)
                          EventTypeNormal) ;;
                err ← createSymlinkAndSyncPVAndLVDL lvset blockDevice storageClass mountPointMap
                        symlinkSourcePath symlinkPath;
                match err with
                | Some e =>
                    if is_try_again e then mret (Ok fast)
                    else
                      Report (newDiskEvent ErrorProvisioningDisk
                                (sprintf "provisioning failed for %s: %v" [bd_Name blockDevice; error_text e])
                                (bd_KName blockDevice) EventTypeWarning) ;;
                      mret (Ok result)
                | None => mret (Ok result)
                end
            end
      end
  end.

(** The loop over the valid devices, with the requeue time threaded. *)
Fixpoint process_valid (lvset : LocalVolumeSet) (validDevices blockDevices : list BlockDevice)
  (storageClass : StorageClass) (mountPointMap : gset string) (symLinkDir : string) (requeueTime : Z)
  : M (Res Z) :=
  match validDevices with
  | [] => mret (Ok requeueTime)
  | blockDevice :: devs =>
      r ← GetSymlinkedForCurrentSC symLinkDir (bd_KName blockDevice);
      match r with
      | Err _ => process_valid lvset devs blockDevices storageClass mountPointMap symLinkDir requeueTime
      | Ok existingSymlink =>
          if decide (existingSymlink <> "") then
            _ ← syncExistingPVAndLVDL lvset blockDevice storageClass mountPointMap
                  (path_join [symLinkDir; existingSymlink]);
            process_valid lvset devs blockDevices storageClass mountPointMap symLinkDir requeueTime
          else
            r ← processNewSymlink lvset blockDevice blockDevices storageClass mountPointMap symLinkDir;
            match r with
            | Err err => mret (Err err)
            | Ok result =>
                let requeueTime := if pr_fastRequeue result then fastRequeueTime else requeueTime in
                if pr_maxCountReached result then mret (Ok requeueTime)
                else process_valid lvset devs blockDevices storageClass mountPointMap symLinkDir requeueTime
            end
      end
  end.

(** The device link of a rejected device that has a link: recreated or reported. *)
Definition refresh_rejected (owner : RuntimeObject) (reportError : GoErr -> M unit) (namespace lvdlName symlinkPath : string)
  (lvdl : option LocalVolumeDeviceLink) (blockDevice : BlockDevice) : M unit :=
  mismatch ← HasMismatchingSymlink lvdl blockDevice;
  lvdlError ← (match mismatch, lvdl with
               | true, Some l =>
                   r ← RecreateSymlinkIfNeeded l symlinkPath blockDevice;
                   mret r.2
               | _, _ =>
                   r ← Readlink symlinkPath;
                   match r with
                   | Err _ => mret None
                   | Ok currentLinkTarget =>
                       r ← ApplyStatus GetNodeNameEnvVar lvdlName namespace blockDevice (Some owner)
                             currentLinkTarget symlinkPath;
                       mret r.2
                   end
               end);
  match lvdlError with
  | Some e => reportError e
  | None => mret tt
  end.

(** One rejected device: its LocalVolumeDeviceLink is brought up to date. *)
Definition process_rejected (owner : RuntimeObject) (reportError : GoErr -> M unit)
  (symLinkDir storageClassName : string) (blockDevice : BlockDevice) : M unit :=
  rc ← get_mem m_rc;
  r ← HasExistingLocalVolumes symLinkDir blockDevice;
  match r with
  | Err err => refresh_not_preferred err blockDevice
  | Ok symlinkPath =>
      if decide (symlinkPath = "") then mret tt
      else
        let lvdlName := GeneratePVName (base symlinkPath) (nd_Name (rc_Node rc)) storageClassName in
        r ← FindLVDL lvdlName (rc_Namespace rc);
        match r with
        | Ok l => refresh_rejected owner reportError (rc_Namespace rc) lvdlName symlinkPath (Some l) blockDevice
        | Err e => if negb (is_not_found e) then mret tt
                   else refresh_rejected owner reportError (rc_Namespace rc) lvdlName symlinkPath None blockDevice
        end
  end.

(** The event of a failure to process a device link. *)
Definition report_lvdl_failure (blockDevice : BlockDevice) (e : GoErr) : M unit :=
  Report (newDiskEvent FailedLVDLProcessing (sprintf "failed to process lvdl %s" [error_text e])
            (bd_KName blockDevice) EventTypeWarning).

Definition processRejectedDevicesForDeviceLinks (lvset : LocalVolumeSet) (rejectedDevices : list BlockDevice)
  (symLinkDir storageClassName : string) : M unit :=
  forM_ rejectedDevices (fun blockDevice =>
    process_rejected (OLocalVolumeSet lvset) (report_lvdl_failure blockDevice) symLinkDir storageClassName blockDevice).

(** The provisioning part of [Reconcile], from the block devices on. *)
Definition reconcile_devices (lvset : LocalVolumeSet) (storageClass : StorageClass) (symLinkDir : string)
  (blockDevices : list BlockDevice) : M (CtrlResult * option GoErr) :=
  let nodeName := GetNodeNameEnvVar in
  let storageClassName := lss_StorageClassName (lset_Spec lvset) in
  v ← getValidDevices lvset blockDevices;
  let '(validDevices, delayedDevices, rejectedDevices) := v in
  SetLVSUnmatchedDiskMetric nodeName storageClassName
    (Z.of_nat (List.length blockDevices) - Z.of_nat (List.length validDevices)) ;;
  m ← GenerateMountMap;
  match m with
  | Err err => mret (no_result, Some err)
  | Ok mountPointMap =>
      r ← process_valid lvset validDevices blockDevices storageClass mountPointMap symLinkDir defaultRequeueTime;
      match r with
      | Err err => mret (no_result, Some err)
      | Ok requeueTime =>
          c ← getAlreadySymlinked symLinkDir blockDevices;
          let totalProvisionedPVs := match c with Ok (n, _) => Z.of_nat n | Err _ => 0%Z end in
          SetLVSProvisionedPVMetric nodeName storageClassName totalProvisionedPVs ;;
          o ← GetOrphanedSymlinks symLinkDir (validDevices ++ delayedDevices ++ rejectedDevices)%list;
          SetLVSOrphanedSymlinksMetric nodeName storageClassName (Z.of_nat (List.length o.1)) ;;
          processRejectedDevicesForDeviceLinks lvset rejectedDevices symLinkDir storageClassName ;;
          let requeueTime :=
            if decide (1 < List.length delayedDevices /\ requeueTime = defaultRequeueTime)
            then Z.quot deviceMinAge 2 else requeueTime in
          mret (requeue_after requeueTime, None)
      end
  end.

(** Block devices of the node; bad rows and failures are reported. *)
Definition list_devices : M (Res (list BlockDevice)) :=
  b ← ListBlockDevices [];
  match b with
  | (_, _, Some err) =>
      Report (newDiskEvent ErrorRunningBlockList (sprintf "failed to list block devices: %v" [error_text err]) ""
                EventTypeWarning) ;;
      mret (Err err)
  | (blockDevices, badRows, None) =>
      (if (0 <? List.length badRows)%nat
       then Report (newDiskEvent ErrorRunningBlockList (sprintf "error parsing rows: %+v" [show_list badRows]) ""
                      EventTypeWarning)
       else mret tt) ;;
      mret (Ok blockDevices)
  end.

(** The rest of [Reconcile] for a set that is not being deleted. *)
Definition provision (lvset : LocalVolumeSet) : M (CtrlResult * option GoErr) :=
  let storageClassName := lss_StorageClassName (lset_Spec lvset) in
  RemoveLVSDeletionTimestampMetric (om_Name (lset_meta lvset)) ;;
  r ← ClientGet KSC {| nn_Namespace := ""; nn_Name := storageClassName |};
  match r with
  | Err err => mret (no_result, Some err)
  | Ok storageClass =>
      discoveryMap ← get_mem (fun m => rc_DiscoveryMap (m_rc m));
      match (discoveryMap : gmap string MountConfig) !! storageClassName with
      | None => mret (no_result, Some (Errorf (sprintf "could not find storageclass entry %q in provisioner config"
                                                 [storageClassName])))
      | Some symLinkConfig =>
          b ← list_devices;
          match b with
          | Err err => mret (no_result, Some err)
          | Ok blockDevices => reconcile_devices lvset storageClass (mc_HostDir symLinkConfig) blockDevices
          end
      end
  end.

(** [DeletionTimestamp.Unix()]. *)
Definition deletion_unix (m : ObjectMeta) : Z := default 0%Z (om_DeletionTimestamp m).

(** A set being deleted only waits for its volumes to go. *)
Definition after_deletion (lvset : LocalVolumeSet) (ownerLabels : list (string * string))
  : M (CtrlResult * option GoErr) :=
  SetLVSDeletionTimestampMetric (om_Name (lset_meta lvset)) (deletion_unix (lset_meta lvset)) ;;
  pvs ← get_mem m_pvs;
  mret (requeue_after (if OwnerHasReleasedPVs pvs ownerLabels then fastRequeueTime else defaultRequeueTime), None).

Definition Reconcile (request : NamespacedName) : M (CtrlResult * option GoErr) :=
  r ← ClientGet KLVSet request;
  match r with
  | Err err => mret (no_result, if is_not_found err then None else Some err)
  | Ok lvset =>
      synced ← IsSynced;
      if negb synced then mret ({| cr_Requeue := false; cr_RequeueAfter := fastRequeueTime |}, None)
      else
        err ← ReloadRuntimeConfig request GetNodeNameEnvVar;
        match err with
        | Some e => mret (no_result, Some e)
        | None =>
            cacheSynced ← get_mem m_cacheSynced;
            err ← (if cacheSynced : bool then mret None else syncCaches IsLocalVolumeSetPV);
            match err with
            | Some e => mret (no_result, Some e)
            | None =>
                node ← get_mem (fun m => rc_Node (m_rc m));
                match NodeSelectorMatchesNodeLabels (Some node) (lss_NodeSelector (lset_Spec lvset)) with
                | Err err => mret (no_result, Some err)
                | Ok false => mret (no_result, None)
                | Ok true =>
                    DeletePVs ;;
                    let ownerLabels := owner_labels LocalVolumeSetKind (om_Namespace (lset_meta lvset))
                                         (om_Name (lset_meta lvset)) in
                    err ← CleanupSymlinks ownerLabels (Some (negb (not_deleting (lset_meta lvset))));
                    match err with
                    | Some e =>
                        Report (newDiskEvent ErrorRemovingSymLink
                                  (sprintf "failed to cleanup symlinks: %v" [error_text e]) "" EventTypeWarning) ;;
                        mret (no_result, Some e)
                    | None =>
                        if negb (not_deleting (lset_meta lvset)) then after_deletion lvset ownerLabels
                        else provision lvset
                    end
                end
            end
        end
  end.
End lvset.

(** ** Deletion and guards *)

(** What a run for a set that is being deleted may do: remove links, update volumes,
    report, count, and let the static provisioner delete released volumes. *)
Definition teardown_act (a : Act) : Prop :=
  match a with
  | ASys (SRemove _) _ | AUpdate KPV _ _ | AEvent _ _ _ | AMetric _ _ _ | ADeletePVs => True
  | _ => False
  end.

Section deletion.
Context {E : Env}.

Lemma teardown_Report e : frame (traces teardown_act) (Report e).
Proof. unfold Report. traces_tac. Qed.
Lemma teardown_cleanup_pv o d pv : frame (traces teardown_act) (cleanup_pv o d pv).
Proof. unfold cleanup_pv, deleteSymlink, deleteSymlinkParentDir, removeSymlinkFinalizer. traces_tac. Qed.
Hint Resolve teardown_Report teardown_cleanup_pv : lso_traces.
Lemma teardown_Cleanup o d : frame (traces teardown_act) (CleanupSymlinks o d).
Proof. unfold CleanupSymlinks. traces_tac. Qed.
Lemma teardown_syncCaches f : frame (traces teardown_act) (syncCaches f).
Proof. unfold syncCaches, cache_pvs. traces_tac. Qed.
Lemma teardown_Reload r n : frame (traces teardown_act) (ReloadRuntimeConfig r n).
Proof. unfold ReloadRuntimeConfig. traces_tac. Qed.
Lemma teardown_DeletePVs : frame (traces teardown_act) DeletePVs.
Proof. unfold DeletePVs. traces_tac. Qed.
Hint Resolve teardown_Cleanup teardown_syncCaches teardown_Reload teardown_DeletePVs : lso_traces.
Lemma teardown_after_deletion l o : frame (traces teardown_act) (after_deletion l o).
Proof. unfold after_deletion, SetLVSDeletionTimestampMetric. traces_tac. Qed.

(** Before the selector of the node is tested, only the memory changes. *)
Definition silent (w w' : World) : Prop := w_trace w' = w_trace w /\ same_fs w w'.
#[export] Instance silent_rel : Rel silent.
Proof.
  split; [by intros w|intros x y z [? H1] [? H2]; unfold same_fs in *; split; congruence|done].
Qed.
Lemma silent_syncCaches f : frame silent (syncCaches f).
Proof.
  unfold syncCaches, cache_pvs. frame_tac ltac:(idtac; match goal with |- frame _ (put_mem _) => apply frame_put_mem; done end).
Qed.
Lemma silent_Reload r n : frame silent (ReloadRuntimeConfig r n).
Proof.
  unfold ReloadRuntimeConfig. frame_tac ltac:(idtac; match goal with |- frame _ (put_mem _) => apply frame_put_mem; done end).
Qed.
End deletion.
#[export] Hint Resolve teardown_Report teardown_Cleanup teardown_syncCaches teardown_Reload
  teardown_DeletePVs teardown_after_deletion : lso_traces.


(** A LocalVolumeSet that is gone, whose cache of device links is not filled yet,
    or whose node selector matches no node is left alone: its reconciliation makes no
    system call, writes no object, and reports nothing; in the second case it runs
    again after the fast requeue time. *)
Theorem Reconcile_guards {E : Env} (request : NamespacedName) (w : World) :
  let got := (ClientGet KLVSet request w).1 in
  let quietly (Q : CtrlResult * option GoErr -> Prop) :=
    wp (Reconcile request) (fun r w' => w_trace w' = w_trace w /\ w_fs w' = w_fs w /\ Q r) w in
  (forall err, got = Err err ->
     quietly (fun r => r = (no_result, if is_not_found err then None else Some err))) /\
  (forall lvset, got = Ok lvset -> m_linksSynced (w_mem w) = false ->
     quietly (fun r => cr_RequeueAfter r.1 = fastRequeueTime /\ r.2 = None)) /\
  (forall lvset sel, got = Ok lvset -> lss_NodeSelector (lset_Spec lvset) = Some sel ->
     (forall n, match_node_selector_terms n sel = Ok false) -> quietly (fun _ => True)).
Proof.
  cbv zeta. split; [|split].
  - intros err Hget. apply wp_bind, wp_reads; [eauto with lso|]. intros r en Hr.
    rewrite Hr in Hget. simpl in Hget. subst r. by apply wp_ret.
  - intros lvset Hget Hs. apply wp_bind, wp_reads; [eauto with lso|]. intros r en Hr.
    rewrite Hr in Hget. simpl in Hget. subst r. apply wp_bind, wp_get_mem. simpl. rewrite Hs. by apply wp_ret.
  - intros lvset sel Hget Hsel Hno.
    apply (wp_mono _ (fun _ w' => silent w w')); [|by intros ? ? [? ?]].
    apply wp_bind, wp_reads; [eauto with lso|]. intros r en Hr.
    rewrite Hr in Hget. simpl in Hget. subst r. apply wp_bind, wp_get_mem. goal_case; [by apply wp_ret|].
    eapply (wp_bind_frame silent); [apply silent_Reload|]. intros err w1 H1.
    destruct err; [by apply wp_ret|]. apply wp_bind, wp_get_mem.
    eapply (wp_bind_frame silent); [goal_case; [by apply frame_ret; apply _|apply silent_syncCaches]|].
    intros err w2 H2. assert (silent w w2) as H by (by etrans).
    destruct err; [by apply wp_ret|]. apply wp_bind, wp_get_mem.
    unfold NodeSelectorMatchesNodeLabels. rewrite Hsel, Hno. by apply wp_ret.
Qed.

(** ** The creation of a link *)

Section create.
Context {E : Env}.

Abbreviation same_fds := (same_of (fun m => m_fds m)).

Lemma fresh_fd_fresh (m : gmap Z string) : m !! fresh_fd m = None.
Proof.
  apply eq_None_ne_Some. intros p Hp. apply elem_of_map_to_list in Hp.
  assert (forall l : list Z, forall x, x ∈ l -> (x <= fold_right Z.max 2 l)%Z) as H.
  { induction l as [|y l IH]; intros x Hx; [set_solver|]. simpl.
    apply elem_of_cons in Hx as [->|Hx]; [lia|]. specialize (IH x Hx). lia. }
  specialize (H (map fst (map_to_list m)) (fresh_fd m)). unfold fresh_fd in H at 2.
  assert (fresh_fd m ∈ map fst (map_to_list m)) as Hin.
  { apply list_elem_of_fmap. by exists (fresh_fd m, p). }
  specialize (H Hin). unfold fresh_fd in H. lia.
Qed.

(** A lock that is held is the one descriptor more that the process has open. *)
Lemma wp_Lock path w :
  wp (Lock path) (fun r w' => let '(lock, locked, err) := r in
    efl_locked lock = locked /\ (locked = true -> err = None) /\
    if locked : bool then m_fds (w_mem w') = <[efl_fd lock := path]> (m_fds (w_mem w))
                     /\ m_fds (w_mem w) !! efl_fd lock = None
    else same_fds w w') w.
Proof.
  unfold Lock, OpenExcl. wp_steps; simplify_eq/=; do 2 (split; try done). split; [done|]. apply fresh_fd_fresh.
Qed.

Lemma same_GetMatching p d : frame same_fds (GetMatchingSymlinksInDirs p d).
Proof. apply frame_reads; [apply _|]. eauto with lso. Qed.

Lemma wp_GetPVCreationLock path dirs w :
  wp (GetPVCreationLock path dirs) (fun r w' => let '(lock, locked, links, err) := r in
    efl_locked lock = locked /\
    if locked : bool then m_fds (w_mem w') = <[efl_fd lock := path]> (m_fds (w_mem w))
                     /\ m_fds (w_mem w) !! efl_fd lock = None
    else same_fds w w') w.
Proof.
  unfold GetPVCreationLock. apply wp_bind. eapply wp_mono; [apply wp_Lock|].
  intros [[lock locked] err] w1 (H0 & _ & H1). cbv beta iota zeta in H1 |- *.
  repeat (goal_case; cbv beta iota zeta); try (by apply wp_ret);
    eapply (wp_bind_frame same_fds); [apply same_GetMatching| |apply same_GetMatching|];
    intros r w2 H2; unfold same_of in *; repeat goal_case; apply wp_ret; by rewrite H2.
Qed.

(** Closing an open descriptor does not fail. *)
Definition close_works : Prop := forall fd en, (sys_fault (SClose fd) en).1 = None.

Lemma wp_Unlock lock w :
  close_works -> (efl_locked lock = true -> is_Some (m_fds (w_mem w) !! efl_fd lock)) ->
  wp (Unlock lock) (fun _ w' =>
    m_fds (w_mem w') = if efl_locked lock then delete (efl_fd lock) (m_fds (w_mem w)) else m_fds (w_mem w)) w.
Proof.
  intros Hc Hl. unfold Unlock. destruct (efl_locked lock); [|by apply wp_ret].
  destruct (Hl eq_refl) as [p Hp]. apply wp_bind. unfold Close.
  apply wp_bind, wp_ask. intros fault en Hf. pose proof (Hc (efl_fd lock) (w_est w)) as Hn.
  rewrite Hf in Hn. simpl in Hn. subst fault. apply wp_bind, wp_get_mem. simpl. rewrite Hp. by wp_steps.
Qed.

Lemma same_create_locked lvset dev src p dl pvLocked ex err sync :
  frame same_fds sync -> frame same_fds (create_locked lvset dev src p dl pvLocked ex err sync).
Proof. intros H. unfold create_locked, after_symlink. same_tac. Qed.
End create.

(** C33: [createSymlinkAndSyncPVAndLVDL] always gives the device back: whatever
    branch it takes and whatever error it returns, the file descriptors that are open
    afterwards are those that were open before, so the exclusive lock on the device is
    not held (closing an open descriptor does not fail). *)
Theorem createSymlinkAndSyncPVAndLVDL_unlocks {E : Env} (Hclose : close_works) (lvset : LocalVolumeSet)
  (dev : BlockDevice) (sc : StorageClass) (mounts : gset string) (src p : string) (w : World) :
  wp (createSymlinkAndSyncPVAndLVDL lvset dev sc mounts src p)
     (fun _ w' => m_fds (w_mem w') = m_fds (w_mem w)) w.
Proof.
  unfold createSymlinkAndSyncPVAndLVDL. destruct (GetDevPath dev) as [devLabelPath [err|]]; [by apply wp_ret|].
  eapply (wp_bind_frame (same_of (fun m => m_fds m))); [same_tac|]. intros err w1 H1. unfold same_of in H1.
  destruct err; [by apply wp_ret|]. apply wp_bind. eapply wp_mono; [apply wp_GetPVCreationLock|].
  intros [[[lock locked] links] lockErr] w2 [<- H2]. cbv beta iota zeta.
  eapply (wp_bind_frame (same_of (fun m => m_fds m))).
  { by apply same_create_locked, same_SyncPVAndLVDL. }
  intros res w3 H3. unfold same_of in H3. apply wp_bind.
  eapply wp_mono; [apply wp_Unlock; [done|]|].
  - intros Hl. rewrite Hl in H2. destruct H2 as [H2 _]. rewrite H3, H2, lookup_insert_eq. eauto.
  - intros u w4 H4. apply wp_ret. rewrite H4, H3. destruct (efl_locked lock); [|congruence].
    destruct H2 as [-> Hn]. rewrite delete_insert_id by done. congruence.
Qed.

(** ** Crashes during the creation of a link *)

Section create_crash.
Context {E : Env} (fs0 : FS) (p : string).
Let I := own_changes fs0 (fkey p) (fkey (p ++s ".tmp")).

Lemma own_changes_mkdir fs d fs' : fs_mkdir_all fs d = Ok fs' -> I fs -> I fs'.
Proof.
  intros Hd [H1 H2]. pose proof (fs_mkdir_all_adds _ _ _ Hd) as Ha. split.
  - intros q HL HT. destruct (Ha q) as [->|[Hn ->]]; [by apply H1|].
    right. split; [|done]. destruct (H1 q HL HT) as [<-|[? ?]]; [done|congruence].
  - destruct (Ha (fkey p)) as [->|[Hn ->]]; [done|].
    right. left. split; [|done]. destruct H2 as [<-|[[? ?]|[t ?]]]; [done|congruence..].
Qed.

Lemma keeps_own_MkdirAll d : keeps I (MkdirAll d).
Proof.
  intros w HI. apply cwp_MkdirAll; [done|intros; by eapply own_changes_mkdir|].
  intros r w' [[-> _]|[Hd _]] _ _; [done|by eapply own_changes_mkdir].
Qed.

Lemma keeps_own_Symlink t : keeps I (Symlink t p).
Proof.
  intros w HI.
  assert (I (<[fkey p := NLink t]> (w_fs w))) as HI'.
  { split; [|right; right; exists t; by rewrite lookup_insert_eq].
    intros q HL HT. rewrite lookup_insert_ne by done. by apply HI. }
  apply cwp_Symlink; [done|done|]. by intros r w' [[-> _]|(_ & -> & _)] _ _.
Qed.

Lemma quiet_OpenExcl q : frame fs_quiet (OpenExcl q).
Proof. unfold OpenExcl. quiet_tac. Qed.
Lemma quiet_Close fd : frame fs_quiet (Close fd).
Proof. unfold Close. quiet_tac. Qed.
Hint Resolve quiet_OpenExcl quiet_Close : lso_quiet.
Lemma quiet_Lock q : frame fs_quiet (Lock q).
Proof. unfold Lock. quiet_tac. Qed.
Lemma quiet_Unlock l : frame fs_quiet (Unlock l).
Proof. unfold Unlock. quiet_tac. Qed.
Hint Resolve quiet_Lock quiet_Unlock : lso_quiet.
Lemma quiet_GetPVCreationLock d l : frame fs_quiet (GetPVCreationLock d l).
Proof. unfold GetPVCreationLock. quiet_tac. Qed.
Hint Resolve quiet_GetPVCreationLock : lso_quiet.

Lemma keeps_own_create lvset dev sc mounts src :
  fkey (p ++s ".tmp") <> fkey p -> keeps I (createSymlinkAndSyncPVAndLVDL lvset dev sc mounts src p).
Proof using.
  intros HTL. unfold createSymlinkAndSyncPVAndLVDL, create_locked, after_symlink.
  keeps_tac ltac:(first [ apply keeps_own_MkdirAll | apply keeps_own_Symlink
    | by apply (keeps_own_SyncPVAndLVDL fs0 (sync_args _ _ _ _ p)) ]).
Qed.
End create_crash.

(** C3: wherever the process is killed while it provisions a device, what it leaves
    on the node is the volume's link and nothing else: every other path (but the
    link's temporary name) is what it was or a directory that was missing, and a
    file that already was at the link's path is still there or is now a link. *)
Theorem createSymlinkAndSyncPVAndLVDL_crash {E : Env} (lvset : LocalVolumeSet) (dev : BlockDevice)
  (sc : StorageClass) (mounts : gset string) (src p : string) (w : World)
  (Htmp : fkey (p ++s ".tmp") <> fkey p) :
  wp (createSymlinkAndSyncPVAndLVDL lvset dev sc mounts src p) (fun _ w' => exists t,
    w_trace w' = (w_trace w ++ t)%list /\ w_fs w' = replay (w_fs w) t /\
    forall t1 t2, t = (t1 ++ t2)%list ->
      own_changes (w_fs w) (fkey p) (fkey (p ++s ".tmp")) (replay (w_fs w) t1)) w.
Proof.
  eapply wp_mono; [apply (keeps_own_create (w_fs w)); [done|apply own_changes_refl]|].
  intros r w' [H _]. exact H.
Qed.

(** ** Devices that are already claimed *)

(** What a refused provisioning may do: make the class's directory, open and close
    the device. *)
Definition refusal_act (a : Act) : Prop :=
  match a with ASys (SMkdirAll _ | SOpenExcl _ | SClose _) _ => True | _ => False end.

Section claimed.
Context {E : Env}.

Lemma refusal_OpenExcl q : frame (traces refusal_act) (OpenExcl q).
Proof. unfold OpenExcl. traces_tac. Qed.
Lemma refusal_Close fd : frame (traces refusal_act) (Close fd).
Proof. unfold Close. traces_tac. Qed.
Hint Resolve refusal_OpenExcl refusal_Close : lso_traces.
Lemma refusal_Lock q : frame (traces refusal_act) (Lock q).
Proof. unfold Lock. traces_tac. Qed.
Lemma refusal_Unlock l : frame (traces refusal_act) (Unlock l).
Proof. unfold Unlock. traces_tac. Qed.
Hint Resolve refusal_Lock : lso_traces.
Lemma refusal_GetPVCreationLock d l : frame (traces refusal_act) (GetPVCreationLock d l).
Proof. unfold GetPVCreationLock. traces_tac. Qed.

(** The links that [GetPVCreationLock] reports are those the search finds, unless
    the lock is not held. *)
Lemma wp_GetPVCreationLock_links d dirs links w :
  (forall w', (GetMatchingSymlinksInDirs d dirs w').1 = Ok links) ->
  wp (GetPVCreationLock d dirs) (fun r w' => let '(lock, locked, found, err) := r in
    found = links \/ (found = [] /\ locked = false)) w.
Proof.
  intros Hl. unfold GetPVCreationLock. apply wp_bind. eapply wp_mono; [apply wp_Lock|].
  intros [[lock locked] err] w1 H1. cbv beta iota zeta in H1 |- *.
  assert (forall g : Res (list string) -> M (ExclusiveFileLock * bool * list string * option GoErr),
    (forall w', wp (g (Ok links)) (fun r w' => let '(lock, locked, found, err) := r in
       found = links \/ (found = [] /\ locked = false)) w') ->
    wp (bindM (GetMatchingSymlinksInDirs d dirs) g) (fun r w' => let '(lock, locked, found, err) := r in
       found = links \/ (found = [] /\ locked = false)) w1) as Hg.
  { intros g Hg. apply wp_bind. unfold wp at 1. rewrite Hl. apply Hg. }
  destruct err as [e|].
  - goal_case.
    + apply wp_ret. right. split; [done|]. by destruct H1 as (_ & H1 & _), locked; [specialize (H1 eq_refl)|].
    + apply Hg. intros w2. cbv beta iota. by goal_case; apply wp_ret; left.
  - apply Hg. intros w2. cbv beta iota. by goal_case; apply wp_ret; left.
Qed.

Lemma wp_create_locked_claimed lvset dev src p dl locked found links err sync w :
  found = links \/ (found = [] /\ locked = false) -> links <> [] -> p ∉ links ->
  wp (create_locked lvset dev src p dl locked found err sync) (fun r w' => r <> None /\ w' = w) w.
Proof.
  intros Hf Hne Hp. unfold create_locked. destruct Hf as [->|[-> ->]].
  - destruct links as [|l links]; [done|]. simpl. goal_case; [|by apply wp_ret].
    exfalso. apply Hp. change (existsb (fun q => String.eqb q p) (l :: links) = true) in Heqb.
    apply existsb_exists in Heqb as (q & Hq & He). apply String.eqb_eq in He as ->. by apply list_elem_of_In.
  - simpl. destruct err; by apply wp_ret.
Qed.
End claimed.

(** C6: a device to which links exist already under the root directory of the links,
    but not at the path it is to get, is never provisioned a second time: an error is
    returned, no link, volume or device link is created or changed, and the node sees
    at most the class's directory being made and the device opened and closed. *)
Theorem createSymlinkAndSyncPVAndLVDL_claimed {E : Env} (lvset : LocalVolumeSet) (dev : BlockDevice)
  (sc : StorageClass) (mounts : gset string) (src p : string) (links : list string) (w : World)
  (Hlinks : forall w', (GetMatchingSymlinksInDirs (GetDevPath dev).1 [dir (dir p)] w').1 = Ok links)
  (Hne : links <> []) (Hp : p ∉ links) :
  wp (createSymlinkAndSyncPVAndLVDL lvset dev sc mounts src p) (fun r w' =>
    r <> None /\ exists t, w_trace w' = (w_trace w ++ t)%list /\ Forall refusal_act t) w.
Proof.
  unfold createSymlinkAndSyncPVAndLVDL. destruct (GetDevPath dev) as [dp [err|]] eqn:Hd.
  { apply wp_ret. split; [done|]. exists []. by rewrite app_nil_r. }
  simpl in Hlinks. eapply (wp_bind_frame (traces refusal_act)); [by apply traces_write_fs|].
  intros err w1 H1. destruct err as [err|]; [by apply wp_ret|]. apply wp_bind.
  eapply wp_mono; [apply wp_and; [by apply wp_GetPVCreationLock_links|]|].
  { apply (frame_wp (traces refusal_act)), refusal_GetPVCreationLock. }
  intros [[[lock locked] found] lerr] w2 [Hf H2]. cbv beta iota zeta in Hf |- *. apply wp_bind.
  eapply wp_mono; [by eapply wp_create_locked_claimed|]. intros r w3 [Hr ->].
  eapply (wp_bind_frame (traces refusal_act)); [apply refusal_Unlock|]. intros u w4 H4.
  apply wp_ret. split; [done|]. change (traces refusal_act w w4). etrans; [exact H1|]. by etrans.
Qed.

(** ** The maximum number of devices *)

(** C35: when the links of the class that lead to devices of the node are already as
    many as MaxDeviceCount, a new device is not provisioned: nothing happens but
    events, and the loop over the devices is told to stop, unless the device's own
    link could not even be determined. *)
Theorem processNewSymlink_max {E : Env} (lvset : LocalVolumeSet) (dev : BlockDevice) (devs : list BlockDevice)
  (sc : StorageClass) (mounts : gset string) (symLinkDir : string) (n : nat) (noMatch : list string)
  (max : Z) (w : World)
  (Hmax : lss_MaxDeviceCount (lset_Spec lvset) = Some max)
  (Hcount : forall en, (getAlreadySymlinked symLinkDir devs (set_est en w)).1 = Ok (n, noMatch))
  (Hn : (max <= Z.of_nat n < 2147483648)%Z) :
  wp (processNewSymlink lvset dev devs sc mounts symLinkDir) (fun r w' =>
    (exists t, w_trace w' = (w_trace w ++ t)%list /\
       Forall (fun a => match a with AEvent _ _ _ => True | _ => False end) t) /\
    (r = Ok {| pr_fastRequeue := false; pr_maxCountReached := true |} \/
     (GetSymLinkSourceAndTarget dev symLinkDir w).1.2 <> None)) w.
Proof.
  unfold processNewSymlink. cbv zeta. apply wp_bind, wp_reads; [eauto with lso|].
  intros [[[src p] idExists] err] e1 Hs. rewrite Hs. cbv beta iota. destruct err as [err|].
  { apply wp_ret. split; [exists []; by rewrite app_nil_r|by right]. }
  apply wp_bind. unfold wp at 1. rewrite Hcount, Hmax. rewrite int32_of_small by lia.
  rewrite (proj2 (Z.leb_le _ _)) by lia.
  assert (reads (getAlreadySymlinked symLinkDir devs)) as Hr.
  { unfold getAlreadySymlinked. apply reads_bind; [eauto with lso|]. intros [paths|]; [|apply reads_ret].
    clear. generalize 0, (@nil string). induction paths as [|q paths IH]; intros k l; simpl; [apply reads_ret|].
    apply reads_bind; [eauto with lso|]. intros [[[]|]|]; [apply IH..|apply reads_ret]. }
  destruct (Hr (set_est e1 w)) as (e2 & -> & _). set (w2 := set_est e2 (set_est e1 w)).
  apply wp_and.
  - change (w_trace w) with (w_trace w2). apply (frame_wp (traces (fun a => match a with AEvent _ _ _ => True | _ => False end))).
    unfold Report. traces_tac.
  - wp_skips. by left.
Qed.

(** ** Concrete runs *)

Definition ex_lvset (deletion : option Z) (selector : option NodeSelector) : LocalVolumeSet :=
  {| lset_type := {| tm_Kind := LocalVolumeSetKind; tm_APIVersion := "local.storage.openshift.io/v1alpha1" |};
     lset_meta := {| om_Name := "set"; om_Namespace := "ns"; om_UID := "u"; om_Labels := ∅; om_Annotations := ∅;
                     om_Finalizers := []; om_OwnerReferences := []; om_CreationTimestamp := Some 1%Z;
                     om_DeletionTimestamp := deletion; om_Generation := 1; om_ResourceVersion := "1" |};
     lset_Spec := {| lss_NodeSelector := selector; lss_StorageClassName := "sc"; lss_MaxDeviceCount := Some 1%Z;
                     lss_VolumeMode := "Block"; lss_FSType := ""; lss_Tolerations := [];
                     lss_DeviceInclusionSpec := None; lss_DeviceExclusionSpec := None |};
     lset_Status := {| lst_Conditions := []; lst_TotalProvisionedDeviceCount := None; lst_ObservedGeneration := 0 |} |}.

Definition node_get (lvset : LocalVolumeSet) (k : Kind) : NamespacedName -> Res (Obj k) :=
  match k return NamespacedName -> Res (Obj k) with
  | KLVSet => fun _ => Ok lvset
  | KNode => fun _ => Ok ex_node
  | KSC => fun _ => Ok ex_sc
  | KCM => fun _ => Ok {| cm_meta := empty_meta "ns" ProvisionerConfigMapName; cm_Data := ∅ |}
  | _ => fun key => Err (StatusError ReasonNotFound (nn_Name key))
  end.

(** [lsblk --pairs] of a node with one disk. *)
Definition lsblk_row : string :=
  let q := DQ in
  String.concat " " (map (fun kv => (kv.1 ++s "=" ++s q ++s kv.2 ++s q))
    [("NAME", "sda"); ("ROTA", "0"); ("TYPE", "disk"); ("SIZE", "10"); ("MODEL", ""); ("VENDOR", "");
     ("RO", "0"); ("RM", "0"); ("STATE", "running"); ("KNAME", "sda"); ("SERIAL", ""); ("PARTLABEL", "")]).

Definition node_api (lvset : LocalVolumeSet) : Static := {|
  st_get := node_get lvset; st_list := fun _ _ => []; st_fault := fun _ => None;
  st_exec := fun cmd _ => (if decide (cmd = "lsblk") then lsblk_row else "", None);
  st_file := fun _ => Ok ""; st_clock := 1000 * second |}.

Definition node_mem (since : Z) : Mem :=
  set_m_linksSynced true (set_m_ages {["sda" := since * second]}%Z empty_mem).

(** A disk that was first seen more than a minute ago gets its link, its volume and
    its device link. *)
Example Reconcile_provisions :
  let s := node_api (ex_lvset None None) in
  let r := Reconcile (E := static_env s) {| nn_Namespace := "ns"; nn_Name := "set" |}
             (static_world s ex_fs (node_mem 900)) in
  (r.1, w_fs r.2 !! "/mnt/local-storage/sc/wwn-1", map (fun x => pv_Name x.1) (pv_creates (w_trace r.2)),
   m_fds (w_mem r.2) !! 3%Z)
  = (requeue_after defaultRequeueTime, None, Some (NLink "/dev/disk/by-id/wwn-1"), ["local-pv-d9ae1fe6"], None).
Proof. vm_compute. reflexivity. Qed.

(** A single delayed device does not shorten the requeue time, against the comment
    that it is shortened when there are delayed devices: the test is [> 1]. *)
Example one_delayed_device :
  let s := node_api (ex_lvset None None) in
  let w := static_world s ex_fs (node_mem 990) in
  let delayed := (getValidDevices (E := static_env s) (ex_lvset None None) [ex_dev] w).1.1.2 in
  let r := Reconcile (E := static_env s) {| nn_Namespace := "ns"; nn_Name := "set" |} w in
  (map bd_KName delayed, cr_RequeueAfter r.1.1, w_fs r.2 !! "/mnt/local-storage/sc/wwn-1")
  = (["sda"], defaultRequeueTime, None).
Proof. vm_compute. reflexivity. Qed.


Lemma Reconcile_guards_witness :
  let s := node_api (ex_lvset None None) in
  let w := static_world s ex_fs empty_mem in
  let run := Reconcile (E := static_env s) {| nn_Namespace := "ns"; nn_Name := "set" |} in
  m_linksSynced (w_mem w) = false /\
  wp (E := static_env s) run (fun r w' => w_trace w' = [] /\ w_fs w' = ex_fs /\ cr_RequeueAfter r.1 = fastRequeueTime /\ r.2 = None) w.
Proof.
  intros s w run. split; [done|].
  destruct (Reconcile_guards (E := static_env s) {| nn_Namespace := "ns"; nn_Name := "set" |} w) as (_ & H & _).
  exact (H (ex_lvset None None) eq_refl eq_refl).
Defined.

Lemma createSymlinkAndSyncPVAndLVDL_unlocks_witness :
  let s := node_api (ex_lvset None None) in
  let w := static_world s ex_fs (set_m_rc ex_rc empty_mem) in
  close_works (E := static_env s) /\
  wp (E := static_env s) (createSymlinkAndSyncPVAndLVDL (E := static_env s) (ex_lvset None None) ex_dev ex_sc ∅
       "/dev/disk/by-id/wwn-1" "/mnt/local-storage/sc/wwn-1")
    (fun r w' => r = None /\ m_fds (w_mem w') = ∅) w.
Proof.
  intros s w. assert (close_works (E := static_env s)) as Hc by done. split; [exact Hc|].
  split; [vm_compute; reflexivity|].
  exact (createSymlinkAndSyncPVAndLVDL_unlocks (E := static_env s) Hc (ex_lvset None None) ex_dev ex_sc ∅
       "/dev/disk/by-id/wwn-1" "/mnt/local-storage/sc/wwn-1" w).
Defined.

Lemma createSymlinkAndSyncPVAndLVDL_crash_witness :
  let s := node_api (ex_lvset None None) in
  let w := static_world s ex_fs (set_m_rc ex_rc empty_mem) in
  let p := "/mnt/local-storage/sc/wwn-1" in
  fkey (p ++s ".tmp") <> fkey p /\
  wp (E := static_env s) (createSymlinkAndSyncPVAndLVDL (E := static_env s) (ex_lvset None None) ex_dev ex_sc ∅
       "/dev/disk/by-id/wwn-1" p)
    (fun r w' => w_fs w' !! p = Some (NLink "/dev/disk/by-id/wwn-1") /\
       own_changes ex_fs p (p ++s ".tmp") (w_fs w')) w.
Proof.
  intros s w p. assert (fkey (p ++s ".tmp") <> fkey p) as Hne by (by vm_compute). split; [exact Hne|].
  destruct (createSymlinkAndSyncPVAndLVDL_crash (E := static_env s) (ex_lvset None None) ex_dev ex_sc ∅
       "/dev/disk/by-id/wwn-1" p w Hne) as (t & _ & Hf & Ha).
  split; [vm_compute; reflexivity|]. rewrite Hf. apply (Ha t []). by rewrite app_nil_r.
Defined.

(** The search finds the link of another class. *)
Definition claimed_api : Static := {|
  st_get := node_get (ex_lvset None None); st_list := fun _ _ => []; st_fault := fun _ => None;
  st_exec := fun cmd _ => (if decide (cmd = "find") then "/mnt/local-storage/other/wwn-1" else "", None);
  st_file := fun _ => Ok ""; st_clock := 0 |}.

Lemma createSymlinkAndSyncPVAndLVDL_claimed_witness :
  let s := claimed_api in
  let w := static_world s ex_fs (set_m_rc ex_rc empty_mem) in
  let links := ["/mnt/local-storage/other/wwn-1"] in
  (forall w', (GetMatchingSymlinksInDirs (E := static_env s) "/dev/sda" ["/mnt/local-storage"] w').1 = Ok links) /\
  wp (E := static_env s) (createSymlinkAndSyncPVAndLVDL (E := static_env s) (ex_lvset None None) ex_dev ex_sc ∅
       "/dev/disk/by-id/wwn-1" "/mnt/local-storage/sc/wwn-1")
    (fun r w' => r <> None /\ exists t, w_trace w' = t /\ Forall refusal_act t) w.
Proof.
  intros s w links.
  assert (forall w', (GetMatchingSymlinksInDirs (E := static_env s) "/dev/sda" ["/mnt/local-storage"] w').1 = Ok links)
    as Hl by (intros [fs e m t]; vm_compute; reflexivity).
  split; [exact Hl|].
  refine (createSymlinkAndSyncPVAndLVDL_claimed (E := static_env s) (ex_lvset None None) ex_dev ex_sc ∅
       "/dev/disk/by-id/wwn-1" "/mnt/local-storage/sc/wwn-1" links w Hl _ _); [done|].
  apply (bool_decide_unpack _). vm_compute. exact I.
Defined.

Lemma processNewSymlink_max_witness :
  let s := node_api (ex_lvset None None) in
  let fs := <["/mnt/local-storage/sc/wwn-1" := NLink "/dev/disk/by-id/wwn-1"]> ex_fs in
  let w := static_world s fs (set_m_rc ex_rc empty_mem) in
  wp (E := static_env s) (processNewSymlink (E := static_env s) (ex_lvset None None) ex_dev [ex_dev] ex_sc ∅
       "/mnt/local-storage/sc")
    (fun r _ => r = Ok {| pr_fastRequeue := false; pr_maxCountReached := true |}) w /\ (1 <= 1 < 2147483648)%Z.
Proof.
  intros s fs w. split; [|lia].
  destruct (processNewSymlink_max (E := static_env s) (ex_lvset None None) ex_dev [ex_dev] ex_sc ∅
       "/mnt/local-storage/sc" 1 [] 1 w eq_refl (fun en => ltac:(destruct en; vm_compute; reflexivity)) ltac:(lia))
    as [_ [H|H]]; [exact H|]. exfalso. apply H. vm_compute. reflexivity.
Defined.
