(* ===== verification/Lv.v ===== *)
(** * The LocalVolume reconciler of the node: pkg/diskmaker/controllers/lv

    reconcile.go, diskconfig.go and disktable.go.  The reconciler has its own memory
    (its runtime configuration, event reporter and requeue time); the index of device
    links is shared with the LocalVolumeSet reconciler in the process. *)
From stdpp Require Import base list strings gmap.
From Stdlib Require Import ZArith Lia String.
From S2P Require Import Prelude GoLib Types World Sys Envs Crash DiskUtil LinkCache Common Controller Symlinks DeviceLink Provisioner Matcher Metrics LvSet.

Open Scope string_scope.

Definition diskByIDPrefix := "/dev/disk/by-id".

(** ** diskconfig.go *)

Record Disks := { dk_DevicePaths : list string; dk_ForceWipe : bool }.

Definition is_device_name (disk : string) : bool :=
  match split disk "/" with [_; d; _] => String.eqb d "dev" | _ => false end.

Definition DeviceNames (d : Disks) : gset string :=
  list_to_set (List.filter is_device_name (dk_DevicePaths d)).

Definition DeviceIDs (d : Disks) : gset string := list_to_set (dk_DevicePaths d) ∖ DeviceNames d.

Record DiskConfig := {
  dc_Disks : gmap string Disks; dc_OwnerName : string; dc_OwnerNamespace : string;
  dc_OwnerKind : string; dc_OwnerUID : string; dc_OwnerAPIVersion : string }.

(** ** disktable.go *)

Abbreviation blockDevice := (gmap string string).

Definition parseKeyValuePairString (propsRaw : string) : blockDevice :=
  fold_left (fun m kvpRaw => match split kvpRaw "=" with
                             | [k; v] => <[k := remove_char (Ascii.ascii_of_nat 34) v]> m
                             | _ => m
                             end) (split propsRaw " ") ∅.

(** [parse]: the table is the list of its disks. *)
Definition parse (disks : list blockDevice) (output : string) : list blockDevice :=
  fold_left (fun disks info =>
    let props := parseKeyValuePairString info in
    if (0 <? size props)%nat then (disks ++ [props])%list else disks) (split output NL) disks.

(** [m[k]]: a missing key reads as the empty string. *)
Definition prop (m : blockDevice) (k : string) : string := default "" (m !! k).

Definition filterUsableDisks (disks : list blockDevice) : list blockDevice :=
  List.filter (fun disk =>
    negb (0 <? String.length (prop disk "MOUNTPOINT"))%nat
    && negb (existsb (fun disk2 => String.eqb (prop disk2 "PKNAME") (prop disk "KNAME")) disks)) disks.

(** ** reconcile.go *)

Definition ErrorCreatingSymLink := "ErrorCreatingSymLink".
Definition ErrorProvisioningVolume := "ErrorProvisioningVolume".

Definition add_disks (m : gmap string Disks) (d : StorageClassDevice) : gmap string Disks :=
  <[scd_StorageClassName d := {| dk_DevicePaths := scd_DevicePaths d; dk_ForceWipe := scd_ForceWipe d |}]> m.

Definition generateConfig (lv : LocalVolume) : DiskConfig :=
  {| dc_Disks := fold_left add_disks (lvs_StorageClassDevices (lv_Spec lv)) ∅;
     dc_OwnerName := om_Name (lv_meta lv); dc_OwnerNamespace := om_Namespace (lv_meta lv);
     dc_OwnerKind := LocalVolumeKind; dc_OwnerUID := om_UID (lv_meta lv);
     dc_OwnerAPIVersion := v1_GroupVersion |}.

Definition hasExactDisk (blockDevices : list BlockDevice) (device : string) : option BlockDevice :=
  find_first (fun b => if decide (bd_KName b = device) then Some b else None) blockDevices.

(** The source and target of the link and whether the source is a by-id path. *)
Definition getSymlinkSourceAndTarget (devLocation : DiskLocation) (symlinkDir : string)
  : string * string * bool :=
  if decide (dl_DiskID devLocation <> "") then
    (dl_DiskID devLocation, path_join [symlinkDir; base (dl_DiskID devLocation)], true)
  else (dl_UserProvidedPath devLocation, path_join [symlinkDir; base (dl_UserProvidedPath devLocation)], false).

Definition set_paths (source path : string) (d : DiskLocation) : DiskLocation :=
  {| dl_DiskNamePath := dl_DiskNamePath d; dl_UserProvidedPath := dl_UserProvidedPath d;
     dl_DiskID := dl_DiskID d; dl_BlockDevice := dl_BlockDevice d; dl_ForceWipe := dl_ForceWipe d;
     dl_SymlinkPath := path; dl_SymlinkSource := source |}.
Definition set_id (id : string) (b : BlockDevice) (d : DiskLocation) : DiskLocation :=
  {| dl_DiskNamePath := dl_DiskNamePath d; dl_UserProvidedPath := dl_UserProvidedPath d;
     dl_DiskID := id; dl_BlockDevice := b; dl_ForceWipe := dl_ForceWipe d;
     dl_SymlinkPath := dl_SymlinkPath d; dl_SymlinkSource := dl_SymlinkSource d |}.

(** The cache's volumes of this host with the device's name. *)
Definition checkForExistingPV (pvs : VolumeCache) (node : Node) (deviceNameLocation : DiskLocation) : bool :=
  match om_Labels (nd_meta node) !! LabelHostname with
  | None => false
  | Some hostname =>
      let deviceName := base (dl_DiskNamePath deviceNameLocation) in
      existsb (fun kv => String.eqb (prop (pv_Labels kv.2) LabelHostname) hostname
                         && String.eqb (prop (pv_Annotations kv.2) PVDeviceNameLabel) deviceName) (map_to_list pvs)
  end.

Section lv.
Context {E : Env} (symlinkLocation : string).

Definition warn (reason message disk : string) : M unit :=
  Report (newDiskEvent reason message disk EventTypeWarning).

Definition evalSymlink (path : string) : M (Res string) := EvalSymlinks path.

(** Everything but "not found" counts as existing. *)
Definition fileExists (filename : string) : M bool :=
  r ← Stat filename;
  mret (match r with Err e => negb (os_is ENOENT e) | Ok _ => true end).

Definition err_text (e : option GoErr) : string := match e with None => "<nil>" | Some e => error_text e end.

(** The device is wiped if the user asks for it. *)
Definition wipe (force : bool) (symLinkSource : string) : M (option GoErr) :=
  if force then Run "wipefs" ["-a"; "-f"; symLinkSource] else mret None.

(** From the creation of the class's directory on, the lock being held. *)
Definition make_symlink (deviceNameLocation : DiskLocation) (symLinkSource symLinkTarget : string)
  (idExists : bool) : M bool :=
  let symLinkDir := dir symLinkTarget in
  err ← MkdirAll symLinkDir;
  match err with
  | Some e =>
      warn ErrorFindingMatchingDisk (sprintf "error creating symlink dir %s: %v" [symLinkDir; error_text e]) symLinkTarget ;;
      mret false
  | None =>
      exists_ ← fileExists symLinkTarget;
      if exists_ : bool then mret true
      else
        pvs ← get_mem m_pvs;
        rc ← get_mem m_rc;
        if negb idExists && checkForExistingPV pvs (rc_Node rc) deviceNameLocation then
          warn ErrorFindingMatchingDisk
            (sprintf "error creating symlink, no disk/by-id found and found an existing PV for same device %s: %v"
               [symLinkTarget; err_text None]) symLinkSource ;;
          mret false
        else
          err ← wipe (dl_ForceWipe deviceNameLocation) symLinkSource;
          match err with
          | Some e =>
              warn ErrorCreatingSymLink (sprintf "error wipefs device %s: %v" [symLinkSource; error_text e]) symLinkSource ;;
              mret false
          | None =>
              err ← Symlink symLinkSource symLinkTarget;
              match err with
              | Some e =>
                  warn ErrorFindingMatchingDisk (sprintf "error creating symlink %s: %v" [symLinkTarget; error_text e]) symLinkSource ;;
                  mret false
              | None =>
                  (if negb idExists then
                     warn SymLinkedOnDeviceName
                       (sprintf "created symlink on device name %s with no disk/by-id. device name might not persist on reboot"
                          [symLinkSource]) symLinkSource
                   else mret tt) ;;
                  Report (newDiskEvent FoundMatchingDisk
                            (sprintf "found matching disk %s with id %s"
                               [dl_DiskNamePath deviceNameLocation; dl_DiskID deviceNameLocation])
                            (dl_DiskNamePath deviceNameLocation) EventTypeNormal) ;;
                  mret true
              end
          end
  end.

(** The part of [createSymlink] between the lock and its release. *)
Definition create_with_lock (deviceNameLocation : DiskLocation) (symLinkSource symLinkTarget : string)
  (idExists pvLocked : bool) (existingSymlinks : list string) (err : option GoErr) : M bool :=
  if (0 <? List.length existingSymlinks)%nat then
    if existsb (fun path => String.eqb path symLinkTarget) existingSymlinks then mret true
    else
      warn DeviceSymlinkExists (sprintf "not symlinking, already claimed: %v" [show_list existingSymlinks]) symLinkTarget ;;
      mret false
  else if negb (bool_decide (err = None)) || negb pvLocked then
    warn ErrorCreatingSymLink (sprintf "not symlinking, locking failed: %+v" [err_text err]) symLinkTarget ;;
    mret false
  else make_symlink deviceNameLocation symLinkSource symLinkTarget idExists.

Definition createSymlink (deviceNameLocation : DiskLocation) (symLinkSource symLinkTarget : string)
  (idExists : bool) : M bool :=
  r ← evalSymlink symLinkSource;
  match r with
  | Err _ => mret false
  | Ok diskDevPath =>
      l ← GetPVCreationLock diskDevPath [symlinkLocation];
      let '(pvLock, pvLocked, existingSymlinks, err) := l in
      result ← create_with_lock deviceNameLocation symLinkSource symLinkTarget idExists pvLocked existingSymlinks err;
      (* defer unlockFunc() *)
      _ ← Unlock pvLock;
      mret result
  end.

(** ** Volumes *)

Definition syncPVAndLVDL (lv : LocalVolume) (scName : string) (deviceNameLocation : DiskLocation)
  (mountPointMap : gset string) : M (option GoErr) :=
  r ← ClientGet KSC {| nn_Namespace := ""; nn_Name := scName |};
  match r with
  | Err err => mret (Some (Wrap (sprintf "error fetching storageclass %s" [scName]) err))
  | Ok storageClass =>
      let lvOwnerLabels : gmap string string :=
        <[LocalVolumeOwnerNameForPV := om_Name (lv_meta lv)]>
          {[LocalVolumeOwnerNamespaceForPV := om_Namespace (lv_meta lv)]} in
      SyncPVAndLVDL {| sa_Object := OLocalVolume lv; sa_StorageClass := storageClass;
                       sa_MountPointMap := mountPointMap;
                       sa_SymLinkPath := dl_SymlinkPath deviceNameLocation;
                       sa_ExtraLabels := lvOwnerLabels; sa_BlockDevice := dl_BlockDevice deviceNameLocation |}
  end.

Definition processExistingSymlink (lv : LocalVolume) (scName symlinkPath : string) (diskLocation : DiskLocation)
  (mountPointMap : gset string) : M (option GoErr) :=
  r ← Readlink symlinkPath;
  let effectiveCurrentSource := match r with Ok s => s | Err _ => "" end in
  syncPVAndLVDL lv scName (set_paths effectiveCurrentSource symlinkPath diskLocation) mountPointMap.

(** Whether the device is provisioned, and the error. *)
Definition processNewSymlink (lv : LocalVolume) (scName : string) (diskLocation : DiskLocation)
  (mountPointMap : gset string) : M (bool * option GoErr) :=
  let symLinkDirPath := path_join [symlinkLocation; scName] in
  let '(source, target, idExists) := getSymlinkSourceAndTarget diskLocation symLinkDirPath in
  let diskLocation := set_paths source target diskLocation in
  f ← FindLSOManagedDeviceInfo source (dl_BlockDevice diskLocation);
  match f with
  | Err err => mret (false, Some err)
  | Ok (Some currentDeviceInfo) =>
      p ← RecoverPVSymlinkPath currentDeviceInfo symLinkDirPath source;
      match p with
      | Err err =>
          refresh_not_preferred err (dl_BlockDevice diskLocation) ;;
          mret (false, Some err)
      | Ok pvSymlinkPath =>
          err ← processExistingSymlink lv scName pvSymlinkPath (set_paths source pvSymlinkPath diskLocation) mountPointMap;
          mret (bool_decide (err = None), err)
      end
  | Ok None =>
      shouldCreatePV ← createSymlink diskLocation source target idExists;
      if shouldCreatePV : bool then
        err ← syncPVAndLVDL lv scName diskLocation mountPointMap;
        mret (true, err)
      else mret (false, None)
  end.

(** ** Devices of the configuration *)

Definition reportDeviceResolutionError (devicePath : string) (err : GoErr) : M unit :=
  let deviceKind := if has_prefix devicePath diskByIDPrefix then "disk-id" else "disk" in
  warn ErrorFindingMatchingDisk
    (sprintf "unable to add %s %s to local disk pool: %v" [deviceKind; devicePath; error_text err]) devicePath.

Definition reportSymlinkLookupError (symLinkDirPath devicePath : string) (err : GoErr) : M unit :=
  warn ErrorListingDeviceID (sprintf "error listing symlinks in %s: %v" [symLinkDirPath; error_text err]) devicePath.

Definition reportProvisioningError (devicePath : string) (err : GoErr) : M unit :=
  put_mem (set_m_requeue fastRequeueTime) ;;
  warn ErrorProvisioningVolume (sprintf "unable to provision volumes %s: %v" [devicePath; error_text err]) devicePath.

Definition logDeviceError (diskDevPath : string) : M unit :=
  exists_ ← fileExists diskDevPath;
  if negb exists_ then mret tt
  else
    r ← Stat diskDevPath;
    match r with
    | Err _ => mret tt
    | Ok fileMode =>
        let msg := match fileMode with
                   | NDir => sprintf "unable to use directory %v for local storage. Use an existing block device." [diskDevPath]
                   | NFile => sprintf "unable to use regular file %v for local storage. Use an existing block device." [diskDevPath]
                   | _ => sprintf "unable to find matching disk %v" [diskDevPath]
                   end in
        warn ErrorFindingMatchingDisk msg diskDevPath
    end.

(** The id and the device's path. *)
Definition findDeviceByID (deviceID : string) : M (Res (string * string)) :=
  r ← evalSymlink deviceID;
  mret (match r with
        | Err err => Err (Errorf (sprintf "unable to find device at path %s: %v" [deviceID; error_text err]))
        | Ok diskDevPath => Ok (deviceID, diskDevPath)
        end).

Definition resolveValidDeviceLocation (devicePath : string) (forceWipe : bool) (validDevices : list BlockDevice)
  : M (Res (option DiskLocation)) :=
  r ← (if has_prefix devicePath diskByIDPrefix then findDeviceByID devicePath
       else (r ← evalSymlink devicePath; mret (match r with Err e => Err e | Ok p => Ok ("", p) end)));
  match r with
  | Err err => mret (Err err)
  | Ok (diskID, diskNamePath) =>
      mret (Ok (option_map (fun b =>
        {| dl_DiskNamePath := diskNamePath; dl_UserProvidedPath := devicePath; dl_DiskID := diskID;
           dl_BlockDevice := b; dl_ForceWipe := forceWipe; dl_SymlinkPath := ""; dl_SymlinkSource := "" |})
        (hasExactDisk validDevices (base diskNamePath))))
  end.

(** The by-id path is looked up when the user did not give one. *)
Definition complete_id (deviceLocation : DiskLocation) : M DiskLocation :=
  if decide (dl_DiskID deviceLocation = "") then
    r ← GetUncachedPathID (dl_BlockDevice deviceLocation);
    mret (set_id (match r.1 with Ok id => id | Err _ => "" end) r.2 deviceLocation)
  else mret deviceLocation.

Definition provisionValidDevice (lv : LocalVolume) (storageClass symLinkDirPath devicePath : string)
  (deviceLocation : DiskLocation) (mountPointMap : gset string) : M bool :=
  r ← GetSymlinkedForCurrentSC symLinkDirPath (bd_KName (dl_BlockDevice deviceLocation));
  match r with
  | Err err => reportSymlinkLookupError symLinkDirPath devicePath err ;; mret false
  | Ok existingSymlink =>
      if decide (existingSymlink <> "") then
        let symlinkPath := path_join [path_join [symlinkLocation; storageClass]; existingSymlink] in
        err ← processExistingSymlink lv storageClass symlinkPath deviceLocation mountPointMap;
        match err with
        | Some e => reportProvisioningError devicePath e ;; mret false
        | None => mret true
        end
      else
        deviceLocation ← complete_id deviceLocation;
        r ← processNewSymlink lv storageClass deviceLocation mountPointMap;
        match r with
        | (_, Some e) => reportProvisioningError devicePath e ;; mret false
        | (provisioned, None) => mret provisioned
        end
  end.

(** The device paths of one class; the number of devices provisioned is threaded. *)
Fixpoint process_paths (lv : LocalVolume) (storageClass symLinkDirPath : string) (forceWipe : bool)
  (devicePaths : list string) (validDevices : list BlockDevice) (mountPointMap : gset string) (total : Z) : M Z :=
  match devicePaths with
  | [] => mret total
  | devicePath :: devicePaths' =>
      let continue := process_paths lv storageClass symLinkDirPath forceWipe devicePaths' validDevices mountPointMap in
      r ← resolveValidDeviceLocation devicePath forceWipe validDevices;
      match r with
      | Err err => reportDeviceResolutionError devicePath err ;; continue total
      | Ok None => logDeviceError devicePath ;; continue total
      | Ok (Some deviceLocation) =>
          provisioned ← provisionValidDevice lv storageClass symLinkDirPath devicePath deviceLocation mountPointMap;
          continue (if provisioned : bool then total + 1 else total)%Z
      end
  end.

Definition processValidDevices (lv : LocalVolume) (validDevices : list BlockDevice) (diskConfig : DiskConfig)
  (mountPointMap : gset string) (inUsePVCount : gmap string Z) : M unit :=
  classes ← range_map (map_to_list (dc_Disks diskConfig));
  forM_ classes (fun '(storageClass, disks) =>
    let totalProvisionedPVs := default 0%Z (inUsePVCount !! storageClass) in
    total ← (if (0 <? List.length validDevices)%nat then
               process_paths lv storageClass (path_join [symlinkLocation; storageClass]) (dk_ForceWipe disks)
                 (dk_DevicePaths disks) validDevices mountPointMap totalProvisionedPVs
             else mret totalProvisionedPVs);
    SetLVProvisionedPVMetric GetNodeNameEnvVar storageClass total).

(** ** Metrics *)

Fixpoint spec_devices (devicePaths : list string) (allBlockDevices : list BlockDevice) : M (list BlockDevice) :=
  match devicePaths with
  | [] => mret []
  | devicePath :: devicePaths' =>
      r ← resolveValidDeviceLocation devicePath false allBlockDevices;
      rest ← spec_devices devicePaths' allBlockDevices;
      mret (match r with Ok (Some deviceLocation) => dl_BlockDevice deviceLocation :: rest | _ => rest end)
  end.

Definition updateOrphanedSymlinkMetrics (allBlockDevices : list BlockDevice) (diskConfig : DiskConfig) : M unit :=
  classes ← range_map (map_to_list (dc_Disks diskConfig));
  forM_ classes (fun '(storageClass, disks) =>
    specDevices ← spec_devices (dk_DevicePaths disks) allBlockDevices;
    o ← GetOrphanedSymlinks (path_join [symlinkLocation; storageClass]) specDevices;
    SetLVOrphanedSymlinksMetric GetNodeNameEnvVar storageClass (Z.of_nat (List.length o.1))).

Fixpoint count_missing (devicePaths : list string) : M Z :=
  match devicePaths with
  | [] => mret 0%Z
  | devicePath :: devicePaths' =>
      r ← evalSymlink devicePath;
      rest ← count_missing devicePaths';
      mret (match r with Err _ => 1 + rest | Ok _ => rest end)%Z
  end.

Definition updateMissingDevicePathMetrics (diskConfig : DiskConfig) : M unit :=
  classes ← range_map (map_to_list (dc_Disks diskConfig));
  forM_ classes (fun '(storageClass, disks) =>
    missing ← count_missing (dk_DevicePaths disks);
    SetLVMissingDevicePathMetric GetNodeNameEnvVar storageClass missing).

(** ** Devices in use *)

Definition ignoreDevices (dev : BlockDevice) : M bool :=
  r ← HasBindMounts dev;
  match r with
  | Err _ | Ok (true, _) => mret true
  | Ok (false, _) =>
      r ← HasChildren dev;
      mret (match r with Err _ => true | Ok hasChildren => hasChildren end)
  end.

(** The valid and the ignored devices. *)
Fixpoint split_devices (blockDevices : list BlockDevice) : M (list BlockDevice * list BlockDevice) :=
  match blockDevices with
  | [] => mret ([], [])
  | b :: bs =>
      ignored ← ignoreDevices b;
      rest ← split_devices bs;
      mret (if ignored : bool then (rest.1, b :: rest.2) else (b :: rest.1, rest.2))
  end.

(** One device path of a class: is it that of a device in use with a volume? *)
Definition rejected_path (lv : LocalVolume) (storageClassName : string) (rejectedDevices : list BlockDevice)
  (devicePath : string) : M bool :=
  r ← evalSymlink devicePath;
  match r with
  | Err _ => mret false
  | Ok diskDevPath =>
      match hasExactDisk rejectedDevices (base diskDevPath) with
      | None => mret false
      | Some blockDevice =>
          r ← HasExistingLocalVolumes (path_join [symlinkLocation; storageClassName]) blockDevice;
          match r with
          | Err err => refresh_not_preferred err blockDevice ;; mret false
          | Ok symlinkPath =>
              if decide (symlinkPath = "") then mret false
              else
                rc ← get_mem m_rc;
                let lvdlName := GeneratePVName (base symlinkPath) (nd_Name (rc_Node rc)) storageClassName in
                r ← FindLVDL lvdlName (rc_Namespace rc);
                refresh_rejected (OLocalVolume lv) (report_lvdl_failure blockDevice) (rc_Namespace rc) lvdlName
                  symlinkPath (match r with Ok l => Some l | Err _ => None end) blockDevice ;;
                mret true
          end
      end
  end.

Fixpoint rejected_paths (lv : LocalVolume) (storageClassName : string) (rejectedDevices : list BlockDevice)
  (devicePaths : list string) (inUsePVCount : gmap string Z) : M (gmap string Z) :=
  match devicePaths with
  | [] => mret inUsePVCount
  | devicePath :: devicePaths' =>
      inUse ← rejected_path lv storageClassName rejectedDevices devicePath;
      rejected_paths lv storageClassName rejectedDevices devicePaths'
        (if inUse : bool
         then <[storageClassName := (default 0 (inUsePVCount !! storageClassName) + 1)%Z]> inUsePVCount
         else inUsePVCount)
  end.

Fixpoint rejected_classes (lv : LocalVolume) (rejectedDevices : list BlockDevice) (classes : list (string * Disks))
  (inUsePVCount : gmap string Z) : M (gmap string Z) :=
  match classes with
  | [] => mret inUsePVCount
  | (storageClassName, disks) :: classes' =>
      inUsePVCount ← rejected_paths lv storageClassName rejectedDevices (dk_DevicePaths disks) inUsePVCount;
      rejected_classes lv rejectedDevices classes' inUsePVCount
  end.

Definition processRejectedDevicesForDeviceLinks (lv : LocalVolume) (rejectedDevices : list BlockDevice)
  (diskConfig : DiskConfig) : M (gmap string Z) :=
  classes ← range_map (map_to_list (dc_Disks diskConfig));
  rejected_classes lv rejectedDevices classes ∅.

(** ** Reconcile *)

(** From the block devices on. *)
Definition reconcile_devices (lv : LocalVolume) (diskConfig : DiskConfig) (blockDevices : list BlockDevice)
  : M (CtrlResult * option GoErr) :=
  s ← split_devices blockDevices;
  let (validBlockDevices, ignoredDevices) := (s : list BlockDevice * list BlockDevice) in
  inUsePVCount ← (if (0 <? List.length ignoredDevices)%nat
                  then processRejectedDevicesForDeviceLinks lv ignoredDevices diskConfig else mret ∅);
  updateMissingDevicePathMetrics diskConfig ;;
  m ← GenerateMountMap;
  match m with
  | Err err => mret (no_result, Some err)
  | Ok mountPointMap =>
      processValidDevices lv validBlockDevices diskConfig mountPointMap inUsePVCount ;;
      updateOrphanedSymlinkMetrics blockDevices diskConfig ;;
      requeue ← get_mem m_requeue;
      mret (requeue_after requeue, None)
  end.

(** The part of [Reconcile] for an object that is not being deleted. *)
Definition provision (lv : LocalVolume) : M (CtrlResult * option GoErr) :=
  err ← MkdirAll symlinkLocation;
  match err with
  | Some e => mret (no_result, Some e)
  | None =>
      let diskConfig := generateConfig lv in
      o ← CombinedOutput "lsblk" ["--all"; "--noheadings"; "--pairs"; "--output"; "KNAME,PKNAME,TYPE,MOUNTPOINT"];
      match o.2 with
      | Some e =>
          warn ErrorRunningBlockList (sprintf "error running lsblk: %v" [error_text e]) "" ;;
          mret (no_result, Some e)
      | None =>
          classes ← range_map (map_to_list (dc_Disks diskConfig));
          b ← ListBlockDevices (flat_map (fun c => dk_DevicePaths c.2) classes);
          match b with
          | (_, _, Some err) =>
              warn ErrorRunningBlockList (sprintf "failed to list block devices: %v" [error_text err]) "" ;;
              mret (no_result, Some err)
          | (blockDevices, badRows, None) =>
              (if (0 <? List.length badRows)%nat
               then warn ErrorRunningBlockList (sprintf "error parsing rows: %+v" [show_list badRows]) ""
               else mret tt) ;;
              reconcile_devices lv diskConfig blockDevices
          end
      end
  end.

Definition after_deletion (ownerLabels : list (string * string)) : M (CtrlResult * option GoErr) :=
  pvs ← get_mem m_pvs;
  (if OwnerHasReleasedPVs pvs ownerLabels then put_mem (set_m_requeue fastRequeueTime) else mret tt) ;;
  requeue ← get_mem m_requeue;
  mret (requeue_after requeue, None).

Definition Reconcile (request : NamespacedName) : M (CtrlResult * option GoErr) :=
  put_mem (set_m_requeue defaultRequeueTime) ;;
  r ← ClientGet KLV request;
  match r with
  | Err err => mret (no_result, if is_not_found err then None else Some err)
  | Ok lv =>
      synced ← IsSynced;
      if negb synced then mret ({| cr_Requeue := false; cr_RequeueAfter := fastRequeueTime |}, None)
      else
        err ← ReloadRuntimeConfig request (Getenv "MY_NODE_NAME");
        match err with
        | Some e => mret (no_result, Some e)
        | None =>
            cacheSynced ← get_mem m_cacheSynced;
            err ← (if cacheSynced : bool then mret None else syncCaches IsLocalVolumePV);
            match err with
            | Some e => mret (no_result, Some e)
            | None =>
                node ← get_mem (fun m => rc_Node (m_rc m));
                match NodeSelectorMatchesNodeLabels (Some node) (lvs_NodeSelector (lv_Spec lv)) with
                | Err err => mret (no_result, Some err)
                | Ok false => mret (no_result, None)
                | Ok true =>
                    DeletePVs ;;
                    let ownerLabels := owner_labels LocalVolumeKind (om_Namespace (lv_meta lv)) (om_Name (lv_meta lv)) in
                    err ← CleanupSymlinks ownerLabels (Some (negb (not_deleting (lv_meta lv))));
                    match err with
                    | Some e =>
                        warn ErrorRemovingSymLink (sprintf "failed to cleanup symlinks: %v" [error_text e]) "" ;;
                        mret (no_result, Some e)
                    | None => if negb (not_deleting (lv_meta lv)) then after_deletion ownerLabels else provision lv
                    end
                end
            end
        end
  end.
End lv.

(** ** Wiping *)

(** The commands of a trace that write to devices. *)
Definition exec_act (a : Act) : option (string * list string) :=
  match a with AExec cmd args => Some (cmd, args) | _ => None end.
Definition execs (t : list Act) : list (string * list string) := omap exec_act t.
Abbreviation no_exec := (traces (fun a => exec_act a = None)).

Lemma execs_none t : Forall (fun a => exec_act a = None) t -> execs t = [].
Proof. induction 1 as [|a t Ha _ IH]; [done|]. unfold execs in *. simpl. by rewrite Ha. Qed.

(** A run whose commands are a prefix of [l]. *)
Definition runs {E : Env} (l : list (string * list string)) (w w' : World) : Prop :=
  exists t, w_trace w' = (w_trace w ++ t)%list /\ (execs t = [] \/ execs t = l).

Abbreviation same_volumes := (same_of (fun m => (m_pvs m, m_rc m))).

Section wipe.
Context {E : Env}.

Lemma runs_none l w w' : no_exec w w' -> runs l w w'.
Proof. intros (t & ? & H). exists t. split; [done|]. left. by apply execs_none. Qed.

Lemma runs_l l w1 w2 w3 : no_exec w1 w2 -> runs l w2 w3 -> runs l w1 w3.
Proof.
  intros (t1 & T1 & H1) (t2 & T2 & H2). exists (t1 ++ t2)%list. rewrite T2, T1, app_assoc. split; [done|].
  unfold execs in *. rewrite omap_app. fold (execs t1). by rewrite execs_none.
Qed.

Lemma runs_r l w1 w2 w3 : runs l w1 w2 -> no_exec w2 w3 -> runs l w1 w3.
Proof.
  intros (t1 & T1 & H1) (t2 & T2 & H2). exists (t1 ++ t2)%list. rewrite T2, T1, app_assoc. split; [done|].
  unfold execs in *. rewrite omap_app. fold (execs t2). by rewrite (execs_none t2), app_nil_r.
Qed.

Lemma noexec_Report e : frame no_exec (Report e).
Proof. unfold Report. traces_tac. Qed.
Lemma noexec_warn r m d : frame no_exec (warn r m d).
Proof. apply noexec_Report. Qed.
Lemma noexec_OpenExcl q : frame no_exec (OpenExcl q).
Proof. unfold OpenExcl. traces_tac. Qed.
Lemma noexec_Close fd : frame no_exec (Close fd).
Proof. unfold Close. traces_tac. Qed.
Hint Resolve noexec_Report noexec_warn noexec_OpenExcl noexec_Close : lso_traces.
Lemma noexec_Lock q : frame no_exec (Lock q).
Proof. unfold Lock. traces_tac. Qed.
Lemma noexec_Unlock l : frame no_exec (Unlock l).
Proof. unfold Unlock. traces_tac. Qed.
Hint Resolve noexec_Lock : lso_traces.
Lemma noexec_GetPVCreationLock d l : frame no_exec (GetPVCreationLock d l).
Proof. unfold GetPVCreationLock. traces_tac. Qed.
Lemma reads_fileExists f : reads (fileExists f).
Proof. unfold fileExists. reads_tac. Qed.
Hint Resolve reads_fileExists : lso.
Hint Resolve noexec_Unlock noexec_GetPVCreationLock : lso_traces.

Lemma wp_wipe force src w :
  wp (wipe force src) (fun _ w' => no_exec w w' \/
    (runs [("wipefs", ["-a"; "-f"; src])] w w' /\ force = true)) w.
Proof.
  unfold wipe, Run. destruct force; [|apply wp_ret; by left]. apply wp_bind, wp_reads; [eauto with lso|].
  intros r e _. apply wp_bind, wp_act, wp_ret. right. split; [|done].
  exists [AExec "wipefs" ["-a"; "-f"; src]]. split; [done|by right].
Qed.

(** Only a wipe that the user asked for, of a device not used by name, runs. *)
Lemma wp_make_symlink loc src target idExists w :
  let guarded := dl_ForceWipe loc = true /\
    (idExists = true \/ checkForExistingPV (m_pvs (w_mem w)) (rc_Node (m_rc (w_mem w))) loc = false) in
  wp (make_symlink loc src target idExists) (fun _ w' =>
    no_exec w w' \/ (runs [("wipefs", ["-a"; "-f"; src])] w w' /\ guarded)) w.
Proof.
  intros guarded. unfold make_symlink. cbv zeta.
  apply wp_bind. eapply wp_mono; [apply wp_and|].
  { apply (frame_wp same_mem), same_mem_write_fs. }
  { apply (frame_wp no_exec). by apply traces_write_fs. }
  intros err w1 [H1 H1']. unfold same_mem in H1. destruct err as [e|].
  { eapply wp_mono; [apply (frame_wp no_exec); traces_tac|]. intros r w2 H2. left. by etrans. }
  apply wp_bind, wp_reads; [eauto with lso|]. intros ex e1 _. destruct ex; [apply wp_ret; by left|].
  apply wp_bind, wp_get_mem, wp_bind, wp_get_mem. simpl. rewrite H1.
  destruct (negb idExists && _) eqn:Hguard.
  { eapply wp_mono; [apply (frame_wp no_exec); traces_tac|]. intros r w2 H2. left. by etrans. }
  assert (idExists = true \/ checkForExistingPV (m_pvs (w_mem w)) (rc_Node (m_rc (w_mem w))) loc = false) as Hg.
  { apply andb_false_iff in Hguard as [Hg|Hg]; [left; by destruct idExists|by right]. }
  apply wp_bind. eapply wp_mono; [apply wp_wipe|]. intros err w2 Hw2.
  eapply wp_mono; [apply (frame_wp no_exec); traces_tac|]. intros r w3 H3.
  assert (no_exec w (set_est e1 w1)) as H0 by exact H1'.
  destruct Hw2 as [H2|[H2 Hf]]; [left; etrans; [exact H0|]; by etrans|right].
  split; [|by split]. eapply runs_l; [exact H0|]. by eapply runs_r.
Qed.

Lemma volumes_GetPVCreationLock d l : frame same_volumes (GetPVCreationLock d l).
Proof. unfold GetPVCreationLock, Lock, OpenExcl. same_tac. Qed.

Lemma wp_create_with_lock loc src target idExists locked links err w :
  let guarded := dl_ForceWipe loc = true /\
    (idExists = true \/ checkForExistingPV (m_pvs (w_mem w)) (rc_Node (m_rc (w_mem w))) loc = false) /\
    locked = true /\ links = [] /\ err = None in
  wp (create_with_lock loc src target idExists locked links err) (fun _ w' =>
    no_exec w w' \/ (runs [("wipefs", ["-a"; "-f"; src])] w w' /\ guarded)) w.
Proof.
  intros guarded. unfold create_with_lock. destruct links as [|l links]; simpl.
  - destruct err as [e|]; simpl; [|destruct locked; simpl].
    + eapply wp_mono; [apply (frame_wp no_exec); traces_tac|by left].
    + eapply wp_mono; [apply wp_make_symlink|]. intros r w' [H|[H [? ?]]]; [by left|right].
      by repeat split.
    + eapply wp_mono; [apply (frame_wp no_exec); traces_tac|by left].
  - eapply wp_mono; [apply (frame_wp no_exec); traces_tac|by left].
Qed.
End wipe.

(** C5: [createSymlink] runs [wipefs] at most once, and only when the user asked for
    it, the device could be locked, the search found no link to the device under the
    root directory, and the device is not used by its name by a known volume (unless
    it has a by-id path); it runs no other command that writes. *)
Theorem createSymlink_wipe_guarded {E : Env} (root : string) (loc : DiskLocation) (src target : string) (idExists : bool)
  (w : World) :
  let dev := (EvalSymlinks src w).1 in
  let w1 := (EvalSymlinks src w).2 in
  wp (createSymlink root loc src target idExists) (fun _ w' => exists t,
    w_trace w' = (w_trace w ++ t)%list /\
    (execs t = [] \/
     execs t = [("wipefs", ["-a"; "-f"; src])] /\ dl_ForceWipe loc = true /\
     (idExists = true \/ checkForExistingPV (m_pvs (w_mem w)) (rc_Node (m_rc (w_mem w))) loc = false) /\
     exists d, dev = Ok d /\ exists lock, (GetPVCreationLock d [root] w1).1 = (lock, true, [], None))) w.
Proof.
  intros dev w1. unfold createSymlink, evalSymlink. apply wp_bind. eapply wp_mono; [apply wp_self|].
  intros r w1' Hr. assert (dev = r /\ w1 = w1') as [Hdev <-] by (unfold dev, w1; by rewrite Hr).
  destruct (reads_EvalSymlinks src w) as (e1 & He & _). fold w1 in He.
  destruct r as [d|err]; [|apply wp_ret; exists []; rewrite He, app_nil_r; by repeat split; left].
  apply wp_bind. eapply wp_mono; [apply wp_and; [apply wp_self|]; apply wp_and|].
  { apply (frame_wp same_volumes), volumes_GetPVCreationLock. }
  { apply (frame_wp no_exec), noexec_GetPVCreationLock. }
  intros [[[lock locked] links] err] w2 (Hl & Hm & H2). unfold same_of in Hm. rewrite He in Hm. injection Hm as Hp Hrc.
  cbv beta iota zeta. apply wp_bind. eapply wp_mono; [apply wp_create_with_lock|]. cbv zeta. rewrite Hp, Hrc.
  intros res w3 H3. eapply (wp_bind_frame no_exec); [apply noexec_Unlock|]. intros u w4 H4. apply wp_ret.
  assert (no_exec w w2) as H02 by (rewrite He in H2; exact H2).
  destruct H3 as [H3|[H3 (Hf & Hg & -> & -> & ->)]].
  - assert (no_exec w w4) as (t & Ht & Hn) by (etrans; [exact H02|]; by etrans).
    exists t. split; [done|left; by apply execs_none].
  - assert (runs [("wipefs", ["-a"; "-f"; src])] w w4) as (t & Ht & [Hn|Hn])
      by (eapply runs_l; [exact H02|]; by eapply runs_r); exists t; (split; [done|]); [by left|right].
    split; [done|]. split; [done|]. split; [done|]. exists d. split; [done|]. exists lock. by rewrite Hl.
Qed.

(** ** Locks and deletion *)

(** [createSymlink] gives the device back on every branch: the descriptors that are
    open afterwards are those that were open before (closing an open descriptor does
    not fail). *)
Theorem createSymlink_unlocks {E : Env} (Hclose : close_works) (root : string) (loc : DiskLocation)
  (src target : string) (idExists : bool) (w : World) :
  wp (createSymlink root loc src target idExists) (fun _ w' => m_fds (w_mem w') = m_fds (w_mem w)) w.
Proof.
  unfold createSymlink. eapply (wp_bind_frame (same_of (fun m => m_fds m))).
  { apply frame_reads; [apply _|]. apply reads_EvalSymlinks. }
  intros r w1 H1. unfold same_of in H1. destruct r as [d|err]; [|by apply wp_ret].
  apply wp_bind. eapply wp_mono; [apply wp_GetPVCreationLock|].
  intros [[[lock locked] links] lockErr] w2 [<- H2]. cbv beta iota zeta.
  eapply (wp_bind_frame (same_of (fun m => m_fds m))).
  { unfold create_with_lock, make_symlink, wipe, Run, warn, Report, fileExists. same_tac. }
  intros res w3 H3. unfold same_of in H3. apply wp_bind.
  eapply wp_mono; [apply wp_Unlock; [done|]|].
  - intros Hl. rewrite Hl in H2. destruct H2 as [H2 _]. rewrite H3, H2, lookup_insert_eq. eauto.
  - intros u w4 H4. apply wp_ret. rewrite H4, H3. destruct (efl_locked lock); [|congruence].
    destruct H2 as [-> Hn]. rewrite delete_insert_id by done. congruence.
Qed.


(** ** Concrete runs *)

Definition ex_lv_devices (deletion : option Z) (force : bool) : LocalVolume :=
  {| lv_type := lv_type ex_lv;
     lv_meta := {| om_Name := "lv"; om_Namespace := "ns"; om_UID := "u"; om_Labels := ∅; om_Annotations := ∅;
                   om_Finalizers := []; om_OwnerReferences := []; om_CreationTimestamp := Some 1%Z;
                   om_DeletionTimestamp := deletion; om_Generation := 1; om_ResourceVersion := "1" |};
     lv_Spec := {| lvs_ManagementState := "Managed"; lvs_LogLevel := "Normal"; lvs_NodeSelector := None;
                   lvs_StorageClassDevices := [{| scd_StorageClassName := "sc"; scd_VolumeMode := "Block"; scd_FSType := "";
                                                  scd_DevicePaths := ["/dev/sda"; "/dev/sdz"]; scd_ForceWipe := force |}];
                   lvs_Tolerations := [] |};
     lv_Status := lv_Status ex_lv |}.

Definition lv_get (lv : LocalVolume) (k : Kind) : NamespacedName -> Res (Obj k) :=
  match k return NamespacedName -> Res (Obj k) with
  | KLV => fun _ => Ok lv
  | k => node_get (ex_lvset None None) k
  end.

Definition lv_api (lv : LocalVolume) : Static := {|
  st_get := lv_get lv; st_list := fun _ _ => []; st_fault := fun _ => None;
  st_exec := st_exec (node_api (ex_lvset None None)); st_file := fun _ => Ok ""; st_clock := 0 |}.

Definition ex_request : NamespacedName := {| nn_Namespace := "ns"; nn_Name := "lv" |}.

(** A disk given by name is wiped, linked under its by-id name, and gets a volume; the
    path that does not exist is only reported. *)
Example Reconcile_wipes_and_provisions :
  let s := lv_api (ex_lv_devices None true) in
  let r := Reconcile (E := static_env s) "/mnt/local-storage" ex_request
             (static_world s ex_fs (node_mem 0)) in
  (r.1, w_fs r.2 !! "/mnt/local-storage/sc/wwn-1", map (fun x => pv_Name x.1) (pv_creates (w_trace r.2)),
   execs (w_trace r.2))
  = (requeue_after defaultRequeueTime, None, Some (NLink "/dev/disk/by-id/wwn-1"), ["local-pv-d9ae1fe6"],
     [("wipefs", ["-a"; "-f"; "/dev/disk/by-id/wwn-1"])]).
Proof. vm_compute. reflexivity. Qed.

Lemma createSymlink_unlocks_witness :
  let s := lv_api (ex_lv_devices None true) in
  let w := static_world s ex_fs (set_m_rc ex_rc empty_mem) in
  let loc := {| dl_DiskNamePath := "/dev/sda"; dl_UserProvidedPath := "/dev/sda"; dl_DiskID := "/dev/disk/by-id/wwn-1";
                dl_BlockDevice := ex_dev; dl_ForceWipe := false; dl_SymlinkPath := ""; dl_SymlinkSource := "" |} in
  close_works (E := static_env s) /\
  wp (E := static_env s) (createSymlink (E := static_env s) "/mnt/local-storage" loc "/dev/disk/by-id/wwn-1"
        "/mnt/local-storage/sc/wwn-1" true) (fun r w' => r = true /\ m_fds (w_mem w') = ∅) w.
Proof.
  intros s w loc. assert (close_works (E := static_env s)) as Hc by done. split; [exact Hc|].
  split; [vm_compute; reflexivity|].
  exact (createSymlink_unlocks (E := static_env s) Hc "/mnt/local-storage" loc "/dev/disk/by-id/wwn-1"
        "/mnt/local-storage/sc/wwn-1" true w).
Defined.

