(* ===== verification/Recovery.v ===== *)
(** * A provisioning that was killed is resumed

    [Crash] and [LvSet.createSymlinkAndSyncPVAndLVDL_crash] say what a killed
    provisioning leaves on the node: at most the link of its volume.  This file says
    what the next run of either reconciler makes of that link: it finds it, makes no
    second one, and goes on with the volume and the device link of the same name,
    whatever the count of devices, the claims of other classes or the volumes of the
    node would have said of a device without a link. *)
From stdpp Require Import base list strings gmap.
From Stdlib Require Import ZArith Lia String.
From S2P Require Import Prelude GoLib Types World Sys Envs Crash DiskUtil ByID LinkCache Common Controller Symlinks DeviceLink Provisioner LvSet Lv.

Open Scope string_scope.

(** ** The link that is found *)

(** [p] is the first link of the class's directory that leads to the device, and the
    links before it lead elsewhere. *)
Definition found_first (fs : FS) (kname dir p : string) : Prop :=
  exists l1 l2, glob (S (String.length (path_join [dir; "*"]))) fs (path_join [dir; "*"]) = Ok (l1 ++ p :: l2)%list /\
    leads_to fs kname p /\ (forall q, q ∈ l1 -> leads_elsewhere fs kname q) /\
    path_join [dir; base p] = p /\ base p <> "".

Lemma leads_elsewhere_match fs kname p : leads_elsewhere fs kname p -> match_of fs kname p = Ok None.
Proof.
  unfold match_of, label_of. intros [(q & -> & Hb)|(e & -> & He)].
  - by rewrite bool_decide_eq_false_2.
  - by rewrite He.
Qed.

Lemma first_skip {A B} (l1 l2 : list A) (g : A -> Res (option B)) :
  (forall a, a ∈ l1 -> g a = Ok None) -> first (l1 ++ l2)%list g = first l2 g.
Proof.
  induction l1 as [|a l1 IH]; intros H; [done|]. simpl. rewrite (H a) by by left.
  apply IH. intros b Hb. apply H. by right.
Qed.

Section found.
Context {E : Env} (Hw : reads_work E).

Lemma answers_GetSymlinkedForCurrentSC fs kname dir p :
  found_first fs kname dir p -> answers (GetSymlinkedForCurrentSC dir kname) fs (Ok (base p)).
Proof using Hw.
  intros (l1 & l2 & Hg & Hp & H1 & _ & _). eapply answers_bind; [by apply answers_Glob|]. rewrite Hg.
  eapply answers_bind; [apply answers_firstM; intros q; by apply answers_matching|].
  rewrite first_skip by (intros q Hq; by apply leads_elsewhere_match, H1).
  simpl. unfold match_of at 1. rewrite leads_to_label by done. apply answers_ret.
Qed.

(** Reading the directory moves nothing but the outside. *)
Lemma finds_the_link kname dir p w :
  found_first (w_fs w) kname dir p ->
  exists e, est_read (w_est w) e /\ GetSymlinkedForCurrentSC dir kname w = (Ok (base p), set_est e w).
Proof using Hw.
  intros Hp. destruct (reads_GetSymlinkedForCurrentSC dir kname w) as (e & He & Hr).
  exists e. split; [done|]. pose proof (answers_GetSymlinkedForCurrentSC _ _ _ _ Hp w eq_refl) as Ha.
  unfold wp in Ha. destruct (GetSymlinkedForCurrentSC dir kname w) as [r w']. simpl in *. destruct Ha as [_ ->].
  by subst.
Qed.
End found.

(** ** The next run *)

Section resumed.
Context {E : Env}.

Lemma bind_eq {A B} (m : M A) (f : A -> M B) w a w' : m w = (a, w') -> bindM m f w = f a w'.
Proof. unfold bindM. by intros ->. Qed.

(** The sync that a killed run was about to make, or was making: from any tree it
    changes its own link alone, at every moment. *)
Lemma sync_own_changes args w :
  fkey (sa_SymLinkPath args ++s ".tmp") <> fkey (sa_SymLinkPath args) ->
  crash_wp (own_changes (w_fs w) (fkey (sa_SymLinkPath args)) (fkey (sa_SymLinkPath args ++s ".tmp")))
    (SyncPVAndLVDL args) (fun _ _ => True) w.
Proof.
  intros H. eapply cwp_mono; [apply keeps_own_SyncPVAndLVDL; [done|apply own_changes_refl]|done].
Qed.

(** The same for a user's LocalVolume, whose class is read again first. *)
Lemma existing_own_changes lv sc p loc mounts w :
  fkey (p ++s ".tmp") <> fkey p ->
  crash_wp (own_changes (w_fs w) (fkey p) (fkey (p ++s ".tmp")))
    (processExistingSymlink lv sc p loc mounts) (fun _ _ => True) w.
Proof.
  intros Htmp. set (I := own_changes (w_fs w) (fkey p) (fkey (p ++s ".tmp"))).
  assert (keeps I (processExistingSymlink lv sc p loc mounts)) as H.
  { unfold processExistingSymlink, syncPVAndLVDL.
    keeps_tac ltac:(by apply (keeps_own_SyncPVAndLVDL (w_fs w)
      {| sa_Object := _; sa_StorageClass := _; sa_MountPointMap := _; sa_SymLinkPath := p;
         sa_ExtraLabels := _; sa_BlockDevice := _ |})). }
  eapply cwp_mono; [apply H, own_changes_refl|done].
Qed.
End resumed.


(** The same for a LocalVolume: the device of a path whose link is there is
    provisioned through that link, without a wipe, a lock or a second link; whether it
    counts as provisioned is whether its sync succeeded. *)
Theorem local_volume_resumed {E : Env} (root : string) (lv : LocalVolume) (sc path p : string) (loc : DiskLocation)
  (mounts : gset string) (w : World) (Hw : reads_work E)
  (Hp : found_first (w_fs w) (bd_KName (dl_BlockDevice loc)) (path_join [root; sc]) p)
  (Htmp : fkey (p ++s ".tmp") <> fkey p) :
  let sync := processExistingSymlink lv sc p loc mounts in
  exists e, est_read (w_est w) e /\
    provisionValidDevice root lv sc (path_join [root; sc]) path loc mounts w
      = bindM sync (fun err => match err with
                               | Some e => reportProvisioningError path e ;; mret false
                               | None => mret true
                               end) (set_est e w) /\
    crash_wp (own_changes (w_fs w) (fkey p) (fkey (p ++s ".tmp"))) sync (fun _ _ => True) (set_est e w).
Proof.
  intros sync. destruct (finds_the_link Hw _ _ _ _ Hp) as (e & He & Hs). exists e. split; [done|]. split.
  - unfold provisionValidDevice. rewrite (bind_eq _ _ _ _ _ Hs). destruct Hp as (l1 & l2 & _ & _ & _ & Hj & Hb).
    rewrite decide_True by done. cbv zeta. by rewrite Hj.
  - exact (existing_own_changes lv sc p loc mounts (set_est e w) Htmp).
Qed.

(** ** Concrete runs *)

(** The tree of a run that is killed right after [os.Symlink]: the directory is there
    already, so the link is the first change of a first provisioning. *)
Definition until_link (t : list Act) : list Act :=
  (fix go (t : list Act) := match t with
     | [] => []
     | ASys (SSymlink a b) None :: _ => [ASys (SSymlink a b) None]
     | a :: t => a :: go t
     end) t.

Definition killed_fs : FS :=
  let s := node_api (ex_lvset None None) in
  replay ex_fs (until_link (w_trace
    (createSymlinkAndSyncPVAndLVDL (E := static_env s) (ex_lvset None None) ex_dev ex_sc ∅
       "/dev/disk/by-id/wwn-1" "/mnt/local-storage/sc/wwn-1" (static_world s ex_fs (set_m_rc ex_rc empty_mem))).2)).

Lemma killed_fs_links : 
  killed_fs !! "/mnt/local-storage/sc/wwn-1" = Some (NLink "/dev/disk/by-id/wwn-1") /\
  found_first killed_fs "sda" "/mnt/local-storage/sc" "/mnt/local-storage/sc/wwn-1".
Proof.
  split; [vm_compute; reflexivity|]. exists [], [].
  split; [vm_compute; reflexivity|]. split; [exists "/dev/sda"; vm_compute; done|].
  split; [intros q Hq; by apply elem_of_nil in Hq|]. split; [vm_compute; reflexivity|done].
Qed.


Lemma local_volume_resumed_witness :
  let s := lv_api (ex_lv_devices None true) in
  let w := static_world s killed_fs (set_m_rc ex_rc empty_mem) in
  let p := "/mnt/local-storage/sc/wwn-1" in
  let loc := {| dl_DiskNamePath := "/dev/sda"; dl_UserProvidedPath := "/dev/sda"; dl_DiskID := "";
                dl_BlockDevice := ex_dev; dl_ForceWipe := true; dl_SymlinkPath := ""; dl_SymlinkSource := "" |} in
  let run := provisionValidDevice (E := static_env s) "/mnt/local-storage" ex_lv "sc" "/mnt/local-storage/sc" "/dev/sda" loc ∅ in
  reads_work (static_env s) /\
  run w = bindM (E := static_env s) (processExistingSymlink (E := static_env s) ex_lv "sc" p loc ∅)
            (fun err => match err with
                        | Some e => reportProvisioningError "/dev/sda" e ;; mret false
                        | None => mret true
                        end) w /\
  execs (w_trace (run w).2) = [] /\ (run w).1 = true.
Proof.
  intros s w p loc run. assert (reads_work (static_env s)) as Hw by by intros []. split; [exact Hw|].
  split; [|vm_compute; done].
  assert (fkey (p ++s ".tmp") <> fkey p) as Htmp by (by vm_compute).
  destruct (local_volume_resumed (E := static_env s) "/mnt/local-storage" ex_lv "sc" "/dev/sda" p loc ∅ w Hw
    (proj2 killed_fs_links) Htmp) as ([] & _ & H & _).
  exact H.
Defined.
