(* ===== verification/Discovery.v ===== *)
(** * Device discovery: pkg/diskmaker/discovery

    discovery.go, sync_result.go and monitor.go.  The discovery daemon has its own
    process and memory; [w_mem]'s [m_disks] is [DeviceDiscovery.disks].  Its loop is
    driven by stimuli: the termination signal, the probe timer and udev events. *)
From stdpp Require Import base list strings gmap.
From Stdlib Require Import ZArith Lia Ascii String.
From S2P Require Import Prelude GoLib Types World Sys Envs Crash DiskUtil Common Matcher Metrics.

Open Scope string_scope.

Definition localVolumeDiscoveryComponent := "auto-discover-devices".
Definition udevEventPeriod : Z := 5 * second.
Definition probeInterval : Z := 300 * second.
Definition resultCRName := "discovery-result-%s".
Definition DNS1123SubdomainMaxLength : nat := 253.

Definition supportedDeviceTypes : list string := ["disk"; "part"; "lvm"; "mpath"].

Definition ErrorCreatingDiscoveryResultObject := "ErrorCreatingDiscoveryResultObject".
Definition ErrorUpdatingDiscoveryResultObject := "ErrorUpdatingDiscoveryResultObject".
Definition ErrorListingBlockDevices := "ErrorListingBlockDevices".
Definition CreatedDiscoveryResultObject := "CreatedDiscoveryResultObject".
Definition UpdatedDiscoveredDeviceList := "UpdatedDiscoveredDeviceList".

Definition NewEvent (eventReason message disk : string) : DiskEvent :=
  newDiskEvent eventReason message disk EventTypeWarning.
Definition NewSuccessEvent (eventReason message disk : string) : DiskEvent :=
  newDiskEvent eventReason message disk EventTypeNormal.

(** ** The devices *)

Definition parseDeviceProperty (property : string) : string :=
  if decide (property = "1") then Rotational
  else if decide (property = "0") then NonRotational else "".

Definition parseDeviceType (deviceType : string) : string :=
  if decide (deviceType = "disk") then "disk"
  else if decide (deviceType = "part") then "part"
  else if decide (deviceType = "lvm") then "lvm"
  else if decide (deviceType = "mpath") then "mpath" else "".

(** The map from keys to indices is read back from the list built so far. *)
Definition device_key (d : DiscoveredDevice) : string * string := (dd_DeviceID d, dd_Path d).

Fixpoint index_of (k : string * string) (unique : list DiscoveredDevice) : option nat :=
  match unique with
  | [] => None
  | d :: ds => if decide (device_key d = k) then Some O else option_map S (index_of k ds)
  end.

Definition add_unique (unique : list DiscoveredDevice) (v : DiscoveredDevice) : list DiscoveredDevice :=
  match index_of (device_key v) unique with
  | Some i => <[i := v]> unique
  | None => (unique ++ [v])%list
  end.

Definition uniqueDevices (sample : list DiscoveredDevice) : list DiscoveredDevice :=
  fold_left add_unique sample [].

(** ** The name of the result object *)

Definition hash (s : string) : string := hex_encode (take 16 (sha256 (bytes s))).

Definition truncateNodeName (nodeName : string) : string :=
  let name := if (DNS1123SubdomainMaxLength <? String.length nodeName + String.length (sprintf resultCRName [""]))%nat
              then hash nodeName else nodeName in
  sprintf resultCRName [name].

Definition newDiscoveryResultInstance (nodeName namespace parentObjName parentObjUID : string)
  : LocalVolumeDiscoveryResult :=
  {| lvdr_meta := {| om_Name := truncateNodeName nodeName; om_Namespace := namespace; om_UID := "";
                     om_Labels := {[DiscoveryNodeLabel := nodeName]}; om_Annotations := ∅; om_Finalizers := [];
                     om_OwnerReferences := [{| or_APIVersion := "local.storage.openshift.io/v1alpha1";
                                               or_Kind := "LocalVolumeDiscovery"; or_Name := parentObjName;
                                               or_UID := parentObjUID; or_Controller := None;
                                               or_BlockOwnerDeletion := None |}];
                     om_CreationTimestamp := None; om_DeletionTimestamp := None; om_Generation := 0;
                     om_ResourceVersion := "" |};
     lvdr_NodeName := nodeName; lvdr_DiscoveredTimeStamp := ""; lvdr_DiscoveredDevices := [] |}.

Definition set_result (devices : list DiscoveredDevice) (time : string) (r : LocalVolumeDiscoveryResult)
  : LocalVolumeDiscoveryResult :=
  {| lvdr_meta := lvdr_meta r; lvdr_NodeName := lvdr_NodeName r; lvdr_DiscoveredTimeStamp := time;
     lvdr_DiscoveredDevices := devices |}.

(** [t.UTC().Format(time.RFC3339)] of nanoseconds since the epoch. *)
Definition pad (n : nat) (x : Z) : string :=
  let s := itoa x in String.concat "" (repeat "0" (n - String.length s)) ++s s.
Definition civil (days : Z) : Z * Z * Z :=
  let z := (days + 719468)%Z in
  let era := (z / 146097)%Z in
  let doe := (z - era * 146097)%Z in
  let yoe := ((doe - doe / 1460 + doe / 36524 - doe / 146096) / 365)%Z in
  let doy := (doe - (365 * yoe + yoe / 4 - yoe / 100))%Z in
  let mp := ((5 * doy + 2) / 153)%Z in
  let d := (doy - (153 * mp + 2) / 5 + 1)%Z in
  let m := (if mp <? 10 then mp + 3 else mp - 9)%Z in
  ((yoe + era * 400 + (if m <=? 2 then 1 else 0))%Z, m, d).
Definition rfc3339 (t : Z) : string :=
  let s := (t / second)%Z in
  let '(y, m, d) := civil (s / 86400)%Z in
  let r := (s mod 86400)%Z in
  pad 4 y ++s "-" ++s pad 2 m ++s "-" ++s pad 2 d ++s "T" ++s pad 2 (r / 3600)%Z ++s ":"
  ++s pad 2 (r / 60 mod 60)%Z ++s ":" ++s pad 2 (r mod 60)%Z ++s "Z".

Section discovery.
Context {E : Env}.

Definition ignoreDevices (dev : BlockDevice) : M bool :=
  if match GetReadOnly dev with Err _ => true | Ok readOnly => readOnly end then mret true
  else
    r ← HasChildren dev;
    if match r with Err _ => true | Ok hasChildren => hasChildren end then mret true
    else if decide (bd_State dev = StateSuspended) then mret true
    else mret (negb (bool_decide (bd_Type dev ∈ supportedDeviceTypes))).

Definition getDeviceStatus (dev : BlockDevice) : M string :=
  if decide (bd_FSType dev <> "") then mret NotAvailable
  else match noBiosBootInPartLabel dev with
       | Err _ => mret Unknown
       | Ok false => mret NotAvailable
       | Ok true =>
           r ← canOpenExclusively dev;
           match r with
           | Err _ => mret Unknown
           | Ok false => mret NotAvailable
           | Ok true =>
               r ← HasBindMounts dev;
               mret (match r with
                     | Err _ => Unknown
                     | Ok (true, _) => NotAvailable
                     | Ok (false, _) => Available
                     end)
           end
       end.

Definition discovered_device (blockDevice : BlockDevice) : M DiscoveredDevice :=
  r ← GetPathByID blockDevice;
  let '(path, err, blockDevice) := (r : string * option GoErr * BlockDevice) in
  let deviceID := match err with Some _ => "" | None => path end in
  state ← getDeviceStatus blockDevice;
  mret {| dd_DeviceID := deviceID; dd_Path := (GetDevPath blockDevice).1; dd_Model := bd_Model blockDevice;
          dd_Type := parseDeviceType (bd_Type blockDevice); dd_Vendor := bd_Vendor blockDevice;
          dd_Serial := bd_Serial blockDevice; dd_Size := (parse_int (bd_Size blockDevice)).1;
          dd_Property := parseDeviceProperty (bd_Rotational blockDevice);
          dd_FSType := bd_FSType blockDevice; dd_State := state |}.

Fixpoint map_devices (blockDevices : list BlockDevice) : M (list DiscoveredDevice) :=
  match blockDevices with
  | [] => mret []
  | b :: bs => d ← discovered_device b; ds ← map_devices bs; mret (d :: ds)
  end.

Definition getDiscoverdDevices (blockDevices : list BlockDevice) : M (list DiscoveredDevice) :=
  ds ← map_devices blockDevices;
  mret (uniqueDevices ds).

Fixpoint keep_devices (blockDevices : list BlockDevice) : M (list BlockDevice) :=
  match blockDevices with
  | [] => mret []
  | b :: bs => ignored ← ignoreDevices b;
               rest ← keep_devices bs;
               mret (if ignored : bool then rest else b :: rest)
  end.

Definition getValidBlockDevices : M (Res (list BlockDevice)) :=
  b ← ListBlockDevices [];
  match b with
  | (_, output, Some err) =>
      mret (Err (Wrap (sprintf "failed to list all the block devices in the node, stderr=%v" [show_list output]) err))
  | (blockDevices, _, None) =>
      validDevices ← keep_devices blockDevices;
      mret (Ok validDevices)
  end.

(** ** The result object *)

(** *** The client of pkg/diskmaker/api_updater.go: every read is of the API server. *)
Definition GetDiscoveryResult (name namespace : string) : M (Res LocalVolumeDiscoveryResult) :=
  ReaderGet KLVDR {| nn_Namespace := namespace; nn_Name := name |}.
Definition CreateDiscoveryResult (lvdr : LocalVolumeDiscoveryResult) : M (Res LocalVolumeDiscoveryResult) :=
  ClientCreate KLVDR lvdr.
Definition UpdateDiscoveryResultStatus (lvdr : LocalVolumeDiscoveryResult) : M (Res LocalVolumeDiscoveryResult) :=
  StatusUpdate KLVDR lvdr.

Definition nodeName_env : string := Getenv "MY_NODE_NAME".
Definition namespace_env : string := Getenv "WATCH_NAMESPACE".

Definition ensureDiscoveryResultCR : M (option GoErr) :=
  let parentObjUID := Getenv "DISCOVERY_OBJECT_UID" in
  let parentObjName := Getenv "DISCOVERY_OBJECT_NAME" in
  if decide (nodeName_env = "" \/ namespace_env = "" \/ parentObjUID = "" \/ parentObjName = "")
  then mret (Some (Errorf "failed to create LocalVolumeDiscoveryResult resource. missing required env variables"))
  else
    let newCR := newDiscoveryResultInstance nodeName_env namespace_env parentObjName parentObjUID in
    r ← GetDiscoveryResult (om_Name (lvdr_meta newCR)) (om_Namespace (lvdr_meta newCR));
    match r with
    | Ok _ => mret None
    | Err err =>
        if is_not_found err then
          r ← CreateDiscoveryResult newCR;
          match r with
          | Err err => mret (Some (Wrap "failed to create LocalVolumeDiscoveryResult resource" err))
          | Ok _ =>
              Report (NewSuccessEvent CreatedDiscoveryResultObject
                        "successfully created LocalVolumeDiscoveryResult resource" "") ;;
              mret None
          end
        else mret (Some err)
    end.

Definition updateStatus : M (option GoErr) :=
  r ← GetDiscoveryResult (truncateNodeName nodeName_env) namespace_env;
  match r with
  | Err err =>
      if is_not_found err then mret None
      else mret (Some (Wrap "failed to retrieve LocalVolumeDiscoveryResult resource to update status" err))
  | Ok resultCR =>
      disks ← get_mem m_disks;
      now ← ask clock;
      r ← UpdateDiscoveryResultStatus (set_result disks (rfc3339 now) resultCR);
      match r with
      | Err err =>
          mret (Some (Wrap "failed to update the device status in the LocalVolumeDiscoveryResult resource" err))
      | Ok _ => mret None
      end
  end.

Definition discoverDevices : M (option GoErr) :=
  v ← getValidBlockDevices;
  match v with
  | Err err =>
      Report (NewEvent ErrorListingBlockDevices
                (sprintf "failed to discover devices. Error: %+v" [error_text err]) "") ;;
      mret (Some (Wrap "failed to discover devices" err))
  | Ok validDevices =>
      discoveredDisks ← getDiscoverdDevices validDevices;
      SetDiscoveredDevicesMetrics nodeName_env (Z.of_nat (List.length discoveredDisks)) ;;
      disks ← get_mem m_disks;
      if decide (disks = discoveredDisks) then mret None
      else
        put_mem (set_m_disks discoveredDisks) ;;
        err ← updateStatus;
        match err with
        | Some err =>
            Report (NewEvent ErrorUpdatingDiscoveryResultObject
                      (sprintf "failed to update LocalVolumeDiscoveryResult status. Error: %+v" [error_text err]) "") ;;
            mret (Some (Wrap "failed to update LocalVolumeDiscoveryResult status" err))
        | None =>
            Report (NewSuccessEvent UpdatedDiscoveredDeviceList
                      "successfully updated discovered device details in the LocalVolumeDiscoveryResult resource" "") ;;
            mret None
        end
  end.

(** ** The loop of [Start] *)

Inductive Stimulus :=
  | SIGTERM
  | ProbeTimer
  | UdevEvent
  | UdevClosed.

(** The loop reacts to stimuli until the signal; whether udev is still watched is
    threaded, since a nil channel is never ready. [None]: still running. *)
Fixpoint serve (watching : bool) (l : list Stimulus) : M (option (option GoErr)) :=
  match l with
  | [] => mret None
  | SIGTERM :: _ => mret (Some None)
  | ProbeTimer :: l' => _ ← discoverDevices; serve watching l'
  | UdevEvent :: l' => if watching then (_ ← discoverDevices; serve watching l') else serve watching l'
  | UdevClosed :: l' => serve false l'
  end.

Definition Start (l : list Stimulus) : M (option (option GoErr)) :=
  err ← ensureDiscoveryResultCR;
  match err with
  | Some err =>
      Report (NewEvent ErrorCreatingDiscoveryResultObject
                (sprintf "failed to start device discovery. Error: %+v" [error_text err]) "") ;;
      mret (Some (Some (Wrap "failed to start device discovery" err)))
  | None =>
      _ ← discoverDevices;
      serve true l
  end.
End discovery.

Example rfc3339_example : rfc3339 (1709210096 * second) = "2024-02-29T12:34:56Z".
Proof. vm_compute. reflexivity. Qed.

(** ** Duplicates *)

Lemma index_of_Some k u i :
  index_of k u = Some i -> exists d, u !! i = Some d /\ device_key d = k.
Proof.
  revert i. induction u as [|d u IH]; intros i; simpl; [done|]. case_decide as Hd.
  - intros [= <-]. by exists d.
  - destruct (index_of k u) as [j|]; [|done]. intros [= <-]. by apply IH.
Qed.

Lemma index_of_None k u : index_of k u = None -> forall d, d ∈ u -> device_key d <> k.
Proof.
  induction u as [|d u IH]; simpl; intros H d' Hd'; [set_solver|]. case_decide as Hd; [done|].
  destruct (index_of k u); [done|]. apply elem_of_cons in Hd' as [->|?]; auto.
Qed.

Lemma add_unique_keys u v :
  map device_key (add_unique u v) =
  if index_of (device_key v) u then map device_key u else (map device_key u ++ [device_key v])%list.
Proof.
  unfold add_unique. destruct (index_of (device_key v) u) as [i|] eqn:Hi; [|by rewrite map_app].
  apply index_of_Some in Hi as (d & Hd & Hk). change (map device_key) with (fmap (M := list) device_key).
  rewrite list_fmap_insert. apply list_insert_id. rewrite list_lookup_fmap, Hd. simpl. by rewrite Hk.
Qed.

Lemma elem_of_add_unique u v d :
  NoDup (map device_key u) ->
  d ∈ add_unique u v <-> d = v \/ (d ∈ u /\ device_key d <> device_key v).
Proof.
  intros Hnd. unfold add_unique. destruct (index_of (device_key v) u) as [i|] eqn:Hi.
  - apply index_of_Some in Hi as (d0 & Hd0 & Hk). rewrite (list_elem_of_lookup (<[_:=_]> u)). split.
    + intros [j Hj]. destruct (decide (j = i)) as [->|Hne].
      * rewrite list_lookup_insert_eq in Hj by (by eapply lookup_lt_Some). left. congruence.
      * rewrite list_lookup_insert_ne in Hj by done. right. split; [by eapply list_elem_of_lookup_2|].
        intros Heq. apply Hne. eapply (NoDup_lookup _ _ _ (device_key v) Hnd);
          change (map device_key u) with (device_key <$> u); rewrite list_lookup_fmap.
        -- rewrite Hj. simpl. by rewrite Heq.
        -- rewrite Hd0. simpl. by rewrite Hk.
    + intros [-> | [Hin Hne]].
      * exists i. apply list_lookup_insert_eq. by eapply lookup_lt_Some.
      * apply list_elem_of_lookup in Hin as [j Hj]. exists j. rewrite list_lookup_insert_ne; [done|].
        intros <-. rewrite Hd0 in Hj. injection Hj as <-. done.
  - rewrite elem_of_app, list_elem_of_singleton. pose proof (index_of_None _ _ Hi) as Hn. split.
    + intros [Hin | ->]; [right|by left]. split; [done|]. by apply Hn.
    + intros [-> | [H1 H2]]; [by right|by left].
Qed.

(** The last device of the list with a key. *)
Definition last_with (k : string * string) (l : list DiscoveredDevice) : option DiscoveredDevice :=
  last (filter (fun d => device_key d = k) l).

(** [uniqueDevices] keeps exactly one device per pair of id and path: of the devices
    of the list with that pair it keeps the last one, and nothing else. *)
Theorem uniqueDevices_spec (l : list DiscoveredDevice) :
  NoDup (map device_key (uniqueDevices l)) /\
  forall d, d ∈ uniqueDevices l <-> last_with (device_key d) l = Some d.
Proof.
  induction l as [|v l [Hnd IH]] using rev_ind; [split; [constructor|set_solver]|].
  unfold uniqueDevices, last_with in *. rewrite fold_left_app. simpl. split.
  - rewrite add_unique_keys. destruct (index_of _ _) eqn:Hi; [done|].
    apply NoDup_app. split; [done|]. split; [|apply NoDup_singleton]. intros k Hk.
    apply list_elem_of_fmap in Hk as (d & -> & Hd). rewrite list_elem_of_singleton. by eapply index_of_None.
  - intros d. rewrite elem_of_add_unique, IH by done. rewrite filter_app.
    rewrite (filter_cons (fun d0 => device_key d0 = device_key d) v []), filter_nil. case_decide as Hk.
    + rewrite last_snoc. split; [intros [-> | [_ H1]]; congruence|]. intros [= ->]. by left.
    + rewrite app_nil_r. split; [intros [-> | [H1 H2]]; done|]. intros H. right. by split.
Qed.

(** ** The name of the result object *)

Lemma hex_encode_length l : String.length (hex_encode l) = (2 * List.length l)%nat.
Proof. induction l; simpl; [done|]. rewrite IHl. lia. Qed.

Lemma sprintf_resultCRName s : sprintf resultCRName [s] = "discovery-result-" ++s s.
Proof. simpl. by rewrite str_app_nil_r. Qed.

(** The name of a node's result object is never longer than a subdomain may be (253
    bytes), and is the node's name behind the prefix when that fits. *)
Theorem truncateNodeName_bounds (nodeName : string) :
  (String.length (truncateNodeName nodeName) <= DNS1123SubdomainMaxLength)%nat /\
  ((String.length nodeName <= 236)%nat -> truncateNodeName nodeName = "discovery-result-" ++s nodeName).
Proof.
  unfold truncateNodeName. rewrite !sprintf_resultCRName, !str_length_app.
  change (String.length "discovery-result-") with 17. change (String.length "") with 0.
  change DNS1123SubdomainMaxLength with 253. cbv zeta.
  destruct (Nat.ltb_spec 253 (String.length nodeName + (17 + 0))); split; try lia; [|done].
  unfold hash. rewrite hex_encode_length, length_take. lia.
Qed.

(** ** Reporting *)

Definition result_write (a : Act) : option (LocalVolumeDiscoveryResult * option GoErr) :=
  match a with AStatus KLVDR o e => Some (o, e) | _ => None end.
Definition result_writes (t : list Act) : list (LocalVolumeDiscoveryResult * option GoErr) := omap result_write t.
Abbreviation no_result_write := (traces (fun a => result_write a = None)).
Abbreviation same_disks := (same_of (fun m => m_disks m)).

Lemma result_writes_none t : Forall (fun a => result_write a = None) t -> result_writes t = [].
Proof. induction 1 as [|a t Ha _ IH]; [done|]. unfold result_writes in *. simpl. by rewrite Ha. Qed.

Section report.
Context {E : Env}.

(** The devices a run finds. *)
Definition find_devices : M (Res (list DiscoveredDevice)) :=
  v ← getValidBlockDevices;
  match v with
  | Err err => mret (Err err)
  | Ok validDevices => ds ← getDiscoverdDevices validDevices; mret (Ok ds)
  end.

Lemma frame_canOpen R `{!Rel R} dev :
  (forall q, frame R (OpenExcl q)) -> (forall fd, frame R (Close fd)) -> frame R (canOpenExclusively dev).
Proof. intros Ho Hc. unfold canOpenExclusively. frame_tac ltac:(idtac; first [apply Ho|apply Hc]). Qed.

Lemma frame_valid R `{!Rel R} : frame R getValidBlockDevices.
Proof.
  unfold getValidBlockDevices.
  assert (forall l, frame R (keep_devices l)) as Hk.
  { induction l as [|b l IH]; simpl; [apply frame_ret, _|]. unfold ignoreDevices. frame_tac idtac. }
  frame_tac ltac:(apply Hk).
Qed.

Lemma frame_discovered R `{!Rel R} l :
  (forall q, frame R (OpenExcl q)) -> (forall fd, frame R (Close fd)) -> frame R (getDiscoverdDevices l).
Proof.
  intros Ho Hc. unfold getDiscoverdDevices. apply frame_bind; [apply _| |intros; apply frame_ret, _].
  induction l as [|b l IH]; simpl; [apply frame_ret, _|]. unfold discovered_device, getDeviceStatus.
  frame_tac ltac:(by apply frame_canOpen).
Qed.

Lemma disks_OpenExcl p : frame same_disks (OpenExcl p).
Proof. unfold OpenExcl. same_tac. Qed.
Lemma disks_Close fd : frame same_disks (Close fd).
Proof. unfold Close. same_tac. Qed.
Lemma nowrite_OpenExcl p : frame no_result_write (OpenExcl p).
Proof. unfold OpenExcl. traces_tac. Qed.
Lemma nowrite_Close fd : frame no_result_write (Close fd).
Proof. unfold Close. traces_tac. Qed.
Lemma nowrite_Report e : frame no_result_write (Report e).
Proof. unfold Report. traces_tac. Qed.
Lemma disks_Report e : frame same_disks (Report e).
Proof. unfold Report. same_tac. Qed.

(** A run that writes the status at most once, and then with the devices [ds]. *)
Definition one_result (ds : list DiscoveredDevice) (failed : Prop) (w w' : World) : Prop :=
  exists t, w_trace w' = (w_trace w ++ t)%list /\
    (result_writes t = [] \/
     exists o e, result_writes t = [(o, e)] /\ lvdr_DiscoveredDevices o = ds /\ (e <> None -> failed)).

Lemma one_result_frame ds P w1 w2 w3 w4 :
  no_result_write w1 w2 -> one_result ds P w2 w3 -> no_result_write w3 w4 -> one_result ds P w1 w4.
Proof.
  intros (t1 & T1 & H1) (t2 & T2 & H2) (t3 & T3 & H3). exists (t1 ++ t2 ++ t3)%list.
  rewrite T3, T2, T1, !app_assoc. split; [done|]. unfold result_writes in *. rewrite !omap_app.
  fold (result_writes t1) (result_writes t3). rewrite (result_writes_none t1), (result_writes_none t3) by done.
  by rewrite app_nil_r.
Qed.

Lemma wp_write_result w :
  wp updateStatus (fun r w' => same_disks w w' /\ one_result (m_disks (w_mem w)) (r <> None) w w') w.
Proof.
  unfold updateStatus, GetDiscoveryResult. apply wp_bind, wp_reads; [eauto with lso|]. intros r e1 _.
  assert (one_result (m_disks (w_mem w)) False w (set_est e1 w)) as H0.
  { exists []. rewrite app_nil_r. split; [done|by left]. }
  destruct r as [cr|err].
  2: { goal_case; apply wp_ret; (split; [done|]); exists []; rewrite app_nil_r; (split; [done|by left]). }
  apply wp_bind, wp_get_mem, wp_bind, wp_ask. intros now e2 _. simpl. apply wp_bind. unfold UpdateDiscoveryResultStatus, StatusUpdate.
  apply wp_bind, wp_ask. intros r e3 _. apply wp_bind, wp_act, wp_ret.
  destruct r as [o|err]; apply wp_ret; (split; [done|]); eexists; (split; [done|right]); by repeat eexists.
Qed.

(** What a run does with the devices it finds. *)
Definition report_spec (found : Res (list DiscoveredDevice)) (w : World) (r : option GoErr) (w' : World) : Prop :=
  match found with
  | Err _ => r <> None /\ same_disks w w' /\ no_result_write w w'
  | Ok ds => m_disks (w_mem w') = ds /\ one_result ds (r <> None) w w' /\
             (ds = m_disks (w_mem w) -> r = None /\ no_result_write w w')
  end.

(** A step that neither touches the list of disks nor writes a result. *)
Lemma wp_aside {A} (m : M A) (Q : A -> World -> Prop) w :
  frame same_disks m -> frame no_result_write m ->
  (forall a w', m w = (a, w') -> same_disks w w' -> no_result_write w w' -> Q a w') -> wp m Q w.
Proof.
  intros Hd Hn HQ. pose proof (Hd w) as H1. pose proof (Hn w) as H2. unfold wp.
  destruct (m w) as [a w'] eqn:Hm. by apply HQ.
Qed.

Lemma wp_discoverDevices w : wp discoverDevices (report_spec (find_devices w).1 w) w.
Proof.
  unfold discoverDevices, find_devices. rewrite run_bind. apply wp_bind, wp_aside.
  { apply frame_valid, _. } { apply frame_valid, _. }
  intros v w1 -> D1 N1. destruct v as [devs|err].
  2: { apply wp_bind, wp_aside; [apply disks_Report|apply nowrite_Report|]. intros u w2 _ D2 N2.
       apply wp_ret. split; [done|]. split; by etrans. }
  rewrite run_bind. apply wp_bind, wp_aside.
  { apply frame_discovered; [apply _|apply disks_OpenExcl|apply disks_Close]. }
  { apply frame_discovered; [apply _|apply nowrite_OpenExcl|apply nowrite_Close]. }
  intros ds w2 -> D2 N2. apply wp_bind. unfold SetDiscoveredDevicesMetrics, SetMetric. apply wp_act, wp_bind, wp_get_mem.
  set (w3 := log _ w2).
  assert (no_result_write w w3) as N3 by (etrans; [exact N1|]; etrans; [exact N2|]; by apply traces_log).
  assert (m_disks (w_mem w3) = m_disks (w_mem w)) as D3 by (unfold same_of in *; simpl; congruence).
  case_decide as Hds.
  { apply wp_ret. simpl. split; [done|]. split; [|done]. destruct N3 as (t & Ht & Hn).
    exists t. split; [done|]. left. by apply result_writes_none. }
  apply wp_bind, wp_put_mem, wp_bind. eapply wp_mono; [apply wp_write_result|]. intros err w4 [D4 H4].
  assert (forall e, wp (Report e) (fun _ w5 => m_disks (w_mem w5) = ds /\ one_result ds (err <> None) w w5) w4) as HR.
  { intros e. apply wp_aside; [apply disks_Report|apply nowrite_Report|]. intros u w5 _ D5 N5.
    unfold same_of in *. split; [by rewrite D5, D4|]. by eapply one_result_frame. }
  destruct err as [err|]; apply wp_bind; (eapply wp_mono; [apply HR|]); intros u w5 [D5 H5]; apply wp_ret;
    (split; [done|]); (split; [|congruence]); destruct H5 as (t & Ht & Hr); exists t; (split; [done|]);
    (destruct Hr as [?|(o & e & ? & ? & ?)]; [by left|right; exists o, e; repeat split; auto]).
Qed.
End report.

(** C36: one discovery run: when the devices cannot be listed it fails, keeps the list it
    had and writes no result; otherwise the new list is remembered and the result
    object is written at most once, with exactly the devices found, a failure to
    write being returned; and when the devices are those of the remembered list,
    nothing is written at all. *)
Theorem discoverDevices_reports {E : Env} (w : World) :
  wp discoverDevices (fun r w' => exists t, w_trace w' = (w_trace w ++ t)%list /\
    match (find_devices w).1 with
    | Err _ => r <> None /\ m_disks (w_mem w') = m_disks (w_mem w) /\ result_writes t = []
    | Ok ds =>
        m_disks (w_mem w') = ds /\
        (ds = m_disks (w_mem w) -> r = None /\ result_writes t = []) /\
        (result_writes t = [] \/ exists o e, result_writes t = [(o, e)] /\ lvdr_DiscoveredDevices o = ds /\
                                   (e <> None -> r <> None))
    end) w.
Proof.
  eapply wp_mono; [apply wp_discoverDevices|]. intros r w' H. unfold report_spec in H.
  destruct (find_devices w).1 as [ds|err].
  - destruct H as (Hd & (t & Ht & Hr) & Hsame). exists t. split; [done|]. split; [done|]. split; [|done].
    intros Heq. destruct (Hsame Heq) as (Hn & t' & Ht' & Hq). split; [done|].
    rewrite Ht in Ht'. apply app_inv_head in Ht' as ->. by apply result_writes_none.
  - destruct H as (Hn & Hd & t & Ht & Hq). exists t. split; [done|]. split; [done|].
    split; [done|by apply result_writes_none].
Qed.

(** The list is remembered before it is written: after a run that failed to write it, a
    run that finds the same devices succeeds and writes nothing, so the result object
    keeps the old list until the devices change again. *)
Lemma failed_update_is_not_retried {E : Env} (w w1 : World) (err : GoErr) (ds : list DiscoveredDevice) :
  discoverDevices w = (Some err, w1) -> (find_devices w).1 = Ok ds -> (find_devices w1).1 = Ok ds ->
  wp discoverDevices (fun r w2 => r = None /\ no_result_write w1 w2) w1.
Proof.
  intros Hrun Hf Hf1. pose proof (wp_discoverDevices w) as H. unfold wp in H. rewrite Hrun, Hf in H.
  destruct H as (Hd & _ & _). eapply wp_mono; [apply wp_discoverDevices|].
  intros r w2 H2. rewrite Hf1 in H2. by apply H2.
Qed.

(** ** monitor.go *)

Definition udevExclusionFilter : list string := ["(?i)dm-[0-9]+"; "(?i)rbd[0-9]"; "(?i)nbd[0-9]+"].
Definition udevEventMatch : list string := ["(?i)add"; "(?i)remove"].

(** The fragment of Go's regular expressions that the monitor uses: the flag [(?i)],
    literal characters, a digit and digits. *)
Inductive Atom := Lit (c : ascii) | Digit | Digits.

Definition skip (n : nat) (s : string) : string := String.substring n (String.length s - n) s.

Fixpoint parse_atoms (fuel : nat) (p : string) : option (list Atom) :=
  match fuel with
  | O => None
  | S k =>
      match p with
      | EmptyString => Some []
      | String c p' =>
          if has_prefix p "[0-9]+" then option_map (cons Digits) (parse_atoms k (skip 6 p))
          else if has_prefix p "[0-9]" then option_map (cons Digit) (parse_atoms k (skip 5 p))
          else if contains_str (String c EmptyString) "\.+*?()|[]{}^$" then None
          else option_map (cons (Lit c)) (parse_atoms k p')
      end
  end.

Definition parse_regexp (p : string) : option (list Atom) :=
  if has_prefix p "(?i)" then parse_atoms (S (String.length p)) (to_lower (skip 4 p)) else None.

Definition is_digit (c : ascii) : bool := bool_decide (is_Some (digit_of c)).

(** The text, in lower case, starts with a match. *)
Fixpoint match_here (l : list Atom) (s : string) : bool :=
  match l, s with
  | [], _ => true
  | Lit c :: l', String d s' => (c =? d)%char && match_here l' s'
  | Digit :: l', String d s' => is_digit d && match_here l' s'
  | Digits :: l', String d s' => is_digit d && (match_here l' s' || match_here l s')
  | _ :: _, EmptyString => false
  end.

Fixpoint search (l : list Atom) (s : string) : bool :=
  match_here l s || match s with EmptyString => false | String _ s' => search l s' end.

(** [regexp.MatchString] on that fragment. *)
Definition MatchString (pattern s : string) : Res bool :=
  match parse_regexp pattern with
  | Some l => Ok (search l (to_lower s))
  | None => Err (Errorf (sprintf "error parsing regexp: %s" [pattern]))
  end.

(** The first exclusion that matches ends the scan. *)
Fixpoint has_exclusion (text : string) (exclusions : list string) : Res bool :=
  match exclusions with
  | [] => Ok false
  | exclusion :: es =>
      match MatchString exclusion text with
      | Err err => Err (Errorf (sprintf "failed to search string: %v" [error_text err]))
      | Ok true => Ok true
      | Ok false => has_exclusion text es
      end
  end.

Fixpoint matchUdevEvent (text : string) (matches exclusions : list string) : Res bool :=
  match matches with
  | [] => Ok false
  | m :: ms =>
      match MatchString m text with
      | Err err => Err (Errorf (sprintf "failed to search string: %v" [error_text err]))
      | Ok false => matchUdevEvent text ms exclusions
      | Ok true =>
          match has_exclusion text exclusions with
          | Err err => Err err
          | Ok false => Ok true
          | Ok true => matchUdevEvent text ms exclusions
          end
      end
  end.

(** The text contains [p] up to case. *)
Definition mentions (p : list Atom) (text : string) : bool := search p (to_lower text).

Definition Text (s : string) : list Atom := map Lit (list_ascii_of_string s).

(** A line that asks for a probe: it mentions an addition or a removal, in any case, and
    names no device-mapper, rbd or nbd device. *)
Definition wanted (text : string) : bool :=
  (mentions (Text "add") text || mentions (Text "remove") text)
  && negb (mentions (Text "dm-" ++ [Digits]) text || mentions (Text "rbd" ++ [Digit]) text
           || mentions (Text "nbd" ++ [Digits]) text).

Lemma matchUdevEvent_spec (text : string) :
  matchUdevEvent text udevEventMatch udevExclusionFilter = Ok (wanted text).
Proof.
  unfold wanted, matchUdevEvent, has_exclusion, udevEventMatch, udevExclusionFilter, MatchString.
  repeat match goal with |- context [parse_regexp ?p] =>
    let v := eval vm_compute in (parse_regexp p) in change (parse_regexp p) with v end.
  cbv beta iota. unfold mentions.
  change (Text "add") with [Lit "a"%char; Lit "d"%char; Lit "d"%char].
  change (Text "remove") with [Lit "r"%char; Lit "e"%char; Lit "m"%char; Lit "o"%char; Lit "v"%char; Lit "e"%char].
  change (Text "dm-" ++ [Digits])%list with [Lit "d"%char; Lit "m"%char; Lit "-"%char; Digits].
  change (Text "rbd" ++ [Digit])%list with [Lit "r"%char; Lit "b"%char; Lit "d"%char; Digit].
  change (Text "nbd" ++ [Digits])%list with [Lit "n"%char; Lit "b"%char; Lit "d"%char; Digits].
  by repeat (match goal with |- context [search ?l ?t] => destruct (search l t) end; simpl).
Qed.

(** The events sent for the lines of udevadm: a line that cannot be filtered ends the
    monitor. *)
Fixpoint send_lines (lines : list string) (matches exclusions : list string) : list string :=
  match lines with
  | [] => []
  | text :: ls =>
      match matchUdevEvent text matches exclusions with
      | Err _ => []
      | Ok true => text :: send_lines ls matches exclusions
      | Ok false => send_lines ls matches exclusions
      end
  end.

(** [output] is what udevadm prints before it ends, if it can be started.  The channel
    is closed after the events. *)
Definition rawUdevBlockMonitor (output : option (list string)) (matches exclusions : list string) : list string :=
  match output with
  | None => []
  | Some lines => send_lines lines matches exclusions
  end.

(** The udev monitor sends the lines of udevadm that ask for a probe, all of them and
    no others, in the order in which udevadm printed them: a line that mentions an addition
    or a removal, in any case, and names no device-mapper, rbd or nbd device.  The
    patterns of the monitor are never rejected, so no line ends it early. *)
Theorem rawUdevBlockMonitor_spec (lines : list string) :
  rawUdevBlockMonitor (Some lines) udevEventMatch udevExclusionFilter = List.filter wanted lines.
Proof.
  simpl. induction lines as [|text lines IH]; [done|]. cbn [send_lines List.filter]. rewrite matchUdevEvent_spec, IH.
  by destruct (wanted text).
Qed.

(** *** The debouncing of events *)

(** [udevBlockMonitor] waits for an event, then for the period to pass while it drops
    further events, then hands the first event over; a channel that closes ends it. *)
Inductive MonState := MIdle | MWait (event : string) (deadline : Z) | MSend (event : string) | MClosed.
Inductive MonLabel := Recv (event : string) | Timeout | Emit (event : string) | Close_.

Definition mon_step (period now : Z) (st : MonState) (l : MonLabel) : option MonState :=
  match st, l with
  | MIdle, Recv e => Some (MWait e (now + period))
  | MWait e d, Recv _ => Some (MWait e d)
  | MWait e d, Timeout => if (d <=? now)%Z then Some (MSend e) else None
  | MSend e, Emit e' => if String.eqb e e' then Some MIdle else None
  | (MIdle | MWait _ _), Close_ => Some MClosed
  | _, _ => None
  end.

(** A run: timed steps, time not going back. *)
Fixpoint mon_run (period now : Z) (st : MonState) (l : list (Z * MonLabel)) : option (Z * MonState) :=
  match l with
  | [] => Some (now, st)
  | (t, lab) :: l' =>
      if (now <=? t)%Z then
        match mon_step period t st lab with
        | Some st' => mon_run period t st' l'
        | None => None
        end
      else None
  end.

(** What waiting says of the time: since [t0] the monitor was idle. *)
Definition waited (period t0 now : Z) (st : MonState) : Prop :=
  (t0 <= now)%Z /\
  match st with
  | MWait _ d => (t0 + period <= d)%Z
  | MSend _ => (t0 + period <= now)%Z
  | _ => True
  end.

Lemma mon_run_waited period t0 now st l now' st' :
  (0 <= period)%Z -> waited period t0 now st -> mon_run period now st l = Some (now', st') -> waited period t0 now' st'.
Proof.
  intros Hp. revert now st. induction l as [|[t lab] l IH]; intros now st Hw; simpl; [by intros [= <- <-]|].
  destruct (Z.leb_spec now t); [|done]. destruct (mon_step period t st lab) as [st1|] eqn:Hs; [|done].
  apply IH. destruct Hw as [Hn Hw]. split; [lia|].
  destruct st, lab; simpl in Hs; try done; repeat (hyp_case Hs; try done); simplify_eq; simpl in *; try done; try lia.
  all: match goal with H : (_ <=? _)%Z = true |- _ => apply Z.leb_le in H; lia end.
Qed.

Lemma mon_run_app period now st l1 l2 :
  mon_run period now st (l1 ++ l2)%list =
  match mon_run period now st l1 with Some (now', st') => mon_run period now' st' l2 | None => None end.
Proof.
  revert now st. induction l1 as [|[t lab] l1 IH]; intros now st; simpl; [done|].
  destruct (now <=? t)%Z; [|done]. by destruct (mon_step period t st lab).
Qed.

Definition pending (st : MonState) : option string :=
  match st with MWait e _ | MSend e => Some e | _ => None end.

Lemma mon_run_received period now st l now' e :
  mon_run period now st l = Some (now', MSend e) ->
  pending st = Some e \/ exists t, (t, Recv e) ∈ l.
Proof.
  revert now st. induction l as [|[t lab] l IH]; intros now st; simpl; [intros [= _ ->]; by left|].
  destruct (now <=? t)%Z; [|done]. destruct (mon_step period t st lab) as [st1|] eqn:Hs; [|done].
  intros H. destruct (IH _ _ H) as [Hp|[t' Hin]]; [|right; exists t'; by right].
  destruct st, lab; simpl in Hs; try done; repeat (hyp_case Hs; try done); simplify_eq/=; try (by left); try done.
  right. exists t. left.
Qed.

(** C40: the events handed over by the udev monitor are at least the period apart, and
    each was received from udev after the one before it was handed over. *)
Theorem debounce_spacing (l1 l2 : list (Z * MonLabel)) (t1 t2 : Z) (e1 e2 : string) (r : Z * MonState)
  (Hrun : mon_run udevEventPeriod 0 MIdle (l1 ++ (t1, Emit e1) :: l2 ++ [(t2, Emit e2)])%list = Some r) :
  (t1 + udevEventPeriod <= t2)%Z /\ exists t, (t, Recv e2) ∈ l2.
Proof.
  rewrite mon_run_app in Hrun. destruct (mon_run _ 0 MIdle l1) as [[now st]|]; [|done]. simpl in Hrun.
  destruct (now <=? t1)%Z; [|done]. destruct st as [|? ?|e0|]; simpl in Hrun; try done.
  destruct (String.eqb_spec e0 e1) as [He|]; [subst e1|done]. rewrite mon_run_app in Hrun.
  destruct (mon_run _ t1 MIdle l2) as [[now2 st2]|] eqn:H2; [|done]. simpl in Hrun.
  destruct (Z.leb_spec now2 t2); [|done]. destruct st2 as [|? ?|e'|]; simpl in Hrun; try done.
  destruct (String.eqb_spec e' e2) as [He|]; [subst e2|done]. split.
  - assert (waited udevEventPeriod t1 now2 (MSend e')) as [_ Hw].
    { eapply mon_run_waited; [| |exact H2]; [done|split; [lia|done]]. }
    simpl in Hw. lia.
  - by destruct (mon_run_received _ _ _ _ _ _ H2) as [|].
Qed.

Lemma debounce_spacing_witness :
  let l := [(1 * second, Recv "add a"); (2 * second, Recv "add b"); (6 * second, Timeout); (6 * second, Emit "add a")]%Z in
  let l2 := [(7 * second, Recv "remove a"); (12 * second, Timeout)]%Z in
  mon_run udevEventPeriod 0 MIdle (take 3 l ++ (6 * second, Emit "add a")%Z :: l2 ++ [(13 * second, Emit "remove a")%Z])%list
    = Some (13 * second, MIdle)%Z /\
  (6 * second + udevEventPeriod <= 13 * second)%Z.
Proof.
  intros l l2.
  assert (mon_run udevEventPeriod 0 MIdle (take 3 l ++ (6 * second, Emit "add a")%Z :: l2 ++ [(13 * second, Emit "remove a")%Z])%list
    = Some (13 * second, MIdle)%Z) as H by (vm_compute; reflexivity).
  split; [exact H|]. destruct (debounce_spacing _ _ _ _ _ _ _ H) as [Ht _]. exact Ht.
Defined.
