(* ===== verification/Programs.v ===== *)
(** * The programs around the daemons

    pkg/localmetrics/config.go, which registers the collectors of a program and serves
    them; the steps of a program that starts, each of which may end it; the client of
    the discovery daemon (pkg/diskmaker/api_updater.go); and its command,
    cmd/diskmaker-manager/discovery.go, which serves its metrics, makes its client,
    reads its parent object and then probes for ever.  The start of the operator and
    of the diskmaker is in [Startup]. *)
From stdpp Require Import base list strings gmap.
From Stdlib Require Import ZArith String.
From S2P Require Import Prelude GoLib Types World Sys Discovery.

Open Scope string_scope.

(** ** config.go

    The registry of Prometheus and the network are outside: what registering a
    collector answers and leaves, what instrumenting the handler registers, and whether
    one can listen on an address. *)

Section server.
Context {Collector Registry : Type}.
Context (Register : Collector -> Registry -> option GoErr * Registry).
Context (InstrumentMetricHandler : Registry -> Registry) (can_listen : string -> bool).

Definition defaultMetricsPath := "/metrics".
Definition defaultMetricsPort := "8383".

Record config := { metricsPath : string; metricsPort : string; collectorList : list Collector }.

Definition NewConfigBuilder : config :=
  {| metricsPath := defaultMetricsPath; metricsPort := defaultMetricsPort; collectorList := [] |}.
Definition WithPort (port : string) (b : config) : config :=
  {| metricsPath := metricsPath b; metricsPort := port; collectorList := collectorList b |}.
Definition WithPath (path : string) (b : config) : config :=
  let path := if has_prefix path "/" then path else sprintf "/%s" [path] in
  {| metricsPath := path; metricsPort := metricsPort b; collectorList := collectorList b |}.
Definition WithCollectors (collectors : list Collector) (b : config) : config :=
  {| metricsPath := metricsPath b; metricsPort := metricsPort b; collectorList := collectors |}.

Fixpoint registerMetrics (list : list Collector) (r : Registry) : option GoErr * Registry :=
  match list with
  | [] => (None, r)
  | metric :: rest =>
      match Register metric r with
      | (Some err, r) => (Some err, r)
      | (None, r) => registerMetrics rest r
      end
  end.

Definition isPortFree (port : string) : bool := can_listen port.

(** The error, the registry and the address of the server when one is started.  A
    server that fails to listen later says so to nobody. *)
Definition Build (b : config) (r : Registry) : option GoErr * Registry * option string :=
  match registerMetrics (collectorList b) r with
  | (Some err, r) => (Some (Wrap "failed to register local metrics" err), r, None)
  | (None, r) =>
      let r := InstrumentMetricHandler r in
      let port := sprintf ":%s" [metricsPort b] in
      if negb (isPortFree port) then (Some (Errorf (sprintf "port %s is not free" [metricsPort b])), r, None)
      else (None, r, Some port)
  end.

(** The collectors are registered in order up to the first that is refused. *)
Fixpoint registered (cs : list Collector) (r : Registry) : Registry :=
  match cs with [] => r | c :: cs => registered cs (Register c r).2 end.

Lemma registerMetrics_spec cs r :
  let '(err, r') := registerMetrics cs r in
  match err with
  | None => r' = registered cs r
  | Some e => exists done c rest, cs = (done ++ c :: rest)%list /\ Register c (registered done r) = (Some e, r')
  end.
Proof.
  revert r. induction cs as [|c cs IH]; intros r; [done|]. cbn [registerMetrics registered].
  destruct (Register c r) as [[e|] r1] eqn:Hc; [by exists [], c, cs|]. specialize (IH r1). simpl.
  destruct (registerMetrics cs r1) as [[e|] r2]; [|done]. destruct IH as (d & c' & rest & -> & H).
  exists (c :: d), c', rest. split; [done|]. simpl. by rewrite Hc.
Qed.

(** A server runs exactly when nothing failed: with every collector registered, on the
    port of the configuration. *)
Lemma Build_serves b r err r' addr :
  Build b r = (err, r', addr) ->
  (err = None <-> is_Some addr) /\
  (err = None -> r' = InstrumentMetricHandler (registered (collectorList b) r) /\ addr = Some (sprintf ":%s" [metricsPort b])).
Proof.
  unfold Build. pose proof (registerMetrics_spec (collectorList b) r) as H.
  destruct (registerMetrics (collectorList b) r) as [[e|] r1].
  all: [> |destruct (isPortFree _)]; intros [= <- <- <-]; subst.
  2: by repeat split; eauto.
  all: split; [split; [done|by intros [? ?]]|done].
Qed.

(** The path of the configuration always starts with a slash, and is not used: the
    handler answers on every path. *)
Lemma WithPath_slash path b : has_prefix (metricsPath (WithPath path b)) "/" = true.
Proof. simpl. destruct (has_prefix path "/") eqn:H; [done|]. by destruct path. Qed.
Lemma path_unused path b r : Build (WithPath path b) r = Build b r.
Proof. done. Qed.
End server.

(** ** Programs that start

    What a program asks of the libraries while it starts, in its order.  Whether a call
    succeeds is up to the outside; the first failure ends the program, with an error
    that is reported, with a panic, or on the spot. *)

Record ManagerOptions := {
  mo_DefaultNamespaces : list string; mo_MetricsBindAddress : string; mo_HealthProbeBindAddress : string;
  mo_LeaderElection : bool; mo_LeaderElectionID : string;
  mo_LeaseDuration : option Z; mo_RenewDeadline : option Z; mo_RetryPeriod : option Z }.

(** A controller as it is handed to its manager: its name, the kind it reconciles, and
    for the diskmaker's the identities of the cache of volumes and of the index of
    device links its reconciler was made with. *)
Record ControllerInfo := {
  ci_Name : string; ci_For : string; ci_Volumes : option nat; ci_Links : option nat }.

Inductive Call :=
  | CGetConfig                      (* rest.Config of the process *)
  | CNewClientset | CNewClient
  | CSetupClient                    (* the static provisioner's client *)
  | CNewManager (o : ManagerOptions)
  | CAddRunnable (links : nat)      (* mgr.Add of an index of device links *)
  | CIndexField (field : string)
  | CComplete (c : ControllerInfo)
  | CHealthz (name : string) | CReadyz (name : string)
  | CStart.

Inductive Stop := Fails (e : GoErr) | Panics (e : GoErr) | Exits (code : Z) (e : GoErr).

Section boot.
Context {Out : Type} (outside : Call -> Out -> option GoErr * Out).

(** The names of controllers the library has seen, the next fresh identity, the calls
    made so far, and the outside. *)
Record Boot := { bt_used : gset string; bt_next : nat; bt_calls : list Call; bt_out : Out }.
Definition Step : Type := Boot -> option Stop * Boot.

Definition called (c : Call) (o : Out) (b : Boot) : Boot :=
  {| bt_used := bt_used b; bt_next := bt_next b; bt_calls := (bt_calls b ++ [c])%list; bt_out := o |}.
(** A call whose error ends the program in the way [stop]. *)
Definition call_or (stop : GoErr -> Stop) (c : Call) : Step := fun b =>
  let (err, o) := outside c (bt_out b) in (stop <$> err, called c o b).
Definition call : Call -> Step := call_or Fails.
Definition fails (err : option GoErr) : Step := fun b => (Fails <$> err, b).
Definition take_identity (b : Boot) : Boot :=
  {| bt_used := bt_used b; bt_next := S (bt_next b); bt_calls := bt_calls b; bt_out := bt_out b |}.
Definition fresh (f : nat -> Step) : Step := fun b => f (bt_next b) (take_identity b).
Fixpoint in_order (steps : list Step) : Step := fun b =>
  match steps with
  | [] => (None, b)
  | step :: steps => match step b with (Some stop, b) => (Some stop, b) | (None, b) => in_order steps b end
  end.

(** controller-runtime refuses a second controller of the same name. *)
Definition use_name (name : string) (b : Boot) : Boot :=
  {| bt_used := {[name]} ∪ bt_used b; bt_next := bt_next b; bt_calls := bt_calls b; bt_out := bt_out b |}.
Definition checkName (name : string) : Step := fun b =>
  if decide (name ∈ bt_used b) then
    (Some (Fails (Errorf (sprintf "controller with name %s already exists. Controller names must be unique to avoid multiple controllers reporting the same metric. This validation can be disabled via the SkipNameValidation option" [name]))), b)
  else (None, use_name name b).
Definition Complete (c : ControllerInfo) : Step := in_order [checkName (ci_Name c); call (CComplete c)].

(** *** pkg/diskmaker/api_updater.go *)

(** An error of the clientset is logged, and its nil pointer used. *)
Definition getEventRecorder : Step := in_order [call CGetConfig; call_or Panics CNewClientset].
Definition NewAPIUpdater : Step := in_order [getEventRecorder; call CGetConfig; call CNewClient].

(** The reference of a start: the calls in order up to the first that fails. *)
Fixpoint play (plan : list Call) (o : Out) : option (Call * GoErr) * list Call * Out :=
  match plan with
  | [] => (None, [], o)
  | c :: plan =>
      match outside c o with
      | (Some e, o) => (Some (c, e), [c], o)
      | (None, o) => let '(r, cs, o) := play plan o in (r, c :: cs, o)
      end
  end.

(** A plan is carried out to the end exactly when no call of it failed; otherwise the
    failed call was the last. *)
Lemma play_spec plan o :
  let '(r, cs, _) := play plan o in
  match r with
  | None => cs = plan
  | Some (c, _) => exists before after, cs = (before ++ [c])%list /\ plan = (before ++ c :: after)%list
  end.
Proof.
  revert o. induction plan as [|c plan IH]; intros o; [done|]. simpl. destruct (outside c o) as [[e|] o1].
  - by exists [], plan.
  - specialize (IH o1). destruct (play plan o1) as [[[[c' e]|] cs] o2].
    + destruct IH as (before & after & -> & ->). by exists (c :: before), after.
    + by rewrite IH.
Qed.

(** How a program stops, given what becomes of the error of each call. *)
Definition stops (how : Call -> GoErr -> Stop) (r : option (Call * GoErr)) : option Stop :=
  (fun x => how x.1 x.2) <$> r.

Lemma NewAPIUpdater_plan b :
  let '(r, cs, o) := play [CGetConfig; CNewClientset; CGetConfig; CNewClient] (bt_out b) in
  NewAPIUpdater b =
    (stops (fun c => match c with CNewClientset => Panics | _ => Fails end) r,
     {| bt_used := bt_used b; bt_next := bt_next b; bt_calls := (bt_calls b ++ cs)%list; bt_out := o |}).
Proof.
  unfold NewAPIUpdater, getEventRecorder, call, call_or, called; simpl.
  repeat (match goal with |- context [outside ?c ?o] => destruct (outside c o) as [[?|] ?] end; simpl;
          rewrite <- ?app_assoc; simpl; try done).
Qed.
End boot.

(** ** cmd/diskmaker-manager/discovery.go *)

Section discovery.
Context {Collector Registry Out : Type} (outside : Call -> Out -> option GoErr * Out).
Context (Register : Collector -> Registry -> option GoErr * Registry).
Context (InstrumentMetricHandler : Registry -> Registry) (can_listen : string -> bool).
Context {E : Env} (LVDMetricsList : list Collector).

(** How a command ends. *)
Inductive Ended := Running | Returned (err : option GoErr) | Panicked (err : GoErr).

Definition GetLocalVolumeDiscovery (name namespace : string) : M (Res LocalVolumeDiscovery) :=
  ReaderGet KLVD {| nn_Namespace := namespace; nn_Name := name |}.

(** The client, then the parent, which is the object of one fixed name. *)
Definition NewDeviceDiscovery (b : Boot (Out := Out)) : M (Stop + LocalVolumeDiscovery) :=
  match (NewAPIUpdater outside b).1 with
  | Some stop => mret (inl stop)
  | None =>
      lvd ← GetLocalVolumeDiscovery localVolumeDiscoveryComponent (Getenv "WATCH_NAMESPACE");
      mret (match lvd with Err err => inl (Fails err) | Ok lvd => inr lvd end)
  end.

Definition failed_to_discover (err : GoErr) : Ended := Returned (Some (Wrap "failed to discover devices" err)).

Definition startDeviceDiscovery (r : Registry) (b : Boot (Out := Out)) (l : list Stimulus) : M Ended :=
  let '(err, _, _) := Build Register InstrumentMetricHandler can_listen (WithCollectors LVDMetricsList NewConfigBuilder) r in
  match err with
  | Some err => mret (failed_to_discover err)
  | None =>
      discoveryObj ← NewDeviceDiscovery b;
      match discoveryObj with
      | inl (Panics err) => mret (Panicked err)
      | inl (Fails err | Exits _ err) => mret (failed_to_discover err)
      | inr _ =>
          err ← Start l;
          mret (match err with
                | None => Running
                | Some None => Returned None
                | Some (Some err) => failed_to_discover err
                end)
      end
  end.

(** The daemon probes nothing without its parent object. *)
Lemma no_parent_no_discovery r b l w :
  (forall x, (kget KLVD true {| nn_Namespace := Getenv "WATCH_NAMESPACE"; nn_Name := "auto-discover-devices" |} (w_est w)).1 <> Ok x) ->
  wp (startDeviceDiscovery r b l)
     (fun res w' => (exists err, res = failed_to_discover err \/ res = Panicked err) /\
                    w_trace w' = w_trace w /\ w_fs w' = w_fs w /\ w_mem w' = w_mem w) w.
Proof.
  intros Hg. set (Q := fun (res : Ended) (w' : World) => _).
  assert (forall err en, Q (failed_to_discover err) (set_est en w)) as Hf by (intros err en; split; [eauto|done]).
  assert (forall err, Q (failed_to_discover err) w) as Hf' by (intros err; split; [eauto|done]).
  unfold startDeviceDiscovery. destruct (Build _ _ _ _ r) as [[[err|] r'] addr]; [by apply wp_ret|].
  unfold NewDeviceDiscovery. destruct (NewAPIUpdater outside b).1 as [[e|e|code e]|].
  - by apply wp_bind, wp_ret, wp_ret.
  - apply wp_bind, wp_ret, wp_ret. split; [eauto|done].
  - by apply wp_bind, wp_ret, wp_ret.
  - apply wp_bind, wp_bind, wp_ask. intros [lvd|e] en Hr; [|by apply wp_ret, wp_ret].
    exfalso. apply (Hg lvd). change localVolumeDiscoveryComponent with "auto-discover-devices" in Hr. by rewrite Hr.
Qed.

(** A clientset that cannot be made takes the daemon down with a panic, after the error
    was logged. *)
Lemma clientset_error_panics r b l w e o o' :
  (Build Register InstrumentMetricHandler can_listen (WithCollectors LVDMetricsList NewConfigBuilder) r).1.1 = None ->
  outside CGetConfig (bt_out b) = (None, o) -> outside CNewClientset o = (Some e, o') ->
  startDeviceDiscovery r b l w = (Panicked e, w).
Proof.
  intros Hb H1 H2. unfold startDeviceDiscovery. destruct (Build _ _ _ _ r) as [[[err|] r'] addr]; [done|].
  unfold NewDeviceDiscovery. assert ((NewAPIUpdater outside b).1 = Some (Panics e)) as ->; [|done].
  unfold NewAPIUpdater, getEventRecorder, call, call_or; simpl. rewrite H1; simpl. by rewrite H2.
Qed.
End discovery.
