(* ===== verification/Exporter.v ===== *)
(** * pkg/localmetrics/exporter.go and alerts.go: the Service, the ServiceMonitor and
    the PrometheusRule of a daemon *)
From stdpp Require Import base list strings gmap.
From Stdlib Require Import ZArith Lia String.
From S2P Require Import Prelude GoLib Types World Sys Envs Common Controller.

Open Scope string_scope.

Definition MetricsServiceTemplate := "templates/localmetrics/service.yaml".
Definition MetricsServiceMonitorTemplate := "templates/localmetrics/service-monitor.yaml".
Definition PrometheusRuleTemplate := "templates/localmetrics/prometheus-rule.yaml".

Record Exporter := {
  ex_Name : string; ex_Namespace : string; ex_OwnerRefs : list OwnerReference;
  ex_AppLabel : string; ex_ServiceCertName : string }.

Definition NewExporter (name namespace certName : string) (ownerRefs : list OwnerReference) (appLabel : string)
  : Exporter :=
  {| ex_Name := name; ex_Namespace := namespace; ex_OwnerRefs := ownerRefs; ex_AppLabel := appLabel;
     ex_ServiceCertName := certName |}.

(** A [NamespacedName] printed with [%v]. *)
Definition show_name (n : NamespacedName) : string := nn_Namespace n ++s "/" ++s nn_Name n.

Definition set_svc_meta (m : ObjectMeta) (s : Service) : Service :=
  {| svc_meta := m; svc_ClusterIP := svc_ClusterIP s; svc_Spec := svc_Spec s |}.
Definition set_mo_meta (m : ObjectMeta) (s : Monitored) : Monitored :=
  {| mo_meta := m; mo_Spec := mo_Spec s |}.

Definition set_resource_version (v : string) (m : ObjectMeta) : ObjectMeta :=
  {| om_Name := om_Name m; om_Namespace := om_Namespace m; om_UID := om_UID m;
     om_Labels := om_Labels m; om_Annotations := om_Annotations m; om_Finalizers := om_Finalizers m;
     om_OwnerReferences := om_OwnerReferences m; om_CreationTimestamp := om_CreationTimestamp m;
     om_DeletionTimestamp := om_DeletionTimestamp m; om_Generation := om_Generation m;
     om_ResourceVersion := v |}.

(** The update of a Service keeps its version and its address. *)
Definition updated_service (service oldService : Service) : Service :=
  {| svc_meta := set_resource_version (om_ResourceVersion (svc_meta oldService)) (svc_meta service);
     svc_ClusterIP := svc_ClusterIP oldService; svc_Spec := svc_Spec service |}.

(** The update of the other two copies the specification only. *)
Definition updated_spec (wanted old : Monitored) : Monitored :=
  {| mo_meta := mo_meta old; mo_Spec := mo_Spec wanted |}.

Section exporter.
Context {E : Env}.

Definition pairs (e : Exporter) : list (string * string) :=
  [("${OBJECT_NAME}", ex_Name e); ("${OBJECT_NAMESPACE}", ex_Namespace e);
   ("${APP_LABEL}", ex_AppLabel e); ("${SERVICE_CERT_NAME}", ex_ServiceCertName e)].

Definition getMetricsService (e : Exporter) : Res Service := read_template KSvc MetricsServiceTemplate (pairs e).
Definition getMetricsServiceMonitor (e : Exporter) : Res Monitored :=
  read_template KSM MetricsServiceMonitorTemplate (pairs e).

(** An object read, created when it does not exist, and updated with [f] otherwise;
    [what] are the texts of the three errors. *)
Definition create_or_update (k : Kind) (obj : Obj k) (f : Obj k -> Obj k)
  (cannot_create cannot_get cannot_update : string) : M (option GoErr) :=
  let key := object_key obj in
  let failed text err := Some (Errorf (sprintf text [show_name key; error_text err])) in
  r ← ClientGet k key;
  match r with
  | Err err =>
      if is_not_found err then
        r ← ClientCreate k obj;
        mret (match r with Err err => failed cannot_create err | Ok _ => None end)
      else mret (failed cannot_get err)
  | Ok old =>
      r ← ClientUpdate k (f old);
      mret (match r with Err err => failed cannot_update err | Ok _ => None end)
  end.

Definition createOrUpdateService (service : Service) : M (option GoErr) :=
  create_or_update KSvc service (updated_service service)
    "failed to create metrics exporter service %v. %v" "failed to retrieve metrics exporter service %v. %v"
    "failed to update service %v. %v".

Definition createOrUpdateServiceMonitor (serviceMonitor : Monitored) : M (option GoErr) :=
  create_or_update KSM serviceMonitor (updated_spec serviceMonitor)
    "failed to get servicemonitor %v. %v" "failed to retrieve servicemonitor %v. %v"
    "failed to update servicemonitor %v. %v".

Definition enableService (e : Exporter) : M (option GoErr) :=
  match getMetricsService e with
  | Err err => mret (Some (Errorf (sprintf "failed to get service. %v" [error_text err])))
  | Ok service =>
      r ← createOrUpdateService (set_svc_meta (set_owner_refs (ex_OwnerRefs e) (svc_meta service)) service);
      mret (match r with
            | Some err => Some (Errorf (sprintf "failed to enable service monitor. %v" [error_text err]))
            | None => None end)
  end.

Definition enableServiceMonitor (e : Exporter) : M (option GoErr) :=
  match getMetricsServiceMonitor e with
  | Err err => mret (Some (Errorf (sprintf "failed to get service monitor. %v" [error_text err])))
  | Ok serviceMonitor =>
      r ← createOrUpdateServiceMonitor
            (set_mo_meta (set_owner_refs (ex_OwnerRefs e) (mo_meta serviceMonitor)) serviceMonitor);
      mret (match r with
            | Some err => Some (Errorf (sprintf "failed to enable service monitor. %v" [error_text err]))
            | None => None end)
  end.

Definition EnableMetricsExporter (e : Exporter) : M (option GoErr) :=
  err ← enableService e;
  match err with
  | Some _ => mret err
  | None => enableServiceMonitor e
  end.

Definition getPrometheusRule (namespace diskmakerName : string) : Res Monitored :=
  read_template KRule PrometheusRuleTemplate [("${OBJECT_NAMESPACE}", namespace); ("${DAEMONSET_NAME}", diskmakerName)].

Definition createOrUpdatePrometheusRule (rule : Monitored) : M (option GoErr) :=
  create_or_update KRule rule (updated_spec rule)
    "failed to create prometheusrule %v. %v" "failed to retrieve prometheusrule %v. %v"
    "failed to update prometheusrule %v. %v".

Definition CreateOrUpdateAlertRules (namespace diskmakerName : string) (ownerRefs : list OwnerReference)
  : M (option GoErr) :=
  match getPrometheusRule namespace diskmakerName with
  | Err err => mret (Some (Errorf (sprintf "failed to get prometheus rule. %v" [error_text err])))
  | Ok rule =>
      r ← createOrUpdatePrometheusRule (set_mo_meta (set_owner_refs ownerRefs (mo_meta rule)) rule);
      mret (match r with
            | Some err => Some (Errorf (sprintf "failed to enable prometheus rule. %v" [error_text err]))
            | None => None end)
  end.
End exporter.

(** The owners of an existing ServiceMonitor or PrometheusRule are never changed. *)
Lemma updated_spec_owners wanted old :
  om_OwnerReferences (mo_meta (updated_spec wanted old)) = om_OwnerReferences (mo_meta old).
Proof. done. Qed.

(** The exporter only creates and updates the objects of its three kinds. *)
Definition exporter_act (a : Act) : bool :=
  match a with
  | ACreate k _ _ | AUpdate k _ _ => match k with KSvc | KSM | KRule => true | _ => false end
  | _ => false
  end.

Section exporter_frames.
Context {E : Env}.

Lemma traces_create_or_update (P : Act -> Prop) k obj f c g u :
  (forall o e, P (ACreate k o e) /\ P (AUpdate k o e)) -> frame (traces P) (create_or_update k obj f c g u).
Proof.
  intros H. unfold create_or_update. frame_tac ltac:(idtac; match goal with
    | |- frame _ (ClientCreate _ _) => apply (frame_ask_act _); intros; apply traces_log, H
    | |- frame _ (ClientUpdate _ _) => apply (frame_ask_act _); intros; apply traces_log, H end).
Qed.

Lemma traces_EnableMetricsExporter e : frame (traces exporter_act) (EnableMetricsExporter e).
Proof.
  unfold EnableMetricsExporter, enableService, enableServiceMonitor.
  frame_tac ltac:(idtac; by apply traces_create_or_update).
Qed.

Lemma traces_CreateOrUpdateAlertRules ns n o : frame (traces exporter_act) (CreateOrUpdateAlertRules ns n o).
Proof. unfold CreateOrUpdateAlertRules. frame_tac ltac:(idtac; by apply traces_create_or_update). Qed.
End exporter_frames.
#[export] Hint Resolve traces_EnableMetricsExporter traces_CreateOrUpdateAlertRules : lso_traces.
