(* ===== verification/Tls.v ===== *)
(** * The cluster's TLS profile: pkg/tls/tlsprofile.go

    with the parts of library-go and openshift/api it calls: the observer of the
    APIServer object, the predefined profiles and the table of cipher names.  The
    configuration observed before is only compared with the new one for a log message;
    it is not modelled. *)
From stdpp Require Import base list strings gmap.
From Stdlib Require Import ZArith Lia String Ascii.
From S2P Require Import Prelude GoLib Types World Sys Envs DiskText.

Open Scope string_scope.

(** ** openshift/api: the predefined profiles *)

Definition TLSProfileOldType := "Old".
Definition TLSProfileIntermediateType := "Intermediate".
Definition TLSProfileModernType := "Modern".
Definition TLSProfileCustomType := "Custom".

Definition modern_ciphers : list string :=
  ["TLS_AES_128_GCM_SHA256"; "TLS_AES_256_GCM_SHA384"; "TLS_CHACHA20_POLY1305_SHA256"].
Definition intermediate_ciphers : list string :=
  (modern_ciphers ++
   ["ECDHE-ECDSA-AES128-GCM-SHA256"; "ECDHE-RSA-AES128-GCM-SHA256"; "ECDHE-ECDSA-AES256-GCM-SHA384";
    "ECDHE-RSA-AES256-GCM-SHA384"; "ECDHE-ECDSA-CHACHA20-POLY1305"; "ECDHE-RSA-CHACHA20-POLY1305"])%list.
Definition old_ciphers : list string :=
  (intermediate_ciphers ++
   ["ECDHE-ECDSA-AES128-SHA256"; "ECDHE-RSA-AES128-SHA256"; "ECDHE-ECDSA-AES128-SHA"; "ECDHE-RSA-AES128-SHA";
    "ECDHE-ECDSA-AES256-SHA"; "ECDHE-RSA-AES256-SHA"; "AES128-GCM-SHA256"; "AES256-GCM-SHA384"; "AES128-SHA256";
    "AES128-SHA"; "AES256-SHA"; "DES-CBC3-SHA"])%list.

Definition TLSProfiles : gmap string TLSProfileSpec :=
  {[ TLSProfileOldType := {| tps_Ciphers := old_ciphers; tps_MinTLSVersion := "VersionTLS10" |};
     TLSProfileIntermediateType := {| tps_Ciphers := intermediate_ciphers; tps_MinTLSVersion := "VersionTLS12" |};
     TLSProfileModernType := {| tps_Ciphers := modern_ciphers; tps_MinTLSVersion := "VersionTLS13" |} ]}.

(** ** library-go: cipher names *)

Definition iana_table : list (string * string) :=
  [("TLS_AES_128_GCM_SHA256", "TLS_AES_128_GCM_SHA256");
   ("TLS_AES_256_GCM_SHA384", "TLS_AES_256_GCM_SHA384");
   ("TLS_CHACHA20_POLY1305_SHA256", "TLS_CHACHA20_POLY1305_SHA256");
   ("ECDHE-ECDSA-AES128-GCM-SHA256", "TLS_ECDHE_ECDSA_WITH_AES_128_GCM_SHA256");
   ("ECDHE-RSA-AES128-GCM-SHA256", "TLS_ECDHE_RSA_WITH_AES_128_GCM_SHA256");
   ("ECDHE-ECDSA-AES256-GCM-SHA384", "TLS_ECDHE_ECDSA_WITH_AES_256_GCM_SHA384");
   ("ECDHE-RSA-AES256-GCM-SHA384", "TLS_ECDHE_RSA_WITH_AES_256_GCM_SHA384");
   ("ECDHE-ECDSA-CHACHA20-POLY1305", "TLS_ECDHE_ECDSA_WITH_CHACHA20_POLY1305_SHA256");
   ("ECDHE-RSA-CHACHA20-POLY1305", "TLS_ECDHE_RSA_WITH_CHACHA20_POLY1305_SHA256");
   ("ECDHE-ECDSA-AES128-SHA256", "TLS_ECDHE_ECDSA_WITH_AES_128_CBC_SHA256");
   ("ECDHE-RSA-AES128-SHA256", "TLS_ECDHE_RSA_WITH_AES_128_CBC_SHA256");
   ("AES128-GCM-SHA256", "TLS_RSA_WITH_AES_128_GCM_SHA256");
   ("AES256-GCM-SHA384", "TLS_RSA_WITH_AES_256_GCM_SHA384");
   ("AES128-SHA256", "TLS_RSA_WITH_AES_128_CBC_SHA256");
   ("ECDHE-ECDSA-AES128-SHA", "TLS_ECDHE_ECDSA_WITH_AES_128_CBC_SHA");
   ("ECDHE-RSA-AES128-SHA", "TLS_ECDHE_RSA_WITH_AES_128_CBC_SHA");
   ("ECDHE-ECDSA-AES256-SHA", "TLS_ECDHE_ECDSA_WITH_AES_256_CBC_SHA");
   ("ECDHE-RSA-AES256-SHA", "TLS_ECDHE_RSA_WITH_AES_256_CBC_SHA");
   ("AES128-SHA", "TLS_RSA_WITH_AES_128_CBC_SHA");
   ("AES256-SHA", "TLS_RSA_WITH_AES_256_CBC_SHA");
   ("DES-CBC3-SHA", "TLS_RSA_WITH_3DES_EDE_CBC_SHA");
   ("ECDHE-RSA-DES-CBC3-SHA", "TLS_ECDHE_RSA_WITH_3DES_EDE_CBC_SHA")].

Definition openSSLToIANACiphersMap : gmap string string := list_to_map iana_table.

(** Names that are not in the table are left out. *)
Definition OpenSSLToIANACipherSuites (ciphers : list string) : list string :=
  omap (fun c => openSSLToIANACiphersMap !! c) ciphers.

(** ** library-go: the observer *)

Definition DefaultTLSProfileType := TLSProfileIntermediateType.

(** The specification in force: none, an unknown type and a custom type without a
    specification mean the default. *)
Definition effective_spec (profile : option TLSSecurityProfile) : option TLSProfileSpec :=
  let profileType := match profile with None => DefaultTLSProfileType | Some p => tsp_Type p end in
  let profileSpec :=
    if decide (profileType = TLSProfileCustomType)
    then match profile with Some p => tsp_Custom p | None => None end
    else TLSProfiles !! profileType in
  match profileSpec with Some s => Some s | None => TLSProfiles !! DefaultTLSProfileType end.

Definition getSecurityProfileCiphers (profile : option TLSSecurityProfile) : string * list string :=
  match effective_spec profile with
  | Some spec => (tps_MinTLSVersion spec, OpenSSLToIANACipherSuites (tps_Ciphers spec))
  | None => ("", [])
  end.

Section tls.
Context {E : Env}.

(** The observed minimum version and suites; an APIServer object that does not exist has
    no profile. *)
Definition ObserveTLSSecurityProfile : M (Res (string * list string)) :=
  r ← ClientGet KAPIServer {| nn_Namespace := ""; nn_Name := "cluster" |};
  match r with
  | Ok apiServer => mret (Ok (getSecurityProfileCiphers (api_TLSSecurityProfile apiServer)))
  | Err err => if is_not_found err then mret (Ok (getSecurityProfileCiphers None)) else mret (Err err)
  end.

(** TLS_MIN_VERSION, TLS_CIPHER_SUITES and the error. *)
Definition GetTLSProfileValues : M (string * string * option GoErr) :=
  r ← ObserveTLSSecurityProfile;
  match r with
  | Err err => mret ("", "", Some (Errorf (sprintf "failed to observe TLS security profile: %v" [error_text err])))
  | Ok (minVersion, suites) => mret (minVersion, join "," suites, None)
  end.

Lemma reads_GetTLSProfileValues : reads GetTLSProfileValues.
Proof. unfold GetTLSProfileValues, ObserveTLSSecurityProfile. reads_tac. Qed.
End tls.
#[export] Hint Resolve reads_GetTLSProfileValues : lso.

(** ** What the daemons are given *)

(** The table is a function on the names of the predefined profiles: no cipher of a
    profile is lost and none comes twice. *)
Lemma profiles_mapped ty spec :
  TLSProfiles !! ty = Some spec ->
  List.length (OpenSSLToIANACipherSuites (tps_Ciphers spec)) = List.length (tps_Ciphers spec) /\
  NoDup (OpenSSLToIANACipherSuites (tps_Ciphers spec)).
Proof.
  intros H. assert (map_Forall (fun _ spec =>
    List.length (OpenSSLToIANACipherSuites (tps_Ciphers spec)) = List.length (tps_Ciphers spec) /\
    NoDup (OpenSSLToIANACipherSuites (tps_Ciphers spec))) TLSProfiles) as Hall.
  { apply (bool_decide_eq_true_1 _). vm_compute. reflexivity. }
  by apply (Hall ty).
Qed.

Lemma effective_total profile : is_Some (effective_spec profile).
Proof. unfold effective_spec. by destruct (if decide _ then _ else _) as [s|]; [exists s|eexists]. Qed.

(** No name of the table has a comma, so the joined list can be read back. *)
Lemma iana_names l c : c ∈ OpenSSLToIANACipherSuites l -> c ∈ iana_table.*2.
Proof.
  intros (o & _ & Ho)%list_elem_of_omap. apply elem_of_list_to_map_2 in Ho.
  apply list_elem_of_fmap. by exists (o, c).
Qed.
Lemma iana_no_comma c : c ∈ iana_table.*2 -> string_all (fun x => negb (Ascii.eqb ","%char x)) c = true.
Proof.
  assert (Forall (fun c => string_all (fun x => negb (Ascii.eqb ","%char x)) c = true) iana_table.*2) as H.
  { apply (bool_decide_eq_true_1 _). vm_compute. reflexivity. }
  rewrite Forall_forall in H. apply H.
Qed.

