(* ===== verification/NodeDaemon.v ===== *)
(** * The daemon controller: pkg/controllers/nodedaemon

    aggregate.go, provisioner_config.go, daemonsets.go and reconcile.go: one
    daemonset, one ConfigMap and the metrics objects for all LocalVolumes and
    LocalVolumeSets of a namespace.  The two one-time flags are in [m_flags]. *)
From stdpp Require Import base list strings gmap sorting.
From Stdlib Require Import ZArith Lia String.
From S2P Require Import Prelude GoLib Types World Sys Envs Common Controller Exporter Tls.

Open Scope string_scope.

Definition oldProvisionerName := "localvolumeset-local-provisioner".
Definition oldLVDiskMakerPrefix := "local-volume-diskmaker-".
Definition oldLVProvisionerPrefix := "local-volume-provisioner-".
Definition appLabelKey := "app".
Definition DiskMakerName := "diskmaker-manager".
Definition ProvisionerName := "local-provisioner".
Definition dataHashAnnotationKey := "local.storage.openshift.io/configMapDataHash".
Definition orphanLSOServiceMonitorName := "local-storage-operator-metrics".
Definition LocalProvisionerConfigMapTemplate := "templates/local-provisioner-configmap.yaml".
Definition DiskMakerManagerDaemonSetTemplate := "templates/diskmaker-manager-daemonset.yaml".
Definition DiskMakerServiceName := "local-storage-diskmaker-metrics".
Definition DiskMakerMetricsServingCert := "diskmaker-metric-serving-cert".

(** ** aggregate.go *)

Record DaemonInfo := {
  di_tolerations : list Toleration; di_ownerRefs : list OwnerReference; di_terms : list NodeSelectorTerm }.

(** The loop of both extractions, over the fields of one object. *)
Record Selected := {
  se_meta : ObjectMeta; se_type : TypeMeta; se_NodeSelector : option NodeSelector;
  se_Tolerations : list Toleration }.

Definition owner_ref (s : Selected) : OwnerReference :=
  {| or_APIVersion := tm_APIVersion (se_type s); or_Kind := tm_Kind (se_type s);
     or_Name := om_Name (se_meta s); or_UID := om_UID (se_meta s);
     or_Controller := Some false; or_BlockOwnerDeletion := Some false |}.

Definition extract_one (acc : DaemonInfo * bool) (s : Selected) : DaemonInfo * bool :=
  let '(i, matchAllNodes) := acc in
  let tolerations := (di_tolerations i ++ se_Tolerations s)%list in
  let ownerRefs := (di_ownerRefs i ++ [owner_ref s])%list in
  match se_NodeSelector s with
  | Some sel => ({| di_tolerations := tolerations; di_ownerRefs := ownerRefs;
                    di_terms := (di_terms i ++ sel)%list |}, matchAllNodes)
  | None => ({| di_tolerations := tolerations; di_ownerRefs := ownerRefs; di_terms := di_terms i |}, true)
  end.

Definition extract (l : list Selected) : DaemonInfo :=
  let '(i, matchAllNodes) :=
    fold_left extract_one l ({| di_tolerations := []; di_ownerRefs := []; di_terms := [] |}, false) in
  if matchAllNodes : bool
  then {| di_tolerations := di_tolerations i; di_ownerRefs := di_ownerRefs i; di_terms := [] |}
  else i.

Definition lvset_key (s : LocalVolumeSet) : string :=
  sprintf "%s-%s" [om_Name (lset_meta s); lss_StorageClassName (lset_Spec s)].
Definition lv_key (lv : LocalVolume) : string :=
  sprintf "%s-%s" [om_Namespace (lv_meta lv); om_Name (lv_meta lv)].

Definition select_lvset (s : LocalVolumeSet) : Selected :=
  {| se_meta := lset_meta s; se_type := lset_type s; se_NodeSelector := lss_NodeSelector (lset_Spec s);
     se_Tolerations := lss_Tolerations (lset_Spec s) |}.
Definition select_lv (lv : LocalVolume) : Selected :=
  {| se_meta := lv_meta lv; se_type := lv_type lv; se_NodeSelector := lvs_NodeSelector (lv_Spec lv);
     se_Tolerations := lvs_Tolerations (lv_Spec lv) |}.

(** Both sort the caller's list in place: the sorted list is part of the result. *)
Definition extractLVSetInfo (lvsets : list LocalVolumeSet) : list LocalVolumeSet * DaemonInfo :=
  let lvsets := sort_by lvset_key lvsets in (lvsets, extract (select_lvset <$> lvsets)).
Definition extractLVInfo (lvs : list LocalVolume) : list LocalVolume * DaemonInfo :=
  let lvs := sort_by lv_key lvs in (lvs, extract (select_lv <$> lvs)).

Record DaemonAggregate := {
  ag_lvSets : list LocalVolumeSet; ag_lvs : list LocalVolume; ag_tolerations : list Toleration;
  ag_ownerRefs : list OwnerReference; ag_nodeSelector : option NodeSelector }.

(** No term, no selector. *)
Definition node_selector (terms : list NodeSelectorTerm) : option NodeSelector :=
  match terms with [] => None | _ => Some terms end.

Definition aggregate (lvSets : list LocalVolumeSet) (lvs : list LocalVolume) : DaemonAggregate :=
  let '(lvSets, a) := extractLVSetInfo lvSets in
  let '(lvs, b) := extractLVInfo lvs in
  let terms := (di_terms a ++ di_terms b)%list in
  {| ag_lvSets := lvSets; ag_lvs := lvs;
     ag_tolerations := (di_tolerations a ++ di_tolerations b)%list;
     ag_ownerRefs := (di_ownerRefs a ++ di_ownerRefs b)%list;
     ag_nodeSelector := node_selector terms |}.

(** ** daemonsets.go *)

Definition empty_daemonset : DaemonSet := {|
  ds_meta := empty_meta "" ""; ds_Selector := ∅; ds_TemplateLabels := ∅; ds_TemplateAnnotations := ∅;
  ds_ServiceAccountName := ""; ds_PriorityClassName := ""; ds_Tolerations := []; ds_NodeAffinity := None;
  ds_Volumes := []; ds_Containers := []; ds_UpdateStrategy := ""; ds_HostPID := false;
  ds_NumberUnavailable := 0; ds_CurrentNumberScheduled := 0; ds_DesiredNumberScheduled := 0;
  ds_NumberReady := 0 |}.

Definition initMapIfNil (m : gmap string string) : gmap string string :=
  if (1 <? size m)%nat then m else ∅.

Definition set_ds_meta (m : ObjectMeta) (ds : DaemonSet) : DaemonSet := {|
  ds_meta := m; ds_Selector := ds_Selector ds; ds_TemplateLabels := ds_TemplateLabels ds;
  ds_TemplateAnnotations := ds_TemplateAnnotations ds; ds_ServiceAccountName := ds_ServiceAccountName ds;
  ds_PriorityClassName := ds_PriorityClassName ds; ds_Tolerations := ds_Tolerations ds;
  ds_NodeAffinity := ds_NodeAffinity ds; ds_Volumes := ds_Volumes ds; ds_Containers := ds_Containers ds;
  ds_UpdateStrategy := ds_UpdateStrategy ds; ds_HostPID := ds_HostPID ds;
  ds_NumberUnavailable := ds_NumberUnavailable ds; ds_CurrentNumberScheduled := ds_CurrentNumberScheduled ds;
  ds_DesiredNumberScheduled := ds_DesiredNumberScheduled ds; ds_NumberReady := ds_NumberReady ds |}.

Definition set_containers (c : list Container) (ds : DaemonSet) : DaemonSet := {|
  ds_meta := ds_meta ds; ds_Selector := ds_Selector ds; ds_TemplateLabels := ds_TemplateLabels ds;
  ds_TemplateAnnotations := ds_TemplateAnnotations ds; ds_ServiceAccountName := ds_ServiceAccountName ds;
  ds_PriorityClassName := ds_PriorityClassName ds; ds_Tolerations := ds_Tolerations ds;
  ds_NodeAffinity := ds_NodeAffinity ds; ds_Volumes := ds_Volumes ds; ds_Containers := c;
  ds_UpdateStrategy := ds_UpdateStrategy ds; ds_HostPID := ds_HostPID ds;
  ds_NumberUnavailable := ds_NumberUnavailable ds; ds_CurrentNumberScheduled := ds_CurrentNumberScheduled ds;
  ds_DesiredNumberScheduled := ds_DesiredNumberScheduled ds; ds_NumberReady := ds_NumberReady ds |}.

Section daemonsets.
Context {E : Env}.

Definition MutateAggregatedSpec (ds : DaemonSet) (tolerations : list Toleration)
  (ownerRefs : list OwnerReference) (nodeSelector : option NodeSelector) (dsTemplate : DaemonSet) : DaemonSet :=
  let created := bool_decide (om_CreationTimestamp (ds_meta ds) = None) in
  let meta := if created then ds_meta dsTemplate else ds_meta ds in
  let labels := om_Labels (ds_meta dsTemplate) ∪ initMapIfNil (om_Labels meta) in
  {| ds_meta := set_owner_refs ownerRefs (set_labels labels meta);
     ds_Selector := if created then ds_Selector dsTemplate else ds_Selector ds;
     ds_TemplateLabels := ds_TemplateLabels dsTemplate ∪ initMapIfNil (ds_TemplateLabels ds);
     ds_TemplateAnnotations := ds_TemplateAnnotations dsTemplate ∪ initMapIfNil (ds_TemplateAnnotations ds);
     ds_ServiceAccountName := ds_ServiceAccountName dsTemplate;
     ds_PriorityClassName := if decide (Getenv "PRIORITY_CLASS_NAME" <> "") then Getenv "PRIORITY_CLASS_NAME"
                             else ds_PriorityClassName ds;
     ds_Tolerations := tolerations; ds_NodeAffinity := nodeSelector;
     ds_Volumes := ds_Volumes dsTemplate; ds_Containers := ds_Containers dsTemplate;
     ds_UpdateStrategy := ds_UpdateStrategy dsTemplate; ds_HostPID := ds_HostPID dsTemplate;
     ds_NumberUnavailable := ds_NumberUnavailable ds; ds_CurrentNumberScheduled := ds_CurrentNumberScheduled ds;
     ds_DesiredNumberScheduled := ds_DesiredNumberScheduled ds; ds_NumberReady := ds_NumberReady ds |}.

Definition getDiskMakerDSMutateFn (request : NamespacedName) (tolerations : list Toleration)
  (ownerRefs : list OwnerReference) (nodeSelector : option NodeSelector)
  (dataHash tlsMinVersion tlsCipherSuites : string) (ds : DaemonSet) : Res DaemonSet :=
  let pairs := [("${OBJECT_NAMESPACE}", nn_Namespace request); ("${CONTAINER_IMAGE}", GetDiskMakerImage);
                ("${RBAC_PROXY_IMAGE}", GetKubeRBACProxyImage);
                ("${PRIORITY_CLASS_NAME}", Getenv "PRIORITY_CLASS_NAME");
                ("${TLS_MIN_VERSION}", tlsMinVersion); ("${TLS_CIPHER_SUITES}", tlsCipherSuites)] in
  match read_template KDS DiskMakerManagerDaemonSetTemplate pairs with
  | Err err => Err err
  | Ok dsTemplate =>
      let ds := MutateAggregatedSpec ds tolerations ownerRefs nodeSelector dsTemplate in
      let annotations := <[dataHashAnnotationKey := dataHash]> (initMapIfNil (om_Annotations (ds_meta ds))) in
      Ok (set_ds_meta (set_annotations annotations (ds_meta ds)) ds)
  end.

Definition CreateOrUpdateDaemonset (daemonSetMutateFn : DaemonSet -> Res DaemonSet)
  : M (DaemonSet * OperationResult * option GoErr) :=
  match daemonSetMutateFn empty_daemonset with
  | Err err => mret (empty_daemonset, OperationResultNone, Some err)
  | Ok ds => CreateOrUpdate (k := KDS) ds (fun ds => mret (daemonSetMutateFn ds))
  end.
End daemonsets.

(** ** provisioner_config.go *)

Section nodedaemon.
Context {E : Env}.

Definition mount_config (storageClassName fsType volumeMode : string) : MountConfig :=
  let symlinkDir := path_join [GetLocalDiskLocationPath; storageClassName] in
  {| mc_FsType := fsType; mc_HostDir := symlinkDir; mc_MountDir := symlinkDir; mc_VolumeMode := volumeMode |}.

Definition add_lvset (m : gmap string MountConfig) (lvSet : LocalVolumeSet) : gmap string MountConfig :=
  let s := lset_Spec lvSet in
  <[lss_StorageClassName s := mount_config (lss_StorageClassName s) (lss_FSType s) (lss_VolumeMode s)]> m.

Definition add_lv (m : gmap string MountConfig) (lv : LocalVolume) : gmap string MountConfig :=
  fold_left (fun m devices =>
    <[scd_StorageClassName devices :=
        mount_config (scd_StorageClassName devices) (scd_FSType devices) (scd_VolumeMode devices)]> m)
    (lvs_StorageClassDevices (lv_Spec lv)) m.

Definition storageClassConfig (lvSets : list LocalVolumeSet) (lvs : list LocalVolume) : gmap string MountConfig :=
  fold_left add_lv lvs (fold_left add_lvset lvSets ∅).

Definition mutate_config_map (objectMeta : ObjectMeta) (ownerRefs : list OwnerReference)
  (config : gmap string MountConfig) (configMap : ConfigMap) : Res ConfigMap :=
  let meta := if decide (om_CreationTimestamp (cm_meta configMap) = None) then objectMeta else cm_meta configMap in
  match volume_config_data config ["kubernetes.io/hostname"] with
  | Err err => Err err
  | Ok data => Ok {| cm_meta := set_owner_refs ownerRefs (set_labels (om_Labels objectMeta) meta); cm_Data := data |}
  end.

Definition reconcileProvisionerConfigMap (request : NamespacedName) (lvSets : list LocalVolumeSet)
  (lvs : list LocalVolume) (ownerRefs : list OwnerReference) : M (Res (ConfigMap * OperationResult)) :=
  match read_template KCM LocalProvisionerConfigMapTemplate [("${OBJECT_NAMESPACE}", nn_Namespace request)] with
  | Err err => mret (Err err)
  | Ok configMap =>
      r ← CreateOrUpdate (k := KCM) configMap (fun cm =>
            mret (mutate_config_map (cm_meta configMap) ownerRefs (storageClassConfig lvSets lvs) cm));
      mret (match r.2 with Some err => Err err | None => Ok r.1 end)
  end.

Definition data_entry (kv : string * string) : string := sprintf "%s-%s" [kv.1; kv.2].
Definition hash_entries (entries : list string) : string :=
  hex_encode (sha256 (bytes (join "--" (sort_strings entries)))).

Definition dataHash (data : gmap string string) : M string :=
  entries ← range_map (map_to_list data);
  mret (hash_entries (data_entry <$> entries)).

(** ** reconcile.go *)

Definition aggregateDeamonInfo (request : NamespacedName) : M (Res DaemonAggregate) :=
  r ← ClientList KLVSet (in_namespace (nn_Namespace request));
  match r with
  | Err err => mret (Err (Wrap "could not fetch localvolumeset link" err))
  | Ok lvSets =>
      r ← ClientList KLV (in_namespace (nn_Namespace request));
      match r with
      | Err err => mret (Err (Wrap "could not fetch localvolume link" err))
      | Ok lvs => mret (Ok (aggregate lvSets lvs))
      end
  end.

Definition flag (name : string) : M bool := get_mem (fun m => default false (m_flags m !! name)).
Definition set_flag (name : string) : M unit := put_mem (fun m => set_m_flags (<[name := true]> (m_flags m)) m).
Definition deletedStaticProvisioner := "deletedStaticProvisioner".
Definition deletedOrphanedServiceMonitor := "deletedOrphanedServiceMonitor".

Definition gone (err : GoErr) : bool := is_not_found err || is_gone err.

Definition is_old_app (appLabel : string) : bool :=
  has_prefix appLabel oldLVDiskMakerPrefix || has_prefix appLabel oldLVProvisionerPrefix.

(** The loop over the daemonsets of the namespace; the labels of those deleted. *)
Definition delete_old (appNameList : list string) (ds : DaemonSet) : M (Res (list string)) :=
  match om_Labels (ds_meta ds) !! appLabelKey with
  | None => mret (Ok appNameList)
  | Some appLabel =>
      if is_old_app appLabel then
        e ← ClientDelete KDS ds;
        mret (match e with
              | Some err => if gone err then Ok (appNameList ++ [appLabel])%list else Err err
              | None => Ok (appNameList ++ [appLabel])%list
              end)
      else mret (Ok appNameList)
  end.

Definition delete_provisioner (namespace : string) : M (option GoErr) :=
  r ← ClientGet KDS {| nn_Namespace := namespace; nn_Name := oldProvisionerName |};
  match r with
  | Err err => mret (if gone err then None else Some err)
  | Ok provisioner =>
      e ← ClientDelete KDS provisioner;
      mret (match e with Some err => if gone err then None else Some err | None => None end)
  end.

(** [wait.Backoff]: a step multiplies the duration by 1.7 and ends the retries when
    the product passes the cap. *)
Definition backoff_next (steps : nat) (duration cap : Z) : nat * Z :=
  let next := (duration * 17 / 10)%Z in
  if (cap <? next)%Z then (0, cap) else (pred steps, next).

Definition ErrWaitTimeout : GoErr := Errorf "timed out waiting for the condition".

(** One look at the pods; the list of labels grows with every look. *)
Definition pods_gone (appNameList : list string) : M (Res bool) :=
  r ← ClientList KPod {| lo_Namespace := None; lo_Labels := []; lo_Field := None;
                         lo_LabelIn := Some (appLabelKey, appNameList) |};
  mret (match r with
        | Err err => if is_not_found err then Ok true else Err err
        | Ok pods => Ok (bool_decide (pods = []))
        end).

(** [wait.ExponentialBackoff]; [fuel] bounds the looks, of which there are at most [steps]. *)
Fixpoint wait_pods (fuel steps : nat) (duration cap : Z) (appNameList : list string) : M (option GoErr) :=
  match fuel, steps with
  | S k, S _ =>
      let appNameList := (appNameList ++ [oldProvisionerName])%list in
      r ← pods_gone appNameList;
      match r with
      | Err err => mret (Some err)
      | Ok true => mret None
      | Ok false =>
          if decide (steps = 1) then mret (Some ErrWaitTimeout)
          else let '(steps, duration) := backoff_next steps duration cap in
               wait_pods k steps duration cap appNameList
      end
  | _, _ => mret (Some ErrWaitTimeout)
  end.

Definition cleanupOldDaemonsets (namespace : string) : M (option GoErr) :=
  done ← flag deletedStaticProvisioner;
  if done then mret None
  else
    r ← ClientList KDS (in_namespace namespace);
    match r with
    | Err err => mret (Some err)
    | Ok items =>
        r ← foldM delete_old [] items;
        match r with
        | Err err => mret (Some err)
        | Ok appNameList =>
            e ← delete_provisioner namespace;
            match e with
            | Some err => mret (Some err)
            | None =>
                e ← wait_pods 20 20 second (120 * second) appNameList;
                match e with
                | Some err => mret (Some err)
                | None => set_flag deletedStaticProvisioner ;; mret None
                end
            end
        end
    end.

Definition cleanupOrphanServiceMonitor (namespace : string) : M (option GoErr) :=
  done ← flag deletedOrphanedServiceMonitor;
  if done then mret None
  else
    e ← ClientDelete KSM {| mo_meta := empty_meta namespace orphanLSOServiceMonitorName; mo_Spec := "" |};
    match e with
    | Some err => if is_not_found err
                  then set_flag deletedOrphanedServiceMonitor ;; mret None
                  else mret (Some err)
    | None => set_flag deletedOrphanedServiceMonitor ;; mret None
    end.

Definition to_list {A} (o : option A) : list A := match o with Some a => [a] | None => [] end.

(** [errorutils.NewAggregate]. *)
Definition new_aggregate (errs : list GoErr) : option GoErr :=
  match errs with [] => None | _ => Some (Aggregate errs) end.

Definition cleanupOldObjects (namespace : string) : M (option GoErr) :=
  e1 ← cleanupOldDaemonsets namespace;
  e2 ← cleanupOrphanServiceMonitor namespace;
  mret (new_aggregate (to_list e1 ++ to_list e2)%list).

(** After the cleanup and the aggregation, when there is something to serve. *)
Definition sync_daemon (request : NamespacedName) (a : DaemonAggregate) : M (CtrlResult * option GoErr) :=
  r ← reconcileProvisionerConfigMap request (ag_lvSets a) (ag_lvs a) (ag_ownerRefs a);
  match r with
  | Err err => mret (no_result, Some err)
  | Ok (configMap, _) =>
      e ← EnableMetricsExporter (NewExporter DiskMakerServiceName (nn_Namespace request)
            DiskMakerMetricsServingCert (ag_ownerRefs a) DiskMakerName);
      match e with
      | Some err => mret (no_result, Some err)
      | None =>
          e ← CreateOrUpdateAlertRules (nn_Namespace request) DiskMakerName (ag_ownerRefs a);
          match e with
          | Some err => mret (no_result, Some err)
          | None =>
              configMapDataHash ← dataHash (cm_Data configMap);
              tls ← GetTLSProfileValues;
              let '(tlsMinVersion, tlsCipherSuites, _) := tls in
              r ← CreateOrUpdateDaemonset (getDiskMakerDSMutateFn request (ag_tolerations a) (ag_ownerRefs a)
                    (ag_nodeSelector a) configMapDataHash tlsMinVersion tlsCipherSuites);
              mret (no_result, r.2)
          end
      end
  end.

Definition Reconcile (request : NamespacedName) : M (CtrlResult * option GoErr) :=
  err ← cleanupOldObjects (nn_Namespace request);
  match err with
  | Some _ => mret (no_result, err)
  | None =>
      r ← aggregateDeamonInfo request;
      match r with
      | Err err => mret (no_result, Some err)
      | Ok a =>
          if (Nat.ltb (List.length (ag_lvSets a)) 1 && Nat.ltb (List.length (ag_lvs a)) 1)
          then mret (no_result, None)
          else sync_daemon request a
      end
  end.
End nodedaemon.

(** ** The aggregate *)

Definition selects_all (s : Selected) : bool := bool_decide (se_NodeSelector s = None).
Definition terms_of (s : Selected) : list NodeSelectorTerm := default [] (se_NodeSelector s).

Lemma fold_extract_one l i b :
  fold_left extract_one l (i, b) =
    ({| di_tolerations := (di_tolerations i ++ l ≫= se_Tolerations)%list;
        di_ownerRefs := (di_ownerRefs i ++ (owner_ref <$> l))%list;
        di_terms := (di_terms i ++ l ≫= terms_of)%list |}, b || existsb selects_all l).
Proof.
  revert i b. induction l as [|s l IH]; intros i b; simpl.
  { rewrite !app_nil_r, orb_false_r. by destruct i. }
  assert (selects_all s = bool_decide (se_NodeSelector s = None) /\ terms_of s = default [] (se_NodeSelector s))
    as [-> ->] by done.
  destruct (se_NodeSelector s) as [sel|]; rewrite IH; simpl; rewrite <- ?(assoc_L (++)); [done|].
  by rewrite !orb_true_r.
Qed.

Lemma extract_eq l :
  extract l = {| di_tolerations := l ≫= se_Tolerations; di_ownerRefs := owner_ref <$> l;
                 di_terms := if existsb selects_all l then [] else l ≫= terms_of |}.
Proof.
  unfold extract. rewrite fold_extract_one. simpl. by destruct (existsb selects_all l).
Qed.

(** C24: the aggregate of a namespace (the sorted objects, the tolerations, the owners
    and the node selector of the daemonset) does not depend on the order in which the
    cache lists the objects, as long as no two objects have the same sort key. *)
Theorem aggregate_order (lvSets lvSets' : list LocalVolumeSet) (lvs lvs' : list LocalVolume) :
  lvSets ≡ₚ lvSets' -> lvs ≡ₚ lvs' -> NoDup (lvset_key <$> lvSets) -> NoDup (lv_key <$> lvs) ->
  aggregate lvSets lvs = aggregate lvSets' lvs'.
Proof.
  intros Hs Hl Ns Nl. unfold aggregate, extractLVSetInfo, extractLVInfo.
  by rewrite (sort_by_perm lvset_key _ _ Hs Ns), (sort_by_perm lv_key _ _ Hl Nl).
Qed.

(** A selector admits a node when one of its terms does; no selector admits all. *)
Definition admits (m : NodeSelectorTerm -> bool) (sel : option NodeSelector) : bool :=
  match sel with None => true | Some ts => existsb m ts end.

Definition all_selected (lvSets : list LocalVolumeSet) (lvs : list LocalVolume) : list Selected :=
  ((select_lvset <$> lvSets) ++ (select_lv <$> lvs))%list.

(** One kind has an object for all nodes and the other one has objects, none for all nodes. *)
Definition mixed (l l' : list Selected) : bool :=
  (existsb selects_all l && negb (existsb selects_all l') && negb (bool_decide (l' = [])))
  || (existsb selects_all l' && negb (existsb selects_all l) && negb (bool_decide (l = []))).

Lemma existsb_bind {A B} (m : B -> bool) (f : A -> list B) l :
  existsb m (l ≫= f) = existsb (fun a => existsb m (f a)) l.
Proof. induction l as [|a l IH]; simpl; [done|]. rewrite existsb_app. f_equal. exact IH. Qed.

Lemma existsb_ext_in {A} (f g : A -> bool) l : (forall a, a ∈ l -> f a = g a) -> existsb f l = existsb g l.
Proof.
  induction l as [|a l IH]; intros H; [done|]. simpl. rewrite H by left. f_equal. apply IH. intros; apply H. by right.
Qed.

Lemma admits_terms m (l : list Selected) :
  l <> [] -> Forall (fun s => se_NodeSelector s <> Some []) l -> existsb selects_all l = false ->
  l ≫= terms_of <> [] /\
  existsb m (l ≫= terms_of) = existsb (fun s => admits m (se_NodeSelector s)) l.
Proof.
  intros Hne Hf Hall.
  assert (forall s, s ∈ l -> exists t ts, se_NodeSelector s = Some (t :: ts)) as Hs.
  { intros s Hin. rewrite Forall_forall in Hf. specialize (Hf s Hin).
    destruct (se_NodeSelector s) as [[|t ts]|] eqn:E; [done|eauto|].
    assert (existsb selects_all l = true) as He; [|congruence]. apply existsb_In. exists s. split; [done|].
    unfold selects_all. by rewrite E. }
  split.
  - destruct l as [|s l]; [done|]. destruct (Hs s) as (t & ts & E); [left|].
    simpl. unfold terms_of at 1. by rewrite E.
  - rewrite existsb_bind. apply existsb_ext_in. intros s Hin. destruct (Hs s Hin) as (t & ts & E).
    unfold terms_of. by rewrite E.
Qed.

Lemma existsb_selects_all m l :
  existsb selects_all l = true -> existsb (fun s => admits m (se_NodeSelector s)) l = true.
Proof.
  rewrite !existsb_In. intros (s & Hin & Hs). exists s. split; [done|].
  unfold selects_all in Hs. apply bool_decide_eq_true in Hs. by rewrite Hs.
Qed.

Lemma admits_merged m (l l' : list Selected) :
  (l ++ l')%list <> [] -> Forall (fun s => se_NodeSelector s <> Some []) (l ++ l')%list -> mixed l l' = false ->
  admits m (node_selector ((if existsb selects_all l then [] else l ≫= terms_of) ++
                           (if existsb selects_all l' then [] else l' ≫= terms_of))%list)
  = existsb (fun s => admits m (se_NodeSelector s)) (l ++ l').
Proof.
  intros Hne Hf. unfold mixed. rewrite existsb_app.
  destruct (existsb selects_all l) eqn:Hl, (existsb selects_all l') eqn:Hl'; simpl.
  - by rewrite (existsb_selects_all m l).
  - case_bool_decide as E; [|done]. rewrite E. simpl. by rewrite (existsb_selects_all m l).
  - case_bool_decide as E; [|done]. rewrite E. simpl. by rewrite (existsb_selects_all m l').
  - intros _. rewrite <- existsb_app, <- bind_app.
    destruct (admits_terms m (l ++ l') Hne Hf) as [Ht He]; [by rewrite existsb_app, Hl, Hl'|].
    rewrite <- He. by destruct ((l ++ l')%list ≫= terms_of).
Qed.


Definition ex_set (name : string) (sel : option NodeSelector) : LocalVolumeSet := {|
  lset_type := {| tm_Kind := LocalVolumeSetKind; tm_APIVersion := v1alpha1_GroupVersion |};
  lset_meta := empty_meta "ns" name;
  lset_Spec := {| lss_NodeSelector := sel; lss_StorageClassName := "sc"; lss_MaxDeviceCount := None;
                  lss_VolumeMode := "Block"; lss_FSType := ""; lss_Tolerations := [];
                  lss_DeviceInclusionSpec := None; lss_DeviceExclusionSpec := None |};
  lset_Status := {| lst_Conditions := []; lst_TotalProvisionedDeviceCount := None; lst_ObservedGeneration := 0 |} |}.

Definition ex_lv (name : string) (sel : option NodeSelector) : LocalVolume := {|
  lv_type := {| tm_Kind := LocalVolumeKind; tm_APIVersion := v1_GroupVersion |};
  lv_meta := empty_meta "ns" name;
  lv_Spec := {| lvs_ManagementState := ""; lvs_LogLevel := ""; lvs_NodeSelector := sel;
                lvs_StorageClassDevices := [{| scd_StorageClassName := "sc"; scd_VolumeMode := "Block";
                  scd_FSType := ""; scd_DevicePaths := ["/dev/sda"]; scd_ForceWipe := false |}];
                lvs_Tolerations := [] |};
  lv_Status := {| lvt_ObservedGeneration := None; lvt_State := ""; lvt_Conditions := [];
                  lvt_ReadyReplicas := 0; lvt_Generations := [] |} |}.

Definition node_term (h : string) : NodeSelectorTerm :=
  {| nst_MatchExpressions := [{| nsr_Key := LabelHostname; nsr_Operator := "In"; nsr_Values := [h] |}];
     nst_MatchFields := [] |}.
Definition on_node (h : string) (t : NodeSelectorTerm) : bool := bool_decide (t = node_term h).


Lemma aggregate_order_witness :
  aggregate [ex_set "s" None; ex_set "t" None] [] = aggregate [ex_set "t" None; ex_set "s" None] [].
Proof.
  apply aggregate_order; [apply Permutation_swap|done| |apply NoDup_nil_2].
  apply (bool_decide_unpack _). by vm_compute.
Defined.

(** A LocalVolumeSet for all nodes is forgotten next to a LocalVolume for one node: the
    daemonset does not run on the other nodes. *)
Lemma mixed_hides_nodes :
  let s := ex_set "s" None in
  admits (on_node "b") (ag_nodeSelector (aggregate [s] [ex_lv "v" (Some [node_term "a"])])) = false /\
  admits (on_node "b") (se_NodeSelector (select_lvset s)) = true.
Proof. by split. Qed.

(** ** The daemonset *)

Lemma initMapIfNil_cases m :
  initMapIfNil m = ∅ /\ size m <= 1 \/ initMapIfNil m = m /\ 1 < size m.
Proof. unfold initMapIfNil. destruct (Nat.ltb_spec 1 (size m)); auto. Qed.

(** Laying a map over what [initMapIfNil] leaves is idempotent. *)
Definition laid_over (t m : gmap string string) : gmap string string := t ∪ initMapIfNil m.

Lemma laid_over_twice t m : laid_over t (laid_over t m) = laid_over t m.
Proof.
  unfold laid_over at 1. destruct (initMapIfNil_cases (laid_over t m)) as [[-> Hs]|[-> _]].
  - rewrite (right_id_L ∅ (∪)). unfold laid_over in *.
    destruct (initMapIfNil_cases m) as [[-> _]|[He Hm]]; [by rewrite (right_id_L ∅ (∪))|].
    rewrite He in Hs. exfalso. rewrite <- !size_dom in *.
    assert (size (dom m) <= size (dom (t ∪ m))); [|lia]. apply subseteq_size. rewrite dom_union_L. set_solver.
  - unfold laid_over. rewrite (assoc_L (∪)). f_equal. apply map_eq. intros k.
    rewrite lookup_union. destruct (t !! k); done.
Qed.

Lemma insert_initMapIfNil_twice (k v : string) m :
  <[k := v]> (initMapIfNil (<[k := v]> (initMapIfNil m))) = <[k := v]> (initMapIfNil m).
Proof.
  rewrite !insert_union_singleton_l. apply (laid_over_twice {[k := v]} m).
Qed.

(** The two objects agree on all the operator writes; the status, the versions and the
    server's other bookkeeping are free. *)
Record same_daemon (d o : DaemonSet) : Prop := {
  sd_name : om_Name (ds_meta d) = om_Name (ds_meta o);
  sd_namespace : om_Namespace (ds_meta d) = om_Namespace (ds_meta o);
  sd_labels : om_Labels (ds_meta d) = om_Labels (ds_meta o);
  sd_annotations : om_Annotations (ds_meta d) = om_Annotations (ds_meta o);
  sd_owners : om_OwnerReferences (ds_meta d) = om_OwnerReferences (ds_meta o);
  sd_selector : ds_Selector d = ds_Selector o;
  sd_template_labels : ds_TemplateLabels d = ds_TemplateLabels o;
  sd_template_annotations : ds_TemplateAnnotations d = ds_TemplateAnnotations o;
  sd_service_account : ds_ServiceAccountName d = ds_ServiceAccountName o;
  sd_priority : ds_PriorityClassName d = ds_PriorityClassName o;
  sd_tolerations : ds_Tolerations d = ds_Tolerations o;
  sd_affinity : ds_NodeAffinity d = ds_NodeAffinity o;
  sd_volumes : ds_Volumes d = ds_Volumes o;
  sd_containers : ds_Containers d = ds_Containers o;
  sd_strategy : ds_UpdateStrategy d = ds_UpdateStrategy o;
  sd_host_pid : ds_HostPID d = ds_HostPID o }.

Section daemon.
Context {E : Env}.

(** A mutation of the kind [CreateOrUpdateDaemonset] takes: a second application to
    what the first one left, as the server stores it, changes nothing. *)
Definition settles (f : DaemonSet -> Res DaemonSet) : Prop :=
  forall d d' o, f d = Ok d' -> same_daemon d' o -> om_CreationTimestamp (ds_meta o) <> None -> f o = Ok o.

(** The annotations and the containers may be written after the common part. *)
Lemma MutateAggregatedSpec_settled tol refs sel t d o a c :
  let m := MutateAggregatedSpec d tol refs sel t in
  same_daemon (set_containers c (set_ds_meta (set_annotations a (ds_meta m)) m)) o ->
  om_CreationTimestamp (ds_meta o) <> None ->
  MutateAggregatedSpec o tol refs sel t = set_containers (ds_Containers t) o.
Proof.
  intros m [] Hc. subst m. destruct o as [[] ? tl ta]. unfold MutateAggregatedSpec, set_containers in *. simpl in *.
  rewrite bool_decide_eq_false_2 by done.
  repeat match goal with H : _ = ?x |- _ => is_var x; subst x end.
  unfold set_owner_refs, set_labels. simpl. f_equal.
  - f_equal. apply laid_over_twice.
  - apply laid_over_twice.
  - apply laid_over_twice.
  - by destruct (decide _).
Qed.

Lemma getDiskMakerDSMutateFn_settles request tol refs sel hash min suites :
  settles (getDiskMakerDSMutateFn request tol refs sel hash min suites).
Proof.
  unfold settles, getDiskMakerDSMutateFn. intros d d' o Hd Hs Hc. destruct (read_template KDS _ _) as [t|]; [|done].
  injection Hd as <-. cbv zeta. set (m := MutateAggregatedSpec d tol refs sel t) in *.
  rewrite (MutateAggregatedSpec_settled tol refs sel t d o
    (<[dataHashAnnotationKey:=hash]> (initMapIfNil (om_Annotations (ds_meta m)))) (ds_Containers t));
    [|exact Hs|done].
  destruct Hs, o as [[]]. simpl in *. subst. unfold set_containers, set_ds_meta, set_annotations. simpl.
  by rewrite insert_initMapIfNil_twice.
Qed.

(** Once settled, a reconciliation reads the daemonset and writes nothing. *)
Lemma CreateOrUpdateDaemonset_silent f t d d' o w :
  settles f -> f empty_daemonset = Ok t -> object_key (k := KDS) o = object_key (k := KDS) t ->
  f d = Ok d' -> same_daemon d' o -> om_CreationTimestamp (ds_meta o) <> None ->
  (kget KDS false (object_key (k := KDS) o) (w_est w)).1 = Ok o ->
  wp (CreateOrUpdateDaemonset f) (fun r w' => w_trace w' = w_trace w /\ r = (o, OperationResultNone, None)) w.
Proof.
  intros Hf Ht Hk Hd Hs Hc Hget. unfold CreateOrUpdateDaemonset. rewrite Ht.
  rewrite Hk in Hget. eapply wp_mono.
  - apply (CreateOrUpdate_settled (k := KDS) t o f w Hget Hk). by eapply Hf.
  - intros r w' [-> [e ->]]. by split.
Qed.

(** C25: once the diskmaker daemonset in the cache is what an earlier reconciliation
    wrote (up to the status and the server's own fields), [CreateOrUpdateDaemonset]
    makes no write: the aggregated mutation is idempotent, whatever labels and
    annotations the daemonset has. *)
Theorem diskmaker_daemonset_settles (request : NamespacedName) (tol : list Toleration)
  (refs : list OwnerReference) (sel : option NodeSelector) (hash min suites : string)
  (t d d' o : DaemonSet) (w : World) :
  let f := getDiskMakerDSMutateFn request tol refs sel hash min suites in
  f empty_daemonset = Ok t -> object_key (k := KDS) o = object_key (k := KDS) t ->
  f d = Ok d' -> same_daemon d' o -> om_CreationTimestamp (ds_meta o) <> None ->
  (kget KDS false (object_key (k := KDS) o) (w_est w)).1 = Ok o ->
  wp (CreateOrUpdateDaemonset f) (fun r w' => w_trace w' = w_trace w /\ r = (o, OperationResultNone, None)) w.
Proof. intros f. apply CreateOrUpdateDaemonset_silent, getDiskMakerDSMutateFn_settles. Qed.

Lemma wp_dataHash data (Q : string -> World -> Prop) w :
  (forall en, Q (hash_entries (data_entry <$> map_to_list data)) (set_est en w)) -> wp (dataHash data) Q w.
Proof.
  intros HQ. unfold dataHash. apply wp_bind, wp_reads; [eauto with lso|]. intros entries en Hrun. apply wp_ret.
  pose proof (range_map_perm (map_to_list data) w) as Hp. rewrite Hrun in Hp. simpl in Hp.
  assert (hash_entries (data_entry <$> entries) = hash_entries (data_entry <$> map_to_list data)) as ->; [|done].
  unfold hash_entries. by rewrite (sort_strings_perm (data_entry <$> entries) (data_entry <$> map_to_list data)) by by rewrite Hp.
Qed.

(** The hash of the ConfigMap's data is a function of the map: the order in which
    the runtime ranges over it does not matter, on any platform. *)
Theorem dataHash_order (data : gmap string string) (w : World) :
  (dataHash data w).1 = hash_entries (data_entry <$> map_to_list data).
Proof.
  pose proof (wp_dataHash data (fun h _ => h = hash_entries (data_entry <$> map_to_list data)) w) as H.
  by apply H.
Qed.
End daemon.

(** Two ConfigMaps with different data share a hash when a value contains the separators. *)
Lemma dataHash_collision :
  hash_entries (data_entry <$> [("a", "1--b-2")]) = hash_entries (data_entry <$> [("a", "1"); ("b", "2")]).
Proof. unfold hash_entries. do 3 f_equal. Qed.

(** ** The hash annotation *)

Section hash.
Context {E : Env}.

(** The server stores the data it is given. *)
Definition keeps_data : Prop :=
  forall o en o', ((kcreate KCM o en).1 = Ok o' \/ (kupdate KCM o en).1 = Ok o') -> cm_Data o' = cm_Data o.

(** What is written to a daemonset carries this hash; without a hash nothing is. *)
Definition hashed (h : option string) (a : Act) : Prop :=
  match a with
  | ACreate k o _ | AUpdate k o _ =>
      match k return Obj k -> Prop with
      | KDS => fun ds => is_Some h /\ om_Annotations (ds_meta ds) !! dataHashAnnotationKey = h
      | _ => fun _ => True
      end o
  | _ => True
  end.

Lemma wp_reconcileProvisionerConfigMap request lvSets lvs refs w :
  keeps_data ->
  wp (reconcileProvisionerConfigMap request lvSets lvs refs) (fun r _ => forall cm op, r = Ok (cm, op) ->
        volume_config_data (storageClassConfig lvSets lvs) ["kubernetes.io/hostname"] = Ok (cm_Data cm)) w.
Proof.
  intros Hk. unfold reconcileProvisionerConfigMap. destruct (read_template KCM _ _) as [t|]; [|by apply wp_ret].
  apply wp_bind. eapply wp_mono; [apply wp_CreateOrUpdate_result|].
  intros [[cm op] [err|]] w' H; apply wp_ret; [done|]. intros cm' op' [= <- <-].
  destruct (H eq_refl) as (x & o & Ho & Hst). unfold mutate_config_map in Ho.
  destruct (volume_config_data _ _) as [data|]; [|done]. injection Ho as <-. simpl in Hst.
  destruct Hst as [->|[en Hen]]; [done|]. by rewrite (Hk _ _ _ Hen).
Qed.

Lemma traces_reconcileProvisionerConfigMap h request lvSets lvs refs :
  frame (traces (hashed h)) (reconcileProvisionerConfigMap request lvSets lvs refs).
Proof.
  unfold reconcileProvisionerConfigMap. frame_tac ltac:(idtac; apply (traces_CreateOrUpdate (k := KCM)); by intros).
Qed.

Lemma hashed_exporter h a : exporter_act a -> hashed h a.
Proof. destruct a as [| | | |[]|[]| | | | |]; done. Qed.

Lemma traces_diskmaker request tol refs sel h min suites :
  frame (traces (hashed (Some h))) (CreateOrUpdateDaemonset (getDiskMakerDSMutateFn request tol refs sel h min suites)).
Proof.
  unfold CreateOrUpdateDaemonset. destruct (getDiskMakerDSMutateFn _ _ _ _ _ _ _ empty_daemonset) as [t|]; [|by apply frame_ret, _].
  apply (traces_CreateOrUpdate (k := KDS)). intros x o e Ho.
  assert (om_Annotations (ds_meta o) !! dataHashAnnotationKey = Some h) as Ha; [|split; by split].
  unfold getDiskMakerDSMutateFn in Ho. destruct (read_template KDS _ _); [|done]. injection Ho as <-.
  simpl. by rewrite lookup_insert_eq.
Qed.

End hash.

(** ** The one-time cleanup *)

Section cleanup.
Context {E : Env}.

(** The backoff allows at most [n] looks. *)
Fixpoint looks_within (n steps : nat) (duration cap : Z) : bool :=
  match steps, n with
  | O, _ => true
  | S _, O => false
  | S _, S k => if decide (steps = 1) then true
                else let '(steps, duration) := backoff_next steps duration cap in looks_within k steps duration cap
  end.

Lemma wait_pods_fuel n steps duration cap fuel fuel' l w :
  looks_within n steps duration cap = true -> n <= fuel -> n <= fuel' ->
  wait_pods fuel steps duration cap l w = wait_pods fuel' steps duration cap l w.
Proof.
  revert steps duration fuel fuel' l w. induction n as [|n IH]; intros steps duration fuel fuel' l w Hn Hf Hf'.
  { destruct steps; [|done]. by destruct fuel, fuel'. }
  destruct steps as [|steps]; [by destruct fuel, fuel'|].
  destruct fuel as [|fuel]; [lia|]. destruct fuel' as [|fuel']; [lia|].
  simpl. unfold bindM. destruct (pods_gone _ w) as [[[]|] w1]; [done| |done].
  cbn [looks_within] in Hn. case_decide; [done|].
  destruct (backoff_next (S steps) duration cap) as [steps' duration']. apply IH; [done|lia..].
Qed.

(** The last look found none of the pods. *)
Definition pods_seen_gone (names : list string) : Prop :=
  exists en l r, names ⊆ l /\
    (klist KPod {| lo_Namespace := None; lo_Labels := []; lo_Field := None; lo_LabelIn := Some (appLabelKey, l) |} en).1 = r /\
    match r with Ok pods => pods = [] | Err err => is_not_found err = true end.

Lemma reads_pods_gone l : reads (pods_gone l).
Proof. unfold pods_gone. reads_tac. Qed.

Lemma wp_wait_pods fuel steps duration cap l w :
  wp (wait_pods fuel steps duration cap l)
     (fun r w' => (exists e, w' = set_est e w) /\ (r = None -> pods_seen_gone (oldProvisionerName :: l))) w.
Proof.
  revert steps duration l w. induction fuel as [|fuel IH]; intros steps duration l w.
  { apply wp_ret. split; [|done]. destruct w as [fs e m t]. by exists e. }
  destruct steps as [|steps].
  { apply wp_ret. split; [|done]. destruct w as [fs e m t]. by exists e. }
  cbn [wait_pods]. set (l' := (l ++ [oldProvisionerName])%list).
  assert (oldProvisionerName :: l ⊆ l') as Hl by (subst l'; set_solver).
  unfold pods_gone. apply wp_bind, wp_bind, wp_ask. intros r en Hr. apply wp_ret.
  assert (forall b, match r with Err err => if is_not_found err then Ok true else Err err
    | Ok pods => Ok (bool_decide (pods = [])) end = Ok b -> b = true -> pods_seen_gone (oldProvisionerName :: l)) as Hseen.
  { intros b Hb ->. exists (w_est w), l', r. split; [done|]. split; [by rewrite Hr|].
    destruct r as [pods|err]; [by injection Hb as ?%bool_decide_eq_true|]. by destruct (is_not_found err). }
  destruct (match r with Ok _ => _ | Err _ => _ end) as [[]|].
  3: { apply wp_ret. split; [by exists en|done]. }
  { apply wp_ret. split; [by exists en|]. intros _. by eapply Hseen. }
  case_decide; [apply wp_ret; split; [by exists en|done]|]. destruct (backoff_next (S steps) duration cap) as [steps' duration'].
  eapply wp_mono; [apply IH|]. intros r' w' [[e ->] Hgone]. split; [by exists e|]. intros Hn.
  destruct (Hgone Hn) as (en' & l2 & r2 & Hsub & ?). exists en', l2, r2. split; [set_solver|done].
Qed.

(** C28: the wait for the old pods ends: a backoff of 20 steps from one second, growing
    by 1.7 up to two minutes, makes at most ten looks, and the loop only reports
    success when the last look found no pod with any of the old labels. *)
Theorem wait_pods_terminates (fuel : nat) (names : list string) (w : World) :
  10 <= fuel ->
  wait_pods fuel 20 second (120 * second) names w = wait_pods 10 20 second (120 * second) names w /\
  wp (wait_pods fuel 20 second (120 * second) names)
     (fun r w' => r = None -> pods_seen_gone (oldProvisionerName :: names)) w.
Proof.
  intros Hf. split; [by apply (wait_pods_fuel 10)|].
  eapply wp_mono; [apply wp_wait_pods|]. by intros r w' [_ H].
Qed.

(** What the cleanup may do in a namespace: delete daemonsets of earlier releases. *)
Definition old_daemonset (namespace : string) (ds : DaemonSet) : Prop :=
  (exists app, om_Labels (ds_meta ds) !! appLabelKey = Some app /\ is_old_app app = true) \/
  exists en, (kget KDS false {| nn_Namespace := namespace; nn_Name := oldProvisionerName |} en).1 = Ok ds.

Definition old_delete (namespace : string) (a : Act) : Prop :=
  match a with
  | ADelete k o _ => match k return Obj k -> Prop with KDS => old_daemonset namespace | _ => fun _ => False end o
  | _ => False
  end.

(** Deletions of old daemonsets, nothing else. *)
Definition cleans (namespace : string) : World -> World -> Prop :=
  rel_both (same_of m_flags) (rel_both same_fs (traces (old_delete namespace))).

Lemma cleans_delete ns ds e w : old_daemonset ns ds -> cleans ns w (log (ADelete KDS ds e) w).
Proof. intros H. split; [done|]. split; [done|]. by apply traces_log. Qed.

Lemma cleans_delete_old ns l ds : frame (cleans ns) (delete_old l ds).
Proof.
  unfold delete_old. destruct (om_Labels (ds_meta ds) !! appLabelKey) as [app|] eqn:Happ; [|by apply frame_ret, _].
  destruct (is_old_app app) eqn:Hold; [|by apply frame_ret, _].
  apply frame_bind; [apply _| |intros []; by apply frame_ret, _].
  apply (frame_ask_act _). intros w e. apply cleans_delete. left. eauto.
Qed.

Lemma cleans_delete_provisioner ns : frame (cleans ns) (delete_provisioner ns).
Proof.
  intros w. change (wp (delete_provisioner ns) (fun _ w' => cleans ns w w') w).
  unfold delete_provisioner. apply wp_bind, wp_ask. intros r en Hr. destruct r as [ds|err]; [|apply wp_ret, rel_est].
  unfold ClientDelete. apply wp_bind, wp_bind, wp_ask. intros e en' _. apply wp_bind, wp_act, wp_ret, wp_ret.
  apply (rel_trans w (set_est en' w)); [apply rel_est|]. apply cleans_delete. right. exists (w_est w). by rewrite Hr.
Qed.

(** The cleanup of old daemonsets is done once: when its flag is set it makes no call
    at all; otherwise it only deletes daemonsets of the namespace labelled by an earlier
    release and the old provisioner's daemonset, and it sets the flag exactly when it
    reports success, so that a failed cleanup is tried again. *)
Theorem cleanupOldDaemonsets_once (namespace : string) (w : World) :
  wp (cleanupOldDaemonsets namespace) (fun r w' =>
    (default false (m_flags (w_mem w) !! deletedStaticProvisioner) = true -> r = None /\ w' = w) /\
    same_fs w w' /\ traces (old_delete namespace) w w' /\
    (r = None -> m_flags (w_mem w') !! deletedStaticProvisioner = Some true) /\
    (r <> None -> m_flags (w_mem w') = m_flags (w_mem w))) w.
Proof.
  unfold cleanupOldDaemonsets. apply wp_bind, wp_get_mem.
  destruct (default false _) eqn:Hflag.
  { apply wp_ret. repeat split; try done. intros _. by destruct (m_flags (w_mem w) !! deletedStaticProvisioner) as [[]|]. }
  apply (wp_mono _ (fun r w' => (r = None -> m_flags (w_mem w') !! deletedStaticProvisioner = Some true) /\
    rel_both same_fs (traces (old_delete namespace)) w w' /\ (r <> None -> m_flags (w_mem w') = m_flags (w_mem w))));
    [|intros r w' (H1 & [H2 H3] & H4); by repeat split].
  assert (forall (r : option GoErr) w', cleans namespace w w' -> r <> None ->
    (r = None -> m_flags (w_mem w') !! deletedStaticProvisioner = Some true) /\
    rel_both same_fs (traces (old_delete namespace)) w w' /\ (r <> None -> m_flags (w_mem w') = m_flags (w_mem w))) as Hfail.
  { by intros r w' [Hm Hr] Hne. }
  apply (wp_bind_frame (cleans namespace)); [apply frame_reads; [apply _|eauto with lso]|].
  intros [items|err] w1 H1; [|by apply wp_ret, Hfail].
  apply (wp_bind_frame (cleans namespace)); [apply frame_foldM; [apply _|intros; apply cleans_delete_old]|].
  intros [names|err] w2 H2; [|apply wp_ret, Hfail; [by etrans|done]].
  apply (wp_bind_frame (cleans namespace)); [apply cleans_delete_provisioner|].
  intros [err|] w3 H3; [apply wp_ret, Hfail; [by repeat (etrans; [done|])|done]|].
  apply wp_bind. eapply wp_mono; [apply wp_wait_pods|]. intros r w4 [[e ->] _].
  assert (cleans namespace w (set_est e w3)) as H4.
  { etrans; [exact H1|]. etrans; [exact H2|]. etrans; [exact H3|]. apply rel_est. }
  destruct r as [err|]; [by apply wp_ret, Hfail|].
  apply wp_bind, wp_put_mem, wp_ret. destruct H4 as [_ [Hfs Ht]]. split; [intros _; apply lookup_insert_eq|].
  split; [|done]. split; [exact Hfs|]. etrans; [exact Ht|]. apply traces_mem.
Qed.
End cleanup.

(** ** Instances *)

Definition daemon_request : NamespacedName := {| nn_Namespace := "ns"; nn_Name := "" |}.

(** The daemonset of the example, as written and then as the server stores it. *)
Definition ex_mutate : DaemonSet -> Res DaemonSet :=
  getDiskMakerDSMutateFn (E := static_env quiet) daemon_request [] [] None "hash" "VersionTLS12" "".
Definition ex_written : DaemonSet := match ex_mutate empty_daemonset with Ok d => d | Err _ => empty_daemonset end.
Definition ex_stored : DaemonSet :=
  let m := ds_meta ex_written in
  set_ds_meta {| om_Name := om_Name m; om_Namespace := om_Namespace m; om_UID := "uid"; om_Labels := om_Labels m;
                 om_Annotations := om_Annotations m; om_Finalizers := []; om_OwnerReferences := om_OwnerReferences m;
                 om_CreationTimestamp := Some 1%Z; om_DeletionTimestamp := None; om_Generation := 1;
                 om_ResourceVersion := "7" |} ex_written.

Definition daemon_api : Static := {|
  st_get := fun k key => match k with KDS => Ok ex_stored | _ => Err (StatusError ReasonNotFound (nn_Name key)) end;
  st_list := fun k _ => match k with KLVSet => [ex_set "s" None] | _ => [] end;
  st_fault := fun _ => None; st_exec := fun _ _ => ("", None); st_file := fun p => Err (PathError p ENOENT);
  st_clock := 1000%Z |}.

Lemma diskmaker_daemonset_settles_witness :
  wp (CreateOrUpdateDaemonset (E := static_env daemon_api) ex_mutate)
     (fun r w' => w_trace w' = [] /\ r = (ex_stored, OperationResultNone, None))
     (static_world daemon_api ∅ empty_mem).
Proof.
  apply (diskmaker_daemonset_settles (E := static_env daemon_api) daemon_request [] [] None "hash" "VersionTLS12" ""
    ex_written empty_daemonset ex_written ex_stored (static_world daemon_api ∅ empty_mem)); try reflexivity; [|done].
  by split.
Defined.


Lemma wait_pods_terminates_witness :
  wp (wait_pods (E := static_env quiet) 20 20 second (120 * second) ["old"])
     (fun r _ => r = None -> pods_seen_gone (E := static_env quiet) [oldProvisionerName; "old"])
     (static_world quiet ∅ empty_mem).
Proof. apply (wait_pods_terminates (E := static_env quiet)). lia. Defined.

(** A reconciliation of one LocalVolumeSet: the daemonset in the cluster carries another
    hash and is updated; the other objects are created. *)
Definition act_kind (a : Act) : string :=
  match a with
  | ACreate KCM _ _ => "create configmap" | ACreate KSvc _ _ => "create service"
  | ACreate KSM _ _ => "create monitor" | ACreate KRule _ _ => "create rule"
  | AUpdate KDS _ _ => "update daemonset" | ADelete KSM _ _ => "delete monitor"
  | ADelete KDS _ _ => "delete daemonset" | _ => "other"
  end.

Example Reconcile_daemon :
  let '(r, w) := Reconcile (E := static_env daemon_api) daemon_request (static_world daemon_api ∅ empty_mem) in
  r = (no_result, None) /\
  act_kind <$> w_trace w = ["delete daemonset"; "delete monitor"; "create configmap"; "create service";
                            "create monitor"; "create rule"; "update daemonset"].
Proof. vm_compute. by split. Qed.
