(* ===== verification/LvSetCtl.v ===== *)
(** * The LocalVolumeSet controller of the operator: pkg/controllers/localvolumeset

    localvolumeset_controller.go, finalizer.go, conditions.go and status.go.  The
    operator's own [StorageClassOwnerMap] is [m_owners]. *)
From stdpp Require Import base list strings gmap.
From Stdlib Require Import ZArith Lia String.
From S2P Require Import Prelude GoLib Types World Sys Envs Common Controller Exporter NodeDaemon.

Open Scope string_scope.

Definition pvStorageClassField := "spec.storageClassName".
Definition DaemonSetsAvailableAndConfigured := "DaemonSetsAvailable".
Definition OperatorStatusTypeAvailable := "Available".
Definition OperatorStatusTypeProgressing := "Progressing".
Definition OperatorStatusTypeDegraded := "Degraded".

Definition set_lset_meta (m : ObjectMeta) (s : LocalVolumeSet) : LocalVolumeSet :=
  {| lset_type := lset_type s; lset_meta := m; lset_Spec := lset_Spec s; lset_Status := lset_Status s |}.
Definition set_lset_status (st : LocalVolumeSetStatus) (s : LocalVolumeSet) : LocalVolumeSet :=
  {| lset_type := lset_type s; lset_meta := lset_meta s; lset_Spec := lset_Spec s; lset_Status := st |}.
Definition set_lset_conditions (c : list OperatorCondition) (s : LocalVolumeSet) : LocalVolumeSet :=
  set_lset_status {| lst_Conditions := c;
                     lst_TotalProvisionedDeviceCount := lst_TotalProvisionedDeviceCount (lset_Status s);
                     lst_ObservedGeneration := lst_ObservedGeneration (lset_Status s) |} s.

(** ** conditions.go *)

Definition new_condition (type status message : string) (t : Z) : OperatorCondition :=
  {| oc_Type := type; oc_Status := status; oc_Reason := ""; oc_Message := message; oc_LastTransitionTime := t |}.

(** [SetCondition] at the time [now]: the list and whether it changed. *)
Definition set_condition (now : Z) (conditions : list OperatorCondition) (type message status : string)
  : list OperatorCondition * bool :=
  match conditions with
  | [] => ([new_condition type status message now], true)
  | _ =>
      match list_find (fun c => oc_Type c = type) conditions with
      | Some (i, condition) =>
          let changed := bool_decide (oc_Status condition <> status)
                         || bool_decide (oc_LastTransitionTime condition = 0%Z)
                         || bool_decide (oc_Message condition <> message) in
          (<[i := new_condition type status message (oc_LastTransitionTime condition)]> conditions, changed)
      | None => ((conditions ++ [new_condition type status message now])%list, true)
      end
  end.

Section lvsetctl.
Context {E : Env}.

Definition SetCondition (conditions : list OperatorCondition) (type message status : string)
  : M (list OperatorCondition * bool) :=
  now ← ask clock;
  mret (set_condition now conditions type message status).

Definition register (class : string) (n : NamespacedName) : M unit :=
  put_mem (fun m => set_m_owners (RegisterStorageClassOwner class n (m_owners m)) m).
Definition deregister (class : string) (n : NamespacedName) : M unit :=
  put_mem (fun m => set_m_owners (DeregisterStorageClassOwner class n (m_owners m)) m).

(** ** finalizer.go *)

(** The object with or without the finalizer, updated when that is a change; the
    object is what later steps see. *)
Definition update_finalizer (setFinalizer : bool) (lvSet : LocalVolumeSet)
  : M (option GoErr * LocalVolumeSet) :=
  let '(finalizerUpdated, meta) :=
    if setFinalizer then AddFinalizer (lset_meta lvSet) LocalVolumeProtectionFinalizer
    else RemoveFinalizer (lset_meta lvSet) LocalVolumeProtectionFinalizer in
  let lvSet := set_lset_meta meta lvSet in
  if finalizerUpdated : bool then
    r ← ClientUpdate KLVSet lvSet;
    mret (match r with Ok lvSet' => (None, lvSet') | Err err => (Some err, lvSet) end)
  else mret (None, lvSet).

Definition syncFinalizer (lvSet : LocalVolumeSet) : M (option GoErr * LocalVolumeSet) :=
  if not_deleting (lset_meta lvSet) then update_finalizer true lvSet
  else
    err ← ReleaseAvailablePVs (OLocalVolumeSet lvSet);
    match err with
    | Some err =>
        mret (Some (Errorf (sprintf "error releasing unbound persistent volumes for localvolumeset %s: %v"
                              [LocalVolumeSetKey lvSet; error_text err])), lvSet)
    | None =>
        r ← GetOwnedPVs (OLocalVolumeSet lvSet);
        match r with
        | Err err => mret (Some (Wrap "could not list owned PVs" err), lvSet)
        | Ok [] => update_finalizer false lvSet
        | Ok _ => mret (Some (Errorf (sprintf "localvolumeset %s has owned persistentvolumes in use"
                                        [LocalVolumeSetKey lvSet])), lvSet)
        end
    end.

(** ** Storage classes *)

Definition lvset_owner_labels (lvs : LocalVolumeSet) : gmap string string :=
  {[OwnerNameLabel := om_Name (lset_meta lvs); OwnerNamespaceLabel := om_Namespace (lset_meta lvs);
    OwnerKindLabel := LocalVolumeSetKind]}.

(** Every expected label is on the class; the loop has no effect, so its order is left out. *)
Definition isStorageClassOwnedByLocalVolumeSet (sc : StorageClass) (lvs : LocalVolumeSet) : bool :=
  forallb (fun kv => bool_decide (om_Labels (sc_meta sc) !! kv.1 = Some kv.2)) (map_to_list (lvset_owner_labels lvs)).

Definition removeStorageClass (lvs : LocalVolumeSet) : M (option GoErr) :=
  let class := lss_StorageClassName (lset_Spec lvs) in
  r ← ClientGet KSC {| nn_Namespace := ""; nn_Name := class |};
  match r with
  | Err err =>
      mret (if is_not_found err then None
            else Some (Wrap (sprintf "failed to get storageClass %q for LocalVolumeSet %q"
                               [class; om_Name (lset_meta lvs)]) err))
  | Ok sc =>
      if negb (isStorageClassOwnedByLocalVolumeSet sc lvs) then mret None
      else
        e ← ClientDelete KSC sc;
        mret (match e with
              | Some err => if is_not_found err then None
                            else Some (Wrap (sprintf "failed to delete storageClass %q" [class]) err)
              | None => None
              end)
  end.

Definition lvset_storage_class (lvs : LocalVolumeSet) : StorageClass :=
  {| sc_meta := set_labels (lvset_owner_labels lvs) (empty_meta "" (lss_StorageClassName (lset_Spec lvs)));
     sc_Provisioner := "kubernetes.io/no-provisioner"; sc_ReclaimPolicy := Some ReclaimDelete;
     sc_VolumeBindingMode := Some "WaitForFirstConsumer"; sc_MountOptions := []; sc_AllowedTopologies := [] |}.

(** A failing removal is only logged. *)
Definition syncStorageClass (lvs : LocalVolumeSet) : M (option GoErr) :=
  if negb (ContainsFinalizer (lset_meta lvs) LocalVolumeProtectionFinalizer) then
    removeStorageClass lvs ;; mret None
  else
    r ← ApplyStorageClass (lvset_storage_class lvs);
    mret (match r.1 with
          | Err err => Some (Wrap (sprintf "error syncing StorageClass %s" [lss_StorageClassName (lset_Spec lvs)]) err)
          | Ok _ => None
          end).

(** ** status.go *)

(** The state of the diskmaker daemonset: status and message of the condition. *)
Definition daemonset_condition (diskMakerDS : option DaemonSet) : string * string :=
  match diskMakerDS with
  | None => (ConditionFalse, "DiskMaker: Not found.")
  | Some ds =>
      if (0 <? ds_NumberUnavailable ds)%Z
      then (ConditionFalse, sprintf "DiskMaker: %d/%d Unavailable."
                              [itoa (ds_NumberUnavailable ds); itoa (ds_CurrentNumberScheduled ds)])
      else (ConditionTrue, "DiskMaker: Available")
  end.

(** The condition set on the object read again, written when it changed. *)
Definition put_condition (lvSet : LocalVolumeSet) (type message status : string) : M (option GoErr) :=
  r ← SetCondition (lst_Conditions (lset_Status lvSet)) type message status;
  let '(conditions, changed) := r in
  if changed : bool then
    r ← StatusUpdate KLVSet (set_lset_conditions conditions lvSet);
    mret (err_of r)
  else mret None.

Definition updateDaemonSetsCondition (request : NamespacedName) : M (option GoErr) :=
  let key := {| nn_Namespace := nn_Namespace request; nn_Name := DiskMakerName |} in
  r ← ClientGet KDS key;
  match (match r with
         | Ok ds => Ok (Some ds)
         | Err err => if is_not_found err then Ok None else Err err
         end) with
  | Err err => mret (Some (Wrap (sprintf "failed to get %q" [show_name key]) err))
  | Ok diskMakerDS =>
      let '(conditionStatus, conditionMessage) := daemonset_condition diskMakerDS in
      r ← ClientGet KLVSet request;
      match r with
      | Err err =>
          if is_not_found err then deregister "" request ;; mret None
          else mret (Some (Wrap "failed to get localvolumeset" err))
      | Ok lvSet => put_condition lvSet DaemonSetsAvailableAndConfigured conditionMessage conditionStatus
      end
  end.

Definition updateTotalProvisionedDeviceCountStatus (request : NamespacedName) : M (option GoErr) :=
  r ← ClientGet KLVSet request;
  match r with
  | Err err =>
      if is_not_found err then deregister "" request ;; mret None
      else mret (Some (Wrap "failed to get localvolumeset" err))
  | Ok lvSet =>
      r ← ClientList KPV {| lo_Namespace := None; lo_Labels := [];
                            lo_Field := Some (pvStorageClassField, lss_StorageClassName (lset_Spec lvSet));
                            lo_LabelIn := None |};
      match r with
      | Err err => mret (Some (Wrap "failed to list persistent volumes" err))
      | Ok pvs =>
          r ← StatusUpdate KLVSet (set_lset_status
                {| lst_Conditions := lst_Conditions (lset_Status lvSet);
                   lst_TotalProvisionedDeviceCount := Some (int32_of (Z.of_nat (List.length pvs)));
                   lst_ObservedGeneration := om_Generation (lset_meta lvSet) |} lvSet);
          mret (match r with Ok _ => None | Err err => Some (Wrap "failed to update status" err) end)
      end
  end.

Definition addAvailabilityConditions (request : NamespacedName) (result : CtrlResult) (reconcileError : option GoErr)
  : M (CtrlResult * option GoErr) :=
  r ← ClientGet KLVSet request;
  match r with
  | Err err =>
      if is_not_found err then deregister "" request ;; mret (result, reconcileError)
      else mret (result, Some (Wrap "failed to get localvolumeset" err))
  | Ok lvSet =>
      let '(conditionStatus, conditionMessage) :=
        match reconcileError with
        | None => (ConditionTrue, "Operator reconciled successfully.")
        | Some err => (ConditionFalse, sprintf "Operator error: %v" [error_text err])
        end in
      e ← put_condition lvSet OperatorStatusTypeAvailable conditionMessage conditionStatus;
      match e with
      | Some err => mret (result, Some err)
      | None => mret (result, reconcileError)
      end
  end.

(** ** localvolumeset_controller.go *)

(** After the finalizer. *)
Definition sync_lvset (request : NamespacedName) (lvSet : LocalVolumeSet) : M (CtrlResult * option GoErr) :=
  err ← syncStorageClass lvSet;
  match err with
  | Some _ => mret (no_result, err)
  | None =>
      err ← updateDaemonSetsCondition request;
      match err with
      | Some _ => mret (no_result, err)
      | None =>
          err ← updateTotalProvisionedDeviceCountStatus request;
          mret (no_result, err)
      end
  end.

(** On a missing object the class deregistered is that of the empty object. *)
Definition reconcile (request : NamespacedName) : M (CtrlResult * option GoErr) :=
  r ← ClientGet KLVSet request;
  match r with
  | Err err =>
      if is_not_found err then deregister "" request ;; mret (no_result, None)
      else mret (no_result, Some err)
  | Ok lvSet =>
      register (lss_StorageClassName (lset_Spec lvSet)) request ;;
      r ← syncFinalizer lvSet;
      match r.1 with
      | Some err => mret (no_result, Some (Wrap "failed to update localvolumeset finalizer" err))
      | None => sync_lvset request r.2
      end
  end.

Definition Reconcile (request : NamespacedName) : M (CtrlResult * option GoErr) :=
  r ← reconcile request;
  addAvailabilityConditions request r.1 r.2.
End lvsetctl.

(** *** The watches *)

(** The index of volumes by class. *)
Definition index_by_class (pv : PersistentVolume) : list string :=
  if (0 <? String.length (pv_StorageClassName pv))%nat then [pv_StorageClassName pv] else [].

(** The owners of the volume's class. *)
Definition requests_for_class (owners : OwnerMap) (pv : PersistentVolume) : list NamespacedName :=
  GetStorageClassOwners owners (pv_StorageClassName pv).

(** The owner named by the volume's labels, when it is of the kind. *)
Definition requests_for_owner (kind : string) (pv : PersistentVolume) : list NamespacedName :=
  match pv_Labels pv !! PVOwnerNameLabel with
  | None => []
  | Some ownerName =>
      match pv_Labels pv !! PVOwnerNamespaceLabel with
      | None => []
      | Some ownerNamespace =>
          match pv_Labels pv !! PVOwnerKindLabel with
          | None => []
          | Some ownerKind =>
              if decide (ownerKind = kind) then [{| nn_Namespace := ownerNamespace; nn_Name := ownerName |}] else []
          end
      end
  end.

(** ** Conditions *)

Abbreviation of_type t := (fun c => oc_Type c = t).

Lemma list_find_insert (t : string) (l : list OperatorCondition) i c0 c :
  list_find (of_type t) l = Some (i, c0) -> oc_Type c = t -> list_find (of_type t) (<[i := c]> l) = Some (i, c).
Proof.
  revert i. induction l as [|x l IH]; intros i H Ht; [done|]. simpl in H. case_decide as Hx.
  - injection H as <- <-. simpl. by rewrite decide_True.
  - apply fmap_Some in H as ([j y] & Hl & [= -> ->]). simpl. rewrite decide_False by done. by rewrite (IH j).
Qed.

Lemma filter_insert_type (t t' : string) (l : list OperatorCondition) i c0 c :
  list_find (of_type t) l = Some (i, c0) -> oc_Type c = t -> t' <> t ->
  filter (of_type t') (<[i := c]> l) = filter (of_type t') l.
Proof.
  revert i. induction l as [|x l IH]; intros i H Ht Hne; [done|]. simpl in H. case_decide as Hx.
  - injection H as <- <-. simpl. rewrite !filter_cons, !decide_False by congruence. done.
  - apply fmap_Some in H as ([j y] & Hl & [= -> ->]). simpl. rewrite !filter_cons. by rewrite (IH j).
Qed.

(** After [SetCondition] the first condition of the type (the one that was first, or
    a new last one) has the wanted status and message; its transition time is
    that of the entry it replaces, or now for a new one.  The conditions of other types
    keep their values and order, and a call that reports no change has changed nothing. *)
Theorem SetCondition_spec (now : Z) (conditions : list OperatorCondition) (type message status : string) :
  let '(conditions', changed) := set_condition now conditions type message status in
  (exists i t, list_find (of_type type) conditions' = Some (i, new_condition type status message t) /\
     match list_find (of_type type) conditions with
     | Some (j, c) => i = j /\ t = oc_LastTransitionTime c
     | None => i = List.length conditions /\ t = now
     end) /\
  (forall t, t <> type -> filter (of_type t) conditions' = filter (of_type t) conditions) /\
  (Forall (fun c => oc_Reason c = "") conditions -> changed = false -> conditions' = conditions).
Proof.
  unfold set_condition. destruct conditions as [|c cs].
  { split; [|split; [|done]].
    - exists 0, now. simpl. by rewrite decide_True.
    - intros t Ht. rewrite filter_cons. by rewrite decide_False. }
  generalize (c :: cs). clear c cs. intros l. destruct (list_find (of_type type) l) as [[i c]|] eqn:Hf.
  - split; [|split].
    + exists i, (oc_LastTransitionTime c). split; [|done]. by eapply list_find_insert.
    + intros t Ht. by eapply filter_insert_type.
    + intros Hr [[Hs _]%orb_false_iff Hm]%orb_false_iff.
      apply list_find_Some in Hf as (Hi & Ht & _). apply list_insert_id. rewrite Hi. f_equal.
      apply bool_decide_eq_false in Hs, Hm. apply dec_stable in Hs, Hm.
      rewrite Forall_lookup in Hr. specialize (Hr i c Hi). destruct c. simpl in *. by subst.
  - split; [|split; [|done]].
    + exists (List.length l), now. split; [|done].
      pose proof (list_find_None (of_type type) l) as [Hnone _]. specialize (Hnone Hf).
      rewrite list_find_app_r by done. simpl. rewrite decide_True by done. simpl. repeat f_equal; lia.
    + intros t Ht. rewrite filter_app, filter_cons, decide_False by done. by rewrite app_nil_r.
Qed.

(** The transition time does not follow the status. *)
Lemma transition_time_is_kept :
  set_condition 9 [new_condition "Available" ConditionTrue "ok" 5] "Available" "broken" ConditionFalse =
    ([new_condition "Available" ConditionFalse "broken" 5], true).
Proof. reflexivity. Qed.

(** A condition without a transition time is reported as changed for ever. *)
Lemma zero_transition_time_never_settles :
  let c := [new_condition "Available" ConditionTrue "ok" 0] in
  set_condition 9 c "Available" "ok" ConditionTrue = (c, true).
Proof. reflexivity. Qed.

(** ** The finalizer and the class *)

Section finalizer.
Context {E : Env}.

(** The server keeps the name and the finalizers of an object it updates. *)
Definition keeps_identity : Prop :=
  forall s en s', (kupdate KLVSet s en).1 = Ok s' ->
    om_Name (lset_meta s') = om_Name (lset_meta s) /\ om_Namespace (lset_meta s') = om_Namespace (lset_meta s) /\
    om_Finalizers (lset_meta s') = om_Finalizers (lset_meta s).

(** The set is being deleted and a listing of its volumes was empty. *)
Definition may_go (lv : LocalVolumeSet) : Prop :=
  not_deleting (lset_meta lv) = false /\ no_owned_volumes (OLocalVolumeSet lv).

Definition protected (lv : LocalVolumeSet) : Prop :=
  ContainsFinalizer (lset_meta lv) LocalVolumeProtectionFinalizer = true.

(** What a reconciliation of [lv] may do. *)
Definition lvset_act (lv : LocalVolumeSet) (a : Act) : Prop :=
  match a with
  | AUpdate k o _ =>
      match k return Obj k -> Prop with
      | KLVSet => fun s => protected s \/ may_go lv
      | KPV => fun _ => not_deleting (lset_meta lv) = false
      | KSC => fun _ => True
      | _ => fun _ => False
      end o
  | ADelete k o _ =>
      match k return Obj k -> Prop with
      | KSC => fun sc => isStorageClassOwnedByLocalVolumeSet sc lv = true /\ may_go lv
      | _ => fun _ => False
      end o
  | ACreate k _ _ => k = KSC
  | AStatus k _ _ => k = KLVSet
  | _ => False
  end.

Definition same_owner (lv s : LocalVolumeSet) : Prop :=
  om_Name (lset_meta s) = om_Name (lset_meta lv) /\ om_Namespace (lset_meta s) = om_Namespace (lset_meta lv).

Lemma owned_same_owner sc lv s :
  same_owner lv s -> isStorageClassOwnedByLocalVolumeSet sc s = isStorageClassOwnedByLocalVolumeSet sc lv.
Proof. intros [Hn Hns]. unfold isStorageClassOwnedByLocalVolumeSet, lvset_owner_labels. by rewrite Hn, Hns. Qed.

Lemma AddFinalizer_contains m f : ContainsFinalizer (AddFinalizer m f).2 f = true.
Proof.
  unfold AddFinalizer. destruct (ContainsFinalizer m f) eqn:H; [done|].
  unfold ContainsFinalizer. simpl. apply bool_decide_eq_true. set_solver.
Qed.

Lemma set_finalizer_owner (b : bool) m f :
  let m' := (if b then AddFinalizer m f else RemoveFinalizer m f).2 in
  om_Name m' = om_Name m /\ om_Namespace m' = om_Namespace m.
Proof. unfold AddFinalizer, RemoveFinalizer. destruct b, (ContainsFinalizer m f); done. Qed.

Lemma wp_update_finalizer (b : bool) lv w :
  keeps_identity -> (b = false -> may_go lv) ->
  wp (update_finalizer b lv) (fun r w' => traces (lvset_act lv) w w' /\
    (r.1 = None -> same_owner lv r.2 /\ (protected r.2 \/ may_go lv))) w.
Proof.
  intros Hk Hb. unfold update_finalizer.
  pose proof (set_finalizer_owner b (lset_meta lv) LocalVolumeProtectionFinalizer) as Ho. cbv zeta in Ho.
  assert (b = true -> ContainsFinalizer (if b then AddFinalizer (lset_meta lv) LocalVolumeProtectionFinalizer
    else RemoveFinalizer (lset_meta lv) LocalVolumeProtectionFinalizer).2 LocalVolumeProtectionFinalizer = true) as Hc.
  { intros ->. apply AddFinalizer_contains. }
  destruct (if b then _ else _) as [updated meta]. simpl in Ho, Hc.
  assert (ContainsFinalizer meta LocalVolumeProtectionFinalizer = true \/ may_go lv) as Hp by (destruct b; auto).
  destruct updated.
  - unfold ClientUpdate. apply wp_bind, wp_bind, wp_ask. intros r en Hr. apply wp_bind, wp_act, wp_ret, wp_ret.
    split; [apply (rel_trans w (set_est en w)); [apply rel_est|]; by apply traces_log|].
    destruct r as [s|]; [|done]. intros _. simpl.
    destruct (Hk (set_lset_meta meta lv) (w_est w) s) as (Hn & Hns & Hf); [by rewrite Hr|]. simpl in *.
    unfold same_owner, protected, ContainsFinalizer. rewrite Hn, Hns, Hf. by split.
  - apply wp_ret. split; [apply traces_rel|]. intros _. by split.
Qed.

Lemma wp_syncFinalizer lv w :
  keeps_identity ->
  wp (syncFinalizer lv) (fun r w' => traces (lvset_act lv) w w' /\
    (r.1 = None -> same_owner lv r.2 /\ (protected r.2 \/ may_go lv))) w.
Proof.
  intros Hk. unfold syncFinalizer. destruct (not_deleting (lset_meta lv)) eqn:Hd; [by apply wp_update_finalizer|].
  apply (wp_bind_frame (traces (lvset_act lv))); [by apply traces_ReleaseAvailablePVs|].
  intros [err|] w1 H1; [by apply wp_ret|].
  apply wp_bind. eapply wp_mono; [apply wp_GetOwnedPVs|]. intros r w2 [[e ->] Hnone].
  assert (traces (lvset_act lv) w (set_est e w1)) as H2 by (etrans; [done|apply rel_est]).
  destruct r as [[|pv l]|err]; [|by apply wp_ret..].
  eapply wp_mono; [apply wp_update_finalizer; [done|]; intros _; by split; auto|].
  intros r w3 [H3 Hr]. split; [by etrans|done].
Qed.

Lemma traces_syncStorageClass lv s :
  same_owner lv s -> protected s \/ may_go lv -> frame (traces (lvset_act lv)) (syncStorageClass s).
Proof.
  intros Hs Hp. unfold syncStorageClass. destruct (ContainsFinalizer _ _) eqn:Hc; simpl.
  - apply frame_bind; [apply _|by apply traces_ApplyStorageClass|]. intros r. apply frame_ret, _.
  - apply frame_bind; [apply _| |intros _; apply frame_ret, _]. unfold removeStorageClass.
    apply frame_bind; [apply _|apply frame_reads; [apply _|eauto with lso]|]. intros [sc|err]; [|apply frame_ret, _].
    destruct (isStorageClassOwnedByLocalVolumeSet sc s) eqn:Ho; simpl; [|apply frame_ret, _].
    apply frame_bind; [apply _| |intros []; apply frame_ret, _]. apply (frame_ask_act _). intros w e. apply traces_log.
    simpl. split; [by rewrite <- (owned_same_owner sc lv s)|]. destruct Hp as [Hp|]; [|done].
    unfold protected in Hp. congruence.
Qed.

Lemma traces_deregister P c n : frame (traces P) (deregister c n).
Proof. apply frame_put_mem. intros. apply traces_mem. Qed.
Lemma traces_put_condition lv s t m st : frame (traces (lvset_act lv)) (put_condition s t m st).
Proof. unfold put_condition, SetCondition. traces_tac. Qed.
Hint Resolve traces_deregister traces_put_condition : lso_traces.

Lemma traces_updateDaemonSetsCondition lv request : frame (traces (lvset_act lv)) (updateDaemonSetsCondition request).
Proof. unfold updateDaemonSetsCondition. traces_tac. Qed.
Lemma traces_updateTotal lv request : frame (traces (lvset_act lv)) (updateTotalProvisionedDeviceCountStatus request).
Proof. unfold updateTotalProvisionedDeviceCountStatus. traces_tac. Qed.
Lemma traces_addAvailability lv request r e : frame (traces (lvset_act lv)) (addAvailabilityConditions request r e).
Proof. unfold addAvailabilityConditions. traces_tac. Qed.

(** C7: a reconciliation of a LocalVolumeSet drops its finalizer and deletes its storage
    class only when the set is being deleted and a listing of its volumes was empty; the
    class must carry the set's owner labels; volumes are only updated (released) while
    the set is being deleted.  It writes nothing else but the class and the status. *)
Theorem LocalVolumeSet_finalizer_safe (request : NamespacedName) (lv : LocalVolumeSet) (w : World) :
  keeps_identity -> (kget KLVSet false request (w_est w)).1 = Ok lv ->
  wp (Reconcile request) (fun _ w' => traces (lvset_act lv) w w') w.
Proof.
  intros Hk Hget. unfold Reconcile. apply wp_bind. eapply (wp_mono _ (fun _ w' => traces (lvset_act lv) w w')).
  2: { intros r w1 H1. eapply wp_mono; [apply (frame_wp (traces (lvset_act lv))), traces_addAvailability|].
       intros ? w2 H2. simpl in H2. by etrans. }
  unfold reconcile. apply wp_bind, wp_ask. intros r en Hr. rewrite Hr in Hget. simpl in Hget. subst r.
  apply wp_bind, wp_put_mem, wp_bind. set (w0 := set_mem _ _).
  assert (traces (lvset_act lv) w w0) as H0 by (etrans; [apply (rel_est w en)|apply traces_mem]).
  eapply wp_mono; [by apply wp_syncFinalizer|]. intros [[err|] s] w1 [H1 Hs]; simpl in *.
  { apply wp_ret. by etrans. }
  destruct (Hs eq_refl) as [Ho Hp]. apply (wp_mono _ (fun _ w' => traces (lvset_act lv) w1 w')).
  2: { intros _ w2 H2. etrans; [exact H0|]. by etrans. }
  apply frame_wp; [apply _|]. unfold sync_lvset. frame_tac ltac:(idtac; first [by apply traces_syncStorageClass
    | apply traces_updateDaemonSetsCondition | apply traces_updateTotal]).
Qed.

(** A LocalVolumeSet that is being deleted and has no volumes loses its finalizer at
    the next reconciliation: [syncFinalizer] makes one call, the update without the
    finalizer, and succeeds when the server accepts it. *)
Theorem LocalVolumeSet_finalizer_dropped (lv : LocalVolumeSet) (kind ns name : string) (w : World) :
  not_deleting (lset_meta lv) = false -> protected lv ->
  owner_ids (OLocalVolumeSet lv) = Ok (kind, ns, name) ->
  (forall en, (klist KPV (matching_labels (owner_labels kind ns name)) en).1 = Ok []) ->
  wp (syncFinalizer lv) (fun r w' => exists e,
    w_trace w' = (w_trace w ++ [AUpdate KLVSet (set_lset_meta (set_finalizers
      (List.filter (fun f => negb (String.eqb f LocalVolumeProtectionFinalizer)) (om_Finalizers (lset_meta lv)))
      (lset_meta lv)) lv) e])%list /\ r.1 = e) w.
Proof.
  intros Hd Hp Hids Hnone. unfold syncFinalizer. rewrite Hd.
  unfold ReleaseAvailablePVs, GetOwnedPVs. rewrite Hids.
  apply wp_bind, wp_bind, wp_ask. intros r en Hr. specialize (Hnone (w_est w)) as H1. rewrite Hr in H1. simpl in H1. subst r.
  simpl. apply wp_bind, wp_ret, wp_ret. apply wp_bind, wp_bind, wp_ask. intros r en2 Hr2.
  specialize (Hnone en) as H2. simpl in Hr2. rewrite Hr2 in H2. simpl in H2. subst r. apply wp_ret.
  unfold update_finalizer, RemoveFinalizer. rewrite Hp. unfold ClientUpdate.
  apply wp_bind, wp_bind, wp_ask. intros r en3 _. apply wp_bind, wp_act, wp_ret, wp_ret. exists (err_of r).
  by destruct r.
Qed.
End finalizer.

(** ** Instances *)

Definition going_set : LocalVolumeSet :=
  set_lset_meta (set_finalizers [LocalVolumeProtectionFinalizer; "other"]
    {| om_Name := "s"; om_Namespace := "ns"; om_UID := "uid"; om_Labels := ∅; om_Annotations := ∅;
       om_Finalizers := []; om_OwnerReferences := []; om_CreationTimestamp := Some 1%Z;
       om_DeletionTimestamp := Some 2%Z; om_Generation := 1; om_ResourceVersion := "7" |}) (ex_set "s" None).

Definition set_request : NamespacedName := {| nn_Namespace := "ns"; nn_Name := "s" |}.

(** A cluster with the set, its class, and the given volumes. *)
Definition set_api (pvs : list PersistentVolume) : Static := {|
  st_get := fun k key => match k with
    | KLVSet => Ok going_set
    | KSC => Ok (lvset_storage_class going_set)
    | _ => Err (StatusError ReasonNotFound (nn_Name key)) end;
  st_list := fun k _ => match k with KPV => pvs | _ => [] end;
  st_fault := fun _ => None; st_exec := fun _ _ => ("", None); st_file := fun p => Err (PathError p ENOENT);
  st_clock := 1000%Z |}.

Definition dropped (a : Act) : bool :=
  match a with
  | AUpdate KLVSet s _ => negb (ContainsFinalizer (lset_meta s) LocalVolumeProtectionFinalizer)
  | ADelete KSC _ _ => true
  | _ => false
  end.

(** Without volumes the finalizer and the class go; a bound volume keeps both. *)
Example deleting_a_set :
  let run pvs := Reconcile (E := static_env (set_api pvs)) set_request (static_world (set_api pvs) ∅ empty_mem) in
  dropped <$> w_trace (run []).2 = [true; true; false; false; false] /\
  existsb dropped (w_trace (run [empty_pv "pv"]).2) = false.
Proof. vm_compute. by split. Qed.

Lemma LocalVolumeSet_finalizer_safe_witness :
  wp (Reconcile (E := static_env (set_api [])) set_request)
     (fun _ w' => traces (lvset_act (E := static_env (set_api [])) going_set) (static_world (set_api []) ∅ empty_mem) w')
     (static_world (set_api []) ∅ empty_mem).
Proof.
  apply (LocalVolumeSet_finalizer_safe (E := static_env (set_api []))); [|done].
  by intros s en s' [= <-].
Defined.

Lemma LocalVolumeSet_finalizer_dropped_witness :
  wp (syncFinalizer (E := static_env (set_api [])) going_set) (fun r w' => exists e,
     w_trace w' = [AUpdate KLVSet (set_lset_meta (set_finalizers ["other"] (lset_meta going_set)) going_set) e] /\ r.1 = e)
     (static_world (set_api []) ∅ empty_mem).
Proof.
  apply (LocalVolumeSet_finalizer_dropped (E := static_env (set_api [])) going_set LocalVolumeSetKind "ns" "s");
    reflexivity.
Defined.
