(* ===== verification/LvCtl.v ===== *)
(** * The LocalVolume controller of the operator: pkg/controllers/localvolume

    localvolume_controller.go and api_updater.go.  A panic is recovered by
    controller-runtime and becomes the error of the reconciliation. *)
From stdpp Require Import base list strings gmap.
From Stdlib Require Import ZArith Lia String.
From S2P Require Import Prelude GoLib Types World Sys Envs Common Controller Exporter NodeDaemon LvSetCtl.

Open Scope string_scope.

Definition localVolumeFinalizer := "storage.openshift.com/local-volume-protection".
Definition LocalVolumeStorageClassTemplate := "templates/localvolume-storageclass.yaml".
Definition Managed := "Managed".
Definition Force := "Force".

Definition localVolumeUpdateFailed := "LocalVolumeUpdateFailed".
Definition releasingPersistentVolumesFailed := "ReleasingPersistentVolumeFailed".
Definition listingPersistentVolumesFailed := "ListingPersistentVolumeFailed".
Definition deletingStorageClassFailed := "DeletingStorageClassFailed".
Definition localVolumeDeletionFailed := "LocalVolumeDeletionFailed".

Definition set_lv_meta (m : ObjectMeta) (lv : LocalVolume) : LocalVolume :=
  {| lv_type := lv_type lv; lv_meta := m; lv_Spec := lv_Spec lv; lv_Status := lv_Status lv |}.
Definition set_lv_status (s : LocalVolumeStatus) (lv : LocalVolume) : LocalVolume :=
  {| lv_type := lv_type lv; lv_meta := lv_meta lv; lv_Spec := lv_Spec lv; lv_Status := s |}.
Definition set_lv_State (st : string) (lv : LocalVolume) : LocalVolume :=
  let s := lv_Status lv in
  set_lv_status {| lvt_ObservedGeneration := lvt_ObservedGeneration s; lvt_State := st;
                   lvt_Conditions := lvt_Conditions s; lvt_ReadyReplicas := lvt_ReadyReplicas s;
                   lvt_Generations := lvt_Generations s |} lv.
Definition set_lv_Conditions (c : list OperatorCondition) (lv : LocalVolume) : LocalVolume :=
  let s := lv_Status lv in
  set_lv_status {| lvt_ObservedGeneration := lvt_ObservedGeneration s; lvt_State := lvt_State s;
                   lvt_Conditions := c; lvt_ReadyReplicas := lvt_ReadyReplicas s;
                   lvt_Generations := lvt_Generations s |} lv.
Definition set_lv_Generations (g : list GenerationStatus) (lv : LocalVolume) : LocalVolume :=
  let s := lv_Status lv in
  set_lv_status {| lvt_ObservedGeneration := lvt_ObservedGeneration s; lvt_State := lvt_State s;
                   lvt_Conditions := lvt_Conditions s; lvt_ReadyReplicas := lvt_ReadyReplicas s;
                   lvt_Generations := g |} lv.
Definition set_lv_ObservedGeneration (g : Z) (lv : LocalVolume) : LocalVolume :=
  let s := lv_Status lv in
  set_lv_status {| lvt_ObservedGeneration := Some g; lvt_State := lvt_State s;
                   lvt_Conditions := lvt_Conditions s; lvt_ReadyReplicas := lvt_ReadyReplicas s;
                   lvt_Generations := lvt_Generations s |} lv.

(** ** Finalizers *)

Definition contains (l : list string) (s : string) : bool := existsb (fun v => String.eqb v s) l.

(** [remove] shifts the tail of the slice left in place while it ranges over the array:
    [i] runs over the original length, [arr] is the backing array and [len] the length
    of the slice so far.  [None] is the panic of a slice whose bounds are out of range. *)
Fixpoint remove_loop (s : string) (n i : nat) (arr : list string) (len : nat) : option (list string) :=
  match n with
  | O => Some (take len arr)
  | S n' =>
      if String.eqb (default "" (arr !! i)) s then
        if Nat.ltb len (S i) then None
        else remove_loop s n' (S i)
               (take i arr ++ take (len - S i) (drop (S i) arr) ++ drop (len - 1) arr)%list (len - 1)
      else remove_loop s n' (S i) arr len
  end.

Definition remove (l : list string) (s : string) : option (list string) :=
  remove_loop s (List.length l) 0 l (List.length l).

Definition addFinalizer (lv : LocalVolume) : LocalVolume * bool :=
  let currentFinalizers := om_Finalizers (lv_meta lv) in
  if contains currentFinalizers localVolumeFinalizer then (lv, false)
  else (set_lv_meta (set_finalizers (currentFinalizers ++ [localVolumeFinalizer])%list (lv_meta lv)) lv, true).

Definition removeFinalizer (lv : LocalVolume) : option LocalVolume :=
  let currentFinalizers := om_Finalizers (lv_meta lv) in
  if negb (contains currentFinalizers localVolumeFinalizer) then Some lv
  else match remove currentFinalizers localVolumeFinalizer with
       | Some newFinalizers => Some (set_lv_meta (set_finalizers newFinalizers (lv_meta lv)) lv)
       | None => None
       end.

Definition isDeletionCandidate (m : ObjectMeta) (finalizer : string) : bool :=
  negb (not_deleting m) && contains (om_Finalizers m) finalizer.

Definition panicked : GoErr := Errorf "panic: runtime error: slice bounds out of range [recovered]".

(** ** Owner labels *)

Definition set_label_if_different (changed : bool) (m : gmap string string) (k v : string)
  : bool * gmap string string :=
  if decide (m !! k = Some v) then (changed, m) else (true, <[k := v]> m).

(** A nil map is made first, which counts as a change. *)
Definition addOwnerLabels (meta : ObjectMeta) (cr : LocalVolume) : ObjectMeta * bool :=
  let '(changed, m) := (bool_decide (om_Labels meta = ∅), om_Labels meta) in
  let '(changed, m) := set_label_if_different changed m OwnerNamespaceLabel (om_Namespace (lv_meta cr)) in
  let '(changed, m) := set_label_if_different changed m OwnerNameLabel (om_Name (lv_meta cr)) in
  let '(changed, m) := set_label_if_different changed m OwnerKindLabel LocalVolumeKind in
  (set_labels m meta, changed).

Definition getOwnerLabelSelector (cr : LocalVolume) : ListOpts :=
  matching_labels [(OwnerNamespaceLabel, om_Namespace (lv_meta cr)); (OwnerNameLabel, om_Name (lv_meta cr));
                   (OwnerKindLabel, LocalVolumeKind)].

Definition lv_getOwnerRefs (cr : LocalVolume) : list OwnerReference :=
  [{| or_APIVersion := v1_GroupVersion; or_Kind := LocalVolumeKind; or_Name := om_Name (lv_meta cr);
      or_UID := om_UID (lv_meta cr); or_Controller := Some true; or_BlockOwnerDeletion := None |}].

Section lvctl.
Context {E : Env}.

(** ** api_updater.go *)

Definition recordEvent (eventType reason message : string) : M unit := Eventf eventType reason message.

(** The event of an update that met a conflict. *)
Definition report_conflict (lv : LocalVolume) (r : Res LocalVolume) : M (option GoErr) :=
  match r with
  | Ok _ => mret None
  | Err err =>
      (if is_conflict err
       then recordEvent "Warning" localVolumeUpdateFailed
              (sprintf "updating localvolume %s failed: %v" [LocalVolumeKey lv; error_text err])
       else mret tt) ;;
      mret (Some err)
  end.

Definition updateLocalVolume (lv : LocalVolume) : M (option GoErr) :=
  r ← ClientUpdate KLV lv;
  report_conflict lv r.

Definition syncStatus (oldInstance newInstance : LocalVolume) : M (option GoErr) :=
  if decide (lv_Status oldInstance = lv_Status newInstance) then mret None
  else
    r ← StatusUpdate KLV newInstance;
    report_conflict newInstance r.

(** ** Storage classes *)

Definition generateStorageClass (cr : LocalVolume) (scName : string) : Res StorageClass :=
  match read_template KSC LocalVolumeStorageClassTemplate [("${OBJECT_NAME}", scName)] with
  | Err err => Err err
  | Ok sc => Ok (set_sc_meta (addOwnerLabels (sc_meta sc) cr).1 sc)
  end.

Definition delete_unexpected (expected : gset string) (removeErrors : list GoErr) (sc : StorageClass)
  : M (Res (list GoErr)) :=
  if decide (sc_Name sc ∈ expected) then mret (Ok removeErrors)
  else
    e ← ClientDelete KSC sc;
    mret (Ok (match e with
              | Some err => if is_not_found err then removeErrors
                            else (removeErrors ++ [Errorf (sprintf "error deleting storageclass %s: %v"
                                    [sc_Name sc; error_text err])])%list
              | None => removeErrors
              end)).

Definition removeUnExpectedStorageClasses (cr : LocalVolume) (expected : gset string) : M (option GoErr) :=
  r ← ClientList KSC (getOwnerLabelSelector cr);
  match r with
  | Err err => mret (Some (Errorf (sprintf "error listing storageclasses for CR %s: %v"
                                     [om_Name (lv_meta cr); error_text err])))
  | Ok items =>
      r ← foldM (delete_unexpected expected) [] items;
      mret (match r with Ok removeErrors => new_aggregate removeErrors | Err err => Some err end)
  end.

Definition apply_class (cr : LocalVolume) (storageClassDevice : StorageClassDevice) : M (option GoErr) :=
  let storageClassName := scd_StorageClassName storageClassDevice in
  match generateStorageClass cr storageClassName with
  | Err err => mret (Some (Errorf (sprintf "error generating storageClass %s: %v" [storageClassName; error_text err])))
  | Ok storageClass =>
      r ← ApplyStorageClass storageClass;
      mret (match r.1 with
            | Err err => Some (Errorf (sprintf "error creating storageClass %s: %v" [storageClassName; error_text err]))
            | Ok _ => None
            end)
  end.

Definition expected_classes (cr : LocalVolume) : gset string :=
  list_to_set (scd_StorageClassName <$> lvs_StorageClassDevices (lv_Spec cr)).

(** Errors of the removal are only logged. *)
Definition syncStorageClass (cr : LocalVolume) : M (option GoErr) :=
  err ← forM (lvs_StorageClassDevices (lv_Spec cr)) (apply_class cr);
  match err with
  | Some _ => mret err
  | None => removeUnExpectedStorageClasses cr (expected_classes cr) ;; mret None
  end.

(** ** Conditions *)

(** The status is written with the present time; its error is only logged. *)
Definition addFailureCondition (oldLv lv : LocalVolume) (err : GoErr) : M (option GoErr) :=
  now ← ask clock;
  let message := sprintf "error syncing local storage: %v" [error_text err] in
  syncStatus oldLv (set_lv_Conditions [new_condition OperatorStatusTypeAvailable ConditionFalse message now] lv) ;;
  mret (Some err).

Definition is_success (c : OperatorCondition) : bool :=
  bool_decide (oc_Type c = OperatorStatusTypeAvailable /\ oc_Status c = ConditionTrue /\ oc_Message c = "Ready").

Definition addSuccessCondition (lv : LocalVolume) : M LocalVolume :=
  now ← ask clock;
  mret (if existsb is_success (lvt_Conditions (lv_Status lv)) then lv
        else set_lv_Conditions [new_condition OperatorStatusTypeAvailable ConditionTrue "Ready" now] lv).

(** ** localvolume_controller.go *)

Definition cleanupLocalVolumeDeployment (lv : LocalVolume) : M (option GoErr) :=
  let fail reason msg := recordEvent "Warning" reason msg ;; mret (Some (Errorf msg)) in
  err ← ReleaseAvailablePVs (OLocalVolume lv);
  match err with
  | Some err => fail releasingPersistentVolumesFailed
      (sprintf "error releasing unbound persistent volumes for localvolume %s: %v" [LocalVolumeKey lv; error_text err])
  | None =>
      r ← GetOwnedPVs (OLocalVolume lv);
      match r with
      | Err err => fail listingPersistentVolumesFailed
          (sprintf "error listing persistent volumes for localvolume %s: %v" [LocalVolumeKey lv; error_text err])
      | Ok (_ :: _) => fail localVolumeDeletionFailed
          (sprintf "localvolume %s has owned persistentvolumes in use" [LocalVolumeKey lv])
      | Ok [] =>
          err ← removeUnExpectedStorageClasses lv ∅;
          match err with
          | Some e => recordEvent "Warning" deletingStorageClassFailed (error_text e) ;; mret err
          | None => match removeFinalizer lv with
                    | Some lv => updateLocalVolume lv
                    | None => mret (Some panicked)
                    end
          end
      end
  end.

Definition child (ds : DaemonSet) : GenerationStatus :=
  {| gs_Group := "apps"; gs_Resource := "DaemonSet"; gs_Namespace := om_Namespace (ds_meta ds);
     gs_Name := om_Name (ds_meta ds); gs_LastGeneration := om_Generation (ds_meta ds) |}.

Definition sync_error (e : option GoErr) : option GoErr :=
  match e with Some err => Some (Errorf (sprintf "error syncing status: %v" [error_text err])) | None => None end.

(** The managed case. *)
Definition sync_managed (instance o : LocalVolume) : M (option GoErr) :=
  err ← syncStorageClass o;
  match err with
  | Some err => addFailureCondition instance o err
  | None =>
      r ← ClientGet KDS {| nn_Namespace := om_Namespace (lv_meta o); nn_Name := DiskMakerName |};
      match r with
      | Err err => addFailureCondition instance o err
      | Ok diskMakerDS =>
          o ← addSuccessCondition (set_lv_State Managed (set_lv_Generations [child diskMakerDS] o));
          e ← syncStatus instance (set_lv_ObservedGeneration (om_Generation (lv_meta o)) o);
          mret (sync_error e)
      end
  end.

Definition syncLocalVolumeProvider (instance : LocalVolume) : M (option GoErr) :=
  let o := SetDefaults instance in
  if isDeletionCandidate (lv_meta o) localVolumeFinalizer then cleanupLocalVolumeDeployment o
  else
    let '(o, modified) := addFinalizer o in
    if modified : bool then updateLocalVolume o
    else if decide (lvs_ManagementState (lv_Spec o) <> Managed /\ lvs_ManagementState (lv_Spec o) <> Force) then
      e ← syncStatus instance (set_lv_State (lvs_ManagementState (lv_Spec o)) o);
      mret (sync_error e)
    else sync_managed instance o.

Definition deregisterLVFromStorageClass (lv : LocalVolume) : M unit :=
  forM_ (lvs_StorageClassDevices (lv_Spec lv)) (fun d =>
    deregister (scd_StorageClassName d)
      {| nn_Namespace := om_Namespace (lv_meta lv); nn_Name := om_Name (lv_meta lv) |}).

Definition empty_lv : LocalVolume :=
  {| lv_type := {| tm_Kind := ""; tm_APIVersion := "" |}; lv_meta := empty_meta "" "";
     lv_Spec := {| lvs_ManagementState := ""; lvs_LogLevel := ""; lvs_NodeSelector := None;
                   lvs_StorageClassDevices := []; lvs_Tolerations := [] |};
     lv_Status := {| lvt_ObservedGeneration := None; lvt_State := ""; lvt_Conditions := [];
                     lvt_ReadyReplicas := 0; lvt_Generations := [] |} |}.

Definition requeue : CtrlResult := {| cr_Requeue := true; cr_RequeueAfter := 0 |}.

Definition Reconcile (request : NamespacedName) : M (CtrlResult * option GoErr) :=
  r ← ClientGet KLV request;
  match r with
  | Err err =>
      if is_not_found err then deregisterLVFromStorageClass empty_lv ;; mret (no_result, None)
      else mret (requeue, Some err)
  | Ok localStorageProvider =>
      forM_ (lvs_StorageClassDevices (lv_Spec localStorageProvider))
        (fun d => register (scd_StorageClassName d) request) ;;
      err ← syncLocalVolumeProvider localStorageProvider;
      mret (match err with Some _ => (requeue, err) | None => (no_result, None) end)
  end.
End lvctl.

(** ** Finalizers come and go *)

Lemma remove_loop_absent s n i arr len :
  (forall j, i <= j < i + n -> arr !! j <> Some s) -> i + n <= List.length arr ->
  remove_loop s n i arr len = Some (take len arr).
Proof.
  revert i. induction n as [|n IH]; intros i Hj Hn; [done|]. cbn [remove_loop].
  destruct (arr !! i) as [x|] eqn:Hx; [|apply lookup_ge_None in Hx; lia]. simpl.
  destruct (String.eqb_spec x s) as [->|_]; [by destruct (Hj i); [lia|]|].
  apply IH; [|lia]. intros j Hr. apply Hj. lia.
Qed.

Lemma remove_loop_prefix s l1 rest n i arr len :
  s ∉ l1 -> drop i arr = (l1 ++ rest)%list ->
  remove_loop s (List.length l1 + n) i arr len = remove_loop s n (i + List.length l1) arr len.
Proof.
  revert i. induction l1 as [|x l1 IH]; intros i Hs Hd; [by rewrite Nat.add_0_r|].
  assert (arr !! i = Some x) as Hx.
  { rewrite <- (Nat.add_0_r i), <- lookup_drop, Hd. done. }
  cbn [List.length Nat.add remove_loop]. rewrite Hx. simpl.
  destruct (String.eqb_spec x s) as [->|_]; [set_solver|].
  rewrite IH; [f_equal; lia|set_solver|].
  rewrite <- Nat.add_1_r, <- drop_drop, Hd. done.
Qed.

(** The element occurs once. *)
Lemma remove_once s l1 l2 : s ∉ l1 -> s ∉ l2 -> remove (l1 ++ s :: l2)%list s = Some (l1 ++ l2)%list.
Proof.
  intros H1 H2. unfold remove. set (arr := (l1 ++ s :: l2)%list).
  assert (List.length arr = List.length l1 + S (List.length l2)) as Hlen by (subst arr; rewrite length_app; done).
  rewrite Hlen at 1. rewrite (remove_loop_prefix s l1 (s :: l2)); [|done|done]. simpl.
  assert (arr !! List.length l1 = Some s) as -> by (subst arr; by rewrite list_lookup_middle).
  simpl. rewrite String.eqb_refl. destruct (Nat.ltb_spec (List.length arr) (S (List.length l1))); [lia|].
  assert (take (List.length l1) arr = l1) as -> by (subst arr; by rewrite take_app_length).
  assert (drop (S (List.length l1)) arr = l2) as ->.
  { subst arr. rewrite drop_app_ge by lia. by replace (S (List.length l1) - List.length l1) with 1 by lia. }
  rewrite (take_ge l2) by lia.
  rewrite remove_loop_absent.
  - f_equal. rewrite (assoc_L (++)), take_app_le by (rewrite length_app; lia). apply take_ge. rewrite length_app. lia.
  - intros j Hj Hs. rewrite (assoc_L (++)) in Hs.
    destruct (decide (j < List.length (l1 ++ l2)%list)) as [Hlt|Hge].
    + rewrite lookup_app_l in Hs by done. apply list_elem_of_lookup_2 in Hs. set_solver.
    + rewrite length_app in Hge. rewrite lookup_app_r in Hs by (rewrite length_app; lia).
      rewrite lookup_drop, length_app in Hs.
      replace (List.length arr - 1 + (j - (List.length l1 + List.length l2))) with (List.length l1 + List.length l2) in Hs by lia.
      subst arr. rewrite lookup_app_r in Hs by lia.
      replace (List.length l1 + List.length l2 - List.length l1) with (S (List.length l2 - 1)) in Hs by lia.
      simpl in Hs. apply list_elem_of_lookup_2 in Hs. done.
  - rewrite !length_app, length_drop. lia.
Qed.

(** Two copies, of which one is the last: the slice is out of bounds. *)
Lemma remove_duplicates_panics : remove ["f"; "f"] "f" = None.
Proof. reflexivity. Qed.
(** Two copies in front of another entry: one stays. *)
Lemma remove_duplicates_keeps_one : remove ["f"; "f"; "x"] "f" = Some ["f"; "x"].
Proof. reflexivity. Qed.

Lemma contains_spec l s : contains l s = true <-> s ∈ l.
Proof.
  unfold contains. rewrite existsb_In. split.
  - intros (v & Hv & He). apply String.eqb_eq in He. by subst.
  - intros H. exists s. by rewrite String.eqb_refl.
Qed.

(** The finalizer goes as it came: a LocalVolume without it gets it once, and
    removing it then gives back the object as it was; adding it twice is adding it once. *)
Theorem finalizer_roundtrip (lv : LocalVolume) :
  localVolumeFinalizer ∉ om_Finalizers (lv_meta lv) ->
  (addFinalizer lv).2 = true /\
  removeFinalizer (addFinalizer lv).1 = Some lv /\
  addFinalizer (addFinalizer lv).1 = ((addFinalizer lv).1, false).
Proof.
  intros H. assert (contains (om_Finalizers (lv_meta lv)) localVolumeFinalizer = false) as Hc.
  { apply not_true_iff_false. by rewrite contains_spec. }
  assert (contains (om_Finalizers (lv_meta lv) ++ [localVolumeFinalizer])%list localVolumeFinalizer = true) as Ha.
  { apply contains_spec. set_solver. }
  unfold addFinalizer. rewrite Hc. cbn [fst snd]. split; [done|]. split.
  - unfold removeFinalizer. simpl. rewrite Ha. simpl. rewrite remove_once by set_solver.
    rewrite app_nil_r. destruct lv as [? [] ? ?]. done.
  - simpl. by rewrite Ha.
Qed.

(** ** What a reconciliation may do *)

Section safety.
Context {E : Env}.

(** The volume is being deleted and a listing of its persistent volumes was empty. *)
Definition lv_may_go (lv : LocalVolume) : Prop :=
  isDeletionCandidate (lv_meta lv) localVolumeFinalizer = true /\ no_owned_volumes (OLocalVolume lv).

(** Classes listed with the volume's owner labels. *)
Definition listed_class (lv : LocalVolume) (sc : StorageClass) : Prop :=
  exists en items, (klist KSC (getOwnerLabelSelector lv) en).1 = Ok items /\ sc ∈ items.

Definition lv_act (lv : LocalVolume) (a : Act) : Prop :=
  match a with
  | AUpdate k o _ =>
      match k return Obj k -> Prop with
      | KLV => fun s => localVolumeFinalizer ∈ om_Finalizers (lv_meta s) \/ lv_may_go lv
      | KPV => fun _ => isDeletionCandidate (lv_meta lv) localVolumeFinalizer = true
      | KSC => fun _ => True
      | _ => fun _ => False
      end o
  | ADelete k o _ =>
      match k return Obj k -> Prop with
      | KSC => fun sc => listed_class lv sc /\ (sc_Name sc ∉ expected_classes lv \/ lv_may_go lv)
      | _ => fun _ => False
      end o
  | ACreate k _ _ => k = KSC
  | AStatus k _ _ => k = KLV
  | AEvent _ _ _ => True
  | _ => False
  end.

Lemma traces_report_conflict lv o r : frame (traces (lv_act lv)) (report_conflict o r).
Proof. unfold report_conflict, recordEvent. traces_tac. Qed.
Hint Resolve traces_report_conflict : lso_traces.

Lemma traces_syncStatus lv a b : frame (traces (lv_act lv)) (syncStatus a b).
Proof. unfold syncStatus. traces_tac. Qed.
Hint Resolve traces_syncStatus : lso_traces.

Lemma traces_updateLocalVolume lv s :
  localVolumeFinalizer ∈ om_Finalizers (lv_meta s) \/ lv_may_go lv -> frame (traces (lv_act lv)) (updateLocalVolume s).
Proof.
  intros H. unfold updateLocalVolume. apply frame_bind; [apply _| |intros; apply traces_report_conflict].
  apply (frame_ask_act _). intros. by apply traces_log.
Qed.

Lemma traces_removeUnexpected lv expected :
  (forall sc, listed_class lv sc -> sc_Name sc ∉ expected -> sc_Name sc ∉ expected_classes lv \/ lv_may_go lv) ->
  frame (traces (lv_act lv)) (removeUnExpectedStorageClasses lv expected).
Proof.
  intros H w. change (wp (removeUnExpectedStorageClasses lv expected) (fun _ w' => traces (lv_act lv) w w') w).
  unfold removeUnExpectedStorageClasses. apply wp_bind, wp_ask. intros r en Hr.
  destruct r as [items|]; [|apply wp_ret, (rel_est (R := traces _))].
  apply wp_bind. apply (wp_mono _ (fun _ w' => traces (lv_act lv) (set_est en w) w')).
  2: { intros ? w' Ht. apply wp_ret. etrans; [apply (rel_est w en)|done]. }
  assert (forall sc, sc ∈ items -> listed_class lv sc) as Hl.
  { intros sc Hin. exists (w_est w), items. by rewrite Hr. }
  clear Hr. generalize (set_est en w). clear w en. generalize (@nil GoErr).
  induction items as [|sc items IH]; intros errs w; [by apply wp_ret|]. cbn [foldM].
  apply wp_bind. apply (wp_mono _ (fun r w' => (exists errs, r = Ok errs) /\ traces (lv_act lv) w w')).
  2: { intros ? w1 [[errs' ->] H1]. eapply wp_mono; [apply IH; intros; apply Hl; by right|].
       intros ? w2 H2. by etrans. }
  unfold delete_unexpected. case_decide; [apply wp_ret; split; [eauto|reflexivity]|].
  unfold ClientDelete. apply wp_bind, wp_bind, wp_ask. intros e en _. apply wp_bind, wp_act, wp_ret, wp_ret.
  split; [eauto|]. apply (rel_trans w (set_est en w)); [apply rel_est|]. apply traces_log.
  assert (listed_class lv sc) as Hsc by (apply Hl; left). split; [done|]. by apply H.
Qed.

Lemma traces_syncStorageClass_lv lv : frame (traces (lv_act lv)) (syncStorageClass lv).
Proof.
  unfold syncStorageClass. apply frame_bind; [apply _|apply frame_forM; [apply _|]|].
  - intros d. unfold apply_class. destruct (generateStorageClass _ _); [|apply frame_ret, _].
    apply frame_bind; [apply _|by apply traces_ApplyStorageClass|]. intros ?. apply frame_ret, _.
  - intros []; [apply frame_ret, _|]. apply frame_bind; [apply _| |intros; apply frame_ret, _].
    apply traces_removeUnexpected. auto.
Qed.

Lemma traces_fail lv reason msg :
  frame (traces (lv_act lv)) (recordEvent "Warning" reason msg ;; mret (Some (Errorf msg))).
Proof. unfold recordEvent. traces_tac. Qed.

Lemma traces_cleanup lv :
  isDeletionCandidate (lv_meta lv) localVolumeFinalizer = true ->
  frame (traces (lv_act lv)) (cleanupLocalVolumeDeployment lv).
Proof.
  intros Hd. unfold cleanupLocalVolumeDeployment. cbv zeta.
  apply frame_bind; [apply _|by apply traces_ReleaseAvailablePVs|]. intros [err|]; [apply traces_fail|].
  intros w. match goal with |- traces _ _ (?m w).2 => change (wp m (fun _ w' => traces (lv_act lv) w w') w) end.
  apply wp_bind. eapply wp_mono; [apply wp_GetOwnedPVs|]. intros r w1 [[e ->] Hnone].
  apply (wp_mono _ (fun _ w' => traces (lv_act lv) (set_est e w) w')).
  2: { intros ? w2 H2. etrans; [apply (rel_est w e)|done]. }
  apply frame_wp; [apply _|]. destruct r as [[|pv l]|err]; [|apply traces_fail..].
  assert (lv_may_go lv) as Hgo by (split; auto).
  apply frame_bind; [apply _|apply traces_removeUnexpected; auto|]. intros [err|].
  { unfold recordEvent. traces_tac. }
  destruct (removeFinalizer lv); [|apply frame_ret, _]. apply traces_updateLocalVolume. by right.
Qed.

Lemma addFinalizer_has lv : localVolumeFinalizer ∈ om_Finalizers (lv_meta (addFinalizer lv).1).
Proof.
  unfold addFinalizer. destruct (contains _ _) eqn:Hc; simpl; [by apply contains_spec|set_solver].
Qed.

Lemma addFinalizer_same lv : (addFinalizer lv).2 = false -> (addFinalizer lv).1 = lv.
Proof. unfold addFinalizer. by destruct (contains _ _). Qed.

Lemma traces_sync_managed lv instance : frame (traces (lv_act lv)) (sync_managed instance lv).
Proof.
  unfold sync_managed, addFailureCondition, addSuccessCondition.
  frame_tac ltac:(idtac; first [apply traces_syncStorageClass_lv | apply traces_syncStatus]).
Qed.

(** C8: a reconciliation of a LocalVolume drops its finalizer only when the object is
    being deleted and a listing of its volumes was empty; it only deletes classes listed
    with the object's owner labels, and those that its specification names only in that
    same case; volumes are updated (released) only while it is being deleted. *)
Theorem LocalVolume_finalizer_safe (request : NamespacedName) (lv : LocalVolume) (w : World) :
  (kget KLV false request (w_est w)).1 = Ok lv ->
  wp (Reconcile request) (fun _ w' => traces (lv_act lv) w w') w.
Proof.
  intros Hget. unfold Reconcile. apply wp_bind, wp_ask. intros r en Hr. rewrite Hr in Hget. simpl in Hget. subst r.
  apply (wp_mono _ (fun _ w' => traces (lv_act lv) (set_est en w) w')).
  2: { intros ? w2 H2. etrans; [apply (rel_est w en)|done]. }
  apply frame_wp; [apply _|]. apply frame_bind; [apply _|apply frame_forM_; [apply _|]|intros _].
  { intros d. apply frame_put_mem. intros. apply traces_mem. }
  apply frame_bind; [apply _| |intros []; apply frame_ret, _].
  unfold syncLocalVolumeProvider. change (lv_act lv) with (lv_act (SetDefaults lv)). generalize (SetDefaults lv).
  intros o. destruct (isDeletionCandidate _ _) eqn:Hd; [by apply traces_cleanup|].
  pose proof (addFinalizer_has o) as Hf. pose proof (addFinalizer_same o) as Hsame.
  destruct (addFinalizer o) as [o' []]; simpl in Hf, Hsame.
  { apply traces_updateLocalVolume. by left. }
  rewrite (Hsame eq_refl) in *. case_decide; [|apply traces_sync_managed].
  apply frame_bind; [apply _|apply traces_syncStatus|]. intros. apply frame_ret, _.
Qed.
End safety.

(** ** The status settles *)

Section settled.
Context {E : Env}.

Record settled (ds : DaemonSet) (lv : LocalVolume) : Prop := {
  st_state : lvt_State (lv_Status lv) = Managed;
  st_generations : lvt_Generations (lv_Status lv) = [child ds];
  st_observed : lvt_ObservedGeneration (lv_Status lv) = Some (om_Generation (lv_meta lv));
  st_ready : existsb is_success (lvt_Conditions (lv_Status lv)) = true }.

Definition no_status (a : Act) : Prop := match a with AStatus _ _ _ => False | _ => True end.

Lemma no_status_syncStorageClass lv : frame (traces no_status) (syncStorageClass lv).
Proof.
  unfold syncStorageClass, removeUnExpectedStorageClasses, delete_unexpected, apply_class.
  frame_tac ltac:(idtac; match goal with
    | |- frame _ (ApplyStorageClass _) => by apply traces_ApplyStorageClass
    | |- frame _ (ClientDelete _ _) => apply (frame_ask_act _); intros; by apply traces_log end).
Qed.

(** C32: a managed LocalVolume whose status already says what the reconciliation found
    (state, daemonset generation, observed generation, ready condition) gets no status
    write from a reconciliation that succeeds, so that it does not wake itself up. *)
Theorem LocalVolume_status_settles (instance : LocalVolume) (ds : DaemonSet) (w : World) :
  settled ds instance ->
  (forall en, (kget KDS false {| nn_Namespace := om_Namespace (lv_meta instance); nn_Name := DiskMakerName |} en).1 = Ok ds) ->
  wp (sync_managed instance (SetDefaults instance)) (fun r w' => r = None -> traces no_status w w') w.
Proof.
  intros [H1 H2 H3 H4] Hds. unfold sync_managed.
  apply (wp_bind_frame (traces no_status)); [apply no_status_syncStorageClass|].
  intros [err|] w1 Hw1.
  { unfold addFailureCondition. apply wp_bind, wp_any. intros now w2. apply wp_bind, wp_any. intros ? w3. by apply wp_ret. }
  apply wp_bind, wp_ask. intros r en Hr. assert (r = Ok ds) as ->.
  { etrans; [|apply (Hds (w_est w1))]. symmetry. exact (f_equal fst Hr). }
  apply wp_bind. unfold addSuccessCondition. apply wp_bind, wp_ask. intros now en' _. apply wp_ret.
  simpl. rewrite H4. apply wp_bind. unfold syncStatus.
  rewrite decide_True.
  - apply wp_ret, wp_ret. intros _. etrans; [exact Hw1|]. exact (rel_est w1 en').
  - destruct instance as [? ? ? []]. simpl in *. by subst.
Qed.
End settled.

(** A reconciliation that keeps failing writes a new status every time the clock moves. *)
Lemma failure_never_settles (lv : LocalVolume) (m : string) (t t' : Z) :
  t <> t' ->
  lv_Status (set_lv_Conditions [new_condition OperatorStatusTypeAvailable ConditionFalse m t] lv) <>
  lv_Status (set_lv_Conditions [new_condition OperatorStatusTypeAvailable ConditionFalse m t'] lv).
Proof. intros H Hs. apply H. by injection Hs. Qed.

(** ** Instances *)

Definition ready_lv : LocalVolume :=
  let lv := ex_lv "v" None in
  {| lv_type := lv_type lv;
     lv_meta := set_finalizers [localVolumeFinalizer] (lv_meta lv); lv_Spec := lv_Spec lv;
     lv_Status := {| lvt_ObservedGeneration := Some 0%Z; lvt_State := Managed;
                     lvt_Conditions := [new_condition OperatorStatusTypeAvailable ConditionTrue "Ready" 5];
                     lvt_ReadyReplicas := 0; lvt_Generations := [child ex_stored] |} |}.

Definition going_lv : LocalVolume :=
  set_lv_meta {| om_Name := "v"; om_Namespace := "ns"; om_UID := "uid"; om_Labels := ∅; om_Annotations := ∅;
    om_Finalizers := [localVolumeFinalizer]; om_OwnerReferences := []; om_CreationTimestamp := Some 1%Z;
    om_DeletionTimestamp := Some 2%Z; om_Generation := 1; om_ResourceVersion := "7" |} ready_lv.

(** The volume, its class under its owner labels, the daemonset and some volumes. *)
Definition lvctl_api (lv : LocalVolume) (pvs : list PersistentVolume) : Static := {|
  st_get := fun k key => match k with
    | KLV => Ok lv | KDS => Ok ex_stored | _ => Err (StatusError ReasonNotFound (nn_Name key)) end;
  st_list := fun k _ => match k with KPV => pvs | KSC => [set_sc_meta (empty_meta "" "old") ex_class] | _ => [] end;
  st_fault := fun _ => None; st_exec := fun _ _ => ("", None); st_file := fun p => Err (PathError p ENOENT);
  st_clock := 1000%Z |}.
Definition lv_request : NamespacedName := {| nn_Namespace := "ns"; nn_Name := "v" |}.
Definition lvctl_run (lv : LocalVolume) (pvs : list PersistentVolume) :=
  Reconcile (E := static_env (lvctl_api lv pvs)) lv_request (static_world (lvctl_api lv pvs) ∅ empty_mem).

Definition lv_act_name (a : Act) : string :=
  match a with
  | ACreate KSC sc _ => "create " ++s sc_Name sc | ADelete KSC sc _ => "delete " ++s sc_Name sc
  | AUpdate KLV s _ => "finalizers " ++s show_list (om_Finalizers (lv_meta s))
  | AStatus KLV s _ => "status " ++s lvt_State (lv_Status s) | AEvent _ r _ => r | _ => "other"
  end.

(** A ready volume: its class is made and the class it no longer names goes; a new one gets
    its finalizer first; one that goes deletes its classes, then its finalizer, unless a
    volume is left. *)
Example lvctl_runs :
  lv_act_name <$> w_trace (lvctl_run ready_lv []).2 = ["create sc"; "delete old"] /\
  lv_act_name <$> w_trace (lvctl_run (ex_lv "v" None) []).2 =
    ["finalizers [storage.openshift.com/local-volume-protection]"] /\
  lv_act_name <$> w_trace (lvctl_run going_lv []).2 = ["delete old"; "finalizers []"] /\
  lv_act_name <$> w_trace (lvctl_run going_lv [empty_pv "pv"]).2 = [localVolumeDeletionFailed].
Proof. vm_compute. done. Qed.

Lemma LocalVolume_finalizer_safe_witness :
  wp (Reconcile (E := static_env (lvctl_api going_lv [])) lv_request)
     (fun _ w' => traces (lv_act (E := static_env (lvctl_api going_lv [])) going_lv)
        (static_world (lvctl_api going_lv []) ∅ empty_mem) w')
     (static_world (lvctl_api going_lv []) ∅ empty_mem).
Proof. by apply (LocalVolume_finalizer_safe (E := static_env (lvctl_api going_lv []))). Defined.

Lemma LocalVolume_status_settles_witness :
  wp (sync_managed (E := static_env (lvctl_api ready_lv [])) ready_lv (SetDefaults ready_lv))
     (fun r w' => r = None -> traces no_status (static_world (lvctl_api ready_lv []) ∅ empty_mem) w')
     (static_world (lvctl_api ready_lv []) ∅ empty_mem).
Proof.
  apply (LocalVolume_status_settles (E := static_env (lvctl_api ready_lv [])) ready_lv ex_stored); [|done].
  by split.
Defined.

Lemma finalizer_roundtrip_witness : removeFinalizer (addFinalizer (ex_lv "v" None)).1 = Some (ex_lv "v" None).
Proof. apply finalizer_roundtrip. apply not_elem_of_nil. Defined.
