(* ===== verification/DiscoveryCtl.v ===== *)
(** * The LocalVolumeDiscovery controller of the operator:
    pkg/controllers/localvolumediscovery *)
From stdpp Require Import base list strings gmap.
From Stdlib Require Import ZArith Lia String.
From S2P Require Import Prelude GoLib Types World Sys Envs Common Controller Exporter Tls NodeDaemon LvSetCtl.

Open Scope string_scope.

Definition DiskMakerDiscovery := "diskmaker-discovery".
Definition DiskMakerDiscoveryDaemonSetTemplate := "templates/diskmaker-discovery-daemonset.yaml".
Definition DiscoveryServiceName := "local-storage-discovery-metrics".
Definition DiscoveryMetricsServingCert := "discovery-metric-serving-cert".
Definition Discovering := "Discovering".
Definition DiscoveryFailed := "DiscoveryFailed".
Definition waitForRequeueIfDaemonsNotReady : CtrlResult := {| cr_Requeue := true; cr_RequeueAfter := 10 * second |}.

Definition set_lvd_status (c : list OperatorCondition) (phase : string) (generation : Z) (d : LocalVolumeDiscovery)
  : LocalVolumeDiscovery :=
  {| lvd_meta := lvd_meta d; lvd_NodeSelector := lvd_NodeSelector d; lvd_Tolerations := lvd_Tolerations d;
     lvd_Phase := phase; lvd_Conditions := c; lvd_ObservedGeneration := generation |}.

Definition getOwnerRefs (cr : LocalVolumeDiscovery) : list OwnerReference :=
  [{| or_APIVersion := v1alpha1_GroupVersion; or_Kind := "LocalVolumeDiscovery"; or_Name := om_Name (lvd_meta cr);
      or_UID := om_UID (lvd_meta cr); or_Controller := Some true; or_BlockOwnerDeletion := None |}].

Definition getEnvVars (objName uid : string) : list (string * string) :=
  [("DISCOVERY_OBJECT_UID", uid); ("DISCOVERY_OBJECT_NAME", objName)].

(** [Containers[0].Env = append(...)]; without containers the index panics, which
    controller-runtime recovers into an error. *)
Definition append_env (envVars : list (string * string)) (ds : DaemonSet) : Res DaemonSet :=
  match ds_Containers ds with
  | [] => Err (Errorf "panic: runtime error: index out of range [0] with length 0 [recovered]")
  | c :: cs => Ok (set_containers ({| ct_Name := ct_Name c; ct_Image := ct_Image c;
                                      ct_Env := (ct_Env c ++ envVars)%list |} :: cs) ds)
  end.

Section discoveryctl.
Context {E : Env}.

Definition getDiskMakerDiscoveryDSMutateFn (request : NamespacedName) (tolerations : list Toleration)
  (envVars : list (string * string)) (ownerRefs : list OwnerReference) (nodeSelector : option NodeSelector)
  (tlsMinVersion tlsCipherSuites : string) (ds : DaemonSet) : Res DaemonSet :=
  let pairs := [("${OBJECT_NAMESPACE}", nn_Namespace request); ("${CONTAINER_IMAGE}", GetDiskMakerImage);
                ("${RBAC_PROXY_IMAGE}", GetKubeRBACProxyImage);
                ("${TLS_MIN_VERSION}", tlsMinVersion); ("${TLS_CIPHER_SUITES}", tlsCipherSuites)] in
  match read_template KDS DiskMakerDiscoveryDaemonSetTemplate pairs with
  | Err err => Err err
  | Ok dsTemplate => append_env envVars (MutateAggregatedSpec ds tolerations ownerRefs nodeSelector dsTemplate)
  end.

(** The server's answer replaces the instance. *)
Definition updateStatus (lvd : LocalVolumeDiscovery) : M (LocalVolumeDiscovery * option GoErr) :=
  r ← StatusUpdate KLVD lvd;
  mret (match r with Ok lvd' => (lvd', None) | Err err => (lvd, Some err) end).

Definition updateDiscoveryStatus (instance : LocalVolumeDiscovery) (conditionType message status phase : string)
  : M (LocalVolumeDiscovery * option GoErr) :=
  if (match lvd_Conditions instance with
      | [] => true
      | c :: _ => bool_decide (oc_Message c <> message)
      end)
  then
    now ← ask clock;
    updateStatus (set_lvd_status [new_condition conditionType status message now] phase
                    (om_Generation (lvd_meta instance)) instance)
  else mret (instance, None).

(** One result: read its node and delete it when the selector does not admit the node. *)
Definition delete_orphan (sel : NodeSelector) (discoveryResult : LocalVolumeDiscoveryResult) : M (option GoErr) :=
  let nodeName := lvdr_NodeName discoveryResult in
  r ← ClientGet KNode {| nn_Namespace := ""; nn_Name := nodeName |};
  match r with
  | Err _ => mret (Some (Errorf (sprintf "failed to get instance of node %q" [nodeName])))
  | Ok node =>
      match match_node_selector_terms node sel with
      | Err err => mret (Some err)
      | Ok true => mret None
      | Ok false =>
          e ← ClientDelete KLVDR discoveryResult;
          mret (match e with
                | Some _ => Some (Errorf (sprintf "failed to delete orphan discovery result %q in node %q"
                                            [om_Name (lvdr_meta discoveryResult); nodeName]))
                | None => None
                end)
      end
  end.

Definition deleteOrphanDiscoveryResults (instance : LocalVolumeDiscovery) : M (option GoErr) :=
  match lvd_NodeSelector instance with
  | None | Some [] => mret None
  | Some sel =>
      r ← ClientList KLVDR (in_namespace (om_Namespace (lvd_meta instance)));
      match r with
      | Err _ => mret (Some (Errorf (sprintf "failed to list LocalVolumeDiscoveryResult instances in namespace %q"
                                       [om_Namespace (lvd_meta instance)])))
      | Ok items => forM items (delete_orphan sel)
      end
  end.

Definition getDaemonSetStatus (namespace : string) : M (Res (Z * Z)) :=
  r ← ClientGet KDS {| nn_Namespace := namespace; nn_Name := DiskMakerDiscovery |};
  mret (match r with
        | Err err => Err err
        | Ok existingDS => Ok (ds_DesiredNumberScheduled existingDS, ds_NumberReady existingDS)
        end).

(** From the state of the daemonset on. *)
Definition report_daemons (instance : LocalVolumeDiscovery) : M (CtrlResult * option GoErr) :=
  r ← getDaemonSetStatus (om_Namespace (lvd_meta instance));
  match r with
  | Err err => mret (no_result, Some err)
  | Ok (desiredDaemons, readyDaemons) =>
      if decide (desiredDaemons = 0%Z) then
        let message := "no discovery daemons are scheduled for running" in
        r ← updateDiscoveryStatus instance OperatorStatusTypeDegraded message ConditionFalse DiscoveryFailed;
        match r.2 with
        | Some err => mret (no_result, Some err)
        | None => mret (waitForRequeueIfDaemonsNotReady, Some (Errorf message))
        end
      else if decide (desiredDaemons <> readyDaemons) then
        let message := sprintf "running %d out of %d discovery daemons" [itoa readyDaemons; itoa desiredDaemons] in
        r ← updateDiscoveryStatus instance OperatorStatusTypeProgressing message ConditionFalse Discovering;
        match r.2 with
        | Some err => mret (no_result, Some err)
        | None => mret (waitForRequeueIfDaemonsNotReady, None)
        end
      else
        let message := sprintf "successfully running %d out of %d discovery daemons"
                         [itoa desiredDaemons; itoa readyDaemons] in
        r ← updateDiscoveryStatus instance OperatorStatusTypeAvailable message ConditionTrue Discovering;
        match r.2 with
        | Some err => mret (no_result, Some err)
        | None =>
            err ← deleteOrphanDiscoveryResults r.1;
            mret (no_result, err)
        end
  end.

(** A daemonset that cannot be written is reported and does not end the reconciliation. *)
Definition sync_discovery_daemon (request : NamespacedName) (instance : LocalVolumeDiscovery)
  (tlsMinVersion tlsCipherSuites : string) : M (CtrlResult * option GoErr) :=
  r ← CreateOrUpdateDaemonset (getDiskMakerDiscoveryDSMutateFn request (lvd_Tolerations instance)
        (getEnvVars (om_Name (lvd_meta instance)) (om_UID (lvd_meta instance))) (getOwnerRefs instance)
        (lvd_NodeSelector instance) tlsMinVersion tlsCipherSuites);
  match r.2 with
  | Some err =>
      r ← updateDiscoveryStatus instance OperatorStatusTypeDegraded
            (sprintf "failed to create discovery daemonset. Error %v" [error_text err]) ConditionFalse DiscoveryFailed;
      match r.2 with
      | Some err => mret (no_result, Some err)
      | None => report_daemons r.1
      end
  | None => report_daemons instance
  end.

Definition Reconcile (request : NamespacedName) : M (CtrlResult * option GoErr) :=
  r ← ClientGet KLVD request;
  match r with
  | Err err => mret (no_result, if is_not_found err then None else Some err)
  | Ok instance =>
      e ← EnableMetricsExporter (NewExporter DiscoveryServiceName (om_Namespace (lvd_meta instance))
            DiscoveryMetricsServingCert (getOwnerRefs instance) DiskMakerDiscovery);
      match e with
      | Some err => mret (no_result, Some err)
      | None =>
          tls ← GetTLSProfileValues;
          let '(tlsMinVersion, tlsCipherSuites, _) := tls in
          sync_discovery_daemon request instance tlsMinVersion tlsCipherSuites
      end
  end.

(** The requests of a change of the cluster's TLS profile. *)
Definition enqueueAllDiscoveries (watchNamespace : string) : M (list NamespacedName) :=
  r ← ClientList KLVD (in_namespace watchNamespace);
  mret (match r with
        | Err _ => []
        | Ok items => (fun lvd => {| nn_Namespace := om_Namespace (lvd_meta lvd);
                                     nn_Name := om_Name (lvd_meta lvd) |}) <$> items
        end).
End discoveryctl.

(** ** What a reconciliation may do *)

Section discovery_safety.
Context {E : Env}.

(** The daemonset was read with as many ready daemons as desired, and some. *)
Definition daemons_ready : Prop :=
  exists en key ds, (kget KDS false key en).1 = Ok ds /\ nn_Name key = DiskMakerDiscovery /\
    ds_DesiredNumberScheduled ds = ds_NumberReady ds /\ ds_DesiredNumberScheduled ds <> 0%Z.

(** A selector of a LocalVolumeDiscovery refuses the node of the result. *)
Definition orphan (res : LocalVolumeDiscoveryResult) : Prop :=
  exists en node sel, (kget KNode false {| nn_Namespace := ""; nn_Name := lvdr_NodeName res |} en).1 = Ok node /\
    sel <> [] /\ match_node_selector_terms node sel = Ok false.

Definition claims_available (d : LocalVolumeDiscovery) : Prop :=
  exists c, head (lvd_Conditions d) = Some c /\ oc_Type c = OperatorStatusTypeAvailable.

Definition discovery_act (a : Act) : Prop :=
  match a with
  | AStatus k o _ => match k return Obj k -> Prop with KLVD => fun d => claims_available d -> daemons_ready | _ => fun _ => False end o
  | ADelete k o _ => match k return Obj k -> Prop with KLVDR => fun res => orphan res /\ daemons_ready | _ => fun _ => False end o
  | ACreate k _ _ | AUpdate k _ _ => match k with KDS | KSvc | KSM | KRule => True | _ => False end
  | _ => False
  end.

Lemma traces_updateDiscoveryStatus instance type message status phase :
  (type = OperatorStatusTypeAvailable -> daemons_ready) ->
  frame (traces discovery_act) (updateDiscoveryStatus instance type message status phase).
Proof.
  intros H. unfold updateDiscoveryStatus. destruct (match lvd_Conditions instance with [] => _ | _ => _ end); [|apply frame_ret, _].
  apply frame_bind; [apply _|apply frame_ask, _|]. intros now. unfold updateStatus.
  apply frame_bind; [apply _| |intros []; apply frame_ret, _]. apply (frame_ask_act _). intros w r. apply traces_log.
  intros (c & Hc & Ht). simpl in Hc. injection Hc as <-. by apply H.
Qed.

Lemma traces_delete_orphan sel res : sel <> [] -> daemons_ready -> frame (traces discovery_act) (delete_orphan sel res).
Proof.
  intros Hne Hready w. change (wp (delete_orphan sel res) (fun _ w' => traces discovery_act w w') w).
  unfold delete_orphan. apply wp_bind, wp_ask. intros r en Hr.
  destruct r as [node|]; [|apply wp_ret, (rel_est (R := traces _))].
  destruct (match_node_selector_terms node sel) as [[]|] eqn:Hm; [apply wp_ret, (rel_est (R := traces _))| |apply wp_ret, (rel_est (R := traces _))].
  unfold ClientDelete. apply wp_bind, wp_bind, wp_ask. intros e en' _. apply wp_bind, wp_act, wp_ret, wp_ret.
  apply (rel_trans w (set_est en' w)); [apply rel_est|]. apply traces_log. split; [|done].
  exists (w_est w), node, sel. by rewrite Hr.
Qed.

Lemma traces_deleteOrphans instance : daemons_ready -> frame (traces discovery_act) (deleteOrphanDiscoveryResults instance).
Proof.
  intros Hready. unfold deleteOrphanDiscoveryResults. destruct (lvd_NodeSelector instance) as [[|t ts]|]; [apply frame_ret, _| |apply frame_ret, _].
  apply frame_bind; [apply _|apply frame_reads; [apply _|eauto with lso]|]. intros []; [|apply frame_ret, _].
  apply frame_forM; [apply _|]. intros res. by apply traces_delete_orphan.
Qed.

Lemma traces_report_daemons instance : frame (traces discovery_act) (report_daemons instance).
Proof.
  intros w. change (wp (report_daemons instance) (fun _ w' => traces discovery_act w w') w).
  unfold report_daemons, getDaemonSetStatus. apply wp_bind, wp_bind, wp_ask. intros r en Hr. apply wp_ret.
  apply (wp_mono _ (fun _ w' => traces discovery_act (set_est en w) w')).
  2: { intros ? w2 H2. etrans; [apply (rel_est w en)|done]. }
  apply frame_wp; [apply _|]. destruct r as [ds|]; [|apply frame_ret, _].
  case_decide as H0; [|case_decide as H1].
  1, 2: (apply frame_bind; [apply _|by apply traces_updateDiscoveryStatus|]; intros [? []]; apply frame_ret, _).
  assert (daemons_ready) as Hready.
  { exists (w_est w), {| nn_Namespace := om_Namespace (lvd_meta instance); nn_Name := DiskMakerDiscovery |}, ds.
    rewrite Hr. by repeat split. }
  apply frame_bind; [apply _|by apply traces_updateDiscoveryStatus|]. intros [i []]; [apply frame_ret, _|].
  apply frame_bind; [apply _|by apply traces_deleteOrphans|]. intros. apply frame_ret, _.
Qed.

Lemma traces_discovery_daemonset f : frame (traces discovery_act) (CreateOrUpdateDaemonset f).
Proof.
  unfold CreateOrUpdateDaemonset. destruct (f _); [|apply frame_ret, _].
  by apply (traces_CreateOrUpdate (k := KDS)).
Qed.


(** The discovery daemonset settles too. *)
Lemma getDiskMakerDiscoveryDSMutateFn_settles request tol envs refs sel min suites :
  settles (getDiskMakerDiscoveryDSMutateFn request tol envs refs sel min suites).
Proof.
  unfold settles, getDiskMakerDiscoveryDSMutateFn. intros d d' o Hd Hs Hc.
  destruct (read_template KDS _ _) as [t|]; [|done]. unfold append_env in *.
  destruct (ds_Containers t) as [|c cs] eqn:Hct.
  { simpl in Hd. by rewrite Hct in Hd. }
  assert (forall x, ds_Containers (MutateAggregatedSpec x tol refs sel t) = c :: cs) as Hm by done.
  rewrite Hm in Hd. injection Hd as <-.
  rewrite (MutateAggregatedSpec_settled tol refs sel t d o (om_Annotations (ds_meta (MutateAggregatedSpec d tol refs sel t)))
    ({| ct_Name := ct_Name c; ct_Image := ct_Image c; ct_Env := (ct_Env c ++ envs)%list |} :: cs)); [| |done].
  - rewrite Hct. simpl. destruct Hs. unfold set_containers. destruct o. simpl in *. by subst.
  - by destruct Hs.
Qed.

(** Once the discovery daemonset in the cache is what an earlier reconciliation wrote,
    the controller makes no write to it: appending the environment of the discovery
    object does not accumulate. *)
Theorem discovery_daemonset_settles (request : NamespacedName) (tol : list Toleration)
  (envs : list (string * string)) (refs : list OwnerReference) (sel : option NodeSelector) (min suites : string)
  (t d d' o : DaemonSet) (w : World) :
  let f := getDiskMakerDiscoveryDSMutateFn request tol envs refs sel min suites in
  f empty_daemonset = Ok t -> object_key (k := KDS) o = object_key (k := KDS) t ->
  f d = Ok d' -> same_daemon d' o -> om_CreationTimestamp (ds_meta o) <> None ->
  (kget KDS false (object_key (k := KDS) o) (w_est w)).1 = Ok o ->
  wp (CreateOrUpdateDaemonset f) (fun r w' => w_trace w' = w_trace w /\ r = (o, OperationResultNone, None)) w.
Proof. intros f. apply CreateOrUpdateDaemonset_silent, getDiskMakerDiscoveryDSMutateFn_settles. Qed.
End discovery_safety.

(** ** Instances *)

Definition ex_lvd : LocalVolumeDiscovery :=
  {| lvd_meta := empty_meta "ns" "auto-discover-devices"; lvd_NodeSelector := Some [node_term "a"];
     lvd_Tolerations := []; lvd_Phase := ""; lvd_Conditions := []; lvd_ObservedGeneration := 0 |}.
Definition ex_result (node : string) : LocalVolumeDiscoveryResult :=
  {| lvdr_meta := empty_meta "ns" ("discovery-result-" ++s node); lvdr_NodeName := node;
     lvdr_DiscoveredTimeStamp := ""; lvdr_DiscoveredDevices := [] |}.

Definition discovery_mutate : DaemonSet -> Res DaemonSet :=
  getDiskMakerDiscoveryDSMutateFn (E := static_env NodeDaemon.daemon_api) {| nn_Namespace := "ns"; nn_Name := "auto-discover-devices" |}
    [] (getEnvVars "auto-discover-devices" "") (getOwnerRefs ex_lvd) (Some [node_term "a"]) "VersionTLS12" "".

Definition discovery_written : DaemonSet :=
  match discovery_mutate empty_daemonset with Ok d => d | Err _ => empty_daemonset end.

(** The daemonset with its status, as stored. *)
Definition discovery_daemon (desired ready : Z) : DaemonSet :=
  let d := discovery_written in
  let m := ds_meta d in
      {| ds_meta := {| om_Name := om_Name m; om_Namespace := om_Namespace m; om_UID := "uid"; om_Labels := om_Labels m;
                       om_Annotations := om_Annotations m; om_Finalizers := []; om_OwnerReferences := om_OwnerReferences m;
                       om_CreationTimestamp := Some 1%Z; om_DeletionTimestamp := None; om_Generation := 1;
                       om_ResourceVersion := "7" |};
         ds_Selector := ds_Selector d; ds_TemplateLabels := ds_TemplateLabels d;
         ds_TemplateAnnotations := ds_TemplateAnnotations d; ds_ServiceAccountName := ds_ServiceAccountName d;
         ds_PriorityClassName := ds_PriorityClassName d; ds_Tolerations := ds_Tolerations d;
         ds_NodeAffinity := ds_NodeAffinity d; ds_Volumes := ds_Volumes d; ds_Containers := ds_Containers d;
         ds_UpdateStrategy := ds_UpdateStrategy d; ds_HostPID := ds_HostPID d; ds_NumberUnavailable := 0;
         ds_CurrentNumberScheduled := desired; ds_DesiredNumberScheduled := desired; ds_NumberReady := ready |}.

Definition discovery_api (desired ready : Z) (nodes : list string) : Static := {|
  st_get := fun k key => match k with
    | KLVD => Ok ex_lvd | KDS => Ok (discovery_daemon desired ready)
    | KNode => if string_mem (nn_Name key) nodes then Ok {| nd_meta := empty_meta "" (nn_Name key) |}
               else Err (StatusError ReasonNotFound (nn_Name key))
    | _ => Err (StatusError ReasonNotFound (nn_Name key)) end;
  st_list := fun k _ => match k with KLVDR => [ex_result "gone"; ex_result "b"] | _ => [] end;
  st_fault := fun _ => None; st_exec := fun _ _ => ("", None); st_file := fun p => Err (PathError p ENOENT);
  st_clock := 1000%Z |}.

(** The outside of the example with a selector that admits no node. *)
Definition refusing_env (s : Static) : Env :=
  with_library (static_env s) (@load_volume_config (static_env s)) (@volume_config_data (static_env s))
    (fun _ _ => Ok false).

Definition discovery_request : NamespacedName := {| nn_Namespace := "ns"; nn_Name := "auto-discover-devices" |}.
Definition discovery_run (desired ready : Z) (nodes : list string) :=
  Reconcile (E := refusing_env (discovery_api desired ready nodes)) discovery_request
    (Build_World (E := refusing_env (discovery_api desired ready nodes)) ∅
       (tt : est (Env := refusing_env (discovery_api desired ready nodes))) empty_mem []).

Definition discovery_act_name (a : Act) : string :=
  match a with
  | AStatus KLVD d _ => match lvd_Conditions d with c :: _ => oc_Type c ++s "=" ++s oc_Status c | [] => "" end
  | ADelete KLVDR r _ => "delete " ++s lvdr_NodeName r
  | _ => ""
  end.

(** The result of a node that the selector refuses goes when all daemons are ready.  A
    result whose node is gone stops the loop: it and the results after it stay. *)
Example discovery_runs :
  let names desired ready nodes :=
    List.filter (fun s => negb (String.eqb s "")) (discovery_act_name <$> w_trace (discovery_run desired ready nodes).2) in
  names 2%Z 1%Z ["gone"; "b"] = ["Progressing=False"] /\
  names 0%Z 0%Z ["gone"; "b"] = ["Degraded=False"] /\
  names 2%Z 2%Z ["gone"; "b"] = ["Available=True"; "delete gone"; "delete b"] /\
  names 2%Z 2%Z ["b"] = ["Available=True"] /\
  (discovery_run 2 2 ["b"]).1.2 <> None.
Proof. vm_compute. by repeat split. Qed.

Lemma discovery_daemonset_settles_witness :
  let api := discovery_api 2 2 [] in
  wp (CreateOrUpdateDaemonset (E := static_env api) discovery_mutate)
     (fun r w' => w_trace w' = [] /\ r = (discovery_daemon 2 2, OperationResultNone, None))
     (static_world api ∅ empty_mem).
Proof.
  intros api.
  apply (discovery_daemonset_settles (E := static_env api) {| nn_Namespace := "ns"; nn_Name := "auto-discover-devices" |}
    [] (getEnvVars "auto-discover-devices" "") (getOwnerRefs ex_lvd) (Some [node_term "a"]) "VersionTLS12" ""
    discovery_written empty_daemonset discovery_written (discovery_daemon 2 2) (static_world api ∅ empty_mem));
    try reflexivity; [|done].
  by split.
Defined.
