(* ===== verification/Store.v ===== *)
(** * The API server as a store of objects

    The outside answers every call as it likes ([Env]).  An [ApiStore] says that
    behind the answers there is one store of objects per kind with the documented
    behaviour of the API server: reads answer from the store, a write changes the
    object it names and no other, an object with finalizers is only marked by a
    deletion and goes when the last finalizer is removed.  [upholds J] is the relation of
    runs that preserve a predicate [J] of the store; this file proves it for the
    operations the reconcilers share, whatever [J] says of volumes and sets. *)
From stdpp Require Import base list strings gmap.
From Stdlib Require Import ZArith Lia String.
From S2P Require Import Prelude GoLib Types World Sys Envs DiskUtil LinkCache Common Controller Symlinks DeviceLink Provisioner Matcher Metrics LvSet.

Open Scope string_scope.

(** ** Objects in the store *)

(** What a [List] selects by namespace and labels. *)
Definition opts_match {k} (opts : ListOpts) (o : Obj k) : Prop :=
  match lo_Namespace opts with None => True | Some ns => om_Namespace (kmeta o) = ns end /\
  Forall (fun l => om_Labels (kmeta o) !! l.1 = Some l.2) (lo_Labels opts).

Definition plain (opts : ListOpts) : Prop := lo_Field opts = None /\ lo_LabelIn opts = None.

(** The kinds of object that own volumes, their name in labels and their classes. *)
Definition owner_kind (k : Kind) : bool := bool_decide (k = KLVSet \/ k = KLV).

Definition kind_name (k : Kind) : string :=
  match k with KLVSet => LocalVolumeSetKind | KLV => LocalVolumeKind | _ => "" end.

Definition class_named (name : string) : NamespacedName := {| nn_Namespace := ""; nn_Name := name |}.

Definition class_keys {k : Kind} : Obj k -> list NamespacedName :=
  match k return Obj k -> list NamespacedName with
  | KLVSet => fun s => [class_named (lss_StorageClassName (lset_Spec s))]
  | KLV => fun lv => (fun d => class_named (scd_StorageClassName d)) <$> lvs_StorageClassDevices (lv_Spec lv)
  | _ => fun _ => []
  end.

Definition type_name {k : Kind} : Obj k -> string :=
  match k return Obj k -> string with
  | KLVSet => fun s => tm_Kind (lset_type s) | KLV => fun lv => tm_Kind (lv_type lv) | _ => fun _ => "" end.

(** The specification of an owner. *)
Definition same_spec {k : Kind} : Obj k -> Obj k -> Prop :=
  match k return Obj k -> Obj k -> Prop with
  | KLVSet => fun s s' => lset_Spec s' = lset_Spec s
  | KLV => fun lv lv' => lv_Spec lv' = lv_Spec lv
  | _ => fun _ _ => True
  end.

Lemma same_spec_classes k (o o' : Obj k) : same_spec o o' -> class_keys o' = class_keys o.
Proof. destruct k; try done; simpl; by intros ->. Qed.

(** The part of the metadata that only a write of the object itself changes. *)
Record same_identity (m m' : ObjectMeta) : Prop := {
  si_name : om_Name m' = om_Name m;
  si_namespace : om_Namespace m' = om_Namespace m;
  si_labels : om_Labels m' = om_Labels m;
  si_finalizers : om_Finalizers m' = om_Finalizers m }.

(** The objects of the store and the laws of the calls. *)
Class ApiStore (E : Env) := {
  store : forall k, est -> gmap NamespacedName (Obj k);
  store_key : forall k e key o, store k e !! key = Some o -> object_key o = key;
  store_type : forall k e key o, store k e !! key = Some o -> type_name o = kind_name k;
  store_read : forall k e e', est_read e e' -> store k e' = store k e;
  (* reads *)
  store_get : forall k d key e o, (kget k d key e).1 = Ok o -> store k e !! key = Some o;
  store_list : forall k opts e l o, plain opts -> (klist k opts e).1 = Ok l ->
    o ∈ l <-> (exists key, store k e !! key = Some o) /\ opts_match opts o;
  (* a write changes no other kind, and a failing one nothing *)
  store_other : forall k k' o e, k <> k' ->
    store k' (kcreate k o e).2 = store k' e /\ store k' (kupdate k o e).2 = store k' e /\
    store k' (kstatus k o e).2 = store k' e /\ store k' (kdelete k o e).2 = store k' e;
  store_failed : forall k o e,
    ((exists err, (kcreate k o e).1 = Err err) -> store k (kcreate k o e).2 = store k e) /\
    ((exists err, (kupdate k o e).1 = Err err) -> store k (kupdate k o e).2 = store k e) /\
    ((exists err, (kstatus k o e).1 = Err err) -> store k (kstatus k o e).2 = store k e) /\
    (is_Some (kdelete k o e).1 -> store k (kdelete k o e).2 = store k e);
  (* writes *)
  store_create : forall k o o' e, (kcreate k o e).1 = Ok o' ->
    store k e !! object_key o = None /\ same_identity (kmeta o) (kmeta o') /\
    store k (kcreate k o e).2 = <[object_key o := o']> (store k e);
  store_update : forall k o o' e, (kupdate k o e).1 = Ok o' ->
    exists old, store k e !! object_key o = Some old /\ same_identity (kmeta o) (kmeta o') /\
      om_DeletionTimestamp (kmeta o') = om_DeletionTimestamp (kmeta old) /\
      store k (kupdate k o e).2 =
        (if decide (om_DeletionTimestamp (kmeta old) <> None /\ om_Finalizers (kmeta o) = [])
         then delete (object_key o) (store k e) else <[object_key o := o']> (store k e));
  store_status : forall k o o' e, (kstatus k o e).1 = Ok o' ->
    exists old, store k e !! object_key o = Some old /\ same_identity (kmeta old) (kmeta o') /\
      om_DeletionTimestamp (kmeta o') = om_DeletionTimestamp (kmeta old) /\
      store k (kstatus k o e).2 = <[object_key o := o']> (store k e);
  store_delete : forall k o e, (kdelete k o e).1 = None ->
    exists old, store k e !! object_key o = Some old /\
      (om_Finalizers (kmeta old) = [] /\ store k (kdelete k o e).2 = delete (object_key o) (store k e) \/
       exists o', same_identity (kmeta old) (kmeta o') /\
         store k (kdelete k o e).2 = <[object_key o := o']> (store k e));
  (* an update is what was asked for, the status is a part of its own *)
  store_update_spec : forall k o o' e, (kupdate k o e).1 = Ok o' -> same_spec o o';
  store_status_spec : forall k o o' e, (kstatus k o e).1 = Ok o' -> exists old,
    store k e !! object_key o = Some old /\ same_spec old o';
  (* the static provisioner's deleter removes volumes or marks them *)
  store_delete_pvs : forall e key pv', store KPV (delete_pvs e) !! key = Some pv' ->
    exists pv, store KPV e !! key = Some pv /\ same_identity (pv_meta pv) (pv_meta pv');
  store_delete_pvs_other : forall k e, k <> KPV -> store k (delete_pvs e) = store k e
}.

(** ** Preserving a predicate of the store *)

Section upholds.
Context {E : Env}.

(** A predicate of the outside that reading and the writes of kinds other than volumes,
    their owners and classes leave alone. *)
Definition guarded (k : Kind) : bool := bool_decide (k = KPV \/ k = KLVSet \/ k = KLV \/ k = KSC).
Class Stable (J : est -> Prop) : Prop := {
  st_read : forall e e', est_read e e' -> J e -> J e';
  st_create : forall k o e, guarded k = false -> J e -> J (kcreate k o e).2;
  st_update : forall k o e, guarded k = false -> J e -> J (kupdate k o e).2;
  st_status : forall k o e, guarded k = false -> J e -> J (kstatus k o e).2;
  st_delete : forall k o e, guarded k = false -> J e -> J (kdelete k o e).2 }.

(** It is enough that the predicate looks at nothing else. *)
Lemma stable_of `{!ApiStore E} (J : est -> Prop) :
  (forall e e', (forall k, guarded k = true -> store k e' = store k e) -> J e -> J e') -> Stable J.
Proof.
  intros HJ.
  assert (forall k k', guarded k = false -> guarded k' = true -> k <> k') as Hne by (intros k k' H1 H2 ->; congruence).
  split.
  - intros e e' Hr. apply HJ. intros k _. by apply store_read.
  - intros k o e Hk. apply HJ. intros k' Hk'. by apply store_other, Hne.
  - intros k o e Hk. apply HJ. intros k' Hk'. by apply store_other, Hne.
  - intros k o e Hk. apply HJ. intros k' Hk'. by apply store_other, Hne.
  - intros k o e Hk. apply HJ. intros k' Hk'. by apply store_other, Hne.
Qed.

Definition upholds (J : est -> Prop) (w w' : World) : Prop := J (w_est w) -> J (w_est w').

#[export] Instance upholds_rel (J : est -> Prop) : Stable J -> ReadRel (upholds J).
Proof.
  intros HJ. split.
  - by intros w H.
  - intros x y z Hxy Hyz H. by apply Hyz, Hxy.
  - intros w e Hr H. simpl. by eapply st_read.
Qed.

Lemma upholds_act J a : frame (upholds J) (act a).
Proof. by intros w H. Qed.
Lemma upholds_put_mem J f : frame (upholds J) (put_mem f).
Proof. by intros w H. Qed.

(** A call that changes the outside, and its record. *)
Lemma upholds_call J {A} (f : est -> A * est) (a : A -> Act) :
  (forall e, J e -> J (f e).2) -> frame (upholds J) (r ← ask f; act (a r) ;; mret r).
Proof.
  intros Hf w H. unfold bindM, ask. specialize (Hf (w_est w) H). by destruct (f (w_est w)) as [r e].
Qed.

Lemma upholds_write_fs J `{!Stable J} s f : frame (upholds J) (write_fs s f).
Proof.
  intros w H. assert (J (sys_fault s (w_est w)).2) as H1 by (eapply st_read; [apply sys_fault_read|done]).
  unfold write_fs, bindM, ask, gets, modify, act, mret, M_ret.
  destruct (sys_fault s (w_est w)) as [[e|] en]; simpl in *; [done|]. by destruct (f (w_fs w)).
Qed.
End upholds.

Create HintDb lso_upholds.

Ltac upholds_tac :=
  frame_tac ltac:(idtac;
    match goal with
    | |- frame _ (act _) => apply upholds_act
    | |- frame _ (Eventf _ _ _) => apply upholds_act
    | |- frame _ (SetMetric _ _ _) => apply upholds_act
    | |- frame _ (DeleteMetric _ _) => apply upholds_act
    | |- frame _ (put_mem _) => apply upholds_put_mem
    | |- frame _ (ClientCreate _ _) => apply upholds_call; intros; by apply st_create
    | |- frame _ (ClientUpdate _ _) => apply upholds_call; intros; by apply st_update
    | |- frame _ (StatusUpdate _ _) => apply upholds_call; intros; by apply st_status
    | |- frame _ (ClientDelete _ _) => apply upholds_call; intros; by apply st_delete
    | |- frame _ (Symlink _ _) => apply upholds_write_fs, _
    | |- frame _ (Remove _) => apply upholds_write_fs, _
    | |- frame _ (Rename _ _) => apply upholds_write_fs, _
    | |- frame _ (MkdirAll _) => apply upholds_write_fs, _
    | |- frame _ _ => solve [eauto 2 with lso_upholds]
    end).

(** ** The operations that write neither volumes nor sets *)

Section operations.
Context {E : Env} (J : est -> Prop) `{!Stable J}.

Lemma upholds_OpenExcl q : frame (upholds J) (OpenExcl q).
Proof. unfold OpenExcl. upholds_tac. Qed.
Lemma upholds_Close fd : frame (upholds J) (Close fd).
Proof. unfold Close. upholds_tac. Qed.
Hint Resolve upholds_OpenExcl upholds_Close : lso_upholds.
Lemma upholds_Lock q : frame (upholds J) (Lock q).
Proof. unfold Lock. upholds_tac. Qed.
Lemma upholds_Unlock l : frame (upholds J) (Unlock l).
Proof. unfold Unlock. upholds_tac. Qed.
Hint Resolve upholds_Lock upholds_Unlock : lso_upholds.
Lemma upholds_GetPVCreationLock d l : frame (upholds J) (GetPVCreationLock d l).
Proof. unfold GetPVCreationLock. upholds_tac. Qed.

Lemma upholds_AddOrUpdateLVDL l : frame (upholds J) (AddOrUpdateLVDL l).
Proof. unfold AddOrUpdateLVDL. upholds_tac. Qed.
Hint Resolve upholds_AddOrUpdateLVDL : lso_upholds.
Lemma upholds_updateStatus l c b p cs sp : frame (upholds J) (updateStatus l c b p cs sp).
Proof. unfold updateStatus. upholds_tac. Qed.
Lemma upholds_finish_recreate l b c p sp : frame (upholds J) (finish_recreate l b c p sp).
Proof. unfold finish_recreate. upholds_tac. Qed.
Hint Resolve upholds_updateStatus upholds_finish_recreate : lso_upholds.
Lemma upholds_Recreate l p b : frame (upholds J) (RecreateSymlinkIfNeeded l p b).
Proof. unfold RecreateSymlinkIfNeeded. upholds_tac. Qed.
Lemma upholds_UpdateDeviceLinks l b c sp : frame (upholds J) (UpdateDeviceLinks l b c sp).
Proof. unfold UpdateDeviceLinks. upholds_tac. Qed.
Lemma upholds_createLVDL n p ns o : frame (upholds J) (createLVDL n p ns o).
Proof. unfold createLVDL. upholds_tac. Qed.
Hint Resolve upholds_Recreate upholds_UpdateDeviceLinks upholds_createLVDL : lso_upholds.
Lemma upholds_findOrCreateLVDL n p ns d o : frame (upholds J) (findOrCreateLVDL n p ns d o).
Proof. unfold findOrCreateLVDL, FindLVDL. upholds_tac. Qed.
Hint Resolve upholds_findOrCreateLVDL : lso_upholds.
Lemma upholds_ApplyStatus n p ns b o c sp : frame (upholds J) (ApplyStatus n p ns b o c sp).
Proof. unfold ApplyStatus. upholds_tac. Qed.

Lemma upholds_Report e : frame (upholds J) (Report e).
Proof. unfold Report. upholds_tac. Qed.
Lemma upholds_ReloadRuntimeConfig r n : frame (upholds J) (ReloadRuntimeConfig r n).
Proof. unfold ReloadRuntimeConfig. upholds_tac. Qed.
End operations.

#[export] Hint Resolve upholds_OpenExcl upholds_Close upholds_Lock upholds_Unlock upholds_GetPVCreationLock
  upholds_AddOrUpdateLVDL upholds_updateStatus upholds_finish_recreate upholds_Recreate upholds_UpdateDeviceLinks
  upholds_createLVDL upholds_findOrCreateLVDL upholds_ApplyStatus upholds_Report upholds_ReloadRuntimeConfig : lso_upholds.

(** ** Provisioning, from what it does to volumes *)

Section provisioning.
Context {E : Env} (J : est -> Prop) `{!Stable J}.

(** The synchronisation of one volume, when the write of the volume upholds [J]. *)
Lemma upholds_SyncPVAndLVDL args :
  (forall rc hostname kind ns name capacity d b mode mc obj,
     owner_ids (sa_Object args) = Ok (kind, ns, name) ->
     obj = empty_pv (pv_Name obj) \/ (exists d key en, J en /\ (kget KPV d key en).1 = Ok obj) ->
     frame (upholds J) (CreateOrUpdatePV obj (mutate_pv
       (new_pv rc (sa_StorageClass args) (pv_Name obj) hostname (sa_SymLinkPath args) mc capacity)
       (pv_labels hostname kind ns name (sa_ExtraLabels args)) (pv_annotations d (rc_Name rc) b (sa_SymLinkPath args)) mode))) ->
  (forall d key en pv, (kget KPV d key en).1 = Ok pv -> pv_Name pv = nn_Name key) ->
  frame (upholds J) (SyncPVAndLVDL args).
Proof.
  intros Hpv Hname. unfold SyncPVAndLVDL, FindLVDL. apply frame_bind; [apply _|upholds_tac|intros rc].
  destruct (om_Labels _ !! LabelHostname) as [hostname|]; [|upholds_tac].
  destruct (owner_ids (sa_Object args)) as [[[kind ns] name]|] eqn:Ho; [|upholds_tac].
  set (pvName := GeneratePVName _ _ _).
  assert (forall req eff mc avm, frame (upholds J) (sync_pv args rc hostname kind ns name pvName req eff mc avm)) as Hs.
  { intros req eff mc avm w HJ. unfold sync_pv. cbv zeta.
    match goal with |- J (w_est (?m w).2) => change (wp m (fun _ w' => J (w_est w')) w) end.
    apply wp_bind, wp_ask. intros r en Hget.
    assert (J en) as Hen by (eapply st_read; [|exact HJ]; by rewrite <- (f_equal snd Hget : _ = en); apply kget_read).
    eapply (wp_mono _ (fun _ w' => upholds J (set_est en w) w')); [|intros ? w' H; by apply H].
    apply frame_wp; [apply _|]. destruct r as [pv|err].
    - assert (pv_Name pv = pvName) as Hn.
      { apply (Hname false {| nn_Namespace := ""; nn_Name := pvName |} (w_est w)). by rewrite Hget. }
      frame_tac ltac:(idtac; match goal with
        | |- frame _ (CreateOrUpdatePV _ _) => rewrite <- Hn; apply Hpv; [done|]; right; do 3 eexists; split; [exact HJ|]; by rewrite Hget
        | |- frame _ (ApplyStatus _ _ _ _ _ _ _) => by apply upholds_ApplyStatus end).
    - frame_tac ltac:(idtac; match goal with
        | |- frame _ (CreateOrUpdatePV _ _) => apply (Hpv _ _ _ _ _ _ _ _ _ _ (empty_pv pvName)); [done|by left]
        | |- frame _ (ApplyStatus _ _ _ _ _ _ _) => by apply upholds_ApplyStatus end). }
  destruct (NewDeviceLinkHandler _); upholds_tac.
Qed.
End provisioning.
