(* ===== verification/StoreNodes.v ===== *)
(** * The reconcilers of a node, from what they do to volumes

    [upholds J] for the whole reconciliation on a node, given that the synchronisation
    of one volume upholds [J]: everything else a node does writes neither volumes nor
    their owners nor classes. *)
From stdpp Require Import base list strings gmap.
From Stdlib Require Import ZArith Lia String.
From S2P Require Import Prelude GoLib Types World Sys Envs DiskUtil LinkCache Common Controller Symlinks DeviceLink Provisioner Matcher Metrics LvSet Lv Store.

Open Scope string_scope.

(** ** LocalVolumeSets *)

Section node.
Context {E : Env} (J : est -> Prop) `{!Stable J} (lvset : LocalVolumeSet).
Hypothesis Hsync : forall dev sc mounts p,
  frame (upholds J) (SyncPVAndLVDL (sync_args (OLocalVolumeSet lvset) dev sc mounts p)).

Lemma upholds_sync_existing dev sc mounts p : frame (upholds J) (syncExistingPVAndLVDL lvset dev sc mounts p).
Proof. apply Hsync. Qed.
Lemma upholds_create dev sc mounts src p : frame (upholds J) (createSymlinkAndSyncPVAndLVDL lvset dev sc mounts src p).
Proof.
  unfold createSymlinkAndSyncPVAndLVDL, create_locked, after_symlink. generalize (Hsync dev sc mounts p). intros H.
  upholds_tac.
Qed.
Hint Resolve upholds_sync_existing upholds_create : lso_upholds.

Lemma upholds_reportFailure d e : frame (upholds J) (reportProvisioningFailure d e).
Proof. unfold reportProvisioningFailure. upholds_tac. Qed.
Lemma upholds_not_preferred e dev : frame (upholds J) (refresh_not_preferred e dev).
Proof. unfold refresh_not_preferred. upholds_tac. Qed.
Hint Resolve upholds_reportFailure upholds_not_preferred : lso_upholds.

Lemma reads_symlinked_loop paths devs n l : reads (symlinked_loop paths devs n l).
Proof.
  revert n l. induction paths as [|q paths IH]; intros n l; simpl; [apply reads_ret|].
  apply reads_bind; [eauto with lso|]. intros [[q'|]|]; [apply IH..|apply reads_ret].
Qed.
Lemma reads_getAlreadySymlinked d devs : reads (getAlreadySymlinked d devs).
Proof.
  unfold getAlreadySymlinked. apply reads_bind; [eauto with lso|]. intros [paths|]; [apply reads_symlinked_loop|apply reads_ret].
Qed.
Hint Resolve reads_getAlreadySymlinked : lso.

Lemma upholds_processNewSymlink dev devs sc mounts d :
  frame (upholds J) (LvSet.processNewSymlink lvset dev devs sc mounts d).
Proof. unfold LvSet.processNewSymlink. upholds_tac. Qed.
Hint Resolve upholds_processNewSymlink : lso_upholds.
Lemma upholds_process_valid valid devs sc mounts d t :
  frame (upholds J) (process_valid lvset valid devs sc mounts d t).
Proof. revert t. induction valid as [|dev valid IH]; intros t; cbn [process_valid]; upholds_tac. Qed.
Hint Resolve upholds_process_valid : lso_upholds.

Lemma upholds_process_rejected o r d c dev :
  (forall e, frame (upholds J) (r e)) -> frame (upholds J) (process_rejected o r d c dev).
Proof. intros Hr. unfold process_rejected, refresh_rejected, FindLVDL. upholds_tac. Qed.
Lemma upholds_processRejected devs d c : frame (upholds J) (LvSet.processRejectedDevicesForDeviceLinks lvset devs d c).
Proof.
  unfold LvSet.processRejectedDevicesForDeviceLinks. apply frame_forM_; [apply _|]. intros dev.
  apply upholds_process_rejected. intros e. unfold report_lvdl_failure. upholds_tac.
Qed.
Hint Resolve upholds_processRejected : lso_upholds.

Lemma upholds_filter f dev : f ∈ DefaultFilterMap -> frame (upholds J) (f.2 dev).
Proof.
  assert (Forall (fun f => frame (upholds J) (f.2 dev)) DefaultFilterMap) as H.
  { unfold DefaultFilterMap, noBindMounts, noChildren, canOpenExclusively.
    repeat apply Forall_cons_2; simpl; [upholds_tac..|apply Forall_nil_2]. }
  intros Hf. rewrite Forall_forall in H. by apply H.
Qed.
Lemma upholds_run_filters fs dev :
  (forall f, f ∈ fs -> f ∈ DefaultFilterMap) -> frame (upholds J) (run_filters fs dev).
Proof.
  induction fs as [|[n f] fs IH]; intros H; simpl; [apply frame_ret, _|].
  apply frame_bind; [apply _|apply (upholds_filter (n, f)), H; by left|]. intros r.
  destruct (passes r); [apply IH; intros; apply H; by right|apply frame_ret, _].
Qed.
Lemma upholds_judge_device dev : frame (upholds J) (judge_device lvset dev).
Proof.
  unfold judge_device, storeDeviceAge, isOlderThan.
  frame_tac ltac:(idtac; match goal with
    | |- frame _ (matchesDeviceSpec _ _ _) => apply frame_reads; [apply _|apply reads_matchesDeviceSpec]
    | |- frame _ (put_mem _) => apply upholds_put_mem
    | |- frame _ (bindM (range_map _) _) => apply frame_range_map; [apply _|]; intros filters Hp;
        apply frame_bind; [apply _|apply upholds_run_filters; intros f Hf; by rewrite <- Hp|intros ?]; upholds_tac
    end).
Qed.
Hint Resolve upholds_judge_device : lso_upholds.
Lemma upholds_getValidDevices devs : frame (upholds J) (getValidDevices lvset devs).
Proof. induction devs as [|dev devs IH]; cbn [getValidDevices]; upholds_tac. Qed.
Hint Resolve upholds_getValidDevices : lso_upholds.

Lemma upholds_reconcile_devices sc d devs : frame (upholds J) (LvSet.reconcile_devices lvset sc d devs).
Proof.
  unfold LvSet.reconcile_devices, SetLVSUnmatchedDiskMetric, SetLVSProvisionedPVMetric, SetLVSOrphanedSymlinksMetric. upholds_tac.
Qed.
Lemma upholds_list_devices : frame (upholds J) list_devices.
Proof. unfold list_devices. upholds_tac. Qed.
End node.

(** ** LocalVolumes *)

Section lv_node.
Context {E : Env} (J : est -> Prop) `{!Stable J} (location : string) (lv : LocalVolume).

(** The classes of the configuration. *)
Definition configured (sc : string) : Prop := is_Some (dc_Disks (generateConfig lv) !! sc).
Hypothesis Hsync : forall sc d mounts, configured sc -> frame (upholds J) (syncPVAndLVDL lv sc d mounts).

Lemma upholds_warn r m d : frame (upholds J) (warn r m d).
Proof. unfold warn. upholds_tac. Qed.
Lemma upholds_Run cmd args : frame (upholds J) (Run cmd args).
Proof. unfold Run. upholds_tac. Qed.
Hint Resolve upholds_warn upholds_Run upholds_not_preferred : lso_upholds.

Lemma upholds_createSymlink d src target b : frame (upholds J) (createSymlink location d src target b).
Proof. unfold createSymlink, create_with_lock, make_symlink, wipe, fileExists, evalSymlink. upholds_tac. Qed.
Lemma upholds_existing sc p d mounts : configured sc -> frame (upholds J) (processExistingSymlink lv sc p d mounts).
Proof. intros Hsc. unfold processExistingSymlink. pose proof (fun d m => Hsync sc d m Hsc). upholds_tac. Qed.
Hint Resolve upholds_createSymlink upholds_existing : lso_upholds.
Lemma upholds_processNew sc d mounts : configured sc -> frame (upholds J) (processNewSymlink location lv sc d mounts).
Proof. intros Hsc. unfold processNewSymlink. pose proof (fun d m => Hsync sc d m Hsc). upholds_tac. Qed.
Hint Resolve upholds_processNew : lso_upholds.

Lemma reads_resolve p b devs : reads (resolveValidDeviceLocation p b devs).
Proof. unfold resolveValidDeviceLocation, findDeviceByID, evalSymlink. reads_tac. Qed.
Hint Resolve reads_resolve : lso.

Lemma upholds_provisionValid sc dir p d mounts :
  configured sc -> frame (upholds J) (provisionValidDevice location lv sc dir p d mounts).
Proof.
  intros Hsc. unfold provisionValidDevice, complete_id, reportSymlinkLookupError, reportProvisioningError. upholds_tac.
Qed.
Hint Resolve upholds_provisionValid : lso_upholds.

Lemma upholds_process_paths sc dir b paths devs mounts t :
  configured sc -> frame (upholds J) (process_paths location lv sc dir b paths devs mounts t).
Proof.
  intros Hsc. revert t. induction paths as [|q paths IH]; intros t; cbn [process_paths]; [apply frame_ret, _|].
  unfold reportDeviceResolutionError, logDeviceError, fileExists. upholds_tac.
Qed.
Hint Resolve upholds_process_paths : lso_upholds.

Lemma upholds_processValidDevices devs mounts n :
  frame (upholds J) (processValidDevices location lv devs (generateConfig lv) mounts n).
Proof.
  unfold processValidDevices, SetLVProvisionedPVMetric. apply frame_range_map; [apply _|]. intros order Hp.
  apply frame_forM__in; [apply _|]. intros [sc disks] Hin.
  assert (configured sc) as Hsc.
  { exists disks. apply elem_of_map_to_list. by rewrite <- Hp. }
  upholds_tac.
Qed.

Lemma reads_spec_devices paths devs : reads (spec_devices paths devs).
Proof. induction paths as [|q paths IH]; cbn [spec_devices]; reads_tac. Qed.
Lemma reads_count_missing paths : reads (count_missing paths).
Proof. unfold evalSymlink. induction paths as [|q paths IH]; cbn [count_missing]; reads_tac. Qed.
Lemma reads_split_devices devs : reads (split_devices devs).
Proof. induction devs as [|d devs IH]; cbn [split_devices]; unfold ignoreDevices; reads_tac. Qed.
Hint Resolve reads_spec_devices reads_count_missing reads_split_devices : lso.

Lemma upholds_orphaned devs c : frame (upholds J) (updateOrphanedSymlinkMetrics location devs c).
Proof. unfold updateOrphanedSymlinkMetrics, SetLVOrphanedSymlinksMetric. upholds_tac. Qed.
Lemma upholds_missing c : frame (upholds J) (updateMissingDevicePathMetrics c).
Proof. unfold updateMissingDevicePathMetrics, SetLVMissingDevicePathMetric. upholds_tac. Qed.
Lemma upholds_refresh_rejected o r ns n p l dev :
  (forall e, frame (upholds J) (r e)) -> frame (upholds J) (refresh_rejected o r ns n p l dev).
Proof. intros Hr. unfold refresh_rejected. upholds_tac. Qed.
Lemma upholds_report_lvdl_failure dev e : frame (upholds J) (report_lvdl_failure dev e).
Proof. unfold report_lvdl_failure. upholds_tac. Qed.
Hint Resolve upholds_orphaned upholds_missing upholds_refresh_rejected upholds_report_lvdl_failure upholds_processValidDevices : lso_upholds.

Lemma upholds_rejected_path sc devs p : frame (upholds J) (rejected_path location lv sc devs p).
Proof. unfold rejected_path, FindLVDL, evalSymlink. upholds_tac. Qed.
Hint Resolve upholds_rejected_path : lso_upholds.
Lemma upholds_rejected_paths sc devs paths n : frame (upholds J) (rejected_paths location lv sc devs paths n).
Proof. revert n. induction paths as [|q paths IH]; intros n; cbn [rejected_paths]; upholds_tac. Qed.
Hint Resolve upholds_rejected_paths : lso_upholds.
Lemma upholds_rejected_classes devs classes n : frame (upholds J) (rejected_classes location lv devs classes n).
Proof. revert n. induction classes as [|[sc d] classes IH]; intros n; cbn [rejected_classes]; upholds_tac. Qed.
Hint Resolve upholds_rejected_classes : lso_upholds.

Lemma upholds_lv_provision : frame (upholds J) (provision location lv).
Proof. unfold provision, reconcile_devices, processRejectedDevicesForDeviceLinks. upholds_tac. Qed.
End lv_node.
