(* ===== verification/StoreEnv.v ===== *)
(** * An API server

    An outside whose state is the store itself: the instance of [ApiStore] on which the
    witnesses and the end-to-end runs of the programs are evaluated.  Writes are
    accepted when the API server would: a creation of a new object, an update or a
    deletion of an existing one, an update not from before its deletion. *)
From stdpp Require Import base list strings gmap.
From Stdlib Require Import ZArith Lia String.
From S2P Require Import Prelude GoLib Types World Sys Envs Common Controller LvSetCtl LvCtl Store.

Open Scope string_scope.

Definition Objs := forall k : Kind, gmap NamespacedName (Obj k).
Definition no_objs : Objs := fun k => ∅.

Definition put (k : Kind) (m : gmap NamespacedName (Obj k)) (s : Objs) : Objs := fun k' =>
  match decide (k = k') with left e => eq_rect k (fun k => gmap NamespacedName (Obj k)) m k' e | right _ => s k' end.

Lemma put_same k m s : put k m s k = m.
Proof. unfold put. destruct (decide (k = k)) as [e|]; [|done]. by rewrite (proof_irrel e eq_refl). Qed.
Lemma put_other k k' m s : k <> k' -> put k m s k' = s k'.
Proof. intros H. unfold put. by destruct (decide (k = k')). Qed.

(** Objects are stored under their key, the owners with their kind. *)
Definition well_stored (k : Kind) (key : NamespacedName) (o : Obj k) : bool :=
  bool_decide (object_key o = key) && bool_decide (type_name o = kind_name k).

Definition objects (k : Kind) (s : Objs) : gmap NamespacedName (Obj k) :=
  filter (fun kv => well_stored k kv.1 kv.2 = true) (s k).

Lemma objects_Some k s key o : objects k s !! key = Some o <-> s k !! key = Some o /\ well_stored k key o = true.
Proof. unfold objects. by rewrite map_lookup_filter_Some. Qed.
Lemma objects_well k s key o : objects k s !! key = Some o -> well_stored k key o = true.
Proof. by intros [_ H]%objects_Some. Qed.

Lemma objects_put k s m :
  map_Forall (fun key o => well_stored k key o = true) m -> objects k (put k m s) = m.
Proof.
  intros Hm. apply map_eq. intros key. apply option_eq. intros o. rewrite objects_Some, put_same.
  split; [by intros []|]. intros H. split; [done|]. by apply (Hm key o).
Qed.
Lemma objects_other k k' s m : k <> k' -> objects k' (put k m s) = objects k' s.
Proof. intros H. unfold objects. by rewrite put_other. Qed.

Lemma put_insert k s key o :
  well_stored k key o = true -> objects k (put k (<[key := o]> (objects k s)) s) = <[key := o]> (objects k s).
Proof. intros Ho. apply objects_put. apply map_Forall_insert_2; [done|]. intros key' o'. apply objects_well. Qed.
Lemma put_delete k s key : objects k (put k (delete key (objects k s)) s) = delete key (objects k s).
Proof. apply objects_put. intros key' o' [_ H]%lookup_delete_Some. by eapply objects_well. Qed.

(** ** What the server sets *)

Definition now : Z := 1000.
Definition created (m : ObjectMeta) : ObjectMeta :=
  {| om_Name := om_Name m; om_Namespace := om_Namespace m; om_UID := om_UID m; om_Labels := om_Labels m;
     om_Annotations := om_Annotations m; om_Finalizers := om_Finalizers m; om_OwnerReferences := om_OwnerReferences m;
     om_CreationTimestamp := Some now; om_DeletionTimestamp := None; om_Generation := 1; om_ResourceVersion := om_ResourceVersion m |}.
Definition deleting (m : ObjectMeta) : ObjectMeta :=
  {| om_Name := om_Name m; om_Namespace := om_Namespace m; om_UID := om_UID m; om_Labels := om_Labels m;
     om_Annotations := om_Annotations m; om_Finalizers := om_Finalizers m; om_OwnerReferences := om_OwnerReferences m;
     om_CreationTimestamp := om_CreationTimestamp m; om_DeletionTimestamp := Some now; om_Generation := om_Generation m;
     om_ResourceVersion := om_ResourceVersion m |}.

(** The metadata of the kinds that the runs write. *)
Definition with_meta (f : ObjectMeta -> ObjectMeta) {k : Kind} : Obj k -> Obj k :=
  match k return Obj k -> Obj k with
  | KPV => fun o => set_pv_meta (f (pv_meta o)) o
  | KSC => fun o => set_sc_meta (f (sc_meta o)) o
  | KLVSet => fun o => set_lset_meta (f (lset_meta o)) o
  | KLV => fun o => set_lv_meta (f (lv_meta o)) o
  | KLVDL => fun o => {| ld_meta := f (ld_meta o); ld_Spec := ld_Spec o; ld_Status := ld_Status o |}
  | _ => fun o => o
  end.

(** A status update of the kinds with a status. *)
Definition with_status {k : Kind} : Obj k -> Obj k -> Obj k :=
  match k return Obj k -> Obj k -> Obj k with
  | KLVSet => fun old o => set_lset_status (lset_Status o) old
  | KLVDL => fun old o => set_ld_status (ld_Status o) old
  | KLV => fun old o => set_lv_status (lv_Status o) old
  | _ => fun old _ => old
  end.

Lemma with_meta_identity f k (o : Obj k) :
  (forall m, same_identity m (f m)) -> same_identity (kmeta o) (kmeta (with_meta f o)).
Proof. intros Hf. destruct k; try apply Hf; by split. Qed.
Lemma with_meta_well f k key (o : Obj k) :
  (forall m, same_identity m (f m)) -> well_stored k key (with_meta f o) = well_stored k key o.
Proof.
  intros Hf. destruct (with_meta_identity f k o Hf) as [Hn Hns _ _]. unfold well_stored, object_key.
  rewrite Hn, Hns. by destruct k.
Qed.
Lemma created_identity m : same_identity m (created m).
Proof. done. Qed.
Lemma deleting_identity m : same_identity m (deleting m).
Proof. done. Qed.
Lemma with_status_identity k (old o : Obj k) : same_identity (kmeta old) (kmeta (with_status old o)).
Proof. by destruct k. Qed.
Lemma with_status_well k key (old o : Obj k) : well_stored k key (with_status old o) = well_stored k key old.
Proof. by destruct k. Qed.
Lemma with_status_deletion k (old o : Obj k) :
  om_DeletionTimestamp (kmeta (with_status old o)) = om_DeletionTimestamp (kmeta old).
Proof. by destruct k. Qed.

(** ** The calls *)

Definition ns_ok (ns : option string) (m : ObjectMeta) : bool :=
  match ns with None => true | Some ns => bool_decide (om_Namespace m = ns) end.
Definition has_labels (labels : list (string * string)) (m : ObjectMeta) : bool :=
  forallb (fun l => bool_decide (om_Labels m !! l.1 = Some l.2)) labels.

Definition field_value {k : Kind} : Obj k -> string :=
  match k return Obj k -> string with KPV => pv_StorageClassName | _ => fun _ => "" end.

Definition selected {k} (opts : ListOpts) (o : Obj k) : bool :=
  ns_ok (lo_Namespace opts) (kmeta o) && has_labels (lo_Labels opts) (kmeta o)
  && match lo_Field opts with None => true | Some (_, v) => String.eqb (field_value o) v end
  && match lo_LabelIn opts with
     | None => true
     | Some (l, vs) => match om_Labels (kmeta o) !! l with Some v => bool_decide (v ∈ vs) | None => false end
     end.

Definition missing (key : NamespacedName) : GoErr := StatusError ReasonNotFound (nn_Name key ++s " not found").

Definition api_get (k : Kind) (key : NamespacedName) (s : Objs) : Res (Obj k) :=
  match objects k s !! key with Some o => Ok o | None => Err (missing key) end.
Definition api_list (k : Kind) (opts : ListOpts) (s : Objs) : list (Obj k) :=
  List.filter (selected opts) (map_to_list (objects k s)).*2.

Definition api_create (k : Kind) (o : Obj k) (s : Objs) : Res (Obj k) * Objs :=
  let key := object_key o in
  match objects k s !! key with
  | Some _ => (Err (StatusError ReasonAlreadyExists (nn_Name key ++s " already exists")), s)
  | None =>
      if well_stored k key o then
        let o' := with_meta created o in (Ok o', put k (<[key := o']> (objects k s)) s)
      else (Err (StatusError ReasonInvalid (nn_Name key ++s " is invalid")), s)
  end.

(** An object read before the deletion was asked for is stale; the status is a part of its own. *)
Definition api_update (k : Kind) (o : Obj k) (s : Objs) : Res (Obj k) * Objs :=
  let key := object_key o in
  match objects k s !! key with
  | None => (Err (missing key), s)
  | Some old =>
      if negb (well_stored k key o) then (Err (StatusError ReasonInvalid (nn_Name key ++s " is invalid")), s)
      else if negb (bool_decide (om_DeletionTimestamp (kmeta o) = om_DeletionTimestamp (kmeta old)))
      then (Err (StatusError ReasonConflict (nn_Name key ++s " was modified")), s)
      else
        (Ok o, put k (if decide (om_DeletionTimestamp (kmeta old) <> None /\ om_Finalizers (kmeta o) = [])
                      then delete key (objects k s) else <[key := o]> (objects k s)) s)
  end.

Definition api_status (k : Kind) (o : Obj k) (s : Objs) : Res (Obj k) * Objs :=
  let key := object_key o in
  match objects k s !! key with
  | None => (Err (missing key), s)
  | Some old => let o' := with_status old o in (Ok o', put k (<[key := o']> (objects k s)) s)
  end.

Definition api_delete (k : Kind) (o : Obj k) (s : Objs) : option GoErr * Objs :=
  let key := object_key o in
  match objects k s !! key with
  | None => (Some (missing key), s)
  | Some old =>
      (None, put k (if decide (om_Finalizers (kmeta old) = []) then delete key (objects k s)
                    else <[key := with_meta deleting old]> (objects k s)) s)
  end.

(** The deleter of the static provisioner deletes released volumes. *)
Definition delete_released (pv : PersistentVolume) : option PersistentVolume :=
  if negb (String.eqb (pv_Phase pv) VolumeReleased) then Some pv
  else if decide (om_Finalizers (pv_meta pv) = []) then None
  else Some (set_pv_meta (deleting (pv_meta pv)) pv).
Definition api_delete_pvs (s : Objs) : Objs := put KPV (omap delete_released (objects KPV s)) s.

(** Files, commands and the clock are those of a [Static]. *)
#[global] Instance store_env (st : Static) : Env | 200.
Proof.
  refine {|
    est := Objs;
    kget := fun k _ key s => (api_get k key s, s);
    klist := fun k o s => (Ok (api_list k o s), s);
    kcreate := api_create; kupdate := api_update; kstatus := api_status; kdelete := api_delete;
    sys_fault := fun c e => (st_fault st c, e);
    read_file := fun p e => (st_file st p, e);
    exec_cmd := fun c a _ e => (st_exec st c a, e);
    clock := fun e => (st_clock st, e);
    new_uuid := fun e => ("uuid", e);
    map_order := fun A e l => (l, e);
    getenv := fun x => if String.eqb x "MY_NODE_NAME" then Some "n1" else None;
    delete_pvs := api_delete_pvs;
    mount_list := fun e => (Ok [], e);
    get_volume_mode := fun _ e => (Ok PersistentVolumeBlock, e);
    get_block_capacity := fun _ e => (Ok (100 * 1073741824)%Z, e);
    get_fs_capacity := fun _ e => (Ok (100 * 1073741824)%Z, e);
    load_volume_config := fun _ => Ok ex_config;
    match_node_selector_terms := fun _ _ => Ok true;
    parse_quantity := fun _ => Ok 0%Z;
    read_template := ex_template;
    volume_config_data := fun m _ => Ok ((fun c => mc_HostDir c) <$> m);
    est_read := eq |}; done.
Defined.

(** ** The laws *)

Lemma selected_plain {k} (opts : ListOpts) (o : Obj k) : plain opts -> selected opts o = true <-> opts_match opts o.
Proof.
  intros [Hf Hl]. unfold selected, opts_match, ns_ok, has_labels. rewrite Hf, Hl, !andb_true_r, andb_true_iff.
  rewrite List.forallb_forall, List.Forall_forall.
  assert (forall l : string * string, bool_decide (om_Labels (kmeta o) !! l.1 = Some l.2) = true <-> om_Labels (kmeta o) !! l.1 = Some l.2) as Hb
    by (intros l; apply bool_decide_eq_true).
  destruct (lo_Namespace opts) as [ns|]; [rewrite bool_decide_eq_true|]; (split; intros [H1 H2]; split; [done| |done|]; intros l Hin; apply Hb, H2, Hin).
Qed.

Lemma delete_released_Some pv pv' : delete_released pv = Some pv' -> same_identity (pv_meta pv) (pv_meta pv').
Proof. unfold delete_released. destruct (negb _); [by intros [= <-]|]. case_decide; [done|]. by intros [= <-]. Qed.

Lemma objects_delete_pvs s : objects KPV (api_delete_pvs s) = omap delete_released (objects KPV s).
Proof.
  apply objects_put. intros key pv' Hk. apply lookup_omap_Some in Hk as (pv & Hd & Hk).
  apply (objects_well KPV) in Hk. unfold well_stored in *. rewrite andb_true_iff, !bool_decide_eq_true in *. destruct Hk as [Hk _]. split; [|done].
  destruct (delete_released_Some _ _ Hd) as [Hn Hns _ _]. unfold object_key in *. simpl in *. by rewrite Hn, Hns.
Qed.

#[export] Instance store_env_store (st : Static) : ApiStore (store_env st).
Proof.
  refine {| store := objects : forall k, est (Env := store_env st) -> _ |}; simpl.
  - intros k e key o H%objects_well. unfold well_stored in H. apply andb_true_iff in H as [H _]. by apply bool_decide_eq_true in H.
  - intros k e key s H%objects_well. unfold well_stored in H. apply andb_true_iff in H as [_ H]. by apply bool_decide_eq_true in H.
  - by intros k e e' ->.
  - intros k _ key e o. unfold api_get. destruct (objects k e !! key); [|done]. by intros [= ->].
  - intros k opts e l o Hp [= <-]. unfold api_list. rewrite list_elem_of_In, List.filter_In, <- list_elem_of_In, (selected_plain opts o Hp).
    rewrite list_elem_of_fmap. split; intros [H1 H2]; (split; [|done]).
    + destruct H1 as ([key o'] & -> & Hin%elem_of_map_to_list). by exists key.
    + destruct H1 as [key Hk]. exists (key, o). split; [done|]. by apply elem_of_map_to_list.
  - intros k k' o e Hne. unfold api_create, api_update, api_status, api_delete.
    destruct (objects k e !! object_key o); simpl; repeat split; repeat case_match; simpl; try done; by apply objects_other.
  - intros k o e. unfold api_create, api_update, api_status, api_delete.
    destruct (objects k e !! object_key o); simpl; repeat split; repeat case_match; simpl; try done; intros [? ?]; discriminate.
  - intros k o o' e. unfold api_create. destruct (objects k e !! object_key o) eqn:Hk; [done|].
    destruct (well_stored _ _ _) eqn:Hw; [|done]. intros [= <-]. split; [done|].
    split; [apply with_meta_identity, created_identity|]. apply put_insert. rewrite with_meta_well by apply created_identity. done.
  - intros k o o' e. unfold api_update. destruct (objects k e !! object_key o) as [old|] eqn:Hk; [|done].
    destruct (well_stored _ _ _) eqn:Hw; [|done]. simpl. case_bool_decide as Hd; [|done]. simpl. intros [= <-].
    exists old. split; [done|]. split; [done|]. split; [done|]. case_decide; [apply put_delete|by apply put_insert].
  - intros k o o' e. unfold api_status. destruct (objects k e !! object_key o) as [old|] eqn:Hk; [|done]. intros [= <-].
    exists old. split; [done|]. split; [apply with_status_identity|]. split; [apply with_status_deletion|].
    apply put_insert. rewrite with_status_well. by eapply objects_well.
  - intros k o e. unfold api_delete. destruct (objects k e !! object_key o) as [old|] eqn:Hk; [|done]. intros _.
    exists old. split; [done|]. case_decide as Hf; [left; split; [done|apply put_delete]|right].
    exists (with_meta deleting old). split; [apply with_meta_identity, deleting_identity|].
    apply put_insert. rewrite with_meta_well by apply deleting_identity. by eapply objects_well.
  - intros k o o' e. unfold api_update. destruct (objects k e !! _) as [old|] eqn:Hk; [|done].
    destruct (negb _); [done|]. destruct (negb _); [done|]. intros [= <-]. by destruct k.
  - intros k o o' e. unfold api_status. destruct (objects k e !! _) as [old|] eqn:Hk; [|done]. intros [= <-].
    exists old. split; [done|]. by destruct k.
  - intros e key pv'. rewrite objects_delete_pvs. intros (pv & Hd & Hk)%lookup_omap_Some. exists pv. split; [done|].
    by apply delete_released_Some.
  - intros k e Hne. by apply objects_other.
Defined.
