(* ===== verification/Owners.v ===== *)
(** * The owners of volumes in the store

    LocalVolumes and LocalVolumeSets own volumes, by labels; the operator protects them
    with a finalizer and makes their storage classes.  [Inv k n] is what holds of the
    owner [n] of kind [k] and its volumes at any time; here are the invariant, what
    single writes do to it, and the changes of the store that cannot touch it
    ([calm]).  NodeSteps and OperatorSteps show that the programs keep it. *)
From stdpp Require Import base list strings gmap.
From Stdlib Require Import ZArith Lia String.
From S2P Require Import Prelude GoLib Types World Sys Envs DiskUtil LinkCache Common Controller Symlinks DeviceLink Provisioner Matcher Metrics LvSet Store.

Open Scope string_scope.

(** ** Owners of volumes *)

Definition owner_keys : list string := [PVOwnerKindLabel; PVOwnerNameLabel; PVOwnerNamespaceLabel].

(** The volume carries the labels of the owner, those the operator lists by. *)
Definition owned (k : Kind) (n : NamespacedName) (pv : PersistentVolume) : Prop :=
  Forall (fun l => pv_Labels pv !! l.1 = Some l.2) (owner_labels (kind_name k) (nn_Namespace n) (nn_Name n)).

Definition same_owner_labels (m m' : gmap string string) : Prop := forall k, k ∈ owner_keys -> m' !! k = m !! k.

(** The owner labels come together. *)
Definition whole (pv : PersistentVolume) : Prop :=
  (forall k, k ∈ owner_keys -> is_Some (pv_Labels pv !! k)) \/ (forall k, k ∈ owner_keys -> pv_Labels pv !! k = None).

Lemma owned_spec k n pv :
  owned k n pv <-> pv_Labels pv !! PVOwnerKindLabel = Some (kind_name k) /\
    pv_Labels pv !! PVOwnerNameLabel = Some (nn_Name n) /\ pv_Labels pv !! PVOwnerNamespaceLabel = Some (nn_Namespace n).
Proof. unfold owned, owner_labels. rewrite !Forall_cons. simpl. split; [tauto|]. intros (? & ? & ?). by repeat split. Qed.

Lemma owner_keys_spec k :
  k ∈ owner_keys <-> k = PVOwnerKindLabel \/ k = PVOwnerNameLabel \/ k = PVOwnerNamespaceLabel.
Proof. unfold owner_keys. rewrite !elem_of_cons. split; [|tauto]. intros [?|[?|[?|H]]]; [tauto..|by apply elem_of_nil in H]. Qed.

Lemma owned_same k n pv pv' : same_owner_labels (pv_Labels pv) (pv_Labels pv') -> owned k n pv' <-> owned k n pv.
Proof.
  intros H. assert (forall x, x ∈ owner_keys -> pv_Labels pv' !! x = pv_Labels pv !! x) as Hk by apply H.
  rewrite !owned_spec. by rewrite !Hk by (apply owner_keys_spec; tauto).
Qed.
Lemma whole_same pv pv' : same_owner_labels (pv_Labels pv) (pv_Labels pv') -> whole pv -> whole pv'.
Proof. intros H [Hw|Hw]; [left|right]; intros k Hk; rewrite (H k Hk); by apply Hw. Qed.
Lemma same_owner_refl m : same_owner_labels m m.
Proof. done. Qed.
Lemma same_owner_identity m m' : same_identity m m' -> same_owner_labels (om_Labels m) (om_Labels m').
Proof. intros [_ _ H _] k _. by rewrite H. Qed.

(** A synchronisation either leaves the owner of a volume alone or gives it the wanted one. *)
Lemma drop_owner_keys m k : k ∈ owner_keys -> drop_keys DeprecatedLabels m !! k = m !! k.
Proof.
  intros Hk%owner_keys_spec. unfold drop_keys, DeprecatedLabels. simpl.
  destruct Hk as [->|[->| ->]]; by rewrite !lookup_delete_ne by done.
Qed.

Lemma size_two (m : gmap string string) k k' : k <> k' -> is_Some (m !! k) -> is_Some (m !! k') -> 1 < size m.
Proof.
  intros Hne [v Hv] [v' Hv']. rewrite <- (insert_delete_id m k v) by done.
  rewrite map_size_insert_None by apply lookup_delete_eq.
  assert (size (delete k m) <> 0) as ?; [|lia]. intros H%map_size_empty_inv.
  assert (delete k m !! k' = Some v') as H' by by rewrite lookup_delete_ne.
  by rewrite H in H'.
Qed.

Lemma InitMapIfNil_owner (m : gmap string string) :
  (forall k, k ∈ owner_keys -> is_Some (m !! k)) \/ (forall k, k ∈ owner_keys -> m !! k = None) ->
  same_owner_labels m (InitMapIfNil m).
Proof.
  intros Hw k Hk. unfold InitMapIfNil. case_decide as Hs; [done|]. destruct Hw as [Hw|Hw].
  - exfalso. apply Hs, (size_two m PVOwnerKindLabel PVOwnerNameLabel); [done| |]; apply Hw, owner_keys_spec; tauto.
  - by rewrite Hw.
Qed.

(** A mutated volume has the owner it had, or, when it is new or had none, the wanted one. *)
Lemma mutated_owner newPV wanted annotations existing :
  pv_Labels newPV = ∅ -> whole existing -> (forall k, k ∈ owner_keys -> is_Some (wanted !! k)) ->
  let o := mutated_pv newPV wanted annotations existing in
  (om_CreationTimestamp (pv_meta existing) <> None /\ same_owner_labels (pv_Labels existing) (pv_Labels o)) \/
  same_owner_labels wanted (pv_Labels o).
Proof.
  intros Hnew Hw Hwant. cbv zeta. unfold mutated_pv. set (pv := if decide _ then newPV else existing).
  change (pv_Labels (set_pv_meta ?m ?p)) with (om_Labels m). simpl.
  assert (forall k, k ∈ owner_keys -> merge_missing (drop_keys DeprecatedLabels (InitMapIfNil (pv_Labels pv))) wanted !! k
    = match InitMapIfNil (pv_Labels pv) !! k with Some v => Some v | None => wanted !! k end) as Hl.
  { intros k Hk. unfold merge_missing. rewrite lookup_union, drop_owner_keys by done.
    destruct (InitMapIfNil _ !! k) as [v|]; [by destruct (wanted !! k)|by destruct (wanted !! k)]. }
  destruct (decide (om_CreationTimestamp (pv_meta existing) = None)) as [Hc|Hc].
  - right. intros k Hk. rewrite Hl by done. unfold pv. by rewrite Hnew.
  - unfold pv in *. destruct Hw as [Hw|Hw].
    + left. split; [done|]. intros k Hk. rewrite Hl by done. rewrite InitMapIfNil_owner by tauto.
      by destruct (Hw k Hk) as [v ->].
    + right. intros k Hk. rewrite Hl by done. rewrite InitMapIfNil_owner by tauto. by rewrite Hw.
Qed.

(** ** The invariant *)

Section owners.
Context {E : Env} `{!ApiStore E} (k : Kind) (n : NamespacedName).

Abbreviation owner_map := (gmap NamespacedName (Obj k)).
Definition volumes (e : est) : gmap NamespacedName PersistentVolume := store KPV e.
Definition owners (e : est) : owner_map := store k e.
Definition classes (e : est) : gmap NamespacedName StorageClass := store KSC e.

(** The operator's finalizer is on the object. *)
Definition kept (o : Obj k) : Prop := ContainsFinalizer (kmeta o) LocalVolumeProtectionFinalizer = true.

(** The owner is in the store and kept there. *)
Definition guarded_owner (S : owner_map) : Prop := exists o, S !! n = Some o /\ kept o.

Definition pv_ok (S : owner_map) (pv : PersistentVolume) : Prop := whole pv /\ (owned k n pv -> guarded_owner S).

(** The volumes of an owner keep it in the store, by its finalizer; and the classes of an
    owner that lives on come after the finalizer, which is why a node that finds the
    class may make volumes. *)
Record Inv (e : est) : Prop := {
  inv_volumes : forall key pv, volumes e !! key = Some pv -> pv_ok (owners e) pv;
  inv_class : forall o c, owners e !! n = Some o -> not_deleting (kmeta o) = true ->
    c ∈ class_keys o -> is_Some (classes e !! c) -> kept o }.

Hypothesis Hk : owner_kind k = true.

Lemma owner_guarded : guarded k = true.
Proof. unfold guarded. apply bool_decide_eq_true. apply bool_decide_eq_true in Hk. tauto. Qed.
Lemma owner_not_pv : k <> KPV.
Proof. intros ->. done. Qed.
Lemma owner_not_class : k <> KSC.
Proof. intros ->. done. Qed.

Lemma Inv_store e e' :
  (forall k', guarded k' = true -> store k' e' = store k' e) -> Inv e -> Inv e'.
Proof.
  intros H [Hv Hc]. assert (volumes e' = volumes e /\ owners e' = owners e /\ classes e' = classes e) as (H1 & H2 & H3).
  { split; [by apply (H KPV)|]. split; [by apply (H k), owner_guarded|by apply (H KSC)]. }
  split; rewrite ?H1, ?H2, ?H3; [apply Hv|apply Hc].
Qed.
Lemma Inv_stable : Stable Inv.
Proof. apply stable_of. apply Inv_store. Qed.

(** *** Writes of volumes *)

Lemma Inv_volumes e e' :
  owners e' = owners e -> classes e' = classes e ->
  (forall key pv', volumes e' !! key = Some pv' -> pv_ok (owners e) pv') -> Inv e -> Inv e'.
Proof. intros Hs Hc Hv [_ Hi]. split; rewrite ?Hs, ?Hc; [apply Hv|apply Hi]. Qed.

Lemma pv_ok_same S pv pv' :
  same_owner_labels (pv_Labels pv) (pv_Labels pv') -> pv_ok S pv -> pv_ok S pv'.
Proof. intros H [Hw Ho]. split; [by eapply whole_same|]. intros Hn. by apply Ho, (owned_same k n pv pv'). Qed.

Lemma kcreate_volume o e :
  pv_ok (owners e) o -> Inv e -> Inv (kcreate KPV o e).2 /\ owners (kcreate KPV o e).2 = owners e.
Proof.
  intros Ho HI. assert (owners (kcreate KPV o e).2 = owners e) as Hs by (apply (store_other KPV k o e), not_eq_sym, owner_not_pv).
  split; [|done]. eapply Inv_volumes; [done|by apply (store_other KPV KSC o e)| |done]. intros key pv' Hpv.
  destruct (kcreate KPV o e).1 as [o'|err] eqn:Hr.
  - destruct (store_create KPV o o' e Hr) as (_ & Hid & Hst). unfold volumes in Hpv. rewrite Hst in Hpv.
    apply lookup_insert_Some in Hpv as [[_ <-]|[_ Hpv]]; [|by eapply inv_volumes].
    eapply pv_ok_same; [apply (same_owner_identity _ _ Hid)|done].
  - eapply inv_volumes; [exact HI|]. unfold volumes in Hpv. rewrite (proj1 (store_failed KPV o e)) in Hpv; eauto.
Qed.

Lemma kupdate_volume o e :
  pv_ok (owners e) o -> Inv e -> Inv (kupdate KPV o e).2 /\ owners (kupdate KPV o e).2 = owners e.
Proof.
  intros Ho HI. assert (owners (kupdate KPV o e).2 = owners e) as Hs by (apply (store_other KPV k o e), not_eq_sym, owner_not_pv).
  split; [|done]. eapply Inv_volumes; [done|by apply (store_other KPV KSC o e)| |done]. intros key pv' Hpv.
  destruct (kupdate KPV o e).1 as [o'|err] eqn:Hr.
  - destruct (store_update KPV o o' e Hr) as (old & _ & Hid & _ & Hst). unfold volumes in Hpv. rewrite Hst in Hpv.
    case_decide.
    + apply lookup_delete_Some in Hpv as [_ Hpv]. by eapply inv_volumes.
    + apply lookup_insert_Some in Hpv as [[_ <-]|[_ Hpv]]; [|by eapply inv_volumes].
      eapply pv_ok_same; [apply (same_owner_identity _ _ Hid)|done].
  - eapply inv_volumes; [exact HI|]. unfold volumes in Hpv.
    rewrite (proj1 (proj2 (store_failed KPV o e))) in Hpv; eauto.
Qed.
End owners.

(** *** Updates that leave the owners of volumes alone *)

Section calm.
Context {E : Env} `{!ApiStore E}.

(** Owners and classes stay, volumes may go or change, not their owners. *)
Record calm (e e' : est) : Prop := {
  calm_store_eq : forall k, guarded k = true -> k <> KPV -> store k e' = store k e;
  calm_volumes : forall key pv', volumes e' !! key = Some pv' ->
    exists pv, volumes e !! key = Some pv /\ same_owner_labels (pv_Labels pv) (pv_Labels pv') }.

#[export] Instance calm_po : PreOrder calm.
Proof.
  split.
  - intros e. split; [done|]. intros key pv' H. by exists pv'.
  - intros x y z [Hs Hv] [Hs' Hv']. split.
    + intros k Hk Hne. by rewrite Hs', Hs.
    + intros key pv' (pv1 & (pv0 & H0 & Hl0)%Hv & Hl1)%Hv'. exists pv0. split; [done|].
      intros x' Hx. by rewrite (Hl1 x' Hx), (Hl0 x' Hx).
Qed.

Lemma calm_store e e' : (forall k, guarded k = true -> store k e' = store k e) -> calm e e'.
Proof.
  intros H. split; [intros k Hk _; by apply H|]. intros key pv' Hk. exists pv'. split; [|done].
  unfold volumes in *. by rewrite <- (H KPV).
Qed.
Lemma calm_read e e' : est_read e e' -> calm e e'.
Proof. intros Hr. apply calm_store. intros k _. by apply store_read. Qed.

(** A copy of a volume names the owner that the volume in the store has. *)
Definition agrees (e : est) (pv : PersistentVolume) : Prop :=
  forall st, volumes e !! object_key (k := KPV) pv = Some st -> same_owner_labels (pv_Labels st) (pv_Labels pv).

Lemma agrees_calm e e' pv : calm e e' -> agrees e pv -> agrees e' pv.
Proof.
  intros Hc Ha st (st0 & H0 & Hl)%(calm_volumes _ _ Hc). intros x Hx. by rewrite (Ha st0 H0 x Hx), (Hl x Hx).
Qed.
Lemma agrees_stored e key pv : volumes e !! key = Some pv -> agrees e pv.
Proof. intros Hk st Hst. rewrite (store_key KPV e key pv Hk), Hk in Hst. by injection Hst as ->. Qed.

Lemma calm_update e pv o :
  agrees e pv -> object_key (k := KPV) o = object_key (k := KPV) pv -> pv_Labels o = pv_Labels pv ->
  calm e (kupdate KPV o e).2.
Proof.
  intros Ha Hkey Hlab. split; [intros k _ Hne; by apply (store_other KPV k o e)|].
  intros key pv' Hk. unfold volumes in *. destruct (kupdate KPV o e).1 as [o'|err] eqn:Hr.
  - destruct (store_update KPV o o' e Hr) as (old & Hold & Hid & _ & Hst). rewrite Hst in Hk. case_decide.
    + apply lookup_delete_Some in Hk as [_ Hk]. by exists pv'.
    + apply lookup_insert_Some in Hk as [[<- <-]|[_ Hk]]; [|by exists pv'].
      exists old. split; [done|]. rewrite Hkey in Hold. intros x Hx.
      pose proof (same_owner_identity _ _ Hid x Hx) as Hx'. change (pv_Labels o' !! x = pv_Labels o !! x) in Hx'.
      rewrite Hx', Hlab. by apply (Ha old Hold).
  - exists pv'. split; [|done]. by rewrite (proj1 (proj2 (store_failed KPV o e))) in Hk by eauto.
Qed.

Lemma calm_delete_pvs e : calm e (delete_pvs e).
Proof.
  split; [intros k _ Hne; by apply store_delete_pvs_other|].
  intros key pv' (pv & Hk & Hid)%store_delete_pvs. exists pv. split; [done|]. by apply same_owner_identity.
Qed.

(** The invariant, with the owners it speaks of. *)
Definition Steady (k : Kind) (n : NamespacedName) (S : gmap NamespacedName (Obj k)) (e : est) : Prop :=
  Inv k n e /\ owners k e = S.

Lemma Steady_store k n S e e' :
  owner_kind k = true -> (forall k', guarded k' = true -> store k' e' = store k' e) -> Steady k n S e -> Steady k n S e'.
Proof.
  intros Ho H [HI <-]. split; [by eapply Inv_store|]. by apply (H k), owner_guarded.
Qed.
Lemma Steady_stable k n S : owner_kind k = true -> Stable (Steady k n S).
Proof. intros Ho. apply stable_of. intros e e'. by apply Steady_store. Qed.

Lemma Steady_calm k n S e e' : owner_kind k = true -> calm e e' -> Steady k n S e -> Steady k n S e'.
Proof.
  intros Ho [Hs Hv] [HI <-].
  assert (owners k e' = owners k e) as Hok by by apply (Hs k); [apply owner_guarded|apply owner_not_pv].
  split; [|done]. eapply Inv_volumes; [done|by apply (Hs KSC)| |done].
  intros key pv' (pv & Hk & Hl)%Hv. eapply pv_ok_same; [done|]. by eapply inv_volumes.
Qed.

(** *** What the calls answer *)

Lemma kget_moves k d key e r e' : kget k d key e = (r, e') -> est_read e e'.
Proof. intros H. pose proof (kget_read k d key e) as Hr. by rewrite H in Hr. Qed.
Lemma kget_found k d key e o e' : kget k d key e = (Ok o, e') -> store k e !! key = Some o.
Proof. intros H. apply (store_get k d). by rewrite H. Qed.
Lemma klist_moves k opts e r e' : klist k opts e = (r, e') -> est_read e e'.
Proof. intros H. pose proof (klist_read k opts e) as Hr. by rewrite H in Hr. Qed.
Lemma klist_found k opts e l e' o :
  klist k opts e = (Ok l, e') -> plain opts -> o ∈ l <-> (exists key, store k e !! key = Some o) /\ opts_match opts o.
Proof. intros H Hp. apply (store_list k opts e); [done|by rewrite H]. Qed.

Lemma upholds_wp {A} (J : est -> Prop) (m : M A) :
  (forall w, J (w_est w) -> wp m (fun _ w' => J (w_est w')) w) -> frame (upholds J) m.
Proof. intros H w HJ. by apply H. Qed.
Lemma upholds_run {A} (J J' : est -> Prop) (m : M A) w :
  (forall e, J e -> J' e) -> frame (upholds J) m -> J (w_est w) -> wp m (fun _ w' => J' (w_est w')) w.
Proof. intros HJJ H HJ. apply HJJ. by apply H. Qed.

Lemma owner_ids_meta obj kind ns name :
  owner_ids obj = Ok (kind, ns, name) ->
  kind = tm_Kind (obj_type obj) /\ ns = om_Namespace (obj_meta obj) /\ name = om_Name (obj_meta obj).
Proof. unfold owner_ids. destruct (decide _); [discriminate|]. intros H. by injection H as <- <- <-. Qed.

(** Runs that are calm as long as the given copies agree with the store. *)
Definition calms (C : PersistentVolume -> Prop) (w w' : World) : Prop :=
  (forall pv, C pv -> agrees (w_est w) pv) -> calm (w_est w) (w_est w').
#[export] Instance calms_rel C : ReadRel (calms C).
Proof.
  split.
  - by intros w _.
  - intros x y z Hxy Hyz HC. etrans; [by apply Hxy|]. apply Hyz. intros pv Hpv.
    eapply agrees_calm; [by apply Hxy|by apply HC].
  - intros w e Hr _. by apply calm_read.
Qed.

Lemma calms_update (C : PersistentVolume -> Prop) pv o :
  C pv -> object_key (k := KPV) o = object_key (k := KPV) pv -> pv_Labels o = pv_Labels pv ->
  frame (calms C) (ClientUpdate KPV o).
Proof.
  intros Hpv Hk Hl w HC. unfold ClientUpdate, bindM, ask.
  pose proof (calm_update (w_est w) pv o (HC pv Hpv) Hk Hl) as H. by destruct (kupdate KPV o (w_est w)).
Qed.

Lemma calms_write_fs C s f : frame (calms C) (write_fs s f).
Proof.
  intros w _. unfold write_fs, bindM, ask, gets, modify, act, mret, M_ret.
  pose proof (sys_fault_read s (w_est w)) as Hr. destruct (sys_fault s (w_est w)) as [[e|] en]; simpl in *.
  - by apply calm_read.
  - destruct (f (w_fs w)); by apply calm_read.
Qed.
End calm.
