(* ===== verification/NodeSteps.v ===== *)
(** * The diskmakers keep the invariant of the owners

    A reconciliation on a node, of a LocalVolumeSet or of a LocalVolume: it makes volumes
    only for an object that it found alive and whose class it found, so the object is
    kept by its finalizer; it changes the owner of no volume; it writes no owner and no
    class.  The node's copies of volumes must agree with the store. *)
From stdpp Require Import base list strings gmap.
From Stdlib Require Import ZArith Lia String.
From S2P Require Import Prelude GoLib Types World Sys Envs DiskUtil LinkCache Common Controller Symlinks DeviceLink Provisioner Matcher Metrics LvSet Lv Store StoreNodes Owners.

Open Scope string_scope.

Section nodes.
Context {E : Env} `{!ApiStore E} (k : Kind) (n : NamespacedName) (Hk : owner_kind k = true).
Abbreviation owner_map := (gmap NamespacedName (Obj k)).
#[local] Hint Extern 1 (Stable (Steady _ _ _)) => apply Steady_stable, Hk : typeclass_instances.
#[local] Hint Extern 1 (Stable (Inv _ _)) => apply Inv_stable, Hk : typeclass_instances.

(** ** The synchronisation of a volume *)

Lemma upholds_create_pv S o : pv_ok k n S o -> frame (upholds (Steady k n S)) (ClientCreate KPV o).
Proof.
  intros Ho. apply upholds_call. intros e [HI <-].
  destruct (kcreate_volume k n Hk o e Ho HI) as [H1 H2]. by split.
Qed.
Lemma upholds_update_pv S o : pv_ok k n S o -> frame (upholds (Steady k n S)) (ClientUpdate KPV o).
Proof.
  intros Ho. apply upholds_call. intros e [HI <-].
  destruct (kupdate_volume k n Hk o e Ho HI) as [H1 H2]. by split.
Qed.

Section create_or_update.
Context (S : owner_map) (newPV : PersistentVolume) (wanted annotations : gmap string string) (mode : string).
Hypothesis Hnew : pv_Labels newPV = ∅.
Hypothesis Hwant : forall x, x ∈ owner_keys -> is_Some (wanted !! x).
Hypothesis Hown : forall pv, same_owner_labels wanted (pv_Labels pv) -> owned k n pv -> guarded_owner k n S.

Lemma mutated_ok x : pv_ok k n S x -> pv_ok k n S (mutated_pv newPV wanted annotations x).
Proof.
  intros Hx. destruct (mutated_owner newPV wanted annotations x Hnew (proj1 Hx) Hwant) as [[_ Hs]|Hs].
  - by eapply pv_ok_same.
  - split; [left; intros y Hy; rewrite (Hs y Hy); by apply Hwant|by apply Hown].
Qed.

Lemma wp_mutate key x w :
  pv_ok k n S x -> Steady k n S (w_est w) ->
  wp (mutate_checked (k := KPV) (fun o => o' ← mutate_pv newPV wanted annotations mode o; mret (Ok o')) key x)
     (fun r w' => Steady k n S (w_est w') /\ forall o, r = Ok o -> pv_ok k n S o) w.
Proof.
  intros Hx HJ. unfold mutate_checked, mutate_pv. do 3 apply wp_bind.
  eapply wp_mono; [apply (frame_wp (upholds (Steady k n S))); upholds_tac|]. intros ? w2 HJ2. simpl in HJ2.
  do 3 apply wp_ret. split; [by apply HJ2|]. intros o. case_decide; [|done]. intros [= <-]. by apply mutated_ok.
Qed.

Lemma upholds_CreateOrUpdatePV obj :
  pv_ok k n S obj -> frame (upholds (Steady k n S)) (CreateOrUpdatePV obj (mutate_pv newPV wanted annotations mode)).
Proof.
  intros Hobj. apply upholds_wp. intros w HJ. unfold CreateOrUpdatePV, CreateOrUpdate.
  apply wp_bind, wp_bind, wp_ask. intros r en Hget.
  assert (Steady k n S en) as Hen.
  { eapply st_read; [exact (kget_moves _ _ _ _ _ _ Hget)|done]. }
  destruct r as [existing|err].
  - assert (pv_ok k n S existing) as Hex.
    { rewrite <- (proj2 HJ). eapply (inv_volumes _ _ _ (proj1 HJ)). exact (kget_found KPV _ _ _ _ _ Hget). }
    apply wp_bind. eapply wp_mono; [by apply (wp_mutate _ _ _ Hex)|]. intros [o|err] w2 [HJ2 Ho]; [|by do 2 apply wp_ret].
    case_decide; [by do 2 apply wp_ret|]. eapply wp_bind_frame; [by apply upholds_update_pv, Ho|].
    intros r w3 H3. do 2 apply wp_ret. by apply H3.
  - destruct (is_not_found err); simpl; [|by do 2 apply wp_ret].
    apply wp_bind. eapply wp_mono; [by apply (wp_mutate _ _ _ Hobj)|]. intros [o|err'] w2 [HJ2 Ho]; [|by do 2 apply wp_ret].
    eapply wp_bind_frame; [by apply upholds_create_pv, Ho|].
    intros r w3 H3. do 2 apply wp_ret. by apply H3.
Qed.
End create_or_update.


(** The owner labels a node wants on a volume. *)
Lemma pv_labels_owner hostname kind ns name extra :
  (forall x, x ∈ owner_keys -> extra !! x = None) ->
  let l := pv_labels hostname kind ns name extra in
  l !! PVOwnerKindLabel = Some kind /\ l !! PVOwnerNameLabel = Some name /\ l !! PVOwnerNamespaceLabel = Some ns.
Proof.
  intros Hx. unfold pv_labels. cbv zeta. rewrite !lookup_union_r by (apply Hx, owner_keys_spec; tauto). by repeat split.
Qed.

Lemma kind_name_inj k' : owner_kind k' = true -> kind_name k' = kind_name k -> k' = k.
Proof.
  intros Hk'%bool_decide_eq_true. pose proof Hk as Hk2%bool_decide_eq_true.
  destruct Hk' as [->| ->], Hk2 as [->| ->]; done.
Qed.

(** A volume of an owner may be written when the owner is [n] only if it is kept. *)
Lemma upholds_sync S args :
  (forall x, x ∈ owner_keys -> sa_ExtraLabels args !! x = None) ->
  (tm_Kind (obj_type (sa_Object args)) = kind_name k -> om_Namespace (obj_meta (sa_Object args)) = nn_Namespace n ->
   om_Name (obj_meta (sa_Object args)) = nn_Name n -> guarded_owner k n S) ->
  frame (upholds (Steady k n S)) (SyncPVAndLVDL args).
Proof.
  intros Hx Hg. apply upholds_SyncPVAndLVDL; [apply _| |].
  - intros rc hostname kind ns name capacity d b mode mc obj Hids Hobj.
    destruct (pv_labels_owner hostname kind ns name (sa_ExtraLabels args) Hx) as (H1 & H2 & H3).
    apply upholds_CreateOrUpdatePV.
    + done.
    + intros y Hy%owner_keys_spec. destruct Hy as [->|[->| ->]]; eauto.
    + intros pv Hs Hn%owned_spec. destruct Hn as (Hn0 & Hn1 & Hn2).
      rewrite (Hs PVOwnerKindLabel), H1 in Hn0 by (apply owner_keys_spec; tauto).
      rewrite (Hs PVOwnerNameLabel), H2 in Hn1 by (apply owner_keys_spec; tauto).
      rewrite (Hs PVOwnerNamespaceLabel), H3 in Hn2 by (apply owner_keys_spec; tauto).
      apply owner_ids_meta in Hids as (-> & -> & ->). apply Hg; congruence.
    + destruct Hobj as [->|(d' & key & en & [HI <-] & Hget)].
      * split; [right; by intros x _|]. by intros (Hn & _)%owned_spec.
      * eapply (inv_volumes _ _ _ HI). by apply (store_get KPV d' key en).
  - intros d key en pv Hget%store_get. apply store_key in Hget. by rewrite <- Hget.
Qed.

(** An owner whose class exists is kept. *)
Lemma alive_guarded (S : owner_map) e o c :
  Steady k n S e -> S !! n = Some o -> not_deleting (kmeta o) = true -> c ∈ class_keys o ->
  is_Some (classes e !! c) -> guarded_owner k n S.
Proof. intros [HI <-] Ho Hd Hc His. exists o. split; [done|]. by eapply inv_class. Qed.
End nodes.

(** ** The caches and the cleanup *)

Section caches.
Context {E : Env} `{!ApiStore E}.

(** The cleanup of the links of deleted volumes. *)
Lemma calms_removeSymlinkFinalizer (C : PersistentVolume -> Prop) pv :
  C pv -> frame (calms C) (removeSymlinkFinalizer pv).
Proof.
  intros Hpv. unfold removeSymlinkFinalizer, RemoveFinalizer. destruct (ContainsFinalizer _ _); [|apply frame_ret, _].
  apply frame_bind; [apply _|by apply (calms_update C pv)|]. intros []; apply frame_ret, _.
Qed.

Lemma calms_cleanup_pv (C : PersistentVolume -> Prop) labels b pv : C pv -> frame (calms C) (cleanup_pv labels b pv).
Proof.
  intros Hpv. unfold cleanup_pv, deleteSymlink, deleteSymlinkParentDir.
  frame_tac ltac:(idtac; match goal with
    | |- frame _ (Remove _) => apply calms_write_fs
    | |- frame _ (removeSymlinkFinalizer _) => by apply calms_removeSymlinkFinalizer
    end).
Qed.

(** What the diskmaker remembers of volumes agrees with the store. *)
Definition coherent (w : World) : Prop := forall name pv, m_pvs (w_mem w) !! name = Some pv -> agrees (w_est w) pv.

Lemma calm_CleanupSymlinks labels b w :
  coherent w -> wp (CleanupSymlinks labels b) (fun _ w' => calm (w_est w) (w_est w')) w.
Proof.
  intros Hco. unfold CleanupSymlinks. apply wp_bind, wp_get_mem.
  eapply (wp_mono _ (fun _ w' => calms (fun pv => pv ∈ (map_to_list (m_pvs (w_mem w))).*2) w w')).
  2: { intros ? w' H. apply H. intros pv ([name pv'] & -> & Hin)%list_elem_of_fmap.
       apply elem_of_map_to_list in Hin. by eapply Hco. }
  apply frame_wp; [apply _|]. apply frame_range_map; [apply _|]. intros order Hp.
  apply frame_forM_in; [apply _|]. intros pv Hin. apply calms_cleanup_pv. by rewrite <- Hp.
Qed.

(** Reading the configuration and filling the cache keep the store. *)
Definition still (w w' : World) : Prop :=
  (forall k, store k (w_est w') = store k (w_est w)) /\ m_pvs (w_mem w') = m_pvs (w_mem w).
#[export] Instance still_rel : ReadRel still.
Proof.
  split; [by split|intros x y z [H1 H2] [H3 H4]; split; [intros k; by rewrite H3|congruence]|].
  intros w e Hr. split; [|done]. intros k. by apply store_read.
Qed.
Lemma still_calm w w' : still w w' -> calm (w_est w) (w_est w') .
Proof. intros [H _]. by apply calm_store. Qed.
Lemma still_coherent w w' : still w w' -> coherent w -> coherent w'.
Proof.
  intros [Hs Hm] Hco name pv Hk. rewrite Hm in Hk. eapply agrees_calm; [|by eapply Hco].
  apply calm_store. intros k _. apply Hs.
Qed.

Lemma still_ReloadRuntimeConfig r n : frame still (ReloadRuntimeConfig r n).
Proof.
  unfold ReloadRuntimeConfig. frame_tac ltac:(idtac; match goal with |- frame _ (put_mem _) => apply frame_put_mem; done end).
Qed.

Lemma coherent_cache_pvs f items w :
  coherent w -> Forall (agrees (w_est w)) items ->
  wp (cache_pvs f items) (fun _ w' => coherent w' /\ w_est w' = w_est w) w.
Proof.
  intros Hco Hit. unfold cache_pvs. revert w Hco Hit. induction items as [|pv items IH]; intros w Hco Hit; [by apply wp_ret|].
  apply Forall_cons in Hit as [Hpv Hit]. cbn [forM_]. apply wp_bind, wp_bind, wp_get_mem.
  destruct (_ || _); [apply wp_ret; by apply IH|]. apply wp_put_mem.
  apply (IH (set_mem _ w)); [|done]. intros name pv'. unfold AddOrUpdatePV. simpl.
  intros Hk. assert (<[pv_Name pv := pv]> (m_pvs (w_mem w)) !! name = Some pv') as [[_ <-]|[_ Hk']]%lookup_insert_Some
    by (by destruct (m_pvs (w_mem w) !! pv_Name pv)); [done|by eapply Hco].
Qed.

Lemma coherent_syncCaches f w :
  coherent w -> wp (syncCaches f) (fun _ w' => coherent w' /\ calm (w_est w) (w_est w')) w.
Proof.
  intros Hco. unfold syncCaches. apply wp_bind, wp_ask. intros r en Hr.
  pose proof (klist_moves KPV _ _ _ _ Hr) as Hread.
  assert (still w (set_est en w)) as Hs by by apply read_rel_est.
  pose proof (still_coherent _ _ Hs Hco) as Hco'. apply still_calm in Hs as Hc.
  destruct r as [items|err]; [|by apply wp_ret].
  apply wp_bind. eapply wp_mono; [apply (coherent_cache_pvs f items); [done|]|].
  - apply Forall_forall. intros pv Hin.
    apply (klist_found KPV _ _ _ _ _ Hr) in Hin as [[key Hk] _]; [|done].
    eapply agrees_calm; [exact Hc|]. by eapply agrees_stored.
  - intros _ w' [Hco2 He]. apply wp_bind, wp_put_mem, wp_ret. simpl. split; [done|]. by rewrite He.
Qed.

End caches.

(** ** The reconciliations *)

Section reconcile.
Context {E : Env} `{!ApiStore E} (k : Kind) (n : NamespacedName) (Hk : owner_kind k = true).
#[local] Hint Extern 1 (Stable (Steady _ _ _)) => apply Steady_stable, Hk : typeclass_instances.

(** What both do before they provision: the owner is read, the configuration and the
    cache are loaded, released volumes deleted and links cleaned up. *)
Lemma wp_filled (b : bool) f w :
  coherent w ->
  wp (if b then mret None else syncCaches f) (fun _ w' => coherent w' /\ calm (w_est w) (w_est w')) w.
Proof. intros Hco. destruct b; [by apply wp_ret|by apply coherent_syncCaches]. Qed.

Lemma wp_cleaned {A} labels b (f : option GoErr -> M A) Q w :
  coherent w -> (forall err w', calm (w_est w) (w_est w') -> wp (f err) Q w') ->
  wp (DeletePVs ;; err ← CleanupSymlinks labels b; f err) Q w.
Proof.
  intros Hco Hf. unfold DeletePVs. apply wp_bind, wp_bind, wp_ask. intros [] en [= <-]. apply wp_act, wp_bind.
  set (w1 := log _ _). assert (calm (w_est w) (w_est w1)) as Hc by apply calm_delete_pvs.
  assert (coherent w1) as Hco1 by (intros name pv Hpv; eapply agrees_calm; [done|by eapply Hco]).
  eapply wp_mono; [by apply calm_CleanupSymlinks|]. intros err w2 Hc2. apply Hf. by etrans.
Qed.

(** From the storage class on, for a set. *)
Lemma upholds_provision S lvset w :
  store KLVSet (w_est w) !! object_key (k := KLVSet) lvset = Some lvset -> not_deleting (lset_meta lvset) = true ->
  Steady k n S (w_est w) -> wp (LvSet.provision lvset) (fun _ w' => Steady k n S (w_est w')) w.
Proof.
  intros Hst Hd HJ. pose proof (store_type KLVSet _ _ _ Hst) as Hkind.
  unfold LvSet.provision. apply wp_bind, wp_act, wp_bind, wp_ask. intros r en Hget.
  assert (Steady k n S en) as Hen by by eapply st_read; [exact (kget_moves KSC _ _ _ _ _ Hget)|].
  destruct r as [sc|err]; [|exact Hen].
  apply (upholds_run (Steady k n S)); [done| |exact Hen].
  assert (kind_name k = LocalVolumeSetKind -> object_key (k := KLVSet) lvset = n -> guarded_owner k n S) as Hg.
  { intros He Hn. assert (k = KLVSet) as -> by (symmetry; by apply (kind_name_inj k Hk KLVSet)).
    eapply (alive_guarded KLVSet n S (w_est w) lvset (class_named (lss_StorageClassName (lset_Spec lvset)))); [done| |done|by left|].
    - by rewrite <- Hn, <- (proj2 HJ).
    - exists sc. exact (kget_found KSC _ _ _ _ _ Hget). }
  frame_tac ltac:(idtac; match goal with
    | |- frame _ list_devices => apply upholds_list_devices, _
    | |- frame _ (LvSet.reconcile_devices _ _ _ _) =>
        apply upholds_reconcile_devices; [apply _|]; intros; apply upholds_sync; [done|by intros x _|];
        simpl in *; intros H1 H2 H3; apply Hg; [congruence|]; unfold object_key; simpl; rewrite H2, H3; by destruct n
    end).
Qed.

Lemma node_set_upholds request w :
  coherent w -> Inv k n (w_est w) -> wp (LvSet.Reconcile request) (fun _ w' => Inv k n (w_est w')) w.
Proof.
  intros Hco HI. apply (wp_mono _ (fun _ w' => Steady k n (owners k (w_est w)) (w_est w'))); [|by intros ? ? [? _]].
  set (S := owners k (w_est w)). assert (Steady k n S (w_est w)) as HJ by done. clearbody S.
  assert (forall w', calm (w_est w) (w_est w') -> Steady k n S (w_est w')) as Hcalm by (intros; by eapply Steady_calm).
  unfold LvSet.Reconcile. apply wp_bind, wp_ask. intros r en Hget.
  assert (still w (set_est en w)) as Hs1 by exact (read_rel_est w en (kget_moves KLVSet _ _ _ _ _ Hget)).
  pose proof (still_calm _ _ Hs1) as Hc1. apply (still_coherent _ _ Hs1) in Hco. set (w1 := set_est en w) in *.
  destruct r as [lvset|err]; [|exact (Hcalm w1 Hc1)].
  pose proof (kget_found KLVSet _ _ _ _ _ Hget) as Hst.
  pose proof (store_key KLVSet _ _ _ Hst) as Hkey. rewrite <- Hkey in Hst. clearbody w1. clear Hget Hs1.
  apply wp_bind, wp_get_mem. destruct (m_linksSynced (w_mem w1)); simpl; [|exact (Hcalm w1 Hc1)].
  eapply wp_bind_frame; [apply still_ReloadRuntimeConfig|]. intros err w2 Hs2.
  assert (calm (w_est w) (w_est w2)) as Hc2 by (etrans; [done|by apply still_calm]).
  apply (still_coherent _ _ Hs2) in Hco. destruct err; [exact (Hcalm w2 Hc2)|].
  apply wp_bind, wp_get_mem, wp_bind. eapply wp_mono; [by apply wp_filled|]. intros err w3 [Hco3 Hc3].
  assert (calm (w_est w) (w_est w3)) as Hc3' by by etrans. destruct err; [exact (Hcalm w3 Hc3')|].
  apply wp_bind, wp_get_mem. destruct (NodeSelectorMatchesNodeLabels _ _) as [[]|]; [|exact (Hcalm w3 Hc3')..].
  apply wp_cleaned; [done|]. intros err w4 Hc4.
  assert (calm (w_est w) (w_est w4)) as Hc4' by by etrans. pose proof (Hcalm w4 Hc4') as HJ4. destruct err as [e|].
  - apply (upholds_run (Steady k n S)); [done| |done]. upholds_tac.
  - destruct (not_deleting (lset_meta lvset)) eqn:Hd; simpl.
    + apply upholds_provision; [|done|done]. by rewrite (calm_store_eq _ _ Hc4' KLVSet).
    + apply (upholds_run (Steady k n S)); [done| |done]. unfold LvSet.after_deletion, SetLVSDeletionTimestampMetric. upholds_tac.
Qed.

(** The classes of the configuration are those of the object. *)
Lemma configured_class lv sc : configured lv sc -> class_named sc ∈ class_keys (k := KLV) lv.
Proof.
  unfold configured, generateConfig. simpl. intros Hsc. apply list_elem_of_fmap.
  assert (forall (l : list StorageClassDevice) (m : gmap string Disks), is_Some (fold_left add_disks l m !! sc) ->
    is_Some (m !! sc) \/ exists d, class_named sc = class_named (scd_StorageClassName d) /\ d ∈ l) as H.
  { clear. induction l as [|d l IH]; intros m Hm; simpl in Hm; [by left|].
    apply IH in Hm as [[x Hx]|(d' & He & Hin)]; [|right; exists d'; split; [done|by right]].
    unfold add_disks in Hx. apply lookup_insert_Some in Hx as [[<- _]|[_ Hx]]; [right; exists d; split; [done|by left]|left; eauto]. }
  apply H in Hsc as [[x Hx]|Hd]; [by rewrite lookup_empty in Hx|exact Hd].
Qed.

Lemma upholds_lv_sync S lv sc d mounts :
  (forall e, Steady k n S e -> is_Some (classes e !! class_named sc) ->
     kind_name k = LocalVolumeKind -> object_key (k := KLV) lv = n -> guarded_owner k n S) ->
  tm_Kind (lv_type lv) = LocalVolumeKind ->
  frame (upholds (Steady k n S)) (syncPVAndLVDL lv sc d mounts).
Proof.
  intros Hg Hkind. apply upholds_wp. intros w HJ. unfold syncPVAndLVDL. apply wp_bind, wp_ask. intros r en Hget.
  assert (Steady k n S en) as Hen by by eapply st_read; [exact (kget_moves KSC _ _ _ _ _ Hget)|].
  destruct r as [cls|err]; [|exact Hen]. apply (upholds_run (Steady k n S)); [done| |exact Hen].
  apply upholds_sync; [done| |].
  - intros x Hx%owner_keys_spec. by destruct Hx as [->|[->| ->]].
  - simpl. intros H1 H2 H3. apply (Hg (w_est w)); [done| |congruence|].
    + exists cls. exact (kget_found KSC _ _ _ _ _ Hget).
    + unfold object_key. simpl. rewrite H2, H3. by destruct n.
Qed.

Lemma node_lv_upholds location request w :
  coherent w -> Inv k n (w_est w) -> wp (Lv.Reconcile location request) (fun _ w' => Inv k n (w_est w')) w.
Proof.
  intros Hco HI. apply (wp_mono _ (fun _ w' => Steady k n (owners k (w_est w)) (w_est w'))); [|by intros ? ? [? _]].
  set (S := owners k (w_est w)). assert (Steady k n S (w_est w)) as HJ by done. clearbody S.
  assert (forall w', calm (w_est w) (w_est w') -> Steady k n S (w_est w')) as Hcalm by (intros; by eapply Steady_calm).
  unfold Lv.Reconcile. apply wp_bind, wp_put_mem, wp_bind, wp_ask. intros r en Hget.
  assert (still w (set_est en w)) as Hs1 by exact (read_rel_est w en (kget_moves KLV _ _ _ _ _ Hget)).
  pose proof (still_calm _ _ Hs1) as Hc1. apply (still_coherent _ _ Hs1) in Hco.
  set (w1 := set_est en _). assert (coherent w1) as Hco1 by exact Hco. change (calm (w_est w) (w_est w1)) in Hc1.
  destruct r as [lv|err]; [|exact (Hcalm w1 Hc1)].
  pose proof (kget_found KLV _ _ _ _ _ Hget) as Hst.
  pose proof (store_key KLV _ _ _ Hst) as Hkey. rewrite <- Hkey in Hst. clearbody w1. clear Hget Hs1 Hco.
  apply wp_bind, wp_get_mem. destruct (m_linksSynced (w_mem w1)); simpl; [|exact (Hcalm w1 Hc1)].
  eapply wp_bind_frame; [apply still_ReloadRuntimeConfig|]. intros err w2 Hs2.
  assert (calm (w_est w) (w_est w2)) as Hc2 by (etrans; [done|by apply still_calm]).
  apply (still_coherent _ _ Hs2) in Hco1. destruct err; [exact (Hcalm w2 Hc2)|].
  apply wp_bind, wp_get_mem, wp_bind. eapply wp_mono; [by apply wp_filled|]. intros err w3 [Hco3 Hc3].
  assert (calm (w_est w) (w_est w3)) as Hc3' by by etrans. destruct err; [exact (Hcalm w3 Hc3')|].
  apply wp_bind, wp_get_mem. destruct (NodeSelectorMatchesNodeLabels _ _) as [[]|]; [|exact (Hcalm w3 Hc3')..].
  apply wp_cleaned; [done|]. intros err w4 Hc4.
  assert (calm (w_est w) (w_est w4)) as Hc4' by by etrans. pose proof (Hcalm w4 Hc4') as HJ4. destruct err as [e|].
  - apply (upholds_run (Steady k n S)); [done| |done]. unfold warn. upholds_tac.
  - destruct (not_deleting (lv_meta lv)) eqn:Hd; simpl.
    + apply (upholds_run (Steady k n S)); [done| |done]. apply upholds_lv_provision; [apply _|].
      intros sc d mounts Hsc%configured_class. apply upholds_lv_sync; [|exact (store_type KLV _ _ _ Hst)].
      intros e HJe His He Hn. assert (k = KLV) as -> by (symmetry; by apply (kind_name_inj k Hk KLV)).
      eapply (alive_guarded KLV n S e lv); [done| |done|exact Hsc|done]. by rewrite <- Hn, <- (proj2 HJ).
    + apply (upholds_run (Steady k n S)); [done| |done]. unfold after_deletion. upholds_tac.
Qed.
End reconcile.
