(* ===== verification/OperatorSteps.v ===== *)
(** * The operator keeps the invariant of the owners

    A reconciliation of the LocalVolumeSet or of the LocalVolume controller: the
    finalizer is written before a class is made, and it is only removed from an object
    that is being deleted, after a listing of its volumes in the same store was empty. *)
From stdpp Require Import base list strings gmap.
From Stdlib Require Import ZArith Lia String.
From S2P Require Import Prelude GoLib Types World Sys Envs Common Controller NodeDaemon LvSetCtl LvCtl Store Owners.

Open Scope string_scope.

Section operators.
Context {E : Env} `{!ApiStore E} (k : Kind) (n : NamespacedName) (Hk : owner_kind k = true).
Abbreviation owner_map := (gmap NamespacedName (Obj k)).
#[local] Hint Extern 1 (Stable (Steady _ _ _)) => apply Steady_stable, Hk : typeclass_instances.
#[local] Hint Extern 1 (Stable (Inv _ _)) => apply Inv_stable, Hk : typeclass_instances.

(** ** Writes of owners *)

Lemma kept_same k' (o o' : Obj k') : om_Finalizers (kmeta o') = om_Finalizers (kmeta o) -> kept k' o' <-> kept k' o.
Proof. unfold kept, ContainsFinalizer. by intros ->. Qed.
Lemma not_deleting_same m m' : om_DeletionTimestamp m' = om_DeletionTimestamp m -> not_deleting m' = not_deleting m.
Proof. unfold not_deleting. by intros ->. Qed.

(** What is not about the owner. *)
Lemma Inv_same e e' :
  volumes e' = volumes e -> classes e' = classes e -> owners k e' = owners k e -> Inv k n e -> Inv k n e'.
Proof. intros Hv Hc Ho [HV HC]. split; rewrite ?Hv, ?Hc, ?Ho; [apply HV|apply HC]. Qed.

(** After a change of one owner: the new object is kept, or it is going and has no volumes. *)
Lemma Inv_owner e e' key S' :
  volumes e' = volumes e -> classes e' = classes e -> owners k e' = S' ->
  ((exists o, S' = <[key := o]> (owners k e) /\ (kept k o \/ not_deleting (kmeta o) = false)) \/ S' = delete key (owners k e)) ->
  ((forall x pv, volumes e !! x = Some pv -> ~ owned k key pv) \/ exists o, S' = <[key := o]> (owners k e) /\ kept k o) ->
  Inv k n e -> Inv k n e'.
Proof.
  intros Hv Hc <- Hset Hown [HV HC]. split; rewrite ?Hv, ?Hc.
  - intros x pv Hx. destruct (HV x pv Hx) as [Hw Ho]. split; [done|]. intros Hn. destruct (Ho Hn) as (o0 & H0 & Hp0).
    destruct (decide (key = n)) as [->|Hne].
    + destruct Hown as [Hown|(o & Heq & Hp)]; [by destruct (Hown x pv Hx)|]. exists o. by rewrite Heq, lookup_insert_eq.
    + exists o0. split; [|done]. destruct Hset as [(o & Heq & _)|Heq]; rewrite Heq; [by rewrite lookup_insert_ne|by rewrite lookup_delete_ne].
  - intros o c Hs Hd Hin His. destruct (decide (key = n)) as [->|Hne].
    + destruct Hset as [(o' & Heq & [Hp|Hp])|Heq]; rewrite Heq in Hs.
      * rewrite lookup_insert_eq in Hs. by injection Hs as <-.
      * rewrite lookup_insert_eq in Hs. injection Hs as <-. congruence.
      * by rewrite lookup_delete_eq in Hs.
    + eapply HC; [|done..]. destruct Hset as [(o' & Heq & _)|Heq]; rewrite Heq in Hs.
      * by rewrite lookup_insert_ne in Hs.
      * by rewrite lookup_delete_ne in Hs.
Qed.

Section of_kind.
Context (k' : Kind) (Hk' : owner_kind k' = true).

Lemma owner_other (f : forall k, Obj k -> est -> est) (o : Obj k') e :
  (forall k1 k2 o e, k1 <> k2 -> store k2 (f k1 o e) = store k2 e) ->
  volumes (f k' o e) = volumes e /\ classes (f k' o e) = classes e /\ (k' <> k -> owners k (f k' o e) = owners k e).
Proof. intros H. split; [by apply (H k' KPV), owner_not_pv|]. split; [by apply (H k' KSC), owner_not_class|by apply (H k' k)]. Qed.

(** An update of the owner's metadata. *)
Lemma Inv_kupdate_owner e (o old : Obj k') :
  store k' e !! object_key o = Some old ->
  kept k' o \/ (not_deleting (kmeta old) = false /\ forall x pv, volumes e !! x = Some pv -> ~ owned k' (object_key o) pv) ->
  Inv k n e -> Inv k n (kupdate k' o e).2.
Proof.
  intros Hold Ho HI.
  destruct (owner_other (fun k o e => (kupdate k o e).2) o e) as (Hv & Hc & Hne); [intros; by apply store_other|].
  destruct (decide (k' = k)) as [->|Hkk]; [|by apply (Inv_same e); auto]. clear Hne.
  destruct (kupdate k o e).1 as [o'|err] eqn:Hr.
  - destruct (store_update k o o' e Hr) as (old' & Hold' & Hid & Hdel & Hst).
    pose proof (eq_trans (eq_sym Hold) Hold') as [= <-].
    assert (kept k o' <-> kept k o) as Hp by (apply kept_same, Hid).
    eapply (Inv_owner e _ (object_key o)); [exact Hv|exact Hc|exact Hst| | |done].
    + case_decide; [by right|]. left. exists o'. split; [done|]. rewrite Hp.
      destruct Ho as [?|[Hd _]]; [by left|right]. rewrite <- Hd. by apply not_deleting_same.
    + destruct Ho as [Ho|[_ Ho]]; [|by left]. right. exists o'. rewrite Hp. split; [|done].
      rewrite decide_False; [done|]. intros [_ Hf]. unfold kept, ContainsFinalizer in Ho.
      rewrite Hf in Ho. by apply bool_decide_eq_true, elem_of_nil in Ho.
  - apply (Inv_same e); [done|done| |done]. apply (store_failed k o e). eauto.
Qed.

(** An update of the owner's status. *)
Lemma Inv_kstatus_owner e (o : Obj k') : Inv k n e -> Inv k n (kstatus k' o e).2.
Proof.
  intros HI.
  destruct (owner_other (fun k o e => (kstatus k o e).2) o e) as (Hv & Hc & Hne); [intros; by apply store_other|].
  destruct (decide (k' = k)) as [->|Hkk]; [|by apply (Inv_same e); auto]. clear Hne.
  destruct (kstatus k o e).1 as [o'|err] eqn:Hr.
  - destruct (store_status k o o' e Hr) as (old & Hold & Hid & Hdel & Hst).
    destruct (store_status_spec k o o' e Hr) as (old' & Hold' & Hspec).
    pose proof (eq_trans (eq_sym Hold) Hold') as [= <-]. apply same_spec_classes in Hspec.
    assert (kept k o' <-> kept k old) as Hp by (apply kept_same, Hid).
    destruct HI as [HV HC]. split; rewrite ?Hv, ?Hc; unfold owners in *; rewrite Hst.
    + intros x pv Hx. destruct (HV x pv Hx) as [Hw Ho]. split; [done|]. intros (o0 & H0 & Hp0)%Ho.
      destruct (decide (object_key o = n)) as [<-|Hne].
      * exists o'. rewrite lookup_insert_eq. split; [done|]. apply Hp. by pose proof (eq_trans (eq_sym Hold) H0) as [= <-].
      * exists o0. by rewrite lookup_insert_ne.
    + intros o0 c. destruct (decide (object_key o = n)) as [<-|Hne].
      * rewrite lookup_insert_eq. intros [= <-]. rewrite Hp, Hspec.
        rewrite (not_deleting_same (kmeta old) (kmeta o') Hdel). by apply HC.
      * rewrite lookup_insert_ne by done. apply HC.
  - apply (Inv_same e); [done|done| |done]. apply (store_failed k o e). eauto.
Qed.
End of_kind.

(** ** Writes of classes *)

(** The classes in [C] may be made: if they are the owner's, it is kept. *)
Definition Ready (C : NamespacedName -> Prop) (e : est) : Prop :=
  Inv k n e /\ forall o c, owners k e !! n = Some o -> C c -> c ∈ class_keys o -> kept k o.

Lemma Ready_stable C : Stable (Ready C).
Proof.
  apply stable_of. intros e e' H [HI Hr]. split; [by eapply Inv_store|].
  assert (owners k e' = owners k e) as -> by by apply (H k), owner_guarded. done.
Qed.
#[local] Hint Extern 1 (Stable (Ready _)) => apply Ready_stable : typeclass_instances.

(** One name may come, or is written or goes. *)
Lemma classes_only e e' key :
  volumes e' = volumes e -> owners k e' = owners k e ->
  (forall x, x <> key -> classes e' !! x = classes e !! x) ->
  is_Some (classes e !! key) \/ (forall o, owners k e !! n = Some o -> key ∈ class_keys o -> kept k o) ->
  Inv k n e -> Inv k n e'.
Proof.
  intros Hv Ho Hx Hkey [HV HC]. split; rewrite ?Hv, ?Ho; [apply HV|]. intros o c Hs Hd Hin His.
  destruct (decide (c = key)) as [->|Hne]; [|eapply HC; try done; by rewrite <- Hx].
  destruct Hkey as [Hkey|Hkey]; [by eapply HC|by apply Hkey].
Qed.

Lemma class_others (f : forall k, Obj k -> est -> est) sc e :
  (forall k1 k2 o e, k1 <> k2 -> store k2 (f k1 o e) = store k2 e) ->
  volumes (f KSC sc e) = volumes e /\ owners k (f KSC sc e) = owners k e.
Proof. intros H. split; [by apply (H KSC KPV)|by apply (H KSC k), not_eq_sym, owner_not_class]. Qed.

Lemma Ready_create_class (C : NamespacedName -> Prop) sc e :
  C (object_key (k := KSC) sc) -> Ready C e -> Ready C (kcreate KSC sc e).2.
Proof.
  intros HC [HI Hr].
  destruct (class_others (fun k o e => (kcreate k o e).2) sc e) as [Hv Ho]; [intros; by apply store_other|].
  split; [|by rewrite Ho]. eapply (classes_only e _ (object_key (k := KSC) sc)); [done|done| |right; eauto|done].
  intros x Hne. unfold classes. destruct (kcreate KSC sc e).1 as [sc'|err] eqn:Hres.
  - destruct (store_create KSC sc sc' e Hres) as (_ & _ & ->). by rewrite lookup_insert_ne.
  - rewrite (proj1 (store_failed KSC sc e)); eauto.
Qed.

Lemma Ready_update_class C sc e : Ready C e -> Ready C (kupdate KSC sc e).2.
Proof.
  intros [HI Hr].
  destruct (class_others (fun k o e => (kupdate k o e).2) sc e) as [Hv Ho]; [intros; by apply store_other|].
  split; [|by rewrite Ho]. destruct (kupdate KSC sc e).1 as [sc'|err] eqn:Hres.
  - destruct (store_update KSC sc sc' e Hres) as (old & Hold & _ & _ & Hst).
    eapply (classes_only e _ (object_key (k := KSC) sc)); [done|done| |left; by exists old|done].
    intros x Hne. unfold classes. rewrite Hst. case_decide; [by rewrite lookup_delete_ne|by rewrite lookup_insert_ne].
  - apply (Inv_same e); [done| |done|done]. apply (store_failed KSC sc e). eauto.
Qed.

Lemma Inv_delete_class sc e : Inv k n e -> Inv k n (kdelete KSC sc e).2.
Proof.
  intros HI.
  destruct (class_others (fun k o e => (kdelete k o e).2) sc e) as [Hv Ho]; [intros; by apply store_other|].
  destruct (kdelete KSC sc e).1 as [err|] eqn:Hres.
  - apply (Inv_same e); [done| |done|done]. apply (store_failed KSC sc e). eauto.
  - destruct (store_delete KSC sc e Hres) as (old & Hold & Hst).
    eapply (classes_only e _ (object_key (k := KSC) sc)); [done|done| |left; by exists old|done].
    intros x Hne. unfold classes. destruct Hst as [[_ ->]|(o' & _ & ->)]; [by rewrite lookup_delete_ne|by rewrite lookup_insert_ne].
Qed.

Lemma upholds_ApplyStorageClass (C : NamespacedName -> Prop) sc :
  C (object_key (k := KSC) sc) -> frame (upholds (Ready C)) (ApplyStorageClass sc).
Proof.
  intros HC. unfold ApplyStorageClass, EnsureObjectMeta, MergeMap.
  frame_tac ltac:(idtac; match goal with
    | |- frame _ (ClientCreate KSC _) => apply upholds_call; intros; by apply Ready_create_class
    | |- frame _ (ClientUpdate KSC _) => apply upholds_call; intros; by apply Ready_update_class
    end).
Qed.

(** ** Volumes: released and counted *)

Lemma calm_ReleaseAvailablePVs obj w :
  wp (ReleaseAvailablePVs obj) (fun _ w' => calm (w_est w) (w_est w')) w.
Proof.
  unfold ReleaseAvailablePVs. destruct (owner_ids obj) as [[[kind ns] name]|err]; [|by apply wp_ret].
  apply wp_bind, wp_ask. intros r en Hr. pose proof (calm_read _ _ (klist_moves KPV _ _ _ _ Hr)) as Hread.
  destruct r as [items|err]; [|exact Hread].
  eapply (wp_mono _ (fun _ w' => calms (fun pv => pv ∈ items) (set_est en w) w')).
  2: { intros ? w' H. etrans; [exact Hread|]. apply H. intros pv Hin. simpl.
       apply (klist_found KPV _ _ _ _ _ Hr) in Hin as [[key Hpv] _]; [|done].
       eapply agrees_calm; [exact Hread|]. by eapply agrees_stored. }
  apply frame_wp; [apply _|]. apply frame_bind; [apply _| |intros [[]|]; apply frame_ret, _].
  apply frame_foldM_in; [apply _|]. intros b pv Hin. unfold release_pv.
  frame_tac ltac:(idtac; match goal with
    | |- frame _ (ClientUpdate _ _) => by apply (calms_update _ pv)
    end).
Qed.

(** An empty listing means that the owner has no volumes. *)
Lemma GetOwnedPVs_none k' obj w :
  tm_Kind (obj_type obj) = kind_name k' ->
  wp (GetOwnedPVs obj) (fun r w' => calm (w_est w) (w_est w') /\
    (r = Ok [] -> forall x pv, volumes (w_est w') !! x = Some pv ->
       ~ owned k' {| nn_Namespace := om_Namespace (obj_meta obj); nn_Name := om_Name (obj_meta obj) |} pv)) w.
Proof.
  intros Hkind. unfold GetOwnedPVs. destruct (owner_ids obj) as [[[kind ns] name]|err] eqn:Hids; [|by apply wp_ret].
  apply owner_ids_meta in Hids as (Hkd & -> & ->). rewrite Hkind in Hkd. subst kind.
  apply wp_bind, wp_ask. intros r en Hr. pose proof (klist_moves KPV _ _ _ _ Hr) as Hread.
  destruct r as [items|err]; apply wp_ret; (split; [by apply calm_read|]); [|done]. intros [= ->] x pv Hpv Ho.
  simpl in Hpv. unfold volumes in Hpv. rewrite (store_read KPV _ _ Hread) in Hpv.
  apply (not_elem_of_nil pv). apply (klist_found KPV _ _ _ _ _ Hr); [done|].
  split; [by exists x|]. by split.
Qed.

(** Different owners have different classes. *)
Definition exclusive (k' : Kind) (request : NamespacedName) (e : est) : Prop :=
  (k', request) <> (k, n) -> forall o o' c, owners k e !! n = Some o -> store k' e !! request = Some o' ->
    c ∈ class_keys o -> c ∉ class_keys o'.

(** The classes of an object that is kept may be made. *)
Lemma kept_Ready k' (o : Obj k') e :
  store k' e !! object_key o = Some o -> exclusive k' (object_key o) e -> kept k' o -> Inv k n e ->
  Ready (fun c => c ∈ class_keys o) e.
Proof.
  intros Ho Hex Hp HI. split; [done|]. intros o0 c H0 Hc Hc0.
  destruct (decide ((k', object_key o) = (k, n))) as [[= -> Hn]|Hne]; [|by destruct (Hex Hne o0 o c)].
  rewrite Hn in Ho. pose proof (eq_trans (eq_sym Ho) H0) as [= <-]. exact Hp.
Qed.

(** An accepted update of an owner leaves the answer in the store, or removes the object. *)
Lemma kupdate_stored k' (o o' old : Obj k') e :
  owner_kind k' = true -> (kupdate k' o e).1 = Ok o' -> store k' e !! object_key o = Some old -> same_spec old o ->
  exclusive k' (object_key o) e -> kept k' o' -> Inv k n (kupdate k' o e).2 ->
  Ready (fun c => c ∈ class_keys o') (kupdate k' o e).2.
Proof.
  intros Hk' Hr Hold Hspec Hex Hp HI.
  destruct (store_update k' o o' e Hr) as (old' & Hold' & Hid & _ & Hst).
  assert (object_key o' = object_key o) as Hkey by (unfold object_key; by rewrite (si_name _ _ Hid), (si_namespace _ _ Hid)).
  rewrite decide_False in Hst.
  2: { intros [_ Hf]. unfold kept, ContainsFinalizer in Hp. rewrite (si_finalizers _ _ Hid), Hf in Hp.
       by apply bool_decide_eq_true, elem_of_nil in Hp. }
  apply kept_Ready; [by rewrite Hkey, Hst, lookup_insert_eq| |done|done]. rewrite Hkey.
  intros Hne o0 o1 c H0 H1 Hc. rewrite Hst, lookup_insert_eq in H1. injection H1 as <-.
  rewrite (same_spec_classes _ _ _ (store_update_spec k' o o' e Hr)), (same_spec_classes _ _ _ Hspec).
  apply (Hex Hne o0); [|done|done]. destruct (decide (k' = k)) as [->|Hkk].
  - unfold owners in *. rewrite Hst, lookup_insert_ne in H0; [done|congruence].
  - unfold owners in *. by rewrite (proj1 (proj2 (store_other k' k o e Hkk))) in H0.
Qed.

(** ** LocalVolumeSets *)

Lemma upholds_update_finalizer b lv w :
  let request := object_key (k := KLVSet) lv in
  Inv k n (w_est w) -> store KLVSet (w_est w) !! request = Some lv -> exclusive KLVSet request (w_est w) ->
  (b = false -> not_deleting (lset_meta lv) = false /\
     forall x pv, volumes (w_est w) !! x = Some pv -> ~ owned KLVSet request pv) ->
  wp (update_finalizer b lv) (fun r w' => Inv k n (w_est w') /\
    (r.1 = None -> kept KLVSet r.2 -> Ready (fun c => c ∈ class_keys (k := KLVSet) r.2) (w_est w'))) w.
Proof.
  intros request HI Hlv Hex Hb. unfold update_finalizer.
  set (m := if b then AddFinalizer (lset_meta lv) LocalVolumeProtectionFinalizer
            else RemoveFinalizer (lset_meta lv) LocalVolumeProtectionFinalizer).
  assert (om_Name m.2 = om_Name (lset_meta lv) /\ om_Namespace m.2 = om_Namespace (lset_meta lv) /\
    (b = true -> ContainsFinalizer m.2 LocalVolumeProtectionFinalizer = true) /\ (m.1 = false -> m.2 = lset_meta lv))
    as (Hn & Hns & Hf & Hsame).
  { unfold m. destruct b; [unfold AddFinalizer|unfold RemoveFinalizer]; destruct (ContainsFinalizer _ _) eqn:Hc;
      repeat split; try done.
    intros _. pose proof (AddFinalizer_contains (lset_meta lv) LocalVolumeProtectionFinalizer) as H.
    unfold AddFinalizer in H. by rewrite Hc in H. }
  destruct m as [updated meta]. simpl in *. destruct updated.
  - set (s := set_lset_meta meta lv).
    assert (object_key (k := KLVSet) s = request) as Hkey by (unfold object_key; simpl; by rewrite Hn, Hns).
    assert (Inv k n (kupdate KLVSet s (w_est w)).2) as HI'.
    { apply (Inv_kupdate_owner KLVSet eq_refl (w_est w) s lv); [by rewrite Hkey| |done]. rewrite Hkey.
      destruct b; [left; by apply Hf|right; by apply Hb]. }
    apply wp_bind, wp_bind, wp_ask. intros r en Hr. apply wp_bind, wp_act, wp_ret, wp_ret.
    pose proof (kupdate_stored KLVSet s) as Hst. specialize (fun o' => Hst o' lv (w_est w) eq_refl).
    rewrite Hkey, Hr in Hst. rewrite Hr in HI'. simpl in *.
    destruct r as [s'|err]; (split; [exact HI'|]); [|done]. intros _ Hp. by apply Hst.
  - assert (set_lset_meta meta lv = lv) as -> by (rewrite (Hsame eq_refl); by destruct lv).
    apply wp_ret. split; [done|]. intros _ Hp. by apply (kept_Ready KLVSet).
Qed.

Lemma upholds_syncFinalizer lv w :
  let request := object_key (k := KLVSet) lv in
  Inv k n (w_est w) -> store KLVSet (w_est w) !! request = Some lv -> exclusive KLVSet request (w_est w) ->
  wp (syncFinalizer lv) (fun r w' => Inv k n (w_est w') /\
    (r.1 = None -> kept KLVSet r.2 -> Ready (fun c => c ∈ class_keys (k := KLVSet) r.2) (w_est w'))) w.
Proof.
  intros request HI Hlv Hex. unfold syncFinalizer. destruct (not_deleting (lset_meta lv)) eqn:Hd.
  { by apply upholds_update_finalizer. }
  assert (forall w', calm (w_est w) (w_est w') -> Inv k n (w_est w') /\ store KLVSet (w_est w') !! request = Some lv /\
    exclusive KLVSet request (w_est w')) as Hcalm.
  { intros w' Hc. destruct (Steady_calm k n (owners k (w_est w)) _ _ Hk Hc) as [HI' HS']; [done|].
    split; [done|]. assert (store KLVSet (w_est w') = store KLVSet (w_est w)) as He by by apply (calm_store_eq _ _ Hc).
    unfold exclusive. by rewrite He, HS'. }
  apply wp_bind. eapply wp_mono; [apply calm_ReleaseAvailablePVs|]. intros err w1 Hc1.
  destruct (Hcalm w1 Hc1) as [HI1 _]. destruct err as [err|]; [by apply wp_ret|].
  apply wp_bind. eapply wp_mono; [apply (GetOwnedPVs_none KLVSet), (store_type KLVSet _ _ _ Hlv)|]. intros r w2 [Hc2 Hnone].
  destruct (Hcalm w2) as (HI2 & Hlv2 & Hex2); [by etrans|].
  destruct r as [[|pv pvs]|err]; [|by apply wp_ret..].
  apply upholds_update_finalizer; [done..|]. intros _. split; [done|]. by apply Hnone.
Qed.

Lemma upholds_syncStorageClass s w :
  Inv k n (w_est w) -> (kept KLVSet s -> Ready (fun c => c ∈ class_keys (k := KLVSet) s) (w_est w)) ->
  wp (LvSetCtl.syncStorageClass s) (fun _ w' => Inv k n (w_est w')) w.
Proof.
  intros HI HJ. unfold LvSetCtl.syncStorageClass. destruct (ContainsFinalizer _ _) eqn:Hp; simpl.
  - apply (upholds_run (Ready (fun c => c ∈ class_keys (k := KLVSet) s))); [by intros e []| |by apply HJ].
    apply frame_bind; [apply _| |intros r; apply frame_ret, _]. apply upholds_ApplyStorageClass. by left.
  - apply (upholds_run (Inv k n)); [done| |done]. unfold removeStorageClass.
    frame_tac ltac:(idtac; match goal with
      | |- frame _ (ClientDelete KSC _) => apply upholds_call; intros; by apply Inv_delete_class
      end).
Qed.

Lemma upholds_status k' (o : Obj k') : owner_kind k' = true -> frame (upholds (Inv k n)) (StatusUpdate k' o).
Proof. intros Hk'. apply upholds_call. intros e. by apply Inv_kstatus_owner. Qed.
Lemma upholds_put_condition s t m st : frame (upholds (Inv k n)) (put_condition s t m st).
Proof.
  unfold put_condition, SetCondition.
  frame_tac ltac:(idtac; match goal with |- frame _ (StatusUpdate KLVSet _) => by apply (upholds_status KLVSet) end).
Qed.

Lemma operator_set_upholds request w :
  exclusive KLVSet request (w_est w) -> Inv k n (w_est w) ->
  wp (LvSetCtl.Reconcile request) (fun _ w' => Inv k n (w_est w')) w.
Proof.
  intros Hex HI. unfold LvSetCtl.Reconcile. apply wp_bind.
  apply (wp_mono _ (fun _ w' => Inv k n (w_est w'))).
  2: { intros r w1 HI1. apply (upholds_run (Inv k n)); [done| |done]. unfold addAvailabilityConditions, deregister.
       frame_tac ltac:(idtac; match goal with
         | |- frame _ (put_mem _) => apply upholds_put_mem
         | |- frame _ (put_condition _ _ _ _) => apply upholds_put_condition end). }
  unfold reconcile. apply wp_bind, wp_ask. intros r en Hget.
  pose proof (kget_moves KLVSet _ _ _ _ _ Hget) as Hread.
  assert (Inv k n en) as HIn by by eapply st_read.
  destruct r as [lv|err]; [|destruct (is_not_found err); exact HIn].
  pose proof (kget_found KLVSet _ _ _ _ _ Hget) as Hlv. pose proof (store_key KLVSet _ _ _ Hlv) as Hkey.
  rewrite <- Hkey in Hlv, Hex. rewrite <- (store_read KLVSet _ _ Hread) in Hlv.
  assert (exclusive KLVSet (object_key (k := KLVSet) lv) en) as Hexn.
  { unfold exclusive, owners. by rewrite (store_read k _ _ Hread), (store_read KLVSet _ _ Hread). }
  apply wp_bind, wp_put_mem, wp_bind. eapply wp_mono; [by apply upholds_syncFinalizer|].
  intros [[err|] s] w1 [HI1 Hr]; simpl; [by apply wp_ret|]. specialize (Hr eq_refl).
  unfold sync_lvset. apply wp_bind. eapply wp_mono; [by apply upholds_syncStorageClass|].
  intros err w2 HI2. apply (upholds_run (Inv k n)); [done| |done].
  unfold updateDaemonSetsCondition, updateTotalProvisionedDeviceCountStatus, deregister.
  frame_tac ltac:(idtac; match goal with
    | |- frame _ (put_mem _) => apply upholds_put_mem
    | |- frame _ (StatusUpdate KLVSet _) => by apply (upholds_status KLVSet)
    | |- frame _ (put_condition _ _ _ _) => apply upholds_put_condition end).
Qed.

(** ** LocalVolumes *)

(** The embedded template of a class is for the name it is asked for. *)
Definition class_template : Prop := forall name sc,
  read_template KSC LocalVolumeStorageClassTemplate [("${OBJECT_NAME}", name)] = Ok sc ->
  object_key (k := KSC) sc = class_named name.

Lemma generated_key (Ht : class_template) cr name sc :
  generateStorageClass cr name = Ok sc -> object_key (k := KSC) sc = class_named name.
Proof.
  unfold generateStorageClass. destruct (read_template _ _ _) as [sc0|] eqn:Hr; [|done]. intros [= <-].
  rewrite <- (Ht name sc0 Hr). unfold object_key. simpl. unfold addOwnerLabels.
  by repeat destruct (set_label_if_different _ _ _ _).
Qed.

Lemma upholds_report_conflict J `{!Stable J} lv r : frame (upholds J) (report_conflict lv r).
Proof. unfold report_conflict, recordEvent. upholds_tac. Qed.
Lemma upholds_syncStatus a b : frame (upholds (Inv k n)) (syncStatus a b).
Proof.
  unfold syncStatus. frame_tac ltac:(idtac; match goal with
    | |- frame _ (StatusUpdate KLV _) => by apply (upholds_status KLV)
    | |- frame _ (report_conflict _ _) => apply upholds_report_conflict, _ end).
Qed.

(** The unexpected classes go. *)
Lemma upholds_removeUnexpected J `{!Stable J} cr expected :
  (forall sc e, J e -> J (kdelete KSC sc e).2) -> frame (upholds J) (removeUnExpectedStorageClasses cr expected).
Proof.
  intros HJ. unfold removeUnExpectedStorageClasses, delete_unexpected.
  frame_tac ltac:(idtac; match goal with
    | |- frame _ (ClientDelete KSC _) => apply upholds_call; intros; by apply HJ end).
Qed.

Lemma Ready_delete_class C sc e : Ready C e -> Ready C (kdelete KSC sc e).2.
Proof.
  intros [HI Hr]. split; [by apply Inv_delete_class|].
  destruct (class_others (fun k o e => (kdelete k o e).2) sc e) as [_ Ho]; [intros; by apply store_other|]. by rewrite Ho.
Qed.

Lemma upholds_lv_syncStorageClass (Ht : class_template) cr :
  frame (upholds (Ready (fun c => c ∈ class_keys (k := KLV) cr))) (LvCtl.syncStorageClass cr).
Proof.
  unfold LvCtl.syncStorageClass. apply frame_bind; [apply _| |].
  - apply frame_forM_in; [apply _|]. intros d Hd. unfold apply_class.
    destruct (generateStorageClass _ _) as [sc|err] eqn:Hg; [|apply frame_ret, _].
    apply frame_bind; [apply _| |intros r; apply frame_ret, _]. apply upholds_ApplyStorageClass.
    rewrite (generated_key Ht _ _ _ Hg). apply list_elem_of_fmap. by exists d.
  - intros [err|]; [apply frame_ret, _|]. apply frame_bind; [apply _| |intros; apply frame_ret, _].
    apply upholds_removeUnexpected; [apply _|]. intros sc e. apply Ready_delete_class.
Qed.

Lemma SetDefaults_facts lv :
  lv_meta (SetDefaults lv) = lv_meta lv /\ lv_type (SetDefaults lv) = lv_type lv /\
  class_keys (k := KLV) (SetDefaults lv) = class_keys (k := KLV) lv.
Proof. done. Qed.

(** Of a store in which the object is being deleted and has no volumes. *)
Definition Going (lv : LocalVolume) (e : est) : Prop :=
  Inv k n e /\ store KLV e !! object_key (k := KLV) lv = Some lv /\
  forall x pv, volumes e !! x = Some pv -> ~ owned KLV (object_key (k := KLV) lv) pv.

Lemma Going_stable lv : Stable (Going lv).
Proof.
  apply stable_of. intros e e' H (HI & Hl & Ho). split; [by eapply Inv_store|].
  unfold volumes in *. by rewrite (H KLV), (H KPV).
Qed.
#[local] Hint Extern 1 (Stable (Going _)) => apply Going_stable : typeclass_instances.

Lemma Going_delete_class lv sc e : Going lv e -> Going lv (kdelete KSC sc e).2.
Proof.
  intros (HI & Hl & Ho). split; [by apply Inv_delete_class|]. unfold volumes in *.
  assert (store KLV (kdelete KSC sc e).2 = store KLV e) as -> by by apply (store_other KSC KLV sc e).
  assert (store KPV (kdelete KSC sc e).2 = store KPV e) as -> by by apply (store_other KSC KPV sc e).
  done.
Qed.

Lemma upholds_updateLocalVolume o old w :
  store KLV (w_est w) !! object_key (k := KLV) o = Some old ->
  kept KLV o \/ (not_deleting (lv_meta old) = false /\
    forall x pv, volumes (w_est w) !! x = Some pv -> ~ owned KLV (object_key (k := KLV) o) pv) ->
  Inv k n (w_est w) -> wp (updateLocalVolume o) (fun _ w' => Inv k n (w_est w')) w.
Proof.
  intros Hold Ho HI. pose proof (Inv_kupdate_owner KLV eq_refl (w_est w) o old Hold Ho HI) as HI'.
  unfold updateLocalVolume. apply wp_bind, wp_bind, wp_ask. intros r en Hr. rewrite Hr in HI'. apply wp_bind, wp_act, wp_ret.
  apply (upholds_run (Inv k n)); [done|apply upholds_report_conflict, _|exact HI'].
Qed.

Lemma removeFinalizer_key o o' : removeFinalizer o = Some o' -> object_key (k := KLV) o' = object_key (k := KLV) o.
Proof.
  unfold removeFinalizer. destruct (negb _); [by intros [= <-]|]. destruct (remove _ _); [|done]. by intros [= <-].
Qed.

Lemma upholds_cleanupDeployment lv w :
  let o := SetDefaults lv in
  Inv k n (w_est w) -> store KLV (w_est w) !! object_key (k := KLV) lv = Some lv -> not_deleting (lv_meta lv) = false ->
  wp (cleanupLocalVolumeDeployment o) (fun _ w' => Inv k n (w_est w')) w.
Proof.
  intros o HI Hlv Hd.
  assert (forall w', calm (w_est w) (w_est w') -> Inv k n (w_est w') /\ store KLV (w_est w') !! object_key (k := KLV) lv = Some lv) as Hcalm.
  { intros w' Hc. destruct (Steady_calm k n (owners k (w_est w)) _ _ Hk Hc) as [HI' _]; [done|].
    split; [done|]. by rewrite (calm_store_eq _ _ Hc KLV). }
  unfold cleanupLocalVolumeDeployment. cbv zeta. apply wp_bind. eapply wp_mono; [apply calm_ReleaseAvailablePVs|].
  intros err w1 Hc1. destruct (Hcalm w1 Hc1) as [HI1 _].
  destruct err as [err|]; [by apply wp_bind, wp_act, wp_ret|].
  apply wp_bind. eapply wp_mono; [apply (GetOwnedPVs_none KLV), (store_type KLV _ _ _ Hlv)|]. intros r w2 [Hc2 Hnone].
  destruct (Hcalm w2) as (HI2 & Hlv2); [by etrans|].
  destruct r as [[|pv pvs]|err]; [|by apply wp_bind, wp_act, wp_ret..].
  assert (Going lv (w_est w2)) as HG by (split; [done|]; split; [done|]; by apply Hnone).
  eapply wp_bind_frame; [apply (upholds_removeUnexpected (Going lv)); intros; by apply Going_delete_class|].
  intros err w3 HG3. destruct (HG3 HG) as (HI3 & Hlv3 & Ho3).
  destruct err as [e|]; [by apply wp_bind, wp_act, wp_ret|].
  destruct (removeFinalizer o) as [o'|] eqn:Ho; [|by apply wp_ret]. apply removeFinalizer_key in Ho.
  apply (upholds_updateLocalVolume o' lv); [by rewrite Ho| |done]. right. rewrite Ho. by split.
Qed.

Lemma upholds_sync_managed (Ht : class_template) instance o w :
  Ready (fun c => c ∈ class_keys (k := KLV) o) (w_est w) ->
  wp (sync_managed instance o) (fun _ w' => Inv k n (w_est w')) w.
Proof.
  intros HJ. unfold sync_managed. eapply wp_bind_frame; [by apply upholds_lv_syncStorageClass|].
  intros err w1 H1. destruct (H1 HJ) as [HI1 _]. apply (upholds_run (Inv k n)); [done| |done].
  unfold addFailureCondition, addSuccessCondition.
  frame_tac ltac:(idtac; match goal with |- frame _ (syncStatus _ _) => apply upholds_syncStatus end).
Qed.

Lemma addFinalizer_facts o :
  object_key (k := KLV) (addFinalizer o).1 = object_key (k := KLV) o /\ kept KLV (addFinalizer o).1 /\
  ((addFinalizer o).2 = false -> (addFinalizer o).1 = o).
Proof.
  assert (forall l, contains l localVolumeFinalizer = true <-> bool_decide (LocalVolumeProtectionFinalizer ∈ l) = true) as Hc.
  { intros l. by rewrite contains_spec, bool_decide_eq_true. }
  unfold addFinalizer, kept, ContainsFinalizer. destruct (contains _ _) eqn:He; (split; [done|split; [|done]]); simpl.
  - by apply Hc.
  - apply Hc, contains_spec. set_solver.
Qed.

Lemma operator_lv_upholds (Ht : class_template) request w :
  exclusive KLV request (w_est w) -> Inv k n (w_est w) ->
  wp (LvCtl.Reconcile request) (fun _ w' => Inv k n (w_est w')) w.
Proof.
  intros Hex HI. unfold LvCtl.Reconcile. apply wp_bind, wp_ask. intros r en Hget.
  pose proof (kget_moves KLV _ _ _ _ _ Hget) as Hread.
  assert (Inv k n en) as HIn by by eapply st_read. set (w1 := set_est en w).
  destruct r as [lv|err].
  2: { destruct (is_not_found err); [|exact HIn]. apply (upholds_run (Inv k n)); [done| |exact HIn].
       unfold deregisterLVFromStorageClass, deregister. upholds_tac. }
  pose proof (kget_found KLV _ _ _ _ _ Hget) as Hlv. pose proof (store_key KLV _ _ _ Hlv) as Hkey.
  rewrite <- Hkey in Hlv, Hex. rewrite <- (store_read KLV _ _ Hread) in Hlv.
  assert (exclusive KLV (object_key (k := KLV) lv) en) as Hexn.
  { unfold exclusive, owners. by rewrite (store_read k _ _ Hread), (store_read KLV _ _ Hread). }
  assert (w_est w1 = en) as Hen by done. clearbody w1. clear Hget Hread HI Hex Hkey.
  apply wp_bind. apply (wp_mono _ (fun _ w' => w_est w' = en)).
  { set (l := lvs_StorageClassDevices (lv_Spec lv)). clearbody l. revert w1 Hen. induction l as [|d l IH]; intros w1 Hen; [by apply wp_ret|].
    cbn [forM_]. apply wp_bind, wp_put_mem. by apply IH. }
  intros _ w2 Hen2. apply wp_bind. apply (wp_mono _ (fun _ w' => Inv k n (w_est w'))); [|intros [err|] w' H; exact H].
  subst en. rewrite <- Hen2 in *. clear Hen2. unfold syncLocalVolumeProvider. cbv zeta.
  destruct (isDeletionCandidate _ _) eqn:Hd.
  - apply upholds_cleanupDeployment; [done..|]. unfold isDeletionCandidate in Hd. apply andb_true_iff in Hd as [Hd _].
    by apply negb_true_iff in Hd.
  - destruct (addFinalizer_facts (SetDefaults lv)) as (Hk1 & Hk2 & Hk3). destruct (addFinalizer (SetDefaults lv)) as [o modified].
    simpl in *. destruct modified; [by apply (upholds_updateLocalVolume o lv); [rewrite Hk1|left|]|]. rewrite (Hk3 eq_refl).
    rewrite (Hk3 eq_refl) in Hk2. case_decide.
    + apply (upholds_run (Inv k n)); [done| |done].
      frame_tac ltac:(idtac; match goal with |- frame _ (syncStatus _ _) => apply upholds_syncStatus end).
    + apply upholds_sync_managed; [done|]. apply (kept_Ready KLV lv); [done..| |done]. exact Hk2.
Qed.
End operators.
