(* ===== verification/OtherSteps.v ===== *)
(** * The programs that own no volumes

    The daemon controller, the discovery controller and the discovery daemon read
    LocalVolumes and LocalVolumeSets and write daemonsets, the ConfigMap, discovery
    objects and what the metrics need: whatever holds of volumes, their owners and
    classes holds after a run of them ([upholds J] for every [Stable J]). *)
From stdpp Require Import base list strings gmap.
From Stdlib Require Import ZArith Lia String.
From S2P Require Import Prelude GoLib Types World Sys Envs DiskUtil LinkCache Common Controller Symlinks DeviceLink Provisioner Matcher Metrics LvSet Discovery Exporter NodeDaemon LvSetCtl DiscoveryCtl Store StoreNodes.

Open Scope string_scope.

Section others.
Context {E : Env} (J : est -> Prop) `{!Stable J}.

(** ** Shared operations *)

Lemma upholds_mutate_checked {k} (f : Obj k -> M (Res (Obj k))) key o :
  (forall o, frame (upholds J) (f o)) -> frame (upholds J) (mutate_checked f key o).
Proof. intros Hf. unfold mutate_checked. upholds_tac. Qed.
Lemma upholds_CreateOrUpdate {k} (o : Obj k) (f : Obj k -> M (Res (Obj k))) :
  guarded k = false -> (forall o, frame (upholds J) (f o)) -> frame (upholds J) (CreateOrUpdate o f).
Proof. intros Hk Hf. pose proof (fun key o => upholds_mutate_checked f key o Hf). unfold CreateOrUpdate. upholds_tac. Qed.

Lemma upholds_create_or_update k o f a b c :
  guarded k = false -> frame (upholds J) (create_or_update k o f a b c).
Proof. intros Hk. unfold create_or_update. upholds_tac. Qed.
#[local] Hint Extern 1 (frame _ (create_or_update _ _ _ _ _ _)) => apply upholds_create_or_update; reflexivity : lso_upholds.

Lemma upholds_EnableMetricsExporter e : frame (upholds J) (EnableMetricsExporter e).
Proof.
  unfold EnableMetricsExporter, enableService, enableServiceMonitor, createOrUpdateService, createOrUpdateServiceMonitor.
  upholds_tac.
Qed.
Lemma upholds_AlertRules ns n o : frame (upholds J) (CreateOrUpdateAlertRules ns n o).
Proof. unfold CreateOrUpdateAlertRules, createOrUpdatePrometheusRule. upholds_tac. Qed.
Lemma upholds_CreateOrUpdateDaemonset f : frame (upholds J) (CreateOrUpdateDaemonset f).
Proof.
  unfold CreateOrUpdateDaemonset. frame_tac ltac:(idtac; match goal with
    | |- frame _ (CreateOrUpdate _ _) => apply (upholds_CreateOrUpdate (k := KDS)); [done|intros; upholds_tac] end).
Qed.
Hint Resolve upholds_EnableMetricsExporter upholds_AlertRules upholds_CreateOrUpdateDaemonset : lso_upholds.

(** ** The daemon controller *)

Lemma upholds_config_map request sets lvs refs : frame (upholds J) (reconcileProvisionerConfigMap request sets lvs refs).
Proof.
  unfold reconcileProvisionerConfigMap. frame_tac ltac:(idtac; match goal with
    | |- frame _ (CreateOrUpdate _ _) => apply (upholds_CreateOrUpdate (k := KCM)); [done|intros; upholds_tac] end).
Qed.
Lemma upholds_delete_old l ds : frame (upholds J) (delete_old l ds).
Proof. unfold delete_old. upholds_tac. Qed.
Lemma upholds_delete_provisioner ns : frame (upholds J) (delete_provisioner ns).
Proof. unfold delete_provisioner. upholds_tac. Qed.
Lemma upholds_wait_pods fuel steps d cap l : frame (upholds J) (wait_pods fuel steps d cap l).
Proof.
  revert steps d l. induction fuel as [|fuel IH]; intros [|steps] d l; cbn [wait_pods]; try apply frame_ret, _.
  unfold pods_gone. upholds_tac.
Qed.
Hint Resolve upholds_config_map upholds_delete_old upholds_delete_provisioner upholds_wait_pods : lso_upholds.
Lemma upholds_cleanupOldObjects ns : frame (upholds J) (cleanupOldObjects ns).
Proof. unfold cleanupOldObjects, cleanupOldDaemonsets, cleanupOrphanServiceMonitor, flag, set_flag. upholds_tac. Qed.
Hint Resolve upholds_cleanupOldObjects : lso_upholds.
Lemma upholds_sync_daemon request a : frame (upholds J) (sync_daemon request a).
Proof. unfold sync_daemon, dataHash. upholds_tac. Qed.
Hint Resolve upholds_sync_daemon : lso_upholds.
Lemma daemon_upholds request : frame (upholds J) (NodeDaemon.Reconcile request).
Proof. unfold NodeDaemon.Reconcile, aggregateDeamonInfo. upholds_tac. Qed.

(** ** Discovery *)

Lemma upholds_updateDiscoveryStatus i t m s p : frame (upholds J) (updateDiscoveryStatus i t m s p).
Proof. unfold updateDiscoveryStatus, DiscoveryCtl.updateStatus. upholds_tac. Qed.
Hint Resolve upholds_updateDiscoveryStatus : lso_upholds.
Lemma upholds_deleteOrphans i : frame (upholds J) (deleteOrphanDiscoveryResults i).
Proof. unfold deleteOrphanDiscoveryResults, delete_orphan. upholds_tac. Qed.
Hint Resolve upholds_deleteOrphans : lso_upholds.
Lemma upholds_report_daemons i : frame (upholds J) (report_daemons i).
Proof. unfold report_daemons, getDaemonSetStatus. upholds_tac. Qed.
Hint Resolve upholds_report_daemons : lso_upholds.
Lemma discovery_controller_upholds request : frame (upholds J) (DiscoveryCtl.Reconcile request).
Proof. unfold DiscoveryCtl.Reconcile, sync_discovery_daemon. upholds_tac. Qed.

Lemma upholds_ignoreDevices d : frame (upholds J) (ignoreDevices d).
Proof. unfold ignoreDevices. upholds_tac. Qed.
Hint Resolve upholds_ignoreDevices : lso_upholds.
Lemma upholds_keep_devices l : frame (upholds J) (keep_devices l).
Proof. induction l as [|d l IH]; cbn [keep_devices]; upholds_tac. Qed.
Hint Resolve upholds_keep_devices : lso_upholds.
Lemma upholds_getValidBlockDevices : frame (upholds J) getValidBlockDevices.
Proof. unfold getValidBlockDevices. upholds_tac. Qed.
Lemma upholds_discovered_device d : frame (upholds J) (discovered_device d).
Proof. unfold discovered_device, getDeviceStatus, canOpenExclusively. upholds_tac. Qed.
Hint Resolve upholds_getValidBlockDevices upholds_discovered_device : lso_upholds.
Lemma upholds_getDiscoverdDevices l : frame (upholds J) (getDiscoverdDevices l).
Proof.
  assert (frame (upholds J) (map_devices l)) as H by (induction l as [|d l IH]; cbn [map_devices]; upholds_tac).
  unfold getDiscoverdDevices. upholds_tac.
Qed.
Hint Resolve upholds_getDiscoverdDevices : lso_upholds.
Lemma upholds_discoverDevices : frame (upholds J) discoverDevices.
Proof. unfold discoverDevices, Discovery.updateStatus, GetDiscoveryResult, UpdateDiscoveryResultStatus, SetDiscoveredDevicesMetrics. upholds_tac. Qed.
Hint Resolve upholds_discoverDevices : lso_upholds.
Lemma upholds_serve b l : frame (upholds J) (serve b l).
Proof. revert b. induction l as [|[] l IH]; intros b; cbn [serve]; upholds_tac. Qed.
Hint Resolve upholds_serve : lso_upholds.
Lemma discovery_daemon_upholds l : frame (upholds J) (Discovery.Start l).
Proof. unfold Discovery.Start, ensureDiscoveryResultCR, GetDiscoveryResult, CreateDiscoveryResult. upholds_tac. Qed.
End others.
