(* ===== verification/Watches.v ===== *)
(** * The watches of the controllers

    What a change of an object makes the controllers do before any reconciliation: the
    requests that the SetupWithManager and WithManager functions of the operator's and
    the diskmaker's controllers put into the work queues, and the cache of volumes that
    the diskmakers keep with the help of their watch. *)
From stdpp Require Import base list strings gmap.
From Stdlib Require Import ZArith Lia String.
From S2P Require Import Prelude GoLib Types World Sys Envs DiskUtil LinkCache Common Controller Symlinks DeviceLink Provisioner Matcher Metrics LvSet Lv Exporter Tls NodeDaemon LvSetCtl LvCtl Store Owners.

Open Scope string_scope.

(** ** Events and handlers of controller-runtime *)

Inductive ObjEvent (A : Type) :=
  | OnGeneric (o : A) | OnCreate (o : A) | OnUpdate (old new : A) | OnDelete (o : A).
Arguments OnGeneric {A} o.
Arguments OnCreate {A} o.
Arguments OnUpdate {A} old new.
Arguments OnDelete {A} o.

(** The objects an event carries. *)
Definition event_objects {A} (e : ObjEvent A) : list A :=
  match e with OnGeneric o | OnCreate o | OnDelete o => [o] | OnUpdate old new => [old; new] end.

(** [handler.EnqueueRequestsFromMapFunc]: every request is queued once per event. *)
Definition EnqueueRequestsFromMapFunc {A} (f : A -> list NamespacedName) (e : ObjEvent A) : gset NamespacedName :=
  list_to_set (event_objects e ≫= f).

(** [getOwnerReconcileRequest] for a namespaced type: an owner whose version does not
    parse ends the search.  The versions are those the API server knows. *)
Fixpoint owner_requests (group kind ns : string) (refs : list OwnerReference) : list NamespacedName :=
  match refs with
  | [] => []
  | ref :: refs =>
      match parse_group (or_APIVersion ref) with
      | None => []
      | Some g =>
          if decide (or_Kind ref = kind /\ g = group)
          then {| nn_Namespace := ns; nn_Name := or_Name ref |} :: owner_requests group kind ns refs
          else owner_requests group kind ns refs
      end
  end.

(** [handler.EnqueueRequestForOwner] for a namespaced owner type of the operator. *)
Definition lso_group := "local.storage.openshift.io".
Definition EnqueueRequestForOwner (kind : string) (e : ObjEvent ObjectMeta) : gset NamespacedName :=
  list_to_set (event_objects e ≫= fun m => owner_requests lso_group kind (om_Namespace m) (om_OwnerReferences m)).

(** A predicate in front of a handler. *)
Definition watch_event (e : ObjEvent ObjectMeta) : WatchEvent :=
  match e with OnGeneric o => GenericEvent o | OnCreate o => CreateEvent o
             | OnUpdate old new => UpdateEvent old new | OnDelete o => DeleteEvent o end.
Definition filtered (components : list string) (h : ObjEvent ObjectMeta -> gset NamespacedName)
  (e : ObjEvent ObjectMeta) : gset NamespacedName :=
  if EnqueueOnlyLabeledSubcomponents components (watch_event e) then h e else ∅.

(** ** The operator *)

(** *** localvolume_controller.go: SetupWithManager *)

Definition lv_daemonset_watch : ObjEvent ObjectMeta -> gset NamespacedName := EnqueueRequestForOwner LocalVolumeKind.
Definition lv_class_watch (owners : OwnerMap) : ObjEvent PersistentVolume -> gset NamespacedName :=
  EnqueueRequestsFromMapFunc (fun pv => GetStorageClassOwners owners (pv_StorageClassName pv)).
Definition lv_volume_watch : ObjEvent PersistentVolume -> gset NamespacedName :=
  EnqueueRequestsFromMapFunc (requests_for_owner LocalVolumeKind).

(** *** localvolumeset_controller.go: SetupWithManager *)

Definition lvset_daemonset_watch : ObjEvent ObjectMeta -> gset NamespacedName :=
  filtered [DiskMakerName; ProvisionerName] (EnqueueRequestForOwner LocalVolumeSetKind).
Definition lvset_class_watch (owners : OwnerMap) : ObjEvent PersistentVolume -> gset NamespacedName :=
  EnqueueRequestsFromMapFunc (requests_for_class owners).
Definition lvset_volume_watch : ObjEvent PersistentVolume -> gset NamespacedName :=
  EnqueueRequestsFromMapFunc (requests_for_owner LocalVolumeSetKind).

(** *** localvolumediscovery_controller.go: SetupWithManager *)

Definition discovery_daemonset_watch : ObjEvent ObjectMeta -> gset NamespacedName :=
  EnqueueRequestForOwner "LocalVolumeDiscovery".

(** *** nodedaemon/reconcile.go: SetupWithManager *)

Definition enqueueOnlyNamespace : ObjEvent ObjectMeta -> gset NamespacedName :=
  EnqueueRequestsFromMapFunc (fun m => [{| nn_Namespace := om_Namespace m; nn_Name := "" |}]).
Definition enqueueAllLocalVolumeNamespaces (watchNamespace : string) : ObjEvent APIServer -> gset NamespacedName :=
  EnqueueRequestsFromMapFunc (fun _ => [{| nn_Namespace := watchNamespace; nn_Name := "" |}]).
Definition daemon_daemonset_watch : ObjEvent ObjectMeta -> gset NamespacedName :=
  filtered [DiskMakerName; ProvisionerName] enqueueOnlyNamespace.
Definition daemon_config_watch : ObjEvent ObjectMeta -> gset NamespacedName :=
  filtered [ProvisionerConfigMapName] enqueueOnlyNamespace.

(** ** The diskmaker *)

(** Both reconcilers watch the ConfigMap for owners of kind LocalVolume. *)
Definition set_config_watch : ObjEvent ObjectMeta -> gset NamespacedName := EnqueueRequestForOwner LocalVolumeKind.
Definition lv_config_watch : ObjEvent ObjectMeta -> gset NamespacedName := EnqueueRequestForOwner LocalVolumeKind.

(** The watch of volumes: the requests and the cache. *)
Definition volume_watch (isOwned : PersistentVolume -> bool) (rcName watchNamespace : string)
  (e : ObjEvent PersistentVolume) (c : VolumeCache) : list NamespacedName * VolumeCache :=
  match e with
  | OnGeneric pv | OnCreate pv => if isOwned pv then HandlePVChange rcName pv watchNamespace false c else ([], c)
  | OnUpdate _ pv => if isOwned pv then HandlePVChange rcName pv watchNamespace false c else ([], c)
  | OnDelete pv => if isOwned pv then HandlePVChange rcName pv watchNamespace true c else ([], c)
  end.
Definition set_volume_watch := volume_watch IsLocalVolumeSetPV.
Definition lv_volume_node_watch := volume_watch IsLocalVolumePV.

(** ** The cache of volumes follows the store

    The informer keeps the volumes it was told of and gives every change to the watch,
    later and in order; the reconciler meanwhile loads its configuration, once copies
    the informer's volumes into the cache, and runs for the rest on the cache as it
    finds it. *)

Lemma AddOrUpdatePV_eq pv c : AddOrUpdatePV pv c = <[pv_Name pv := pv]> c.
Proof. unfold AddOrUpdatePV. by destruct (c !! pv_Name pv). Qed.
Lemma RemovePV_eq pv c : RemovePV pv c = delete (pv_Name pv) c.
Proof. unfold RemovePV. destruct (c !! pv_Name pv) eqn:H; [done|]. symmetry. by apply delete_id. Qed.

Section cache.
Context {E : Env} (isOwned : PersistentVolume -> bool) (me ns : string).

(** The volumes the cache is for: those of this node's provisioner with an owner of
    the reconciler's kind. *)
Definition mine (pv : PersistentVolume) : bool := PVMatchesProvisioner pv me && isOwned pv.
Definition view (store : VolumeCache) : VolumeCache := filter (fun kv => mine kv.2 = true) store.

(** What can happen to a stored volume: the provisioner's mark and the kind of the
    owner stay. *)
Inductive changes (store : VolumeCache) : ObjEvent PersistentVolume -> VolumeCache -> Prop :=
  | changes_create pv : store !! pv_Name pv = None ->
      changes store (OnCreate pv) (<[pv_Name pv := pv]> store)
  | changes_update old pv : store !! pv_Name pv = Some old -> mine pv = mine old ->
      changes store (OnUpdate old pv) (<[pv_Name pv := pv]> store)
  | changes_delete pv : store !! pv_Name pv = Some pv ->
      changes store (OnDelete pv) (delete (pv_Name pv) store).

(** The informer's volumes, the changes it has not yet handed out, and the process. *)
Record CacheState := {
  cs_store : VolumeCache; cs_pending : list (ObjEvent PersistentVolume); cs_world : World }.

Definition rc_name (w : World) : string := rc_Name (m_rc (w_mem w)).
Definition handled (e : ObjEvent PersistentVolume) (w : World) : World :=
  set_mem (set_m_pvs (volume_watch isOwned (rc_name w) ns e (m_pvs (w_mem w))).2 (w_mem w)) w.

Inductive cache_step : CacheState -> CacheState -> Prop :=
  | step_change store e store' q w : changes store e store' ->
      cache_step (Build_CacheState store q w) (Build_CacheState store' (q ++ [e]) w)
  | step_handle store e q w :
      cache_step (Build_CacheState store (e :: q) w) (Build_CacheState store q (handled e w))
  | step_load store q w request nodeName r w' :
      ReloadRuntimeConfig request nodeName w = (r, w') -> (r = None -> rc_name w' = me) ->
      cache_step (Build_CacheState store q w) (Build_CacheState store q w')
  | step_sync store q w r w' : rc_name w = me ->
      (forall items, (klist KPV no_opts (w_est w)).1 = Ok items -> items ≡ₚ (map_to_list store).*2) ->
      syncCaches isOwned w = (r, w') ->
      cache_step (Build_CacheState store q w) (Build_CacheState store q w')
  | step_rest store q w w' : m_pvs (w_mem w') = m_pvs (w_mem w) -> rc_name w' = rc_name w ->
      m_cacheSynced (w_mem w') = m_cacheSynced (w_mem w) ->
      cache_step (Build_CacheState store q w) (Build_CacheState store q w').

(** A process that has just started. *)
Definition started (s : CacheState) : Prop :=
  cs_store s = ∅ /\ cs_pending s = [] /\ m_pvs (w_mem (cs_world s)) = ∅ /\ rc_name (cs_world s) = "" /\
  m_cacheSynced (w_mem (cs_world s)) = false.

(** *** Single events *)

Definition event_name (e : ObjEvent PersistentVolume) : string :=
  match e with OnGeneric pv | OnCreate pv | OnUpdate _ pv | OnDelete pv => pv_Name pv end.

(** What the event makes of the entry of its name, if it makes anything of it. *)
Definition verdict (e : ObjEvent PersistentVolume) : option (option PersistentVolume) :=
  match e with
  | OnGeneric pv | OnCreate pv | OnUpdate _ pv => if mine pv then Some (Some pv) else None
  | OnDelete pv => if mine pv then Some None else None
  end.

Definition handle (c : VolumeCache) (e : ObjEvent PersistentVolume) : VolumeCache :=
  (volume_watch isOwned me ns e c).2.
Definition replay (c : VolumeCache) (q : list (ObjEvent PersistentVolume)) : VolumeCache := foldl handle c q.

Lemma HandlePVChange_cache pv b c : me <> "" ->
  (HandlePVChange me pv ns b c).2 =
    if PVMatchesProvisioner pv me then (if b then delete (pv_Name pv) c else <[pv_Name pv := pv]> c) else c.
Proof.
  intros Hme. unfold HandlePVChange. rewrite decide_False by done. destruct (PVMatchesProvisioner pv me); [|done].
  cbn [negb]. rewrite AddOrUpdatePV_eq, RemovePV_eq.
  destruct (pv_Labels pv !! PVOwnerNameLabel); [|by destruct b].
  destruct (pv_Labels pv !! PVOwnerNamespaceLabel); by destruct b.
Qed.

Lemma handle_lookup c e n : me <> "" ->
  handle c e !! n = if decide (n = event_name e) then default (c !! n) (verdict e) else c !! n.
Proof.
  intros Hme. unfold handle, volume_watch, verdict, mine, event_name.
  destruct e as [pv|pv|old pv|pv]; destruct (isOwned pv); rewrite ?andb_true_r, ?andb_false_r;
    rewrite ?(HandlePVChange_cache pv _ c Hme); try (by case_decide);
    destruct (PVMatchesProvisioner pv me); try (by case_decide);
    case_decide as Hn; subst; cbn [default];
    rewrite ?lookup_insert_eq, ?lookup_delete_eq, ?lookup_insert_ne, ?lookup_delete_ne by done; done.
Qed.

Definition pending_names (q : list (ObjEvent PersistentVolume)) : list string := event_name <$> q.
Lemma replay_snoc c q e : replay c (q ++ [e]) = handle (replay c q) e.
Proof. unfold replay. by rewrite foldl_app. Qed.
Lemma pending_snoc q e n : n ∈ pending_names (q ++ [e]) <-> n ∈ pending_names q \/ n = event_name e.
Proof. unfold pending_names. rewrite fmap_app, elem_of_app. simpl. by rewrite list_elem_of_singleton. Qed.

(** Events either leave the entry of a name alone or decide it. *)
Lemma replay_decides q n : me <> "" ->
  (forall c, replay c q !! n = c !! n) \/ (n ∈ pending_names q /\ exists x, forall c, replay c q !! n = x).
Proof.
  intros Hme. induction q as [|e q IH] using rev_ind; [by left|]. rewrite pending_snoc.
  destruct (decide (n = event_name e)) as [Hn|Hn]; [destruct (verdict e) as [x|] eqn:Hv|].
  { right. split; [by right|]. exists x. intros c. rewrite replay_snoc, handle_lookup, decide_True, Hv by done. done. }
  all: assert (forall c, replay c (q ++ [e]) !! n = replay c q !! n) as Hr
    by (intros c; rewrite replay_snoc, handle_lookup by done; case_decide; [rewrite ?Hv|]; done).
  all: destruct IH as [IH|(Hin & x & IH)]; [left|right; split; [by left|]; exists x]; intros c; by rewrite Hr, IH.
Qed.

(** *** The copy of the informer's volumes *)

Definition copied (c : VolumeCache) (items : list PersistentVolume) : VolumeCache :=
  foldl (fun c pv => if mine pv then <[pv_Name pv := pv]> c else c) c items.

Definition same_but_cache (w w' : World) : Prop :=
  rc_name w' = rc_name w /\ m_cacheSynced (w_mem w') = m_cacheSynced (w_mem w).

Lemma cache_pvs_copied items w : rc_name w = me ->
  wp (cache_pvs isOwned items)
     (fun _ w' => m_pvs (w_mem w') = copied (m_pvs (w_mem w)) items /\ same_but_cache w w') w.
Proof.
  unfold cache_pvs, copied. revert w. induction items as [|pv items IH]; intros w Hw; [by apply wp_ret|].
  cbn [forM_]. apply wp_bind, wp_bind, wp_get_mem. cbn [foldl]. unfold mine at 2.
  change (rc_Name (m_rc (w_mem w))) with (rc_name w). rewrite Hw.
  destruct (PVMatchesProvisioner pv me), (isOwned pv); cbn [negb orb andb]; try (apply wp_ret; by apply IH).
  apply wp_put_mem. eapply wp_mono; [by apply IH|]. intros _ w' [Hp [H1 H2]]. rewrite Hp. cbn [set_mem w_mem].
  split; [|done]. cbn. by rewrite AddOrUpdatePV_eq.
Qed.

(** Copying all volumes of the informer overrides the cache with its view of them. *)
Lemma copied_app c l1 l2 : copied c (l1 ++ l2) = copied (copied c l1) l2.
Proof. unfold copied. by rewrite foldl_app. Qed.

Lemma copied_lookup items c n :
  copied c items !! n = c !! n \/ exists pv, pv ∈ items /\ mine pv = true /\ pv_Name pv = n /\ copied c items !! n = Some pv.
Proof.
  induction items as [|pv items IH] using rev_ind; [by left|]. rewrite copied_app. cbn [copied foldl].
  assert (forall pv', pv' ∈ items -> pv' ∈ (items ++ [pv])%list) as Hin by (intros; apply elem_of_app; by left).
  destruct (mine pv) eqn:Hm; [|destruct IH as [IH|(pv' & ? & ?)]; [by left|right; exists pv'; naive_solver]].
  destruct (decide (pv_Name pv = n)) as [<-|Hn].
  - right. exists pv. rewrite lookup_insert_eq. split; [apply elem_of_app; right; by left|done].
  - rewrite lookup_insert_ne by done. destruct IH as [IH|(pv' & ? & ?)]; [by left|right; exists pv'; naive_solver].
Qed.

Lemma copied_found items c pv : pv ∈ items -> mine pv = true -> is_Some (copied c items !! pv_Name pv).
Proof.
  intros (l1 & l2 & ->)%list_elem_of_split Hm. rewrite copied_app. cbn [copied foldl]. rewrite Hm.
  destruct (copied_lookup l2 (<[pv_Name pv := pv]> (copied c l1)) (pv_Name pv)) as [H|(pv' & _ & _ & _ & H)];
    unfold copied in H |- *; rewrite H; [rewrite lookup_insert_eq|]; done.
Qed.

(** *** The invariant *)

(** A cache from which the pending events lead to the informer's volumes. *)
Definition leads (c : VolumeCache) (q : list (ObjEvent PersistentVolume)) (store : VolumeCache) : Prop :=
  forall n, (replay c q !! n = None \/ replay c q !! n = view store !! n) /\
            (n ∈ pending_names q -> replay c q !! n = view store !! n).

Definition keyed (store : VolumeCache) : Prop := forall n pv, store !! n = Some pv -> pv_Name pv = n.

Record follows (s : CacheState) : Prop := {
  fo_keyed : keyed (cs_store s);
  fo_name : rc_name (cs_world s) = me \/
            rc_name (cs_world s) = "" /\ m_pvs (w_mem (cs_world s)) = ∅ /\ m_cacheSynced (w_mem (cs_world s)) = false;
  fo_leads : leads (m_pvs (w_mem (cs_world s))) (cs_pending s) (cs_store s);
  fo_empty : forall q1 q2, cs_pending s = (q1 ++ q2)%list -> leads ∅ q2 (cs_store s);
  fo_synced : m_cacheSynced (w_mem (cs_world s)) = true ->
              forall n, replay (m_pvs (w_mem (cs_world s))) (cs_pending s) !! n = view (cs_store s) !! n }.

Lemma view_lookup (store : VolumeCache) n : view store !! n = store !! n ≫= (fun pv => if mine pv then Some pv else None).
Proof.
  unfold view. rewrite map_lookup_filter. destruct (store !! n) as [pv|]; [|done]. simpl.
  case_guard as Hg; simpl in *; [by rewrite Hg|]. by destruct (mine pv).
Qed.

(** A change decides the entry of its name as the store does, if the entry was right. *)
Lemma changes_view (store : VolumeCache) e store' c n : me <> "" -> changes store e store' ->
  (c !! n = None \/ c !! n = view store !! n) ->
  (n <> event_name e -> handle c e !! n = c !! n /\ view store' !! n = view store !! n) /\
  (n = event_name e -> handle c e !! n = view store' !! n).
Proof.
  intros Hme Hch Hc. rewrite !view_lookup in *. split; intros Hn; rewrite handle_lookup by done.
  - rewrite decide_False by done. split; [done|].
    destruct Hch; simpl in Hn; by rewrite ?lookup_insert_ne, ?lookup_delete_ne by done.
  - rewrite decide_True by done. subst n.
    destruct Hch as [pv Hs|old pv Hs Hm|pv Hs]; simpl in *; rewrite ?lookup_insert_eq, ?lookup_delete_eq; rewrite Hs in Hc;
      simpl in *; try rewrite <- Hm in Hc; destruct (mine pv); try done; simpl; by destruct Hc.
Qed.

Lemma leads_change store e store' c q : me <> "" -> changes store e store' ->
  leads c q store -> leads c (q ++ [e]) store'.
Proof.
  intros Hme Hch Hl n. destruct (Hl n) as [H1 H2]. rewrite replay_snoc.
  destruct (changes_view store e store' (replay c q) n Hme Hch H1) as [Hd He].
  destruct (decide (n = event_name e)) as [Hn|Hn].
  { rewrite He by done. tauto. }
  destruct (Hd Hn) as [-> ->]. split; [done|]. rewrite pending_snoc. intros [?|?]; [by apply H2|done].
Qed.

Lemma leads_empty c store : (forall n, c !! n = None \/ c !! n = view store !! n) -> leads c [] store.
Proof. intros H n. split; [apply H|]. intros Hn. by apply elem_of_nil in Hn. Qed.

Lemma keyed_changes store e store' : changes store e store' -> keyed store -> keyed store'.
Proof.
  intros [pv _|old pv _ _|pv _] Hk n pv'; [| |rewrite lookup_delete_Some; intros [_ H]; by apply Hk];
    rewrite lookup_insert_Some; intros [[<- <-]|[_ H]]; [done|by apply Hk|done|by apply Hk].
Qed.

Lemma follows_change store e store' q w : me <> "" -> changes store e store' ->
  follows (Build_CacheState store q w) -> follows (Build_CacheState store' (q ++ [e]) w).
Proof.
  intros Hme Hch [Hk Hn Hl He Hs]. simpl in *. split; simpl; [by eapply keyed_changes|done|by eapply leads_change| |].
  - intros q1 q2 Hq. destruct q2 as [|e2 q2 _] using rev_ind.
    { apply leads_empty. intros n. left. apply lookup_empty. }
    rewrite app_assoc in Hq. apply app_inj_tail in Hq as [-> ->].
    eapply leads_change; [done..|]. by eapply He.
  - intros Hsy n. rewrite replay_snoc.
    destruct (changes_view store e store' (replay (m_pvs (w_mem w)) q) n Hme Hch) as [Hd Hh]; [right; by apply Hs|].
    destruct (decide (n = event_name e)) as [E1|E1]; [by apply Hh|]. destruct (Hd E1) as [-> ->]. by apply Hs.
Qed.

Lemma follows_handle store e q w : me <> "" ->
  follows (Build_CacheState store (e :: q) w) -> follows (Build_CacheState store q (handled e w)).
Proof.
  intros Hme [Hk Hn Hl He Hs]. simpl in *.
  destruct Hn as [Hn|(Hn & Hp & Hsy)].
  - assert (m_pvs (w_mem (handled e w)) = handle (m_pvs (w_mem w)) e) as Hc by (unfold handled; rewrite Hn; done).
    split; cbn [cs_store cs_pending cs_world]; [done|by left| | |]; rewrite ?Hc.
    + intros n. destruct (Hl n) as [H1 H2]. split; [done|]. intros Hin. apply H2. by right.
    + intros q1 q2 Hq. apply (He (e :: q1) q2). by rewrite Hq.
    + intros Hsy n. by apply (Hs Hsy).
  - assert (m_pvs (w_mem (handled e w)) = ∅) as Hc.
    { unfold handled. rewrite Hn, Hp. cbn. unfold volume_watch, HandlePVChange. by destruct e, (isOwned _). }
    split; cbn [cs_store cs_pending cs_world]; [done|by right| | |]; rewrite ?Hc.
    + by apply (He [e] q).
    + intros q1 q2 Hq. apply (He (e :: q1) q2). by rewrite Hq.
    + intros Hf. unfold handled in Hf. simpl in Hf. by rewrite Hsy in Hf.
Qed.

Lemma follows_world store q w w' : m_pvs (w_mem w') = m_pvs (w_mem w) ->
  m_cacheSynced (w_mem w') = m_cacheSynced (w_mem w) -> (rc_name w' = rc_name w \/ rc_name w' = me) ->
  follows (Build_CacheState store q w) -> follows (Build_CacheState store q w').
Proof.
  intros Hp Hc Hr [Hk Hn Hl He Hs]. simpl in *. split; simpl; rewrite ?Hp, ?Hc; try done.
  destruct Hr as [->| ->]; [done|by left].
Qed.

Lemma Reload_memory request nodeName w :
  wp (ReloadRuntimeConfig request nodeName)
     (fun r w' => m_pvs (w_mem w') = m_pvs (w_mem w) /\ m_cacheSynced (w_mem w') = m_cacheSynced (w_mem w) /\
                  (rc_name w' = rc_name w \/ r = None)) w.
Proof.
  unfold ReloadRuntimeConfig. apply wp_bind, wp_ask. intros [cm|err] en _; [|by apply wp_ret; eauto].
  apply wp_bind, wp_ask. intros [node|err] en' _; [|by apply wp_ret; eauto].
  destruct (load_volume_config _); [|by apply wp_ret; eauto]. apply wp_bind, wp_put_mem, wp_ret. simpl. eauto.
Qed.

Lemma follows_copied store q w items w' : me <> "" -> rc_name w = me -> items ≡ₚ (map_to_list store).*2 ->
  m_pvs (w_mem w') = copied (m_pvs (w_mem w)) items -> rc_name w' = me ->
  follows (Build_CacheState store q w) -> follows (Build_CacheState store q w').
Proof.
  intros Hme Hw Hit Hp Hw' [Hk Hn Hl He Hs]. simpl in *.
  assert (forall pv, pv ∈ items <-> store !! pv_Name pv = Some pv) as Hin.
  { intros pv. rewrite Hit, list_elem_of_fmap. split.
    - intros ([n pv'] & -> & H%elem_of_map_to_list). simpl. by rewrite (Hk _ _ H).
    - intros H. exists (pv_Name pv, pv). split; [done|]. by apply elem_of_map_to_list. }
  assert (forall n, replay (copied (m_pvs (w_mem w)) items) q !! n = view store !! n) as Hall.
  { intros n. destruct (Hl n) as [H1 H2].
    destruct (replay_decides q n Hme) as [Hid|(Hn' & x & Hx)]; [|rewrite Hx, <- (Hx (m_pvs (w_mem w))); by apply H2].
    rewrite Hid in H1 |- *. destruct (copied_lookup items (m_pvs (w_mem w)) n) as [Hc|(pv & Hpv & Hm & <- & ->)].
    - destruct (view store !! n) as [pv|] eqn:Hv; [|rewrite Hc; tauto].
      apply map_lookup_filter_Some in Hv as [Hst Hm]. pose proof (Hk _ _ Hst) as <-.
      destruct (copied_found items (m_pvs (w_mem w)) pv) as [pv' Hf]; [by apply Hin|done|]. rewrite Hf in Hc |- *.
      by destruct H1 as [H1|H1]; rewrite H1 in Hc.
    - symmetry. apply map_lookup_filter_Some. split; [by apply Hin|done]. }
  split; simpl; rewrite ?Hp; [done|by left| |done|].
  - intros n. split; [right|intros _]; by apply Hall.
  - intros _ n. by apply Hall.
Qed.

Lemma follows_sync store q w : me <> "" -> rc_name w = me ->
  (forall items, (klist KPV no_opts (w_est w)).1 = Ok items -> items ≡ₚ (map_to_list store).*2) ->
  follows (Build_CacheState store q w) ->
  wp (syncCaches isOwned) (fun _ w' => follows (Build_CacheState store q w')) w.
Proof.
  intros Hme Hw Hit Hf. unfold syncCaches. apply wp_bind, wp_ask. intros r en Hr. rewrite Hr in Hit. simpl in Hit.
  destruct r as [items|err].
  - apply wp_bind. eapply wp_mono; [by apply (cache_pvs_copied items (set_est en w))|].
    intros _ w' [Hp [Hn Hc]]. apply wp_bind, wp_put_mem, wp_ret.
    eapply (follows_copied store q w items); [done..|by apply Hit|done| |done]. unfold rc_name in *. simpl in *. by rewrite Hn.
  - apply wp_ret. eapply follows_world; [..|exact Hf]; [done|done|by left].
Qed.

Lemma follows_step s s' : me <> "" -> cache_step s s' -> follows s -> follows s'.
Proof.
  intros Hme [store e store' q w Hch|store e q w|store q w request nodeName r w' Hr Hl|store q w r w' Hw Hit Hs
    |store q w w' Hp Hn Hc] Hf.
  - by eapply follows_change.
  - by apply follows_handle.
  - pose proof (Reload_memory request nodeName w) as H. unfold wp in H. rewrite Hr in H. destruct H as (Hp & Hc & Hn).
    eapply follows_world; [done|done| |done]. destruct Hn as [Hn|Hn]; [by left|right; by apply Hl].
  - pose proof (follows_sync store q w Hme Hw Hit Hf) as H. unfold wp in H. by rewrite Hs in H.
  - eapply follows_world; [done|done|by left|done].
Qed.

Lemma follows_started s : started s -> follows s.
Proof.
  intros (Hst & Hq & Hp & Hn & Hs). split; rewrite ?Hst, ?Hq, ?Hp, ?Hs; [|by right| | |done].
  - intros n pv H. by rewrite lookup_empty in H.
  - apply leads_empty. intros n. left. apply lookup_empty.
  - intros q1 q2 Hq'. destruct q1; [|done]. simpl in Hq'. subst q2. apply leads_empty. intros n. left. apply lookup_empty.
Qed.

End cache.

(** Within the copy no such order holds: a volume deleted between the list of the
    volumes and its copy, by the watch that runs in another goroutine, comes back. *)
Lemma deleted_during_copy {E : Env} isOwned me ns pv w : me <> "" -> rc_name w = me -> mine isOwned me pv = true ->
  wp (cache_pvs isOwned [pv]) (fun _ w' => m_pvs (w_mem w') !! pv_Name pv = Some pv) (handled isOwned ns (OnDelete pv) w).
Proof.
  intros Hme Hw Hm. eapply wp_mono; [by apply (cache_pvs_copied isOwned me)|]. intros _ w' [-> _].
  cbn [copied foldl]. rewrite Hm. apply lookup_insert_eq.
Qed.

(** The watch looks at the new object alone: a volume that loses the label of its
    owner's kind stays in the cache as it was. *)
Lemma relabelled_stays isOwned rcName ns old pv c :
  isOwned pv = false -> volume_watch isOwned rcName ns (OnUpdate old pv) c = ([], c).
Proof. intros H. simpl. by rewrite H. Qed.

(** A request without a name, which the watch queues to have the configuration loaded,
    ends at the missing owner: nothing is loaded. *)
Lemma empty_request_loads_nothing {E : Env} symlinkLocation ns w err :
  let request := {| nn_Namespace := ns; nn_Name := "" |} in
  let unloaded := fun _ w' => m_rc (w_mem w') = m_rc (w_mem w) /\ m_pvs (w_mem w') = m_pvs (w_mem w) /\
                              m_cacheSynced (w_mem w') = m_cacheSynced (w_mem w) in
  (fst (kget KLVSet false request (w_est w)) = Err err -> wp (LvSet.Reconcile request) unloaded w) /\
  (fst (kget KLV false request (w_est w)) = Err err -> wp (Lv.Reconcile symlinkLocation request) unloaded w).
Proof.
  intros request unloaded. split; intros Hg.
  - unfold LvSet.Reconcile. apply wp_bind, wp_ask. intros r en Hr. rewrite Hr in Hg. simpl in Hg. subst r. by apply wp_ret.
  - unfold Lv.Reconcile. apply wp_bind, wp_put_mem, wp_bind, wp_ask. intros r en Hr. simpl in Hr. rewrite Hr in Hg.
    simpl in Hg. subst r. by apply wp_ret.
Qed.

(** ** Whom an event wakes *)

Lemma requests_for_owner_spec k n pv :
  n ∈ requests_for_owner (kind_name k) pv <-> owned k n pv.
Proof.
  rewrite owned_spec. unfold requests_for_owner. destruct n as [nns nname]. simpl.
  destruct (pv_Labels pv !! PVOwnerNameLabel) as [x|]; [|rewrite elem_of_nil; naive_solver].
  destruct (pv_Labels pv !! PVOwnerNamespaceLabel) as [y|]; [|rewrite elem_of_nil; naive_solver].
  destruct (pv_Labels pv !! PVOwnerKindLabel) as [z|]; [|rewrite elem_of_nil; naive_solver].
  case_decide; [rewrite list_elem_of_singleton|rewrite elem_of_nil]; naive_solver.
Qed.

(** The volume a diskmaker looks at in an event: an update's new object. *)
Definition current (e : ObjEvent PersistentVolume) : PersistentVolume :=
  match e with OnGeneric pv | OnCreate pv | OnUpdate _ pv | OnDelete pv => pv end.

Definition node_owner_kind (k : Kind) : PersistentVolume -> bool :=
  match k with KLV => IsLocalVolumePV | _ => IsLocalVolumeSetPV end.

Lemma volume_watch_requests k rcName ns e c n : owner_kind k = true -> rcName <> "" ->
  n ∈ (volume_watch (node_owner_kind k) rcName ns e c).1 <->
  owned k n (current e) /\ PVMatchesProvisioner (current e) rcName = true.
Proof.
  intros Hk Hrc. assert (node_owner_kind k (current e) = bool_decide (pv_Labels (current e) !! PVOwnerKindLabel = Some (kind_name k)))
    as Ho by by destruct k.
  assert (forall b, n ∈ (if node_owner_kind k (current e) then HandlePVChange rcName (current e) ns b c else ([], c)).1 <->
    owned k n (current e) /\ PVMatchesProvisioner (current e) rcName = true) as Hb.
  { intros b. rewrite owned_spec, Ho. destruct n as [nns nname]. case_bool_decide as Hl; simpl; [|rewrite elem_of_nil; naive_solver].
    unfold HandlePVChange. rewrite decide_False by done. destruct (PVMatchesProvisioner (current e) rcName); simpl;
      [|rewrite elem_of_nil; naive_solver].
    destruct (pv_Labels (current e) !! PVOwnerNameLabel) as [x|]; simpl; [|rewrite elem_of_nil; naive_solver].
    destruct (pv_Labels (current e) !! PVOwnerNamespaceLabel) as [y|]; simpl; [|rewrite elem_of_nil; naive_solver].
    rewrite list_elem_of_singleton. naive_solver. }
  destruct e; apply Hb.
Qed.

(** The watches of volumes of the operator and of a diskmaker, by the kind of owner. *)
Definition operator_volume_watch (k : Kind) : ObjEvent PersistentVolume -> gset NamespacedName :=
  match k with KLV => lv_volume_watch | _ => lvset_volume_watch end.
Definition node_volume_watch (k : Kind) (rcName watchNamespace : string)
  : ObjEvent PersistentVolume -> VolumeCache -> list NamespacedName * VolumeCache :=
  match k with KLV => lv_volume_node_watch rcName watchNamespace | _ => set_volume_watch rcName watchNamespace end.


(** ** The provisioner's ConfigMap *)

Lemma owner_requests_refs group kind ns refs n :
  (forall ref, ref ∈ refs -> is_Some (parse_group (or_APIVersion ref))) ->
  n ∈ owner_requests group kind ns refs <->
  exists ref, ref ∈ refs /\ or_Kind ref = kind /\ parse_group (or_APIVersion ref) = Some group /\
              n = {| nn_Namespace := ns; nn_Name := or_Name ref |}.
Proof.
  induction refs as [|ref refs IH]; intros Hp; simpl.
  { rewrite elem_of_nil. split; [done|]. intros (? & H & _). by apply elem_of_nil in H. }
  assert (is_Some (parse_group (or_APIVersion ref))) as [g Hg] by (apply Hp; by left). rewrite Hg.
  assert (forall r, r ∈ refs -> is_Some (parse_group (or_APIVersion r))) as Hp' by (intros; apply Hp; by right).
  apply IH in Hp'. case_decide as Hd; [rewrite elem_of_cons|]; rewrite Hp'; split.
  - intros [->|(r & ? & ? & ? & ?)]; [exists ref|exists r]; destruct Hd; subst; (split; [by constructor|done]).
  - intros (r & Hr & Hk & Hg' & ->). apply elem_of_cons in Hr as [->|Hr]; [by left|right; by exists r].
  - intros (r & ? & ?). exists r. split; [by right|done].
  - intros (r & Hr & Hk & Hg' & ->). apply elem_of_cons in Hr as [->|Hr]; [|by exists r].
    destruct Hd. split; [done|congruence].
Qed.

(** The kinds and versions that the API client fills in. *)
Definition typed (kind version : string) (t : TypeMeta) : Prop :=
  tm_Kind t = kind /\ tm_APIVersion t = lso_group ++s "/" ++s version.

Lemma typed_group kind version t : version = "v1" \/ version = "v1alpha1" -> typed kind version t ->
  parse_group (tm_APIVersion t) = Some lso_group.
Proof. intros [->| ->] [_ ->]; reflexivity. Qed.

Lemma aggregate_refs lvSets lvs ref :
  ref ∈ ag_ownerRefs (aggregate lvSets lvs) <->
  (exists s, s ∈ lvSets /\ ref = owner_ref (select_lvset s)) \/ (exists lv, lv ∈ lvs /\ ref = owner_ref (select_lv lv)).
Proof.
  unfold aggregate, extractLVSetInfo, extractLVInfo. cbn [ag_ownerRefs]. rewrite !extract_eq. cbn [di_ownerRefs].
  rewrite elem_of_app, !list_elem_of_fmap. setoid_rewrite list_elem_of_fmap.
  setoid_rewrite (sort_by_Permutation lvset_key lvSets). setoid_rewrite (sort_by_Permutation lv_key lvs). naive_solver.
Qed.

(** The provisioner's ConfigMap names every LocalVolume and every LocalVolumeSet of the
    namespace as its owners, but its changes wake the LocalVolumes alone, in both
    reconcilers of the diskmaker: the reconciler of LocalVolumeSets is given their names. *)
Lemma config_event_wakes lvSets lvs m n :
  Forall (fun s => typed LocalVolumeSetKind "v1alpha1" (lset_type s)) lvSets ->
  Forall (fun lv => typed LocalVolumeKind "v1" (lv_type lv)) lvs ->
  om_OwnerReferences m = ag_ownerRefs (aggregate lvSets lvs) ->
  let woken := exists lv, lv ∈ lvs /\ n = {| nn_Namespace := om_Namespace m; nn_Name := om_Name (lv_meta lv) |} in
  (n ∈ lv_config_watch (OnCreate m) <-> woken) /\ (n ∈ set_config_watch (OnCreate m) <-> woken).
Proof.
  intros Hs Hl Hm woken. rewrite Forall_forall in Hs. rewrite Forall_forall in Hl. assert (n ∈ lv_config_watch (OnCreate m) <-> woken) as H; [|by split].
  unfold lv_config_watch, EnqueueRequestForOwner. rewrite elem_of_list_to_set.
  cbn [event_objects mbind list_bind]. rewrite app_nil_r, Hm.
  rewrite owner_requests_refs.
  - setoid_rewrite aggregate_refs. split.
    + intros (ref & [(s & Hin & ->)|(lv & Hin & ->)] & Hk & _ & ->); [|by exists lv].
      destruct (Hs s Hin) as [Ht _]. simpl in Hk. rewrite Ht in Hk. discriminate Hk.
    + intros (lv & Hin & ->). exists (owner_ref (select_lv lv)). destruct (Hl lv Hin) as [Ht Hv].
      split; [by right; exists lv|]. repeat split; [done|]. eapply typed_group; [by left|done].
  - intros ref [(s & Hin & ->)|(lv & Hin & ->)]%aggregate_refs; simpl.
    + erewrite typed_group; [done|by right|by apply Hs].
    + erewrite typed_group; [done|by left|by apply Hl].
Qed.

(** ** On concrete inputs *)

Definition ex_me := "local-volume-provisioner-n1".
Definition ex_volume (name : string) (size : Z) : PersistentVolume :=
  let meta := set_annotations {[AnnProvisionedBy := ex_me]}
                (set_labels (list_to_map (owner_labels LocalVolumeSetKind "ns" "set")) (empty_meta "" name)) in
  {| pv_meta := meta; pv_Local := None; pv_ReclaimPolicy := ""; pv_ClaimRef := None;
     pv_VolumeMode := None; pv_StorageClassName := "sc"; pv_Capacity := size; pv_NodeAffinity := None;
     pv_MountOptions := []; pv_FsType := None; pv_Phase := "Available" |}.


(** A volume is created, copied and changed, and its two events are handled after. *)
Definition ex_listing : Static := {|
  st_get := node_get (ex_lvset None None);
  st_list := fun k _ => match k return list (Obj k) with KPV => [ex_volume "local-pv-1" 5] | _ => [] end;
  st_fault := fun _ => None; st_exec := fun _ _ => ("", None); st_file := fun _ => Ok ""; st_clock := 0 |}.

