(* ===== verification/Startup.v ===== *)
(** * The start of the operator and of the diskmaker

    cmd/local-storage-operator/main.go and cmd/diskmaker-manager/main.go and manager.go,
    with the leader election of pkg/utils/leaderelection.go and of library-go, over the
    steps of [Programs].  Flags, loggers, schemes and signal handlers are not modelled. *)
From stdpp Require Import base list strings gmap.
From Stdlib Require Import ZArith Lia String.
From S2P Require Import Prelude GoLib Types World Sys Envs Common Metrics Discovery Programs LvSetCtl.

Open Scope string_scope.

(** ** Leader election *)

Record LeaderElection := {
  le_Disable : bool; le_Namespace : string; le_Name : string;
  le_LeaseDuration : Z; le_RenewDeadline : Z; le_RetryPeriod : Z }.

Record InfrastructureStatus := { is_ControlPlaneTopology : string }.
Definition SingleReplicaTopologyMode := "SingleReplica".

(** [set_times l r p c]: the three times of a configuration. *)
Definition set_times (lease renew retry : Z) (c : LeaderElection) : LeaderElection :=
  {| le_Disable := le_Disable c; le_Namespace := le_Namespace c; le_Name := le_Name c;
     le_LeaseDuration := lease; le_RenewDeadline := renew; le_RetryPeriod := retry |}.
Definition set_names (namespace name : string) (c : LeaderElection) : LeaderElection :=
  {| le_Disable := le_Disable c; le_Namespace := namespace; le_Name := name;
     le_LeaseDuration := le_LeaseDuration c; le_RenewDeadline := le_RenewDeadline c; le_RetryPeriod := le_RetryPeriod c |}.

Definition or_default (d default : Z) : Z := if decide (d = 0%Z) then default else d.

Section leader_election.
Context {E : Env} (GetClusterInfraStatus : M (Res (option InfrastructureStatus))).

Definition service_account_namespace := "/var/run/secrets/kubernetes.io/serviceaccount/namespace".

Definition LeaderElectionDefaulting (config : LeaderElection) (defaultNamespace defaultName : string) : M LeaderElection :=
  let ret := set_times (or_default (le_LeaseDuration config) (137 * second))
               (or_default (le_RenewDeadline config) (107 * second))
               (or_default (le_RetryPeriod config) (26 * second)) config in
  let name := if decide (le_Name ret = "") then defaultName else le_Name ret in
  if decide (le_Namespace ret = "") then
    if decide (defaultNamespace <> "") then mret (set_names defaultNamespace name ret)
    else
      r ← ReadFile service_account_namespace;
      mret (match r with
            | Ok data => if decide (trim_space data <> "") then set_names (trim_space data) name ret
                         else set_names "" name ret
            | Err _ => set_names "" name ret
            end)
  else mret (set_names (le_Namespace ret) name ret).

Definition LeaderElectionSNOConfig (config : LeaderElection) : LeaderElection :=
  set_times (270 * second) (240 * second) (60 * second) config.

Definition GetLeaderElectionConfig (enabled : bool) : M LeaderElection :=
  defaultLeaderElection ← LeaderElectionDefaulting
    {| le_Disable := negb enabled; le_Namespace := ""; le_Name := "";
       le_LeaseDuration := 0; le_RenewDeadline := 0; le_RetryPeriod := 0 |} "" "";
  if enabled then
    infra ← GetClusterInfraStatus;
    mret (match infra with
          | Ok (Some infra) =>
              if decide (is_ControlPlaneTopology infra = SingleReplicaTopologyMode)
              then LeaderElectionSNOConfig defaultLeaderElection else defaultLeaderElection
          | _ => defaultLeaderElection
          end)
  else mret defaultLeaderElection.
End leader_election.

(** client-go's [NewLeaderElector] on the times; the jitter factor is 1.2. *)
Definition elector_accepts (lease renew retry : Z) : bool :=
  negb (lease <=? renew)%Z && negb (renew <=? 12 * retry / 10)%Z
  && negb (lease <? 1)%Z && negb (renew <? 1)%Z && negb (retry <? 1)%Z.

(** A lease of [lease] that is renewed until [renew] every [retry]: the clock skew it
    stands, the tries to renew it, how long the API server may be away, and how long it
    takes to get the lease of a leader that died. *)
Definition clock_skew (lease renew : Z) : Z := lease - renew.
Definition retries (renew retry : Z) : Z := renew / retry.
Definition downtime_tolerance (renew retry : Z) : Z := (retries renew retry - 1) * retry.
Definition worst_acquisition (lease retry : Z) : Z := lease + retry.

Section leader_facts.
Context {E : Env}.

Lemma wp_Defaulting d w :
  wp (LeaderElectionDefaulting {| le_Disable := d; le_Namespace := ""; le_Name := "";
       le_LeaseDuration := 0; le_RenewDeadline := 0; le_RetryPeriod := 0 |} "" "")
     (fun c _ => le_Disable c = d /\ le_Name c = "" /\ le_LeaseDuration c = (137 * second)%Z /\
                 le_RenewDeadline c = (107 * second)%Z /\ le_RetryPeriod c = (26 * second)%Z) w.
Proof.
  unfold LeaderElectionDefaulting; simpl. apply wp_bind, wp_reads; [apply reads_ReadFile|]. intros r e _.
  apply wp_ret. destruct r as [data|err]; [|done]. by destruct (decide (trim_space data <> "")).
Qed.
End leader_facts.


(** ** cmd/local-storage-operator/main.go *)

(** The exit code of a program that stopped: a panic ends a Go program with 2. *)
Definition exit_code (stop : option Stop) : Z :=
  match stop with None => 0 | Some (Fails _) => 1 | Some (Panics _) => 2 | Some (Exits code _) => code end.

Definition LeaderElectionID := "98d5776d.storage.openshift.io".

Section operator.
Context {Out : Type} (outside : Call -> Out -> option GoErr * Out) {E : Env}.
Context (GetClusterInfraStatus : M (Res (option InfrastructureStatus))).

(** [GetWatchNamespace] as a step. *)
Definition watch_namespace : Step (Out := Out) :=
  fails (match GetWatchNamespace with Ok _ => None | Err e => Some e end).

(** The operator's two clientsets: an error is a panic. *)
Definition newAPIUpdater : Step := call_or outside Panics CNewClientset.

Definition operator_controller (name kind : string) : ControllerInfo :=
  {| ci_Name := name; ci_For := kind; ci_Volumes := None; ci_Links := None |}.
(** The default name of a controller. *)
Definition default_name (kind : string) : string := to_lower kind.

Definition LocalVolume_SetupWithManager : Step :=
  in_order [newAPIUpdater; Complete outside (operator_controller "local-storage-operator" LocalVolumeKind)].
Definition LocalVolumeDiscovery_SetupWithManager : Step :=
  in_order [watch_namespace; Complete outside (operator_controller (default_name "LocalVolumeDiscovery") "LocalVolumeDiscovery")].
Definition LocalVolumeSet_SetupWithManager : Step :=
  in_order [newAPIUpdater; call outside (CIndexField pvStorageClassField);
            Complete outside (operator_controller (default_name LocalVolumeSetKind) LocalVolumeSetKind)].
Definition Daemon_SetupWithManager : Step :=
  in_order [watch_namespace; Complete outside (operator_controller "localvolumesetdaemon-controller" LocalVolumeKind)].

Definition operator_options (namespace metricsAddr probeAddr : string) (enableLeaderElection : bool) (le : LeaderElection)
  : ManagerOptions :=
  {| mo_DefaultNamespaces := [namespace]; mo_MetricsBindAddress := metricsAddr; mo_HealthProbeBindAddress := probeAddr;
     mo_LeaderElection := enableLeaderElection; mo_LeaderElectionID := LeaderElectionID;
     mo_LeaseDuration := Some (le_LeaseDuration le); mo_RenewDeadline := Some (le_RenewDeadline le);
     mo_RetryPeriod := Some (le_RetryPeriod le) |}.

(** The exit code and what was done; 0 when the manager was stopped. *)
Definition main (metricsAddr probeAddr : string) (enableLeaderElection : bool) (b : Boot (Out := Out))
  : M (Z * Boot (Out := Out)) :=
  match GetWatchNamespace with
  | Err _ => mret (1%Z, b)
  | Ok namespace =>
      match call_or outside (Exits 1) CGetConfig b with
      | (Some stop, b) => mret (exit_code (Some stop), b)
      | (None, b) =>
          le ← GetLeaderElectionConfig GetClusterInfraStatus enableLeaderElection;
          let (stop, b) := in_order
            [call outside (CNewManager (operator_options namespace metricsAddr probeAddr enableLeaderElection le));
             LocalVolume_SetupWithManager; LocalVolumeDiscovery_SetupWithManager;
             LocalVolumeSet_SetupWithManager; Daemon_SetupWithManager;
             call outside (CHealthz "healthz"); call outside (CReadyz "readyz"); call outside CStart] b in
          mret (exit_code stop, b)
      end
  end.

(** The reference: what the operator asks for, in order. *)
Definition operator_plan (namespace metricsAddr probeAddr : string) (enable : bool) (le : LeaderElection) : list Call :=
  [CNewManager (operator_options namespace metricsAddr probeAddr enable le);
   CNewClientset; CComplete (operator_controller "local-storage-operator" LocalVolumeKind);
   CComplete (operator_controller "localvolumediscovery" "LocalVolumeDiscovery");
   CNewClientset; CIndexField pvStorageClassField;
   CComplete (operator_controller "localvolumeset" LocalVolumeSetKind);
   CComplete (operator_controller "localvolumesetdaemon-controller" LocalVolumeKind);
   CHealthz "healthz"; CReadyz "readyz"; CStart].
(** What becomes of an error: [GetConfigOrDie] exits, a clientset how. *)
Definition operator_stop (c : Call) : GoErr -> Stop :=
  match c with CNewClientset => Panics | CGetConfig => Exits 1 | _ => Fails end.

Lemma default_names : default_name LocalVolumeSetKind = "localvolumeset" /\
  default_name LocalVolumeKind = "localvolume" /\ default_name "LocalVolumeDiscovery" = "localvolumediscovery".
Proof. vm_compute. auto. Qed.
End operator.

(** A run against a plan: it makes the calls of the plan, no more after the first that
    fails, and stops as that one does, or with [last] when none failed. *)
Definition follows {Out} (outside : Call -> Out -> option GoErr * Out) (how : Call -> GoErr -> Stop)
  (r : option Stop * Boot (Out := Out)) (plan : list Call) (last : option Stop) (b : Boot) : Prop :=
  let '(e, cs, o) := play outside plan (bt_out b) in
  r.1 = match e with Some _ => stops how e | None => last end /\ bt_calls r.2 = (bt_calls b ++ cs)%list /\ bt_out r.2 = o.

Section plans.
Context {Out : Type} (outside : Call -> Out -> option GoErr * Out) (how : Call -> GoErr -> Stop).

Lemma follows_nil b : follows outside how (None, b) [] None b.
Proof. unfold follows. simpl. by rewrite app_nil_r. Qed.

Lemma follows_last step steps s b :
  step b = (Some s, b) -> follows outside how (in_order (step :: steps) b) [] (Some s) b.
Proof. intros H. unfold follows. simpl. rewrite H. simpl. by rewrite app_nil_r. Qed.

Lemma follows_call (stop : GoErr -> Stop) c steps plan last b :
  stop = how c ->
  (forall o, follows outside how (in_order steps (called c o b)) plan last (called c o b)) ->
  follows outside how (in_order (call_or outside stop c :: steps) b) (c :: plan) last b.
Proof.
  intros -> H. unfold follows in *. simpl. unfold call_or.
  destruct (outside c (bt_out b)) as [[e|] o]; simpl; [by repeat split|]. specialize (H o). simpl in H.
  destruct (play outside plan o) as [[r cs] o']. by rewrite <- app_assoc in H.
Qed.

Lemma in_order_app l1 l2 b :
  in_order (l1 ++ l2)%list b = match in_order (Out := Out) l1 b with (Some s, b) => (Some s, b) | (None, b) => in_order l2 b end.
Proof. revert b. induction l1 as [|st l1 IH]; intros b; simpl; [done|]. destruct (st b) as [[s|] b']; [done|apply IH]. Qed.

(** Nested sequences are flat ones. *)
Lemma follows_nested l1 l2 plan last b :
  follows outside how (in_order (l1 ++ l2)%list b) plan last b ->
  follows outside how (in_order (in_order l1 :: l2) b) plan last b.
Proof. by rewrite in_order_app. Qed.

Lemma follows_pass step steps plan last b :
  step b = (None, b) -> follows outside how (in_order steps b) plan last b ->
  follows outside how (in_order (step :: steps) b) plan last b.
Proof. intros H. simpl. by rewrite H. Qed.

Lemma follows_name name steps plan last b :
  name ∉ bt_used b -> follows outside how (in_order steps (use_name name b)) plan last (use_name name b) ->
  follows outside how (in_order (checkName name :: steps) b) plan last b.
Proof. intros Hn H. simpl. unfold checkName. by rewrite decide_False. Qed.

Lemma follows_fresh f steps plan last b :
  follows outside how (in_order (f (bt_next b) :: steps) (take_identity b)) plan last (take_identity b) ->
  follows outside how (in_order (fresh f :: steps) b) plan last b.
Proof. done. Qed.
End plans.

(** Follows a plan step by step; the names must be new. *)
Ltac follow_plan :=
  repeat first
    [ apply follows_nil
    | apply follows_call; [reflexivity|intros ?]
    | apply follows_nested; cbn [app]
    | apply follows_name; [cbn [called use_name take_identity bt_used]; set_solver|]
    | apply follows_fresh; cbv beta
    | apply follows_pass; [done|] ].

Lemma operator_follows {Out} (outside : Call -> Out -> option GoErr * Out) {E : Env}
  (ns metricsAddr probeAddr : string) (enable : bool) (le : LeaderElection) (b : Boot) :
  GetWatchNamespace = Ok ns -> bt_used b = ∅ ->
  follows outside operator_stop (in_order
    [call outside (CNewManager (operator_options ns metricsAddr probeAddr enable le));
     LocalVolume_SetupWithManager outside; LocalVolumeDiscovery_SetupWithManager outside;
     LocalVolumeSet_SetupWithManager outside; Daemon_SetupWithManager outside;
     call outside (CHealthz "healthz"); call outside (CReadyz "readyz"); call outside CStart] b)
    (operator_plan ns metricsAddr probeAddr enable le) None b.
Proof.
  intros Hns Hb. destruct default_names as (H1 & H2 & H3).
  unfold operator_plan, LocalVolume_SetupWithManager, LocalVolumeDiscovery_SetupWithManager,
    LocalVolumeSet_SetupWithManager, Daemon_SetupWithManager, newAPIUpdater, watch_namespace, Complete, fails, call.
  rewrite Hns, H1, H3. cbn [fmap ci_Name operator_controller].
  follow_plan.
Qed.

(** C26: the operator starts as planned, whatever of it fails: without a namespace it
    asks for nothing; otherwise it makes, in order, the calls of the plan up to the first
    that fails, and ends with 0 when none failed, with a panic when a clientset did, with
    1 otherwise; so it never runs without one of its controllers, and no controller is
    refused for its name. *)
Theorem operator_starts {Out : Type} (outside : Call -> Out -> option GoErr * Out) {E : Env}
  (infra : M (Res (option InfrastructureStatus))) (metricsAddr probeAddr : string) (enable : bool)
  (b : Boot) (w : World) (Hb : bt_used b = ∅) :
  wp (main outside infra metricsAddr probeAddr enable b) (fun '(code, b') w' =>
    match GetWatchNamespace with
    | Err _ => code = 1%Z /\ b' = b
    | Ok namespace =>
        let le := (GetLeaderElectionConfig infra enable w).1 in
        let '(failed, cs, o) := play outside (CGetConfig :: operator_plan namespace metricsAddr probeAddr enable le) (bt_out b) in
        code = exit_code (stops operator_stop failed) /\ bt_calls b' = (bt_calls b ++ cs)%list /\ bt_out b' = o /\
        (code = 0%Z <-> CStart ∈ cs /\ failed = None)
    end) w.
Proof.
  unfold main. destruct GetWatchNamespace as [ns|err] eqn:Hns; [|by apply wp_ret].
  destruct (call_or outside (Exits 1) CGetConfig b) as [stop b1] eqn:Hc. unfold call_or in Hc.
  destruct (outside CGetConfig (bt_out b)) as [[e|] o] eqn:Ho; injection Hc as <- <-; simpl fmap; cbv iota.
  - apply wp_ret. cbv zeta. cbn [play]. rewrite Ho. do 3 (split; [done|]). split; [done|by intros [_ ?]].
  - apply wp_bind. eapply wp_mono; [apply wp_self|]. intros le w' Hle. rewrite Hle. cbv zeta. cbn [fst]. pose proof (operator_follows outside ns metricsAddr probeAddr enable le
      (called CGetConfig o b) Hns Hb) as H. cbv zeta in H. unfold follows in H.
    destruct (in_order _ (called CGetConfig o b)) as [stop b2]. apply wp_ret. cbn [play]. rewrite Ho.
    pose proof (play_spec outside (operator_plan ns metricsAddr probeAddr enable le) o) as Hs.
    cbn [called bt_out bt_calls] in H. destruct (play outside _ o) as [[r cs] o']. simpl in H.
    destruct H as (-> & -> & ->). rewrite <- app_assoc. split; [by destruct r|]. do 2 (split; [done|]).
    destruct r as [[c e]|]; simpl; [|by subst cs; unfold operator_plan; set_solver].
    split; [|by intros [_ ?]]. by destruct c.
Qed.

(** ** cmd/diskmaker-manager *)

(** The commands of main.go: two of them are the same program. *)
Inductive Command := StartManager | StartDeviceDiscovery.
Definition commands : list (string * Command) :=
  [("lv-controller", StartManager); ("lv-manager", StartManager); ("discover", StartDeviceDiscovery)].

(** The collectors of the diskmaker: the gauges of [Metrics], by name, and the collector
    of the node's device links. *)
Inductive LocalCollector := Gauge (name : string) | DeviceLinkCollector (namespace nodeName : string).
Definition LVDMetricsList : list LocalCollector := [Gauge "lso_discovery_disk_count"].
Definition LVMetricsList : list LocalCollector :=
  Gauge <$> ["lso_lvset_provisioned_PV_count"; "lso_lvset_unmatched_disk_count"; "lso_lvset_orphaned_symlink_count";
             "lso_lvset_deletion_timestamp"; "lso_lv_provisioned_PV_count"; "lso_lv_orphaned_symlink_count";
             "lso_lv_missing_device_path_count"].

Section diskmaker.
Context {Out Registry : Type} (outside : Call -> Out -> option GoErr * Out) {E : Env}.
Context (Register : LocalCollector -> Registry -> option GoErr * Registry).
Context (InstrumentMetricHandler : Registry -> Registry) (can_listen : string -> bool).

(** The provisioner's [SetupClient] ends the process by [klog.Fatalf]. *)
Definition setup_client : Step := call_or outside (Exits 255) CSetupClient.

(** The runtime configuration of a reconciler, by what is made for it alone: its event
    recorder's component and a fresh cache of volumes. *)
Record RuntimeConfigId := { ri_Component : string; ri_Cache : nat }.
Definition getRuntimeConfig (componentName : string) (f : RuntimeConfigId -> Step (Out := Out)) : Step :=
  fresh (fun cache => in_order
    [setup_client; setup_client; f {| ri_Component := componentName; ri_Cache := cache |}]).

(** [NewDeviceLinkHandler] needs the node's name, a variable of its package. *)
Definition NewDeviceLinkHandler (nodeName : string) : Step (Out := Out) :=
  fails (if decide (nodeName = "") then Some (Errorf "node name is required for DeviceLinkHandler") else None).

Definition node_controller (kind : string) (rc : RuntimeConfigId) (pvLinkCache : nat) : ControllerInfo :=
  {| ci_Name := default_name kind; ci_For := kind; ci_Volumes := Some (ri_Cache rc); ci_Links := Some pvLinkCache |}.

(** What making the two reconcilers and handing them to the manager can fail of; the
    watches that [WithManager] sets up are in [Watches]. *)
Definition NewLocalVolumeReconciler (nodeName : string) : Step := NewDeviceLinkHandler nodeName.
Definition NewLocalVolumeSetReconciler (nodeName : string) : Step := NewDeviceLinkHandler nodeName.
Definition LocalVolume_WithManager (rc : RuntimeConfigId) (pvLinkCache : nat) : Step :=
  Complete outside (node_controller LocalVolumeKind rc pvLinkCache).
Definition LocalVolumeSet_WithManager (rc : RuntimeConfigId) (pvLinkCache : nat) : Step :=
  Complete outside (node_controller LocalVolumeSetKind rc pvLinkCache).

Definition diskmaker_options (namespace : string) : ManagerOptions :=
  {| mo_DefaultNamespaces := [namespace]; mo_MetricsBindAddress := "0"; mo_HealthProbeBindAddress := "";
     mo_LeaderElection := false; mo_LeaderElectionID := ""; mo_LeaseDuration := None; mo_RenewDeadline := None;
     mo_RetryPeriod := None |}.

Definition serve_metrics (namespace localNodeName : string) (r : Registry) : Step (Out := Out) :=
  let '(err, _, _) := Build Register InstrumentMetricHandler can_listen
    (WithCollectors (LVMetricsList ++ [DeviceLinkCollector namespace localNodeName])%list NewConfigBuilder) r in
  fails (Wrap "failed to configure local metrics" <$> err).

Definition startManager (r : Registry) : Step :=
  fun b =>
  match GetWatchNamespace with
  | Err err => (Some (Fails err), b)
  | Ok namespace =>
      let localNodeName := GetNodeNameEnvVar in
      if decide (localNodeName = "") then
        (Some (Fails (Errorf "MY_NODE_NAME must be set for diskmaker-manager to scope LocalVolumeDeviceLink cache to the local node")), b)
      else
        in_order
          [call_or outside (Exits 1) CGetConfig; call outside (CNewManager (diskmaker_options namespace));
           fresh (fun pvLinkCache => in_order
             [call outside (CAddRunnable pvLinkCache);
              getRuntimeConfig "localvolume-symlink-controller" (fun rc =>
                in_order [NewLocalVolumeReconciler GetNodeNameEnvVar; LocalVolume_WithManager rc pvLinkCache]);
              getRuntimeConfig "localvolumeset-symlink-controller" (fun rc =>
                in_order [NewLocalVolumeSetReconciler GetNodeNameEnvVar; LocalVolumeSet_WithManager rc pvLinkCache]);
              serve_metrics namespace localNodeName r;
              call outside CStart])] b
  end.

(** The reference, for the first fresh identity [n]: the index of device links is [n]. *)
Definition diskmaker_plan (namespace : string) (n : nat) : list Call :=
  [CGetConfig; CNewManager (diskmaker_options namespace); CAddRunnable n;
   CSetupClient; CSetupClient;
   CComplete {| ci_Name := "localvolume"; ci_For := LocalVolumeKind; ci_Volumes := Some (S n); ci_Links := Some n |};
   CSetupClient; CSetupClient;
   CComplete {| ci_Name := "localvolumeset"; ci_For := LocalVolumeSetKind; ci_Volumes := Some (S (S n)); ci_Links := Some n |}].
(** What becomes of an error: [GetConfigOrDie] and [klog.Fatalf] exit. *)
Definition diskmaker_stop (c : Call) : GoErr -> Stop :=
  match c with CSetupClient => Exits 255 | CGetConfig => Exits 1 | _ => Fails end.
Definition metrics_error (namespace localNodeName : string) (r : Registry) : option GoErr :=
  (Build Register InstrumentMetricHandler can_listen
     (WithCollectors (LVMetricsList ++ [DeviceLinkCollector namespace localNodeName])%list NewConfigBuilder) r).1.1.

Lemma serve_metrics_eq ns node r b :
  serve_metrics ns node r b = (Fails <$> (Wrap "failed to configure local metrics" <$> metrics_error ns node r), b).
Proof. unfold serve_metrics, metrics_error. by destruct (Build _ _ _ _ r) as [[err r'] addr]. Qed.
End diskmaker.

(** C27: the diskmaker starts as planned, whatever of it fails: without a namespace or
    without the name of its node it asks for nothing; otherwise it makes, in order, the
    calls of the plan up to the first that fails.  The index of device links is added to
    the manager before the reconcilers, which share it and have each a cache of volumes
    of its own; the manager starts only after both controllers and the metrics. *)
Theorem diskmaker_starts {Out Registry : Type} (outside : Call -> Out -> option GoErr * Out) {E : Env}
  (Register : LocalCollector -> Registry -> option GoErr * Registry) (Instrument : Registry -> Registry)
  (can_listen : string -> bool) (r : Registry) (b : Boot) (Hb : bt_used b = ∅) :
  let run := startManager outside Register Instrument can_listen r b in
  match GetWatchNamespace with
  | Err err => run = (Some (Fails err), b)
  | Ok namespace =>
      if decide (GetNodeNameEnvVar = "") then (exists err, run = (Some (Fails err), b))
      else
        let err := metrics_error Register Instrument can_listen namespace GetNodeNameEnvVar r in
        follows outside diskmaker_stop run
          (diskmaker_plan namespace (bt_next b) ++ match err with None => [CStart] | Some _ => [] end)%list
          (Fails <$> (Wrap "failed to configure local metrics" <$> err)) b
  end.
Proof.
  unfold startManager. cbv zeta. destruct GetWatchNamespace as [ns|err] eqn:Hns; [|done].
  case_decide as Hn; [eauto|]. destruct default_names as (H1 & H2 & _).
  unfold getRuntimeConfig, NewLocalVolumeReconciler, NewLocalVolumeSetReconciler, LocalVolume_WithManager,
    LocalVolumeSet_WithManager, NewDeviceLinkHandler, node_controller, setup_client, fails, call, Complete.
  rewrite H1, H2, decide_False by done. unfold diskmaker_plan. cbn [ci_Name ri_Cache].
  pose proof (serve_metrics_eq (Out := Out) Register Instrument can_listen ns GetNodeNameEnvVar r) as Hm.
  destruct (metrics_error Register Instrument can_listen ns GetNodeNameEnvVar r) as [err|]; cbn [app fmap]; follow_plan.
  apply follows_last. by rewrite Hm.
Qed.

(** ** Concrete runs *)

(** The environment variables of the two programs. *)
Definition with_getenv (E : Env) (vars : string -> option string) : Env := {|
  est := est; kget := kget; klist := klist; kcreate := kcreate; kupdate := kupdate; kstatus := kstatus;
  kdelete := kdelete; sys_fault := sys_fault; read_file := read_file; exec_cmd := exec_cmd; clock := clock;
  new_uuid := new_uuid; map_order := map_order; map_order_perm := map_order_perm; getenv := vars;
  delete_pvs := delete_pvs; mount_list := mount_list; get_volume_mode := get_volume_mode;
  get_block_capacity := get_block_capacity; get_fs_capacity := get_fs_capacity;
  load_volume_config := load_volume_config; match_node_selector_terms := match_node_selector_terms;
  parse_quantity := parse_quantity; read_template := read_template; volume_config_data := volume_config_data;
  est_read := est_read; est_read_po := est_read_po; kget_read := kget_read; klist_read := klist_read;
  sys_fault_read := sys_fault_read; read_file_read := read_file_read; exec_cmd_read := exec_cmd_read;
  clock_read := clock_read; new_uuid_read := new_uuid_read; map_order_read := map_order_read;
  mount_list_read := mount_list_read; get_volume_mode_read := get_volume_mode_read;
  get_block_capacity_read := get_block_capacity_read; get_fs_capacity_read := get_fs_capacity_read |}.
Definition pod_vars (x : string) : option string :=
  if String.eqb x "WATCH_NAMESPACE" then Some "ns" else if String.eqb x "MY_NODE_NAME" then Some "n1" else None.
Definition pod_env : Env := with_getenv (static_env quiet) pod_vars.
Definition pod_world : World (E := pod_env) := Build_World (E := pod_env) ∅ (tt : est (Env := pod_env)) empty_mem [].

(** Outsides that count the calls and fail the [k]-th, or none. *)
Definition failing_at (k : nat) (c : Call) (n : nat) : option GoErr * nat :=
  (if decide (n = k) then Some (Errorf "no") else None, S n).
Definition first_boot : Boot := {| bt_used := ∅; bt_next := 0; bt_calls := []; bt_out := 0 |}.

(** The cluster's topology is a single replica's: the manager gets the longer times. *)
Definition single_node : M (E := pod_env) (Res (option InfrastructureStatus)) :=
  mret (Ok (Some {| is_ControlPlaneTopology := "SingleReplica" |})).

Lemma operator_starts_witness :
  let run k := main (E := pod_env) (failing_at k) single_node ":8080" ":8081" true first_boot in
  bt_used first_boot = ∅ /\
  ((run 99 pod_world).1.1, List.length (bt_calls (run 99 pod_world).1.2), last (bt_calls (run 99 pod_world).1.2)) = (0%Z, 12, Some CStart) /\
  ((run 5 pod_world).1.1, last (bt_calls (run 5 pod_world).1.2)) = (2%Z, Some CNewClientset) /\
  wp (E := pod_env) (run 5) (fun '(code, b') _ =>
    let le := (GetLeaderElectionConfig (E := pod_env) single_node true pod_world).1 in
    let '(failed, cs, o) := play (failing_at 5) (CGetConfig :: operator_plan "ns" ":8080" ":8081" true le) 0 in
    code = exit_code (stops operator_stop failed) /\ bt_calls b' = cs /\ bt_out b' = o /\
    (code = 0%Z <-> CStart ∈ cs /\ failed = None)) pod_world.
Proof.
  intros run. split; [reflexivity|]. split; [vm_compute; reflexivity|]. split; [vm_compute; reflexivity|].
  exact (operator_starts (E := pod_env) (failing_at 5) single_node ":8080" ":8081" true first_boot pod_world eq_refl).
Defined.

Lemma diskmaker_starts_witness :
  let run k := startManager (E := pod_env) (failing_at k) (fun _ r => (None, S r)) (fun r => r) (fun _ => true) 0 first_boot in
  bt_used first_boot = ∅ /\
  follows (failing_at 6) diskmaker_stop (run 6) (diskmaker_plan "ns" 0 ++ [CStart])%list None first_boot /\
  (run 6).1 = Some (Exits 255 (Errorf "no")) /\ (run 99).1 = None /\ bt_calls (run 99).2 = (diskmaker_plan "ns" 0 ++ [CStart])%list.
Proof.
  intros run. split; [reflexivity|]. split; [|repeat split; vm_compute; reflexivity].
  exact (diskmaker_starts (E := pod_env) (failing_at 6) (fun _ r => (None, S r)) (fun r => r) (fun _ => true) 0 first_boot eq_refl).
Defined.
