(* ===== verification/Progress.v ===== *)
(** * Owners that are being deleted get free

    [Cluster] shows that an owner stays while it has volumes.  Here is the other half:
    when its last volume goes, the watch asks for the owner, and the reconciliation that
    follows removes the protection, or the whole object, as long as the API server
    answers. *)
From stdpp Require Import base list strings gmap.
From Stdlib Require Import ZArith Lia String.
From S2P Require Import Prelude GoLib Types World Sys Envs Common Controller LvSet NodeDaemon LvSetCtl LvCtl Store StoreEnv Owners OperatorSteps Watches.

Open Scope string_scope.

Section progress.
Context {E : Env} `{!ApiStore E} (k : Kind) (n : NamespacedName).

(** The API server answers: the owner is found, lists come, the update of an object that
    is there and as far in its life is taken, and no class is kept from being deleted. *)
Record answers : Prop := {
  an_get : forall e o, store k e !! n = Some o -> (kget k false n e).1 = Ok o;
  an_list : forall k' e opts, plain opts -> is_ok (klist k' opts e).1 = true;
  an_update : forall e (o old : Obj k), store k e !! n = Some old -> object_key o = n -> type_name o = type_name old ->
    om_DeletionTimestamp (kmeta o) = om_DeletionTimestamp (kmeta old) -> is_ok (kupdate k o e).1 = true;
  an_delete : forall sc e err, (kdelete KSC sc e).1 = Some err -> is_not_found err = true }.

(** What is left of the owner: nothing, or an object with other finalizers. *)
Definition Freed (rest : list string) (e : est) : Prop :=
  match store k e !! n with None => True | Some o => om_Finalizers (kmeta o) = rest /\ rest <> [] end.

Definition same_store (w w' : World) : Prop := forall k, store k (w_est w') = store k (w_est w).

Lemma Freed_stable rest (Hk : owner_kind k = true) : Stable (Freed rest).
Proof.
  apply stable_of. intros e e' H HF. unfold Freed in *. rewrite (H k); [done|].
  by apply (owner_guarded k Hk).
Qed.
#[local] Hint Extern 1 (Stable (Freed _)) => by apply Freed_stable : typeclass_instances.

(** ** No volumes *)

Definition no_volumes (e : est) : Prop := forall x pv, volumes e !! x = Some pv -> ~ owned k n pv.

Lemma owned_listing e l e' : no_volumes e ->
  klist KPV (matching_labels (owner_labels (kind_name k) (nn_Namespace n) (nn_Name n))) e = (Ok l, e') -> l = [].
Proof.
  intros Hno Hl. destruct l as [|pv l]; [done|exfalso].
  destruct (proj1 (klist_found KPV _ _ _ _ pv Hl ltac:(done))) as [[x Hx] [_ Ho]]; [by left|].
  exact (Hno x pv Hx Ho).
Qed.

Definition is_owner (obj : RuntimeObject) : Prop :=
  owner_ids obj = Ok (kind_name k, nn_Namespace n, nn_Name n).

Lemma no_release obj w : answers -> is_owner obj -> no_volumes (w_est w) ->
  wp (ReleaseAvailablePVs obj) (fun r w' => r = None /\ same_store w w') w.
Proof.
  intros Ha Ho Hno. unfold ReleaseAvailablePVs. rewrite Ho. apply wp_bind, wp_ask. intros r en Hr.
  pose proof (an_list Ha KPV (w_est w) (matching_labels (owner_labels (kind_name k) (nn_Namespace n) (nn_Name n))) ltac:(done)) as Hok.
  rewrite Hr in Hok. destruct r as [l|]; [|done].
  rewrite (owned_listing _ _ _ Hno Hr).
  apply wp_bind, wp_ret, wp_ret. split; [done|]. intros k'. by apply (store_read k'), (klist_moves KPV _ _ _ _ Hr).
Qed.

Lemma no_owned obj w : answers -> is_owner obj -> no_volumes (w_est w) ->
  wp (GetOwnedPVs obj) (fun r w' => r = Ok [] /\ same_store w w') w.
Proof.
  intros Ha Ho Hno. unfold GetOwnedPVs. rewrite Ho. apply wp_bind, wp_ask. intros r en Hr.
  pose proof (an_list Ha KPV (w_est w) (matching_labels (owner_labels (kind_name k) (nn_Namespace n) (nn_Name n))) ltac:(done)) as Hok.
  rewrite Hr in Hok. destruct r as [l|]; [|done].
  rewrite (owned_listing _ _ _ Hno Hr).
  apply wp_ret. split; [done|]. intros k'. by apply (store_read k'), (klist_moves KPV _ _ _ _ Hr).
Qed.

Lemma no_volumes_same w w' : same_store w w' -> no_volumes (w_est w) -> no_volumes (w_est w').
Proof. intros H Hno x pv. unfold volumes. rewrite (H KPV). apply Hno. Qed.

(** ** The update that removes the protection *)

Lemma update_frees rest (o old : Obj k) e : answers ->
  store k e !! n = Some old -> not_deleting (kmeta old) = false -> object_key o = n -> type_name o = type_name old ->
  om_DeletionTimestamp (kmeta o) = om_DeletionTimestamp (kmeta old) -> om_Finalizers (kmeta o) = rest ->
  is_ok (kupdate k o e).1 = true /\ Freed rest (kupdate k o e).2.
Proof.
  intros Ha Hold Hd Hkey Hty Hts Hf. pose proof (an_update Ha e o old Hold Hkey Hty Hts) as Hok. split; [done|].
  destruct (kupdate k o e).1 as [o'|] eqn:Hr; [|done].
  destruct (store_update k o o' e Hr) as (old' & Hold' & Hid & _ & Hst). rewrite Hkey in Hold', Hst.
  pose proof (eq_trans (eq_sym Hold) Hold') as [= <-]. unfold Freed. rewrite Hst. case_decide as Hdel.
  - by rewrite lookup_delete_eq.
  - rewrite lookup_insert_eq, (si_finalizers _ _ Hid), Hf. split; [done|]. intros ->. apply Hdel. split; [|done].
    intros Hnone. unfold not_deleting in Hd. by rewrite Hnone in Hd.
Qed.

Lemma Freed_status rest (o : Obj k) e : Freed rest e -> Freed rest (kstatus k o e).2.
Proof.
  unfold Freed. destruct (kstatus k o e).1 as [o'|err] eqn:Hr.
  - destruct (store_status k o o' e Hr) as (old & Hold & Hid & _ & ->). destruct (decide (object_key o = n)) as [<-|Hne].
    + rewrite lookup_insert_eq, Hold. by rewrite (si_finalizers _ _ Hid).
    + by rewrite lookup_insert_ne.
  - by rewrite (proj1 (proj2 (proj2 (store_failed k o e)))) by eauto.
Qed.

Lemma Freed_class rest (f : forall k, Obj k -> est -> est) sc e : owner_kind k = true ->
  (forall k1 k2 o e, k1 <> k2 -> store k2 (f k1 o e) = store k2 e) -> Freed rest e -> Freed rest (f KSC sc e).
Proof. intros Hk H. unfold Freed. by rewrite (H KSC k) by (by apply not_eq_sym, owner_not_class). Qed.
End progress.

(** ** LocalVolumeSets *)

Section sets.
Context {E : Env} `{!ApiStore E} (n : NamespacedName).
#[local] Hint Extern 1 (Stable (Freed _ _ _)) => by apply Freed_stable : typeclass_instances.

Ltac freed_tac :=
  frame_tac ltac:(idtac; match goal with
    | |- frame _ (put_mem _) => apply upholds_put_mem
    | |- frame _ (StatusUpdate KLVSet _) => apply upholds_call; intros; by apply Freed_status
    | |- frame _ (ClientCreate KSC _) => apply upholds_call; intros;
        apply (Freed_class KLVSet n _ (fun k o e => (kcreate k o e).2)); [done|by intros; apply store_other|done]
    | |- frame _ (ClientUpdate KSC _) => apply upholds_call; intros;
        apply (Freed_class KLVSet n _ (fun k o e => (kupdate k o e).2)); [done|by intros; apply store_other|done]
    | |- frame _ (ClientDelete KSC _) => apply upholds_call; intros;
        apply (Freed_class KLVSet n _ (fun k o e => (kdelete k o e).2)); [done|by intros; apply store_other|done]
    end).

Lemma freed_rest_of_reconcile rest s :
  frame (upholds (Freed KLVSet n rest)) (sync_lvset n s) /\
  (forall r e, frame (upholds (Freed KLVSet n rest)) (addAvailabilityConditions n r e)).
Proof.
  split; [|intros r e]; [unfold sync_lvset, LvSetCtl.syncStorageClass, removeStorageClass, ApplyStorageClass, EnsureObjectMeta,
    MergeMap, updateDaemonSetsCondition, updateTotalProvisionedDeviceCountStatus, put_condition, SetCondition, deregister
    |unfold addAvailabilityConditions, put_condition, SetCondition, deregister]; freed_tac.
Qed.

Lemma set_freed (s : LocalVolumeSet) w : answers KLVSet n ->
  nn_Namespace n <> "" -> nn_Name n <> "" -> store KLVSet (w_est w) !! n = Some s ->
  not_deleting (lset_meta s) = false -> kept KLVSet s -> no_volumes KLVSet n (w_est w) ->
  wp (LvSetCtl.Reconcile n) (fun _ w' => Freed KLVSet n
    (List.filter (fun f => negb (String.eqb f LocalVolumeProtectionFinalizer)) (om_Finalizers (lset_meta s))) (w_est w')) w.
Proof.
  intros Ha Hns Hname Hs Hd Hp Hno. set (rest := List.filter _ _).
  pose proof (store_key KLVSet _ _ _ Hs) as Hkey. pose proof (store_type KLVSet _ _ _ Hs) as Hty.
  unfold LvSetCtl.Reconcile. apply wp_bind. unfold reconcile. apply wp_bind, wp_ask. intros r en Hr.
  assert (same_store w (set_est en w)) as H1 by (intros k; apply (store_read k), (kget_moves KLVSet _ _ _ _ _ Hr)).
  pose proof (an_get KLVSet n Ha _ _ Hs) as Hget. rewrite Hr in Hget. simpl in Hget. subst r.
  apply wp_bind, wp_put_mem, wp_bind. set (w1 := set_mem _ _). assert (same_store w w1) as Hw1 by done. clearbody w1.
  assert (is_owner KLVSet n (OLocalVolumeSet s)) as Ho.
  { unfold is_owner, owner_ids. simpl in *. rewrite Hty. rewrite <- Hkey in Hns, Hname |- *. simpl in *.
    rewrite decide_False; [done|]. intros [?|[?|?]]; done. }
  unfold syncFinalizer. rewrite Hd. apply wp_bind.
  eapply wp_mono; [apply (no_release KLVSet n); [done|done|by eapply no_volumes_same]|]. intros err w2 [-> H2].
  assert (same_store w w2) as Hw2 by (intros k; by rewrite (H2 k)).
  apply wp_bind. eapply wp_mono; [apply (no_owned KLVSet n); [done|done|by eapply no_volumes_same]|]. intros r w3 [-> H3].
  assert (store KLVSet (w_est w3) !! n = Some s) as Hs3 by (rewrite (H3 KLVSet), (Hw2 KLVSet); done).
  unfold update_finalizer, RemoveFinalizer. rewrite Hp. fold rest. set (s' := set_lset_meta _ s).
  destruct (update_frees KLVSet n rest s' s (w_est w3)) as [Hok HF]; [done..|].
  apply wp_bind, wp_bind, wp_ask. intros r en' Hu. rewrite Hu in Hok, HF. destruct r as [s''|]; [|done].
  apply wp_bind, wp_act, wp_ret, wp_ret. simpl.
  destruct (freed_rest_of_reconcile rest s'') as [HS HA].
  apply (wp_mono _ (fun _ w' => Freed KLVSet n rest (w_est w'))); [apply (upholds_run (Freed KLVSet n rest)); [done|exact HS|exact HF]|].
  intros r w4 H4. apply (upholds_run (Freed KLVSet n rest)); [done|apply HA|exact H4].
Qed.
End sets.

(** ** LocalVolumes *)

Lemma filter_once s l1 l2 : s ∉ l1 -> s ∉ l2 ->
  List.filter (fun f => negb (String.eqb f s)) (l1 ++ s :: l2)%list = (l1 ++ l2)%list.
Proof.
  assert (forall l, s ∉ l -> List.filter (fun f => negb (String.eqb f s)) l = l) as Hid.
  { induction l as [|x l IH]; [done|]. intros [Hx Hl]%not_elem_of_cons. simpl.
    destruct (String.eqb_spec x s) as [->|_]; [done|]. simpl. by rewrite IH. }
  intros H1 H2. rewrite List.filter_app. simpl. by rewrite String.eqb_refl, !Hid.
Qed.

(** [remove] takes the one protection out. *)
Lemma removeFinalizer_once lv : kept KLV lv -> NoDup (om_Finalizers (lv_meta lv)) ->
  removeFinalizer lv = Some (set_lv_meta (set_finalizers
    (List.filter (fun f => negb (String.eqb f LocalVolumeProtectionFinalizer)) (om_Finalizers (lv_meta lv))) (lv_meta lv)) lv).
Proof.
  intros Hp Hnd. unfold kept, ContainsFinalizer in Hp. apply bool_decide_eq_true in Hp. simpl in Hp.
  unfold removeFinalizer. rewrite (proj2 (contains_spec _ _)) by exact Hp. simpl.
  apply list_elem_of_split in Hp as (l1 & l2 & Hl). rewrite Hl in Hnd |- *.
  apply NoDup_app in Hnd as (_ & H1 & [H2 _]%NoDup_cons).
  assert (LocalVolumeProtectionFinalizer ∉ l1) as H1' by (intros Hin; apply (H1 _ Hin); by left).
  rewrite filter_once by done. change localVolumeFinalizer with LocalVolumeProtectionFinalizer. by rewrite remove_once.
Qed.

Section volumes.
Context {E : Env} `{!ApiStore E} (n : NamespacedName).

(** The classes go without an error. *)
Lemma classes_removed lv expected w : answers KLV n ->
  wp (removeUnExpectedStorageClasses lv expected)
     (fun r w' => r = None /\ store KLV (w_est w') = store KLV (w_est w)) w.
Proof.
  intros Ha. unfold removeUnExpectedStorageClasses. apply wp_bind, wp_ask. intros r en Hr.
  pose proof (an_list KLV n Ha KSC (w_est w) (getOwnerLabelSelector lv) ltac:(done)) as Hok. rewrite Hr in Hok.
  destruct r as [items|]; [|done].
  assert (store KLV en = store KLV (w_est w)) as Hen by by apply (store_read KLV), (klist_moves KSC _ _ _ _ Hr).
  apply wp_bind. apply (wp_mono _ (fun r w' => r = Ok [] /\ store KLV (w_est w') = store KLV (w_est w))).
  2: { intros r w' [-> H]. by apply wp_ret. }
  set (w1 := set_est en w). assert (store KLV (w_est w1) = store KLV (w_est w)) as H1 by exact Hen. clearbody w1.
  clear Hr Hok Hen. revert w1 H1. induction items as [|sc items IH]; intros w1 H1; [by apply wp_ret|]. cbn [foldM].
  apply wp_bind. unfold delete_unexpected. case_decide; [apply wp_ret; by apply IH|].
  apply wp_bind, wp_bind, wp_ask. intros e en1 He. apply wp_bind, wp_act, wp_ret, wp_ret.
  assert (match e with Some err => is_not_found err = true | None => True end) as Hnf.
  { destruct e as [err|]; [|done]. apply (an_delete KLV n Ha sc (w_est w1)). by rewrite He. }
  assert (store KLV en1 = store KLV (w_est w)) as H2.
  { rewrite <- H1. pose proof (store_other KSC KLV sc (w_est w1) ltac:(done)) as (_ & _ & _ & Hst). by rewrite He in Hst. }
  destruct e as [err|]; [rewrite Hnf|]; by apply IH.
Qed.

Lemma lv_freed (lv : LocalVolume) w : answers KLV n ->
  nn_Namespace n <> "" -> nn_Name n <> "" -> store KLV (w_est w) !! n = Some lv ->
  not_deleting (lv_meta lv) = false -> kept KLV lv -> NoDup (om_Finalizers (lv_meta lv)) -> no_volumes KLV n (w_est w) ->
  wp (LvCtl.Reconcile n) (fun _ w' => Freed KLV n
    (List.filter (fun f => negb (String.eqb f LocalVolumeProtectionFinalizer)) (om_Finalizers (lv_meta lv))) (w_est w')) w.
Proof.
  intros Ha Hns Hname Hs Hd Hp Hnd Hno. set (rest := List.filter _ _).
  pose proof (store_key KLV _ _ _ Hs) as Hkey. pose proof (store_type KLV _ _ _ Hs) as Hty.
  unfold LvCtl.Reconcile. apply wp_bind, wp_ask. intros r en Hr.
  assert (same_store w (set_est en w)) as H1 by (intros k; apply (store_read k), (kget_moves KLV _ _ _ _ _ Hr)).
  pose proof (an_get KLV n Ha _ _ Hs) as Hget. rewrite Hr in Hget. simpl in Hget. subst r.
  apply wp_bind. apply (wp_mono _ (fun _ w' => same_store w w')).
  { generalize (lvs_StorageClassDevices (lv_Spec lv)). clear Hr. revert H1. generalize (set_est en w) as w1.
    intros w1 H1 l. revert w1 H1. induction l as [|d l IH]; intros w1 H1; [by apply wp_ret|].
    cbn [forM_]. apply wp_bind, wp_put_mem. by apply IH. }
  intros _ w1 Hw1. apply wp_bind. unfold syncLocalVolumeProvider. set (o := SetDefaults lv).
  assert (isDeletionCandidate (lv_meta o) localVolumeFinalizer = true) as ->.
  { unfold isDeletionCandidate. simpl. rewrite Hd. simpl. apply contains_spec.
    unfold kept, ContainsFinalizer in Hp. by apply bool_decide_eq_true in Hp. }
  assert (is_owner KLV n (OLocalVolume o)) as Ho.
  { unfold is_owner, owner_ids. simpl in *. rewrite Hty. rewrite <- Hkey in Hns, Hname |- *. simpl in *.
    rewrite decide_False; [done|]. intros [?|[?|?]]; done. }
  unfold cleanupLocalVolumeDeployment. apply wp_bind.
  eapply wp_mono; [apply (no_release KLV n); [done|done|by eapply no_volumes_same]|]. intros err w2 [-> H2].
  assert (same_store w w2) as Hw2 by (intros k; by rewrite (H2 k)).
  apply wp_bind. eapply wp_mono; [apply (no_owned KLV n); [done|done|by eapply no_volumes_same]|]. intros r w3 [-> H3].
  apply wp_bind. eapply wp_mono; [by apply classes_removed|]. intros r w4 [-> H4].
  assert (store KLV (w_est w4) !! n = Some lv) as Hs4 by (rewrite H4, (H3 KLV), (Hw2 KLV); done).
  rewrite removeFinalizer_once by done. fold rest. set (s' := set_lv_meta _ o).
  destruct (update_frees KLV n rest s' lv (w_est w4)) as [Hok HF]; [done..|].
  unfold updateLocalVolume. apply wp_bind, wp_bind, wp_ask. intros r en' Hu. rewrite Hu in Hok, HF. destruct r as [s''|]; [|done].
  apply wp_bind, wp_act, wp_ret. simpl. by apply wp_ret, wp_ret.
Qed.
End volumes.

(** ** Both *)

(** The operator's controller of the kind. *)
Definition controller {E : Env} (k : Kind) : NamespacedName -> M (CtrlResult * option GoErr) :=
  match k with KLV => LvCtl.Reconcile | _ => LvSetCtl.Reconcile end.

(** C9: an owner that is being deleted does not hang.  When its last volume is gone, the
    deletion of that volume has the operator's controller asked to reconcile the owner,
    and that reconciliation removes the protection: the LocalVolume or LocalVolumeSet is
    gone from the API server, or is left with the finalizers of others, as long as the
    server answers. *)
Theorem last_volume_frees_owner {E : Env} `{!ApiStore E} (k : Kind) (n : NamespacedName) (o : Obj k)
    (pv : PersistentVolume) (w : World) :
  owner_kind k = true -> answers k n -> nn_Namespace n <> "" -> nn_Name n <> "" ->
  store k (w_est w) !! n = Some o -> not_deleting (kmeta o) = false -> kept k o -> NoDup (om_Finalizers (kmeta o)) ->
  owned k n pv -> no_volumes k n (w_est w) ->
  n ∈ operator_volume_watch k (OnDelete pv) /\
  wp (controller k n) (fun _ w' => Freed k n
    (List.filter (fun f => negb (String.eqb f LocalVolumeProtectionFinalizer)) (om_Finalizers (kmeta o))) (w_est w')) w.
Proof.
  intros Hk Ha Hns Hname Ho Hd Hp Hnd Hpv Hno.
  assert (n ∈ requests_for_owner (kind_name k) pv) as Hw by by apply requests_for_owner_spec.
  assert (k = KLVSet \/ k = KLV) as [->| ->] by by apply bool_decide_eq_true in Hk.
  - split; [by apply elem_of_list_to_set, elem_of_app; left|by apply set_freed].
  - split; [by apply elem_of_list_to_set, elem_of_app; left|by apply lv_freed].
Qed.

(** The API server of [StoreEnv] answers. *)
Lemma store_env_answers st k n : answers (E := store_env st) k n.
Proof.
  split.
  - intros e o Ho. simpl. unfold api_get. change (objects k e !! n = Some o) in Ho. by rewrite Ho.
  - done.
  - intros e o old Hold Hkey Hty Hdel. change (objects k e !! n = Some old) in Hold. simpl. unfold api_update.
    rewrite Hkey, Hold. apply objects_well in Hold. unfold well_stored in Hold |- *.
    apply andb_true_iff in Hold as [_ Hold]. rewrite Hty, Hold, Hkey, bool_decide_eq_true_2 by done. simpl.
    rewrite bool_decide_eq_true_2 by done. done.
  - intros sc e err. simpl. unfold api_delete. by destruct (objects KSC e !! _); intros [= <-].
Qed.

Definition ex_deleted_set : LocalVolumeSet :=
  let s := ex_lvset (Some 5%Z) None in set_lset_meta (set_finalizers [LocalVolumeProtectionFinalizer] (lset_meta s)) s.
Definition ex_last : Objs := put KLVSet {[{| nn_Namespace := "ns"; nn_Name := "set" |} := ex_deleted_set]} no_objs.

Lemma last_volume_frees_owner_witness :
  let E := store_env quiet in
  let n := {| nn_Namespace := "ns"; nn_Name := "set" |} in
  let w : World (E := E) := Build_World (E := E) ∅ (ex_last : est (Env := E)) empty_mem [] in
  store KLVSet (w_est w) !! n = Some ex_deleted_set /\
  wp (E := E) (LvSetCtl.Reconcile n) (fun _ w' => store KLVSet (w_est w') !! n = None) w.
Proof.
  intros E n w. assert (store KLVSet (w_est w) !! n = Some ex_deleted_set) as Hs by (vm_compute; reflexivity).
  split; [exact Hs|].
  assert (forall e, volumes (E := E) e = objects KPV e) as Hv by done.
  assert (no_volumes KLVSet n (w_est w)) as Hno.
  { intros x pv Hx. rewrite Hv in Hx. vm_compute in Hx. discriminate Hx. }
  assert (owned KLVSet n (ex_volume "local-pv-1" 5)) as Ho by (apply owned_spec; by repeat split).
  destruct (last_volume_frees_owner KLVSet n ex_deleted_set (ex_volume "local-pv-1" 5) w eq_refl (store_env_answers quiet KLVSet n)
    ltac:(done) ltac:(done) Hs eq_refl eq_refl ltac:(by apply NoDup_singleton) Ho Hno) as [_ H].
  eapply wp_mono; [exact H|]. intros r w' HF. unfold Freed in HF. destruct (store KLVSet (w_est w') !! n); [|reflexivity].
  by destruct HF as [_ []].
Defined.
