(* ===== verification/Cluster.v ===== *)
(** * The programs on one store

    Four reconcilers act on the owners of volumes and on the volumes: two controllers of
    the operator and two of the diskmaker on every node; the daemon controller, the
    discovery controller and the discovery daemon act on other objects.  They only meet in
    the API server ([Store]).  Here they are put together: a step relation whose steps are whole
    reconciliations of any of them, for any object, and what others do; [Inv] is its
    invariant.  At the end both programs run a LocalVolumeSet from its creation to its end. *)
From stdpp Require Import base list strings gmap relations.
From Stdlib Require Import ZArith Lia String.
From S2P Require Import Prelude GoLib Types World Sys Envs DiskUtil LinkCache Common Controller Symlinks DeviceLink Provisioner Matcher Metrics LvSet Lv Discovery NodeDaemon LvSetCtl LvCtl DiscoveryCtl Store StoreNodes StoreEnv Owners NodeSteps OperatorSteps OtherSteps.

Open Scope string_scope.

Section cluster.
Context {E : Env} `{!ApiStore E} (k : Kind) (n : NamespacedName).

(** What the rest of the world may do to the store, seen from the owner [n]: users create,
    edit and delete it, the volume controller and users change and delete volumes, other
    programs have volumes and classes of their own. *)
Inductive others (e e' : est) : Prop :=
  | others_create o :
      owners k e !! n = None -> owners k e' = <[n := o]> (owners k e) ->
      volumes e' = volumes e -> classes e' = classes e ->
      (forall c, c ∈ class_keys o -> classes e !! c = None) -> others e e'
  | others_edit o o' :
      owners k e !! n = Some o -> owners k e' = <[n := o']> (owners k e) ->
      volumes e' = volumes e -> classes e' = classes e ->
      om_Finalizers (kmeta o') = om_Finalizers (kmeta o) ->
      (forall c, c ∈ class_keys o' -> c ∈ class_keys o \/ classes e !! c = None) ->
      (not_deleting (kmeta o') = true -> not_deleting (kmeta o) = true) -> others e e'
  | others_remove o :
      owners k e !! n = Some o -> om_Finalizers (kmeta o) = [] -> owners k e' = delete n (owners k e) ->
      volumes e' = volumes e -> classes e' = classes e -> others e e'
  | others_rest :
      owners k e' !! n = owners k e !! n ->
      (forall key pv', volumes e' !! key = Some pv' ->
         (exists pv, volumes e !! key = Some pv /\ same_owner_labels (pv_Labels pv) (pv_Labels pv')) \/
         (whole pv' /\ ~ owned k n pv')) ->
      (forall c, is_Some (classes e' !! c) ->
         is_Some (classes e !! c) \/ forall o, owners k e !! n = Some o -> c ∉ class_keys o) ->
      others e e'.

(** A step of the cluster: a reconciliation by one of the operator's controllers or on a
    node, a run of the discovery daemon, each process with any memory and file tree of its
    own, or a step of others.  The memory of a node
    agrees with the store; two objects do not share a class. *)
Inductive step (e e' : est) : Prop :=
  | step_operator_set request w :
      w_est w = e -> exclusive k n KLVSet request e -> e' = w_est (LvSetCtl.Reconcile request w).2 -> step e e'
  | step_operator_lv request w :
      w_est w = e -> exclusive k n KLV request e -> e' = w_est (LvCtl.Reconcile request w).2 -> step e e'
  | step_node_set request w :
      w_est w = e -> coherent w -> e' = w_est (LvSet.Reconcile request w).2 -> step e e'
  | step_node_lv location request w :
      w_est w = e -> coherent w -> e' = w_est (Lv.Reconcile location request w).2 -> step e e'
  | step_daemon request w : w_est w = e -> e' = w_est (NodeDaemon.Reconcile request w).2 -> step e e'
  | step_discovery_controller request w :
      w_est w = e -> e' = w_est (DiscoveryCtl.Reconcile request w).2 -> step e e'
  | step_discovery_daemon stimuli w : w_est w = e -> e' = w_est (Discovery.Start stimuli w).2 -> step e e'
  | step_others : others e e' -> step e e'.

Lemma others_Inv e e' : others e e' -> Inv k n e -> Inv k n e'.
Proof.
  intros Hstep [HV HC].
  destruct Hstep as [o Hn Hs Hv Hc Hfree|o o' Hn Hs Hv Hc Hf Hcl Hd|o Hn Hf Hs Hv Hc|Hs Hv Hc].
  - split; rewrite ?Hv, ?Hc, ?Hs.
    + intros key pv Hpv. destruct (HV key pv Hpv) as [Hw Ho]. split; [done|]. intros (o0 & H0 & _)%Ho. congruence.
    + rewrite lookup_insert_eq. intros o0 c [= <-] _ Hin His. rewrite (Hfree c Hin) in His. by apply is_Some_None in His.
  - assert (kept k o' <-> kept k o) as Hp by by apply kept_same. split; rewrite ?Hv, ?Hc, ?Hs.
    + intros key pv Hpv. destruct (HV key pv Hpv) as [Hw Ho]. split; [done|]. intros (o0 & H0 & Hp0)%Ho.
      exists o'. rewrite lookup_insert_eq. split; [done|]. rewrite Hn in H0. injection H0 as <-. by apply Hp.
    + rewrite lookup_insert_eq. intros o0 c [= <-] Hd' Hin His. apply Hp.
      destruct (Hcl c Hin) as [Hin'|Hnone]; [by eapply HC; eauto|]. rewrite Hnone in His. by apply is_Some_None in His.
  - split; rewrite ?Hv, ?Hc, ?Hs.
    + intros key pv Hpv. destruct (HV key pv Hpv) as [Hw Ho]. split; [done|]. intros (o0 & H0 & Hp0)%Ho.
      rewrite Hn in H0. injection H0 as <-. unfold kept, ContainsFinalizer in Hp0. rewrite Hf in Hp0.
      by apply bool_decide_eq_true, elem_of_nil in Hp0.
    + by rewrite lookup_delete_eq.
  - split.
    + intros key pv' Hpv. assert (forall pv, pv_ok k n (owners k e) pv -> pv_ok k n (owners k e') pv) as Hok.
      { intros pv [Hw Ho]. split; [done|]. unfold guarded_owner. by rewrite Hs. }
      apply Hok. destruct (Hv key pv' Hpv) as [(pv & Hx & Hl)|[Hw Ho]].
      * eapply pv_ok_same; [done|by eapply HV].
      * by split.
    + rewrite Hs. intros o c Hsn Hd Hin [His|Hno]%Hc; [by eapply HC|]. by destruct (Hno o Hsn).
Qed.

Lemma step_Inv (Hk : owner_kind k = true) (Ht : class_template) e e' : step e e' -> Inv k n e -> Inv k n e'.
Proof.
  pose proof (Inv_stable k n Hk) as Hstable. intros [request w <- Hex ->|request w <- Hex ->|request w <- Hco ->|location request w <- Hco ->|request w <- ->|request w <- ->|stimuli w <- ->|Ho] HI.
  - by apply (operator_set_upholds k n Hk request w).
  - by apply (operator_lv_upholds k n Hk Ht request w).
  - by apply (node_set_upholds k n Hk request w).
  - by apply (node_lv_upholds k n Hk location request w).
  - by apply (daemon_upholds (Inv k n) request w).
  - by apply (discovery_controller_upholds (Inv k n) request w).
  - by apply (discovery_daemon_upholds (Inv k n) stimuli w).
  - by eapply others_Inv.
Qed.
End cluster.


(** ** The life of a set *)

Definition life_api : Static := node_api (ex_lvset None None).
Definition life_key : NamespacedName := {| nn_Namespace := "ns"; nn_Name := "set" |}.

Definition stored_objects (k : Kind) (l : list (Obj k)) : gmap NamespacedName (Obj k) :=
  list_to_map (map (fun o => (object_key o, o)) l).

(** A node, the configuration and a new set. *)
Definition life_start : Objs :=
  put KNode (stored_objects KNode [ex_node]) (put KCM (stored_objects KCM [{| cm_meta := empty_meta "ns" ProvisionerConfigMapName; cm_Data := ∅ |}])
    (put KLVSet (stored_objects KLVSet [ex_lvset None None]) no_objs)).

Definition at_store (e : Objs) (fs : FS) (m : Mem) : World (E := store_env life_api) :=
  Build_World (E := store_env life_api) fs (e : est (Env := store_env life_api)) m [].

Definition operator_run (x : Objs * FS) : Objs * FS :=
  (w_est (LvSetCtl.Reconcile (E := store_env life_api) life_key (at_store x.1 ∅ empty_mem)).2, x.2).
Definition node_run (x : Objs * FS) : Objs * FS :=
  let w := (LvSet.Reconcile (E := store_env life_api) life_key (at_store x.1 x.2 (node_mem 900))).2 in (w_est w, w_fs w).
Definition user_deletes (x : Objs * FS) : Objs * FS :=
  ((api_delete KLVSet (ex_lvset None None) x.1).2, x.2).
Definition set_phase (phase : string) (pv : PersistentVolume) : PersistentVolume :=
  {| pv_meta := pv_meta pv; pv_Local := pv_Local pv; pv_ReclaimPolicy := pv_ReclaimPolicy pv;
     pv_ClaimRef := pv_ClaimRef pv; pv_VolumeMode := pv_VolumeMode pv; pv_StorageClassName := pv_StorageClassName pv;
     pv_Capacity := pv_Capacity pv; pv_NodeAffinity := pv_NodeAffinity pv; pv_MountOptions := pv_MountOptions pv;
     pv_FsType := pv_FsType pv; pv_Phase := phase |}.
(** The volume controller: a volume with a claim that does not exist is released. *)
Definition volumes_progress (x : Objs * FS) : Objs * FS :=
  (put KPV ((fun pv => set_phase (if decide (pv_ClaimRef pv = None) then VolumeAvailable else VolumeReleased) pv)
     <$> objects KPV x.1) x.1, x.2).

(** The finalizers of the owner, the classes, the volumes with their phases and whether
    they are being deleted, and the link on the node. *)
Definition look_at (k : Kind) (key : NamespacedName) (x : Objs * FS) :=
  ((fun o => om_Finalizers (kmeta o)) <$> objects k x.1 !! key,
   (map_to_list (objects KSC x.1)).*1,
   (fun pv => (pv_Name pv, pv_Phase pv, not_deleting (pv_meta pv))) <$> (map_to_list (objects KPV x.1)).*2,
   x.2 !! "/mnt/local-storage/sc/wwn-1").

Abbreviation look := (look_at KLVSet life_key).

Fixpoint stages {A} (l : list (A -> A)) (x : A) : list A :=
  match l with [] => [] | f :: l => let x := f x in x :: stages l x end.

(** Operator and node act in turns: the finalizer and the class come first, then the
    volume and its link; after the user's deletion the operator waits and releases the
    volume, the node removes the link and the volume, and the set goes last. *)
Example life_of_a_set :
  let guard := Some [LocalVolumeProtectionFinalizer] in
  let class := [{| nn_Namespace := ""; nn_Name := "sc" |}] in
  let link := Some (NLink "/dev/disk/by-id/wwn-1") in
  let pv phase alive := [("local-pv-d9ae1fe6", phase, alive)] in
  look <$> stages [operator_run; node_run; volumes_progress; user_deletes; operator_run; volumes_progress; node_run; node_run; operator_run]
             (life_start, ex_fs) =
    [(guard, class, [], None);
     (guard, class, pv "" true, link);
     (guard, class, pv VolumeAvailable true, link);
     (guard, class, pv VolumeAvailable true, link);
     (guard, class, pv VolumeAvailable true, link);
     (guard, class, pv VolumeReleased true, link);
     (guard, class, pv VolumeReleased false, link);
     (guard, class, [], None);
     (None, [], [], None)].
Proof. vm_compute. reflexivity. Qed.

(** The diskmaker never looks at the finalizer: where the class exists before the
    operator has protected the set (the removal of a class may fail silently, and other
    owners may share it), a set can be deleted from under its volume. *)
Definition class_first : Objs := put KSC (stored_objects KSC [ex_sc]) life_start.
Lemma shared_class_orphans_volumes :
  look <$> stages [node_run; user_deletes] (class_first, ex_fs) =
    [(Some [], [{| nn_Namespace := ""; nn_Name := "sc" |}], [("local-pv-d9ae1fe6", "", true)], Some (NLink "/dev/disk/by-id/wwn-1"));
     (None, [{| nn_Namespace := ""; nn_Name := "sc" |}], [("local-pv-d9ae1fe6", "", true)], Some (NLink "/dev/disk/by-id/wwn-1"))].
Proof. vm_compute. reflexivity. Qed.

(** The same for a LocalVolume: its controller makes the class in the run after the one
    that writes the finalizer, and removes the class before the finalizer. *)
Definition lv_start : Objs := put KLV (stored_objects KLV [ex_lv_devices None false]) life_start.
Definition lv_operator_run (x : Objs * FS) : Objs * FS :=
  (w_est (LvCtl.Reconcile (E := store_env life_api) ex_request (at_store x.1 ∅ empty_mem)).2, x.2).
Definition lv_node_run (x : Objs * FS) : Objs * FS :=
  let w := (Lv.Reconcile (E := store_env life_api) "/mnt/local-storage" ex_request (at_store x.1 x.2 (node_mem 0))).2 in
  (w_est w, w_fs w).
Definition user_deletes_lv (x : Objs * FS) : Objs * FS := ((api_delete KLV (ex_lv_devices None false) x.1).2, x.2).

Example life_of_a_volume :
  let guard := Some [LocalVolumeProtectionFinalizer] in
  let class := [{| nn_Namespace := ""; nn_Name := "sc" |}] in
  let link := Some (NLink "/dev/disk/by-id/wwn-1") in
  let pv phase alive := [("local-pv-d9ae1fe6", phase, alive)] in
  look_at KLV ex_request <$>
    stages [lv_operator_run; lv_node_run; lv_operator_run; lv_node_run; volumes_progress; user_deletes_lv;
            lv_operator_run; volumes_progress; lv_node_run; lv_node_run; lv_operator_run] (lv_start, ex_fs) =
    [(guard, [], [], None);
     (guard, [], [], link);
     (guard, class, [], link);
     (guard, class, pv "" true, link);
     (guard, class, pv VolumeAvailable true, link);
     (guard, class, pv VolumeAvailable true, link);
     (guard, class, pv VolumeAvailable true, link);
     (guard, class, pv VolumeReleased true, link);
     (guard, class, pv VolumeReleased false, link);
     (guard, class, [], None);
     (None, [], [], None)].
Proof. vm_compute. reflexivity. Qed.

(** ** Between two calls

    A reconciliation is one step above.  Inside one, the world goes on: here the user
    deletes the set, and the operator finishes with it, after the node has found the class
    and before it creates the volume.  Nothing stops the node, and the volume is left
    without an owner, a class and a finalizer that protects it. *)
Definition between (E : Env) (f : est (Env := E) -> est (Env := E)) : Env := {|
  est := est; kget := kget; klist := klist;
  kcreate := fun k o e => kcreate k o (if decide (k = KPV) then f e else e);
  kupdate := kupdate; kstatus := kstatus;
  kdelete := kdelete; sys_fault := sys_fault; read_file := read_file; exec_cmd := exec_cmd; clock := clock;
  new_uuid := new_uuid; map_order := map_order; map_order_perm := map_order_perm; getenv := getenv;
  delete_pvs := delete_pvs; mount_list := mount_list; get_volume_mode := get_volume_mode;
  get_block_capacity := get_block_capacity; get_fs_capacity := get_fs_capacity;
  load_volume_config := load_volume_config; match_node_selector_terms := match_node_selector_terms;
  parse_quantity := parse_quantity;
  read_template := read_template; volume_config_data := volume_config_data;
  est_read := est_read; est_read_po := est_read_po; kget_read := kget_read; klist_read := klist_read;
  sys_fault_read := sys_fault_read; read_file_read := read_file_read; exec_cmd_read := exec_cmd_read;
  clock_read := clock_read; new_uuid_read := new_uuid_read; map_order_read := map_order_read;
  mount_list_read := mount_list_read; get_volume_mode_read := get_volume_mode_read;
  get_block_capacity_read := get_block_capacity_read; get_fs_capacity_read := get_fs_capacity_read |}.

Definition deleted_meanwhile (e : Objs) : Objs := (operator_run (user_deletes (e, ∅))).1.
Definition racing_node_run (x : Objs * FS) : Objs * FS :=
  let E := between (store_env life_api) deleted_meanwhile in
  let w := (LvSet.Reconcile (E := E) life_key
    (Build_World (E := E) x.2 (x.1 : est (Env := E)) (node_mem 900) [])).2 in
  (w_est w, w_fs w).

Lemma race_orphans_volume :
  look <$> stages [operator_run; racing_node_run] (life_start, ex_fs) =
    [(Some [LocalVolumeProtectionFinalizer], [{| nn_Namespace := ""; nn_Name := "sc" |}], [], None);
     (None, [], [("local-pv-d9ae1fe6", "", true)], Some (NLink "/dev/disk/by-id/wwn-1"))].
Proof. vm_compute. reflexivity. Qed.

(** ** Behind a cache

    The operator lists volumes from its informer's cache, which follows the API server
    with a delay.  Here the cache is [view] of the store. *)
Definition cached_volumes (E : Env) (view : est (Env := E) -> est (Env := E)) : Env.
Proof.
  refine {|
    est := est (Env := E); kget := kget;
    klist := fun k o e => if decide (k = KPV) then ((klist k o (view e)).1, e) else klist k o e;
    kcreate := kcreate; kupdate := kupdate; kstatus := kstatus;
    kdelete := kdelete; sys_fault := sys_fault; read_file := read_file; exec_cmd := exec_cmd; clock := clock;
    new_uuid := new_uuid; map_order := map_order; map_order_perm := map_order_perm; getenv := getenv;
    delete_pvs := delete_pvs; mount_list := mount_list; get_volume_mode := get_volume_mode;
    get_block_capacity := get_block_capacity; get_fs_capacity := get_fs_capacity;
    load_volume_config := load_volume_config; match_node_selector_terms := match_node_selector_terms;
    parse_quantity := parse_quantity;
    read_template := read_template; volume_config_data := volume_config_data;
    est_read := est_read |}; eauto with lso.
  intros k o e. case_decide; [reflexivity|apply klist_read].
Defined.

(** A run of the operator whose cache has not seen the volumes yet. *)
Definition behind_operator_run (x : Objs * FS) : Objs * FS :=
  let E := cached_volumes (store_env life_api) (put KPV ∅) in
  (w_est (LvSetCtl.Reconcile (E := E) life_key
     (Build_World (E := E) ∅ (x.1 : est (Env := E)) empty_mem [])).2, x.2).

(** The set is deleted after its volume was made: the operator sees no volume, so the
    class and the finalizer go, and the set with them; the volume stays.  Once the cache
    has caught up, nothing is left to reconcile. *)
Lemma stale_list_orphans_volume :
  look <$> stages [operator_run; node_run; user_deletes; behind_operator_run; operator_run; node_run] (life_start, ex_fs) =
    let guard := Some [LocalVolumeProtectionFinalizer] in
    let class := [{| nn_Namespace := ""; nn_Name := "sc" |}] in
    let link := Some (NLink "/dev/disk/by-id/wwn-1") in
    let pv := [("local-pv-d9ae1fe6", "", true)] in
    [(guard, class, [], None); (guard, class, pv, link); (guard, class, pv, link);
     (None, [], pv, link); (None, [], pv, link); (None, [], pv, link)].
Proof. vm_compute. reflexivity. Qed.

(** ** The witness *)

Definition life_volume : NamespacedName := {| nn_Namespace := ""; nn_Name := "local-pv-d9ae1fe6" |}.

(** The runs are steps; a node that has just started remembers nothing. *)
Abbreviation life_step := (step (E := store_env life_api) KLVSet life_key).
Lemma operator_run_step x : life_step x.1 (operator_run x).1.
Proof.
  apply (step_operator_set (E := store_env life_api) KLVSet life_key _ _ life_key (at_store x.1 ∅ empty_mem)); [done|by intros H|done].
Qed.
Lemma node_run_step x : life_step x.1 (node_run x).1.
Proof.
  apply (step_node_set (E := store_env life_api) KLVSet life_key _ _ life_key (at_store x.1 x.2 (node_mem 900))); [done| |done].
  intros name pv Hk. change ((∅ : gmap string PersistentVolume) !! name = Some pv) in Hk. by rewrite lookup_empty in Hk.
Qed.

