(* ===== verification/Config.v ===== *)
(** * From the operator to the nodes: the provisioner's ConfigMap

    The daemon controller encodes the storage classes of all LocalVolumes and
    LocalVolumeSets of a namespace into one ConfigMap; the reconcilers of every node
    decode it before they do anything.  The two run in different processes, with
    outsides of their own; the static provisioner's encoder and decoder, which the
    operator vendors, are the interface between them. *)
From stdpp Require Import base list strings gmap.
From Stdlib Require Import ZArith Lia String.
From S2P Require Import Prelude GoLib Types World Sys Envs Common Controller Exporter NodeDaemon.

Open Scope string_scope.

(** ** What the decoder makes of one class *)

Definition DefaultVolumeMode := PersistentVolumeFilesystem.

Definition with_default_mode (c : MountConfig) : MountConfig :=
  {| mc_FsType := mc_FsType c; mc_HostDir := mc_HostDir c; mc_MountDir := mc_MountDir c;
     mc_VolumeMode := if decide (mc_VolumeMode c = "") then DefaultVolumeMode else mc_VolumeMode c |}.

Definition valid_mode (mode : string) : bool :=
  bool_decide (mode = PersistentVolumeBlock \/ mode = PersistentVolumeFilesystem).

Definition loadable (c : MountConfig) : bool :=
  negb (String.eqb (mc_MountDir c) "" || String.eqb (mc_HostDir c) "")
  && valid_mode (mc_VolumeMode (with_default_mode c)).

Definition all_loadable (m : gmap string MountConfig) : bool :=
  forallb (fun e => loadable e.2) (map_to_list m).

(** What the operator's process writes, the node's process reads: YAML gives back what
    was encoded, with the default mode, and a class that fails a check fails the whole. *)
Class VolumeConfigCodec (Eo En : Env) : Prop := {
  codec_ok : forall m labels data,
    @volume_config_data Eo m labels = Ok data -> all_loadable m = true ->
    @load_volume_config En data = Ok (with_default_mode <$> m);
  codec_err : forall m labels data,
    @volume_config_data Eo m labels = Ok data -> all_loadable m = false ->
    exists err, @load_volume_config En data = Err err }.

(** ** The classes of a namespace *)

Section entries.
Context {E : Env}.

(** The entry of a set, the entries of a LocalVolume. *)
Definition lvset_entry (s : LocalVolumeSet) : string * MountConfig :=
  let s := lset_Spec s in
  (lss_StorageClassName s, mount_config (lss_StorageClassName s) (lss_FSType s) (lss_VolumeMode s)).
Definition device_entry (d : StorageClassDevice) : string * MountConfig :=
  (scd_StorageClassName d, mount_config (scd_StorageClassName d) (scd_FSType d) (scd_VolumeMode d)).
Definition entries (lvSets : list LocalVolumeSet) (lvs : list LocalVolume) : list (string * MountConfig) :=
  ((lvset_entry <$> lvSets) ++ (lvs ≫= fun lv => device_entry <$> lvs_StorageClassDevices (lv_Spec lv)))%list.

(** The last entry of a class. *)
Definition last_entry (class : string) (l : list (string * MountConfig)) : option MountConfig :=
  last (omap (fun e => if decide (e.1 = class) then Some e.2 else None) l).

Definition insert_entry (m : gmap string MountConfig) (e : string * MountConfig) : gmap string MountConfig :=
  <[e.1 := e.2]> m.

Lemma storageClassConfig_entries lvSets lvs :
  storageClassConfig lvSets lvs = fold_left insert_entry (entries lvSets lvs) ∅.
Proof.
  unfold storageClassConfig, entries. rewrite fold_left_app.
  assert (forall m, fold_left add_lvset lvSets m = fold_left insert_entry (lvset_entry <$> lvSets) m) as Hs.
  { induction lvSets as [|s l IH]; intros m; simpl; [done|]. apply IH. }
  rewrite Hs. generalize (fold_left insert_entry (lvset_entry <$> lvSets) ∅).
  induction lvs as [|lv l IH]; intros m; simpl; [done|]. rewrite fold_left_app, IH. f_equal.
  unfold add_lv. generalize (lvs_StorageClassDevices (lv_Spec lv)) as ds.
  clear. intros ds. revert m. induction ds as [|d ds IH]; intros m; simpl; [done|]. apply IH.
Qed.

Lemma fold_insert_lookup l m class :
  fold_left insert_entry l m !! class =
    match last_entry class l with Some c => Some c | None => m !! class end.
Proof.
  unfold last_entry. revert m. induction l as [|e l IH] using rev_ind; intros m; simpl; [done|].
  rewrite fold_left_app, omap_app. simpl. unfold insert_entry. destruct (decide (e.1 = class)) as [<-|Hne].
  - rewrite last_snoc, lookup_insert_eq. done.
  - rewrite app_nil_r, lookup_insert_ne by done. apply IH.
Qed.

(** Every class is in its last entry. *)
Lemma storageClassConfig_lookup lvSets lvs class :
  storageClassConfig lvSets lvs !! class = last_entry class (entries lvSets lvs).
Proof. rewrite storageClassConfig_entries, fold_insert_lookup. by destruct (last_entry _ _). Qed.

Lemma last_entry_elem class l c : last_entry class l = Some c -> (class, c) ∈ l.
Proof.
  unfold last_entry. intros H. apply last_Some_elem_of, list_elem_of_omap in H as ([k c'] & Hin & He).
  simpl in He. case_decide; [|done]. by simplify_eq.
Qed.

(** Every entry's directory is the class under the root of the links. *)
Lemma entries_dir lvSets lvs class c :
  (class, c) ∈ entries lvSets lvs ->
  mc_HostDir c = path_join [GetLocalDiskLocationPath; class] /\ mc_MountDir c = mc_HostDir c.
Proof.
  unfold entries. rewrite elem_of_app, list_elem_of_fmap, list_elem_of_bind.
  intros [(s & He & _)|(lv & H & _)]; [by injection He as -> ->|].
  apply list_elem_of_fmap in H as (d & He & _). by injection He as -> ->.
Qed.
End entries.

(** ** The directories are never empty *)

Lemma location_nonempty {E : Env} : GetLocalDiskLocationPath <> "".
Proof. unfold GetLocalDiskLocationPath. by case_decide. Qed.

(** ** The nodes get the classes *)

Section reaches.
Context {Eo En : Env} `{!VolumeConfigCodec Eo En}.

(** A class can be loaded exactly when its mode is known. *)
Lemma entry_loadable lvSets lvs class c :
  (class, c) ∈ entries (E := Eo) lvSets lvs -> loadable c = valid_mode (mc_VolumeMode (with_default_mode c)).
Proof.
  intros [Hh Hm]%entries_dir. unfold loadable. rewrite Hm, Hh.
  assert (path_join [GetLocalDiskLocationPath (E := Eo); class] <> "") as Hne by apply path_join_nonempty, location_nonempty.
  by destruct (String.eqb_spec (path_join [GetLocalDiskLocationPath (E := Eo); class]) "").
Qed.

Definition config_loads (lvSets : list LocalVolumeSet) (lvs : list LocalVolume) : Prop :=
  forall class c, last_entry class (entries (E := Eo) lvSets lvs) = Some c ->
    valid_mode (mc_VolumeMode (with_default_mode c)) = true.

Lemma all_loadable_spec lvSets lvs :
  all_loadable (storageClassConfig (E := Eo) lvSets lvs) = true <-> config_loads lvSets lvs.
Proof.
  unfold all_loadable, config_loads. rewrite List.forallb_forall. split.
  - intros H class c Hl. rewrite <- (entry_loadable lvSets lvs class); [|by apply last_entry_elem].
    apply (H (class, c)). rewrite <- list_elem_of_In. apply elem_of_map_to_list.
    by rewrite storageClassConfig_lookup.
  - intros H [class c] Hin. simpl. rewrite <- list_elem_of_In in Hin. apply elem_of_map_to_list in Hin.
    rewrite storageClassConfig_lookup in Hin. rewrite (entry_loadable lvSets lvs class); [|by apply last_entry_elem].
    by eapply H.
Qed.

(** C22: a node that reads the ConfigMap the operator wrote gets, for every class, the
    configuration of the last object that names it (LocalVolumes after LocalVolumeSets),
    with the class's directory under the root of the links and Filesystem as the default
    mode, and no other class.  One object with an unknown mode makes the reload fail for
    all classes, and the node keeps the configuration it had. *)
Theorem config_reaches_node (request : NamespacedName) (lvSets : list LocalVolumeSet) (lvs : list LocalVolume)
  (refs : list OwnerReference) (nodeName : string) (wo : @World Eo) :
  keeps_data (E := Eo) ->
  wp (E := Eo) (reconcileProvisionerConfigMap request lvSets lvs refs) (fun r _ => forall cm op, r = Ok (cm, op) ->
    forall (node : Node) (wn : @World En),
      (@kget En KCM false {| nn_Namespace := nn_Namespace request; nn_Name := ProvisionerConfigMapName |} (w_est wn)).1 = Ok cm ->
      (forall en, (@kget En KNode false {| nn_Namespace := ""; nn_Name := nodeName |} en).1 = Ok node) ->
      wp (E := En) (ReloadRuntimeConfig request nodeName) (fun err wn' =>
        match err with
        | None =>
            config_loads lvSets lvs /\ rc_Node (m_rc (w_mem wn')) = node /\
            (forall class, rc_DiscoveryMap (m_rc (w_mem wn')) !! class =
               with_default_mode <$> last_entry class (entries (E := Eo) lvSets lvs)) /\
            (forall class c, rc_DiscoveryMap (m_rc (w_mem wn')) !! class = Some c ->
               mc_HostDir c = path_join [GetLocalDiskLocationPath (E := Eo); class])
        | Some _ => ~ config_loads lvSets lvs /\ w_mem wn' = w_mem wn
        end) wn) wo.
Proof.
  intros Hk. eapply wp_mono; [by apply wp_reconcileProvisionerConfigMap|].
  intros r w1 Hd cm op Hr node wn Hcm Hnode. pose proof (Hd cm op Hr) as Hdata. clear Hd Hr.
  unfold ReloadRuntimeConfig. apply wp_bind, wp_ask. intros x en Hx. rewrite Hx in Hcm. simpl in Hcm. subst x.
  apply wp_bind, wp_ask. intros x en' Hx'. specialize (Hnode en). simpl in Hx'. rewrite Hx' in Hnode. simpl in Hnode. subst x.
  destruct (all_loadable (storageClassConfig (E := Eo) lvSets lvs)) eqn:Hall.
  - rewrite (codec_ok _ _ _ Hdata Hall). apply wp_bind, wp_put_mem, wp_ret. simpl.
    assert (forall class, (with_default_mode <$> storageClassConfig (E := Eo) lvSets lvs) !! class =
      with_default_mode <$> last_entry class (entries (E := Eo) lvSets lvs)) as Hl.
    { intros class. by rewrite lookup_fmap, storageClassConfig_lookup. }
    split; [by apply all_loadable_spec|]. split; [done|]. split; [done|].
    intros class c. rewrite Hl. intros (c' & Hc%last_entry_elem & ->)%fmap_Some. by apply entries_dir in Hc as [? _].
  - destruct (codec_err _ _ _ Hdata Hall) as [err ->]. apply wp_ret. split; [|done].
    intros H%all_loadable_spec. congruence.
Qed.
End reaches.

(** ** An instance *)

(** A text for a class, and its parser. *)
Definition show_config (c : MountConfig) : string :=
  join "|" [mc_FsType c; mc_HostDir c; mc_MountDir c; mc_VolumeMode c].
Definition read_config (s : string) : option MountConfig :=
  match split s "|" with
  | [f; h; m; v] => Some {| mc_FsType := f; mc_HostDir := h; mc_MountDir := m; mc_VolumeMode := v |}
  | _ => None
  end.

(** An encoder that refuses what it could not read back. *)
Definition encode_config (m : gmap string MountConfig) (labels : list string) : Res (gmap string string) :=
  let data := show_config <$> m in
  if decide (omap read_config data = m) then Ok data else Err (Errorf "unable to Marshal volume config").
Definition decode_config (data : gmap string string) : Res (gmap string MountConfig) :=
  let m : gmap string MountConfig := omap read_config data in
  if all_loadable m then Ok (with_default_mode <$> m) else Err (Errorf "unsupported volume mode").

Definition codec_env (E : Env) : Env :=
  with_library E decode_config encode_config (@match_node_selector_terms E).

#[export] Instance codec_env_codec (E E' : Env) : VolumeConfigCodec (codec_env E) (codec_env E').
Proof.
  split; simpl; intros m labels data; unfold encode_config, decode_config;
    (destruct (decide (omap read_config (show_config <$> m) = m)) as [Hm|]; [|done]); intros [= <-];
    rewrite Hm; intros ->; eauto.
Qed.

Definition config_request : NamespacedName := {| nn_Namespace := "ns"; nn_Name := "" |}.
Definition config_node : Node := {| nd_meta := empty_meta "" "node1" |}.

(** The ConfigMap the operator makes of a list of sets. *)
Definition config_written (lvSets : list LocalVolumeSet) : ConfigMap :=
  {| cm_meta := set_labels {["app" := "local-provisioner"]} (empty_meta "ns" "local-provisioner");
     cm_Data := show_config <$> storageClassConfig (E := codec_env (static_env quiet)) lvSets [] |}.

Definition config_api (lvSets : list LocalVolumeSet) : Static := {|
  st_get := fun k key => match k with
    | KCM => Ok (config_written lvSets) | KNode => Ok config_node
    | _ => Err (StatusError ReasonNotFound (nn_Name key)) end;
  st_list := fun _ _ => []; st_fault := fun _ => None; st_exec := fun _ _ => ("", None);
  st_file := fun p => Err (PathError p ENOENT); st_clock := 1000%Z |}.

Definition class_set (name class mode : string) : LocalVolumeSet :=
  let s := ex_set name None in
  {| lset_type := lset_type s; lset_meta := lset_meta s; lset_Status := lset_Status s;
     lset_Spec := {| lss_NodeSelector := None; lss_StorageClassName := class; lss_MaxDeviceCount := None;
       lss_VolumeMode := mode; lss_FSType := "ext4"; lss_Tolerations := [];
       lss_DeviceInclusionSpec := None; lss_DeviceExclusionSpec := None |} |}.

(** The operator writes, the node reads: the error of the reload and the modes of the classes. *)
Definition config_run (lvSets : list LocalVolumeSet) : option GoErr * gmap string string :=
  let op := static_env quiet in
  let nd := static_env (config_api lvSets) in
  let '(e, w) := ReloadRuntimeConfig (E := codec_env nd) config_request "node1"
                   (Build_World (E := codec_env nd) ∅ (tt : est (Env := codec_env nd)) empty_mem []) in
  (e, mc_VolumeMode <$> rc_DiscoveryMap (m_rc (w_mem w))).

Example config_defaults_mode :
  config_run [class_set "s" "fast" ""; class_set "t" "raw" "Block"] =
    (None, {["fast" := "Filesystem"; "raw" := "Block"]}).
Proof. vm_compute. done. Qed.

(** One object with a misspelt mode stops the classes of all others. *)
Lemma bad_mode_blocks_all :
  config_run [class_set "s" "fast" ""; class_set "t" "raw" "block"] =
    (Some (Errorf "unsupported volume mode"), ∅).
Proof. vm_compute. done. Qed.

(** The two processes of the run. *)
Definition op_world : @World (codec_env (static_env quiet)) :=
  Build_World (E := codec_env (static_env quiet)) ∅ (tt : est (Env := codec_env (static_env quiet))) empty_mem [].
Definition node_world (lvSets : list LocalVolumeSet) : @World (codec_env (static_env (config_api lvSets))) :=
  Build_World (E := codec_env (static_env (config_api lvSets))) ∅
    (tt : est (Env := codec_env (static_env (config_api lvSets)))) empty_mem [].

Lemma config_reaches_node_witness :
  config_loads (Eo := codec_env (static_env quiet)) [class_set "s" "fast" ""] [].
Proof.
  pose proof (config_reaches_node (Eo := codec_env (static_env quiet))
    (En := codec_env (static_env (config_api [class_set "s" "fast" ""])))
    config_request [class_set "s" "fast" ""] [] [] "node1" op_world) as H.
  unfold wp in H.
  specialize (H ltac:(intros o en o' [[= <-]|[= <-]]; done) _ _ ltac:(vm_compute; reflexivity) config_node
    (node_world [class_set "s" "fast" ""]) ltac:(vm_compute; reflexivity) ltac:(intros; reflexivity)).
  match type of H with match ?e with _ => _ end =>
    assert (e = None) as He by (vm_compute; reflexivity); rewrite He in H end.
  exact (proj1 H).
Defined.
